(* ===== verification/_CoqProject ===== *)
-Q . S2P
Prelude.v
Hci.v
L2cap.v
Ertm.v
ErtmSpec.v
ErtmLink.v
Classic.v
ClassicProps.v
Hidp.v
Values.v
Sdp.v
SdpPdu.v
SdpService.v
Host.v
HostProps.v
HostSecrecy.v
Api.v
HidService.v
Csr.v
Identity.v
Usb.v
UsbProps.v
UsbSelect.v
UsbReader.v
Session.v
Format.v
SessionProps.v
SessionAdmission.v
SessionLife.v
SessionLoops.v
SessionEvents.v
SessionSecrecy.v
SessionInit.v
SessionSend.v
SessionLimits.v
SessionView.v
SessionRun.v
System.v
SystemRun.v
