(* ===== verification/Prelude.v ===== *)
(** * swbt-bumble-backend: a verification of the Bluetooth Classic HID backend

    The program is a Rust crate that makes a computer look like a Bluetooth
    Classic HID device (a game controller) through a USB Bluetooth adapter. The
    sources are under [src/src/]; this library models every module of the crate
    but its root, which only declares and re-exports.

    ** The program and its model

    From the wire up, with the file of this library that models each module:
    - [usb.rs], the USB transport: selector grammar, choice of device and
      interface, framing, and the reader thread. [Usb.v]; properties in
      [UsbProps.v], [UsbSelect.v] and [UsbReader.v].
    - [csr.rs], vendor commands that rewrite an adapter's address, and
      [identity.rs], the fail-closed operation that uses them. [Csr.v],
      [Identity.v].
    - [hci.rs], HCI packets, fragmentation into ACL packets and its reassembly.
      [Hci.v].
    - [l2cap/mod.rs], PDUs, signaling frames and configuration options.
      [L2cap.v].
    - [l2cap/ertm.rs], the retransmission engine. [Ertm.v]; its ghost state and
      invariant in [ErtmSpec.v], two engines over a lossy link in [ErtmLink.v].
    - [l2cap/classic.rs], the channel manager. [Classic.v], [ClassicProps.v].
    - [classic_host.rs], one BR/EDR connection: pairing, encryption, flow
      control, the manager behind the reassembler. [Host.v], [HostProps.v];
      where link keys go in [HostSecrecy.v].
    - [sdp/mod.rs], [sdp/pdu.rs], [sdp/service.rs], service discovery: data
      elements, PDUs, server and client. [Sdp.v], [SdpPdu.v], [SdpService.v].
    - [hidp.rs], HID messages and dispatch. [Hidp.v].
    - [hid_service.rs], the advertised record, SDP over byte SDUs, and the
      bridge between HIDP and the application. [HidService.v].
    - [values.rs] and [api.rs], addresses, UUIDs, bonds, configuration, events
      and errors. [Values.v], [Api.v]; the bond store trait of [api.rs] is the
      class [BondStore] of [Host.v]. What values and errors of all modules print
      is in [Format.v].
    - [session.rs], the session that owns all of the above: it initializes the
      controller, decides who may connect, feeds controller packets to the host
      and the host's output to the controller, serves SDP and HIDP on the
      channels, and queues events for the application. [Session.v]; properties
      in [SessionProps.v], [SessionAdmission.v], [SessionLife.v] (peers one after
      the other), [SessionLoops.v], [SessionEvents.v], [SessionSecrecy.v] (two
      runs with different link keys), [SessionInit.v], [SessionSend.v],
      [SessionLimits.v] (what is put on the link) and [SessionView.v] (the
      machine the application sees); runs on a scripted controller and the
      examples of the session's properties in [SessionRun.v].
    - The whole stack, [Session::open] on a machine whose bus gives devices of
      the USB library: [System.v], with runs on a scripted dongle in
      [SystemRun.v].

    A Rust function keeps its name, prefixed where two modules share one
    ([AclFlow_new], [session_poll]). A struct is a [Record] with a setter per
    field, an enum an [Inductive]. Integers are [Z]; an operation that can wrap,
    saturate or overflow says so at its width ([checked_add], [saturating_sub],
    [mod]), and whether an overflow panics is the class [Profile]. A fallible
    function gives a [res]: a value, an error, or [Panic] for an index or slice
    out of range, an overflow, or [expect]. A method is a state-passing [stm]: an
    error keeps the changes made before it, as [&mut self] does. Maps and sets
    are [gmap] and [gset], iterated in key order as a [BTreeMap] is; queues are
    lists; text is its UTF-8 bytes.

    Traits are type classes, with their documented behaviour as a class of laws
    where a theorem needs it: [DeviceDelegate] and [DelegateLaws], [BondStore]
    and [BondStoreLaws], the SDP transport, [IdentityBackend] and the laws of its
    clock, [UsbIo] and [Rusb] (the USB library, which is not part of the
    sources) with [RusbBytes], [HciIo] and [HciIoLaws] (the controller link,
    with the USB link as an instance of both), [KeyBlind] and [LinkBlind] (a
    store and a link that do not act on link keys), [UsbEnv] (with [machine_env] of
    [System.v] as its instance) and [Clock]. The threads of the program are the
    reader thread and the application's: [UsbReader.v] takes their steps in any
    order.

    ** What the theorems show

    - Codecs: HCI packets, HIDP messages, configuration options, signaling
      frames, SDP elements and PDUs, CSR commands, addresses and selectors are
      read exactly when they are well formed, and read back what was written; a
      signaling frame exactly when its PSM follows the extension rule, an ACL
      fragmentation exactly when its packets have room for an L2CAP header.
    - The ERTM engine keeps its invariant on any input and never panics within
      the profile's bounds; over a link that loses frames, what one engine hands
      out is in order what the other was given.
    - The channel manager keeps its invariant on any input, its channels only
      move forward, and two managers open a channel with each other.
    - The host never overruns the controller's buffers, keeps its invariant on
      any event and packet, carries an SDU intact to the peer host, answers
      with the bond that was stored, and lets link keys out in those answers
      only.
    - SDP: the server's answers fit the MTU, the client gets the reference
      result through any number of continuations, the byte channel refines the
      server, and the advertised record is found as it was configured.
    - USB: framing does not depend on how transfers cut the stream, and in every
      interleaving the reader delivers the framing of what it read.
    - Identity: the operation ends, and a failure never leaves a written address
      without asking for recovery.
    - Session: its invariant through any calls and controller behaviour, only the
      expected peer gets in, requests are judged by the window, the decoder of
      events and the initialization dialogue are exact, packet handling ends,
      errors of [poll] are final, the peer's reports reach the application, and
      the application's reach the controller, without waiting exactly when the
      session says so. Everything put on the link is within the limits the
      controller announced. A session refines the machine of [SessionView.v]:
      the events the application is told are the machine's, without a gap. It
      serves any number of peers one after the other.
    - Secrets: the application is told the same whatever the link keys are, and
      the text of bonds, selectors and errors tells nothing of keys, devices and
      causes.
    - The stack: a session opened on a machine, with any devices on its bus, any
      scheduling of the reader threads and any bytes in the transfers, has the
      session's invariant through any calls.

    Some theorems state a defect as the code has it, such as
    [foreign_failure_reported_as_disconnect], [pending_answer_closes_channel],
    [failed_engine_blocks_tick] or [unlimited_retransmissions_panic].

    ** Bounds and fuel

    Recursion follows the data where it can. Elsewhere: the PSM loops have
    fuel for the bytes a 32-bit PSM has above its first ([validate_psm_high])
    and its second ([serialize_psm_rest]); [decode_options_loop],
    [parse_children] and [frame_loop] have the length of their input, which each
    round shortens ([decode_loop_inv], [element_parse_safe], [framing_total] show
    that it is enough); [parse_at] has the code's own limit [MAX_NESTING], the
    client loops its [CONTINUATION_WATCHDOG]. The polling loop of [Identity.v]
    has any fuel, and [enough_fuel] is enough under the clock's laws. The loops
    of the session have any fuel and end in [OutOfFuel] without it:
    [packet_handling_ends] and [initialization_exact] give the fuel;
    [session_poll] and [drain_interrupt] go on as long as the controller keeps
    sending, so no bound exists for them and the theorems hold for every fuel.

    ** Not modelled

    [Debug] the compiler derives and [Display] that only prints it (the enums
    [Format.v] needs apart), error source chains beyond their first link, the
    activity callback (it wakes the application and returns nothing), getters
    (they are the projections), conversions between error types that only wrap,
    the crate root, and the USB library. A
    blocking wait is its outcome: a timeout is one the link may give at any time,
    and elapsed time is what the clock class reads. A round of the reader thread
    (one poll and the sends it leads to) is one step, and in a session its rounds
    are taken before receives: the channel between the threads is unbounded and
    only receives look at it. The code under [cfg(test)] is
    left out, but for the functions of [csr.rs] compiled for tests only. *)
From stdpp Require Export base tactics list gmap sorting strings numbers option relations.
From Stdlib Require Export ZArith Lia.

#[global] Open Scope Z_scope.

(** ** Outcomes of Rust code *)

(** The result of running a fallible Rust function: [Ok], [Err], or a panic
    (an index or slice out of range, a checked-arithmetic overflow, [expect]
    or [unreachable!]). *)
Inductive res (E A : Type) : Type :=
| Ok (a : A)
| Err (e : E)
| Panic.
Arguments Ok {E A} a.
Arguments Err {E A} e.
Arguments Panic {E A}.

#[global] Instance res_eq_dec E A `{EqDecision E, EqDecision A} : EqDecision (res E A).
Proof. solve_decision. Defined.

(** The [?] operator: errors and panics stop the function. *)
#[global] Instance res_ret E : MRet (res E) := fun A a => Ok a.
#[global] Instance res_bind E : MBind (res E) := fun A B f m =>
  match m with Ok a => f a | Err e => Err e | Panic => Panic end.

(** [Result::map_err] *)
Definition map_err {E F A} (f : E -> F) (r : res E A) : res F A :=
  match r with Ok a => Ok a | Err e => Err (f e) | Panic => Panic end.

(** [Option::ok_or] *)
Definition ok_or {E A} (o : option A) (e : E) : res E A :=
  match o with Some a => Ok a | None => Err e end.

(** [Option::expect], and any access the code performs without a check. *)
Definition expect {E A} (o : option A) : res E A :=
  match o with Some a => Ok a | None => Panic end.

Definition is_ok {E A} (r : res E A) : bool :=
  match r with Ok _ => true | _ => false end.

Definition no_panic {E A} (r : res E A) : Prop := r <> Panic.

(** ** Methods on [&mut self]

    A method runs on a state and gives back its outcome and the state as the
    method left it: the mutations made before an early [Err] stay. *)
Definition stm (S E A : Type) : Type := S -> res E A * S.

#[global] Instance stm_ret S E : MRet (stm S E) := fun A a s => (Ok a, s).
#[global] Instance stm_bind S E : MBind (stm S E) := fun A B f m s =>
  match m s with
  | (Ok a, s') => f a s'
  | (Err e, s') => (Err e, s')
  | (Panic, s') => (Panic, s')
  end.

Definition lift {S E A} (r : res E A) : stm S E A := fun s => (r, s).
Definition get {S E} : stm S E S := fun s => (Ok s, s).
Definition put {S E} (s' : S) : stm S E unit := fun _ => (Ok tt, s').
Definition modify {S E} (f : S -> S) : stm S E unit := fun s => (Ok tt, f s).
Definition throw {S E A} (e : E) : stm S E A := fun s => (Err e, s).
Definition skip {S E} : stm S E unit := fun s => (Ok tt, s).

(** [for x in xs { body(x)?; }] *)
Fixpoint for_each {S E A} (body : A -> stm S E unit) (xs : list A) : stm S E unit :=
  match xs with
  | [] => skip
  | x :: rest => body x ;; for_each body rest
  end.

(** Hoare triples over methods; the postcondition sees every outcome. *)
Definition triple {S E A} (P : S -> Prop) (m : stm S E A) (Q : res E A -> S -> Prop) : Prop :=
  forall s, P s -> Q (m s).1 (m s).2.

(** [m] keeps [I] on every outcome, errors and panics included. *)
Definition preserves {S E A} (I : S -> Prop) (m : stm S E A) : Prop :=
  triple I m (fun _ s => I s).

(** A method that cannot fail from the states of [P]. *)
Definition succeeds {S E A} (P : S -> Prop) (m : stm S E A) (Q : A -> S -> Prop) : Prop :=
  triple P m (fun r s => match r with Ok a => Q a s | _ => False end).

(** ** Struct fields

    [self.field = v]: a record gives its eta-expansion once, from which
    [set_field] builds the update of one field. *)
Class Settable (R : Type) := eta : R -> R.

Ltac set_field f v e :=
  let R := type of e in
  let inst := constr:(_ : Settable R) in
  let body := eval hnf in (@eta R inst e) in
  lazymatch body with
  | context C [f e] => let t := context C [v] in exact t
  end.

(** ** Build profile

    Rust arithmetic that overflows panics when overflow checks are on (the
    default of debug builds) and wraps when they are off. *)
Class Profile := overflow_checks : bool.

(** [x << n] on a w-bit unsigned integer. *)
Definition checked_shl `{Profile} {E} (w x n : Z) : res E Z :=
  if n <? w then Ok (Z.shiftl x n mod 2 ^ w)
  else if overflow_checks then Panic
  else Ok (Z.shiftl x (n mod w) mod 2 ^ w).

(** [x + y] on a w-bit unsigned integer. *)
Definition checked_add `{Profile} {E} (w x y : Z) : res E Z :=
  if x + y <? 2 ^ w then Ok (x + y)
  else if overflow_checks then Panic
  else Ok ((x + y) mod 2 ^ w).

Definition wrapping_add (w x y : Z) : Z := (x + y) mod 2 ^ w.
Definition wrapping_sub (w x y : Z) : Z := (x - y) mod 2 ^ w.
Definition saturating_sub (x y : Z) : Z := Z.max 0 (x - y).
Definition saturating_add (w x y : Z) : Z := Z.min (2 ^ w - 1) (x + y).

(** ** Bytes and slices *)

Abbreviation u8 x := (0 <= x < 256).
Abbreviation u16 x := (0 <= x < 65536).
Abbreviation u32 x := (0 <= x < 4294967296).

Definition bytes (l : list Z) : Prop := Forall (fun b => u8 b) l.

#[global] Instance bytes_dec l : Decision (bytes l).
Proof. unfold bytes. apply _. Defined.

(** [l.len()] *)
Definition len {A} (l : list A) : Z := Z.of_nat (length l).

(** [l[i]] *)
Definition idx {E A} (l : list A) (i : nat) : res E A := expect (l !! i).

(** [l.get(a..b)] *)
Definition get_range {A} (l : list A) (a b : nat) : option (list A) :=
  if decide (a <= b /\ b <= length l)%nat then Some (take (b - a) (drop a l)) else None.

(** [&l[a..b]] *)
Definition slice {E A} (l : list A) (a b : nat) : res E (list A) := expect (get_range l a b).

(** [&l[a..]] *)
Definition slice_from {E A} (l : list A) (a : nat) : res E (list A) := slice l a (length l).

(** [x.to_le_bytes()] and [x.to_be_bytes()] for an n-byte unsigned integer. *)
Fixpoint to_le_bytes (n : nat) (x : Z) : list Z :=
  match n with
  | O => []
  | S n' => x mod 256 :: to_le_bytes n' (x / 256)
  end.

Fixpoint from_le_bytes (l : list Z) : Z :=
  match l with
  | [] => 0
  | b :: rest => b + 256 * from_le_bytes rest
  end.

Definition to_be_bytes (n : nat) (x : Z) : list Z := rev (to_le_bytes n x).
Definition from_be_bytes (l : list Z) : Z := from_le_bytes (rev l).

(** [l.chunks(n)], with [n > 0]. *)
Fixpoint chunks_fuel {A} (fuel : nat) (n : nat) (l : list A) : list (list A) :=
  match fuel, l with
  | _, [] => []
  | O, _ => []
  | S fuel', _ => take n l :: chunks_fuel fuel' n (drop n l)
  end.
Definition chunks {A} (n : nat) (l : list A) : list (list A) := chunks_fuel (length l) n l.

(** [l.chunks_exact(n)], with [n > 0]: a short tail is dropped. *)
Definition chunks_exact {A} (n : nat) (l : list A) : list (list A) :=
  filter (fun c => length c = n) (chunks n l).

(** [iter.enumerate()] *)
Definition enumerate {A} (l : list A) : list (nat * A) := imap pair l.

(** Collecting an iterator of [Result]s: the first error wins. *)
Fixpoint collect {E A} (l : list (res E A)) : res E (list A) :=
  match l with
  | [] => Ok []
  | r :: rest => x ← r; xs ← collect rest; Ok (x :: xs)
  end.

(** The keys of a [BTreeMap], in iteration order. *)
Definition sorted_keys {V} (m : gmap Z V) : list Z := merge_sort Z.le (map_to_list m).*1.

(** The least [k] of [start..start+n] that satisfies [p]. *)
Fixpoint find_from (p : Z -> bool) (start : Z) (n : nat) : option Z :=
  match n with
  | O => None
  | S n' => if p start then Some start else find_from p (start + 1) n'
  end.

(** ** Tactics and hint databases *)

Create HintDb bytes_db discriminated.
Create HintDb inv_db discriminated.

(** Arithmetic on lengths. *)
Ltac len_lia :=
  unfold len in *;
  repeat first
    [ rewrite length_app in * | rewrite length_cons in * | rewrite length_nil in *
    | rewrite length_take in * | rewrite length_drop in * ];
  lia.

(** A decidable fact about closed data. *)
Ltac by_compute := apply (bool_decide_unpack _); vm_compute; exact I.

(** Split the innermost [match] or [if] of a hypothesis or of the goal. *)
Ltac case_step :=
  match goal with
  | H : context [match ?x with _ => _ end] |- _ =>
      lazymatch x with context [match _ with _ => _ end] => fail | _ => destruct x eqn:? end
  | |- context [match ?x with _ => _ end] =>
      lazymatch x with context [match _ with _ => _ end] => fail | _ => destruct x eqn:? end
  end.

(** Boolean tests of the code as propositions. *)
Ltac bool_to_prop :=
  repeat match goal with
  | H : (_ <? _) = true |- _ => apply Z.ltb_lt in H
  | H : (_ <? _) = false |- _ => apply Z.ltb_ge in H
  | H : (_ <=? _) = true |- _ => apply Z.leb_le in H
  | H : (_ <=? _) = false |- _ => apply Z.leb_gt in H
  | H : (_ =? _) = true |- _ => apply Z.eqb_eq in H
  | H : (_ =? _) = false |- _ => apply Z.eqb_neq in H
  | H : _ && _ = true |- _ => apply andb_prop in H; destruct H
  | H : _ || _ = false |- _ => apply orb_false_elim in H; destruct H
  | H : negb _ = true |- _ => apply negb_true_iff in H
  | H : negb _ = false |- _ => apply negb_false_iff in H
  end.

(** ** Rules for methods *)

Section triples.
Context {S E : Type}.
Implicit Types I P : S -> Prop.

Lemma triple_bind {A B} P (m : stm S E A) (k : A -> stm S E B) R Q :
  triple P m R ->
  (forall a, triple (R (Ok a)) (k a) Q) ->
  (forall e s, R (Err e) s -> Q (Err e) s) ->
  (forall s, R Panic s -> Q Panic s) ->
  triple P (m ≫= k) Q.
Proof.
  intros Hm Hk He Hp s Hs. specialize (Hm s Hs).
  unfold mbind, stm_bind. destruct (m s) as [[a|e|] s']; simpl in *; auto.
  by apply Hk.
Qed.

Lemma triple_weaken {A} P P' (m : stm S E A) (Q Q' : res E A -> S -> Prop) :
  triple P' m Q' -> (forall s, P s -> P' s) -> (forall r s, Q' r s -> Q r s) -> triple P m Q.
Proof. intros H HP HQ s Hs. auto. Qed.

Lemma preserves_ret {A} I (a : A) : preserves (E:=E) I (mret a).
Proof. intros s Hs. exact Hs. Qed.

Lemma preserves_bind {A B} I (m : stm S E A) (k : A -> stm S E B) :
  preserves I m -> (forall a, preserves I (k a)) -> preserves I (m ≫= k).
Proof. intros Hm Hk. eapply triple_bind; [exact Hm | exact Hk | auto | auto]. Qed.

Lemma preserves_lift {A} I (r : res E A) : preserves I (lift r).
Proof. intros s Hs. exact Hs. Qed.

Lemma preserves_throw {A} I (e : E) : preserves (A:=A) I (throw e).
Proof. intros s Hs. exact Hs. Qed.

Lemma preserves_skip I : preserves (E:=E) I skip.
Proof. intros s Hs. exact Hs. Qed.

Lemma preserves_modify I (f : S -> S) : (forall s, I s -> I (f s)) -> preserves (E:=E) I (modify f).
Proof. intros H s Hs. by apply H. Qed.

Lemma preserves_get_bind {A} I (k : S -> stm S E A) :
  (forall s0, I s0 -> triple (fun s => s = s0) (k s0) (fun _ s => I s)) -> preserves I (get ≫= k).
Proof. intros H s Hs. exact (H s Hs s eq_refl). Qed.

Lemma preserves_get {A} I (k : S -> stm S E A) :
  (forall s0, I s0 -> preserves I (k s0)) -> preserves I (get ≫= k).
Proof. intros Hk s Hs. by apply (Hk s Hs s). Qed.

Lemma preserves_for_each {A} I (body : A -> stm S E unit) xs :
  (forall x, preserves I (body x)) -> preserves I (for_each body xs).
Proof.
  intros H. induction xs as [|x xs IH]; simpl; [apply preserves_skip|].
  apply preserves_bind; auto.
Qed.
End triples.

(** Walks down a computation towards [preserves]: [modify_step] proves it of a
    change of the state, [leaf] of the computations it is made of. *)
Tactic Notation "walk_preserves" tactic3(modify_step) "with" tactic3(leaf) :=
  repeat (intros; lazymatch goal with
    | |- preserves _ (mbind _ get) => apply preserves_get
    | |- preserves _ (mbind _ _) => apply preserves_bind
    | |- preserves _ (modify _) => modify_step
    | |- preserves _ (for_each _ _) => apply preserves_for_each
    | |- preserves _ (match _ with _ => _ end) => case_match
    | |- preserves _ _ => solve [leaf]
    end).

#[export] Hint Resolve preserves_ret preserves_bind preserves_lift preserves_throw
  preserves_skip preserves_modify preserves_for_each : inv_db.

(** ** Two runs *)

(** Computations that give the same value on related states, and leave them
    related. *)
Definition agrees {S E A} (Rel : S -> S -> Prop) (m m' : stm S E A) : Prop :=
  forall s s', Rel s s' -> (m s).1 = (m' s').1 /\ Rel (m s).2 (m' s').2.

(** The same outcome, with values related by [Q]. *)
Definition res_alike {E A} (Q : A -> A -> Prop) (r r' : res E A) : Prop :=
  match r, r' with
  | Ok a, Ok a' => Q a a'
  | Err e, Err e' => e = e'
  | Panic, Panic => True
  | _, _ => False
  end.

Definition agrees_with {S E A} (Rel : S -> S -> Prop) (Q : A -> A -> Prop) (m m' : stm S E A) : Prop :=
  forall s s', Rel s s' -> res_alike Q (m s).1 (m' s').1 /\ Rel (m s).2 (m' s').2.

Section agreement.
Context {S E : Type} (Rel : S -> S -> Prop).

Lemma agrees_bind_with {A B} (Q : A -> A -> Prop) (m m' : stm S E A) (k k' : A -> stm S E B) :
  agrees_with Rel Q m m' -> (forall a a', Q a a' -> agrees Rel (k a) (k' a')) -> agrees Rel (m ≫= k) (m' ≫= k').
Proof.
  intros Hm Hk s s' Hs. destruct (Hm s s' Hs) as [Hr Hs1]. unfold mbind, stm_bind.
  destruct (m s) as [[a|e|] s1], (m' s') as [[a'|e'|] s1']; cbn in Hr, Hs1; try done; [by apply Hk|by subst].
Qed.

Lemma agrees_bind {A B} (m m' : stm S E A) (k k' : A -> stm S E B) :
  agrees Rel m m' -> (forall a, agrees Rel (k a) (k' a)) -> agrees Rel (m ≫= k) (m' ≫= k').
Proof.
  intros Hm Hk s s' Hs. destruct (Hm s s' Hs) as [Hr Hs1]. unfold mbind, stm_bind.
  destruct (m s) as [r s1], (m' s') as [r' s1']. cbn in Hr, Hs1. subst r'. destruct r; [by apply Hk|done|done].
Qed.

Lemma agrees_get {A} (k k' : S -> stm S E A) : (forall s s', Rel s s' -> agrees Rel (k s) (k' s')) -> agrees Rel (get ≫= k) (get ≫= k').
Proof. intros Hk s s' Hs. by apply (Hk s s' Hs). Qed.

Lemma agrees_modify (f f' : S -> S) : (forall s s', Rel s s' -> Rel (f s) (f' s')) -> agrees (E := E) Rel (modify f) (modify f').
Proof. intros Hf s s' Hs. split; [done|by apply Hf]. Qed.

Lemma agrees_lift {A} (r : res E A) : agrees Rel (lift r) (lift r).
Proof. by intros s s' Hs. Qed.
Lemma agrees_ret {A} (a : A) : agrees (E := E) Rel (mret a) (mret a).
Proof. by intros s s' Hs. Qed.
Lemma agrees_skip : agrees (E := E) Rel skip skip.
Proof. by intros s s' Hs. Qed.
Lemma agrees_throw {A} (e : E) : agrees (A := A) Rel (throw e) (throw e).
Proof. by intros s s' Hs. Qed.

Lemma agrees_for_each_with {A} (Q : A -> A -> Prop) (f f' : A -> stm S E unit) l l' : Forall2 Q l l' ->
  (forall a a', Q a a' -> agrees Rel (f a) (f' a')) -> agrees Rel (for_each f l) (for_each f' l').
Proof. intros Hl Hf. induction Hl; cbn [for_each]; [apply agrees_skip|]. apply agrees_bind; auto. Qed.

Lemma agrees_for_each {A} (f : A -> stm S E unit) l : (forall a, agrees Rel (f a) (f a)) -> agrees Rel (for_each f l) (for_each f l).
Proof. intros Hf. apply (agrees_for_each_with eq); [reflexivity|]. by intros a ? <-. Qed.
End agreement.

(** ** Bytes *)

Lemma bytes_nil : bytes [].
Proof. constructor. Qed.

Lemma bytes_cons b l : bytes (b :: l) <-> u8 b /\ bytes l.
Proof. apply Forall_cons_iff. Qed.

Lemma bytes_app l1 l2 : bytes (l1 ++ l2) <-> bytes l1 /\ bytes l2.
Proof. apply Forall_app. Qed.

Lemma bytes_take n l : bytes l -> bytes (take n l).
Proof. apply Forall_take. Qed.

Lemma bytes_drop n l : bytes l -> bytes (drop n l).
Proof. apply Forall_drop. Qed.

Lemma bytes_rev l : bytes l -> bytes (rev l).
Proof. unfold bytes. rewrite !List.Forall_forall. intros H x Hx. apply H. by apply in_rev in Hx. Qed.

Lemma bytes_to_le n : forall x, bytes (to_le_bytes n x).
Proof.
  induction n as [|n IH]; intros x; simpl; [constructor|].
  apply bytes_cons. split; [apply Z.mod_pos_bound; lia | apply IH].
Qed.

Lemma bytes_to_be n x : bytes (to_be_bytes n x).
Proof. apply bytes_rev, bytes_to_le. Qed.

#[export] Hint Resolve bytes_nil bytes_take bytes_drop bytes_rev bytes_to_le bytes_to_be : bytes_db.

Lemma length_to_le_bytes n : forall x, length (to_le_bytes n x) = n.
Proof. induction n; intros; simpl; auto. Qed.

Lemma length_to_be_bytes n x : length (to_be_bytes n x) = n.
Proof. unfold to_be_bytes. by rewrite length_rev, length_to_le_bytes. Qed.

Lemma from_to_le_bytes n : forall x, 0 <= x < 256 ^ Z.of_nat n -> from_le_bytes (to_le_bytes n x) = x.
Proof.
  induction n as [|n IH]; intros x Hx; simpl to_le_bytes; simpl from_le_bytes.
  - change (256 ^ Z.of_nat 0) with 1 in Hx. lia.
  - rewrite Nat2Z.inj_succ, Z.pow_succ_r in Hx by lia.
    rewrite IH.
    + pose proof (Z.div_mod x 256). lia.
    + split; [apply Z.div_pos; lia | apply Z.div_lt_upper_bound; lia].
Qed.

Lemma to_from_le_bytes l : bytes l -> to_le_bytes (length l) (from_le_bytes l) = l.
Proof.
  induction l as [|b l IH]; intros Hl; simpl; [done|].
  apply bytes_cons in Hl as [Hb Hl].
  replace ((b + 256 * from_le_bytes l) mod 256) with b.
  - replace ((b + 256 * from_le_bytes l) / 256) with (from_le_bytes l); [by rewrite IH|].
    rewrite Z.mul_comm, Z.div_add, Z.div_small by lia. lia.
  - rewrite Z.mul_comm, Z.mod_add, Z.mod_small by lia. lia.
Qed.

Lemma from_le_bytes_range l : bytes l -> 0 <= from_le_bytes l < 256 ^ len l.
Proof.
  unfold len. induction l as [|b l IH]; intros Hl; [simpl; lia|].
  apply bytes_cons in Hl as [Hb Hl]. specialize (IH Hl).
  rewrite length_cons, Nat2Z.inj_succ, Z.pow_succ_r by lia. simpl. lia.
Qed.

Lemma from_to_be_bytes n x : 0 <= x < 256 ^ Z.of_nat n -> from_be_bytes (to_be_bytes n x) = x.
Proof. unfold from_be_bytes, to_be_bytes. rewrite rev_involutive. apply from_to_le_bytes. Qed.

Lemma to_from_be_bytes l : bytes l -> to_be_bytes (length l) (from_be_bytes l) = l.
Proof.
  intros Hl. unfold from_be_bytes, to_be_bytes. rewrite <- (length_rev l).
  rewrite to_from_le_bytes by auto with bytes_db. apply rev_involutive.
Qed.

(** The two bytes of a little-endian 16-bit field. *)
Lemma to_le_bytes_2 x : to_le_bytes 2 x = [x mod 256; x / 256 mod 256].
Proof. reflexivity. Qed.

Lemma u16_le_roundtrip x : u16 x -> from_le_bytes [x mod 256; x / 256 mod 256] = x.
Proof. intros. rewrite <- to_le_bytes_2. by apply from_to_le_bytes. Qed.

Lemma u16_be_roundtrip x : u16 x -> from_be_bytes [x / 256 mod 256; x mod 256] = x.
Proof. intros. exact (u16_le_roundtrip x H). Qed.

Lemma u16_le_range a b : u8 a -> u8 b -> u16 (from_le_bytes [a; b]).
Proof. simpl. lia. Qed.

Lemma u16_le_inverse a b : u8 a -> u8 b -> to_le_bytes 2 (from_le_bytes [a; b]) = [a; b].
Proof. intros. apply (to_from_le_bytes [a; b]). repeat constructor; lia. Qed.

Lemma u16_be_inverse a b : u8 a -> u8 b -> to_be_bytes 2 (from_be_bytes [a; b]) = [a; b].
Proof. intros. apply (to_from_be_bytes [a; b]). repeat constructor; lia. Qed.

Lemma from_le_bytes_2 a b : from_le_bytes [a; b] = a + 256 * b.
Proof. simpl. lia. Qed.

#[global] Arguments from_le_bytes : simpl never.
#[global] Arguments to_le_bytes : simpl never.
#[global] Arguments from_be_bytes : simpl never.
#[global] Arguments to_be_bytes : simpl never.

(** ** Lengths, slices and chunks *)

Lemma len_nonneg {A} (l : list A) : 0 <= len l.
Proof. unfold len. lia. Qed.

Lemma len_app {A} (l1 l2 : list A) : len (l1 ++ l2) = len l1 + len l2.
Proof. len_lia. Qed.

Lemma len_cons {A} (x : A) l : len (x :: l) = 1 + len l.
Proof. len_lia. Qed.

Lemma len_zero {A} (l : list A) : len l = 0 -> l = [].
Proof. destruct l; [done|]. unfold len. simpl. lia. Qed.

Lemma idx_lt {E A} (l : list A) i : (i < length l)%nat -> exists x, idx (E:=E) l i = Ok x /\ l !! i = Some x.
Proof. intros H. unfold idx. destruct (lookup_lt_is_Some_2 l i H) as [x ->]. eauto. Qed.

Lemma get_range_Some {A} (l : list A) a b : (a <= b)%nat -> (b <= length l)%nat ->
  get_range l a b = Some (take (b - a) (drop a l)).
Proof. intros. unfold get_range. by rewrite decide_True. Qed.

Lemma get_range_app {A} (pre mid post : list A) :
  get_range (pre ++ mid ++ post) (length pre) (length pre + length mid) = Some mid.
Proof.
  rewrite get_range_Some by (rewrite ?length_app; lia).
  rewrite drop_app_length. f_equal. replace (_ + _ - _)%nat with (length mid) by lia.
  apply take_app_length.
Qed.

Lemma slice_from_ok {E A} (l : list A) a : (a <= length l)%nat -> slice_from (E:=E) l a = Ok (drop a l).
Proof.
  intros. unfold slice_from, slice. rewrite get_range_Some by lia. simpl.
  rewrite take_ge; [done | rewrite length_drop; lia].
Qed.

Lemma slice_from_cons {E A} (x : A) l n : slice_from (E:=E) (x :: l) (S n) = slice_from l n.
Proof.
  unfold slice_from, slice, get_range. rewrite length_cons.
  do 2 case_decide; try lia; try done.
Qed.

Lemma slice_from_0 {E A} (l : list A) : slice_from (E:=E) l 0 = Ok l.
Proof. by rewrite slice_from_ok by lia. Qed.

(** Reading past a literal prefix. *)
Ltac read_prefix :=
  cbn [mbind res_bind idx expect lookup list_lookup head ok_or Nat.add];
  rewrite ?slice_from_cons, ?slice_from_0;
  cbn [mbind res_bind].

Lemma chunks_fuel_ext {A} (n : nat) : (0 < n)%nat -> forall f1 f2 (l : list A),
  (length l <= f1)%nat -> (length l <= f2)%nat -> chunks_fuel f1 n l = chunks_fuel f2 n l.
Proof.
  intros Hn. induction f1 as [|f1 IH]; intros f2 l H1 H2.
  - destruct l; [by destruct f2 | simpl in *; lia].
  - destruct l as [|x l]; [by destruct f2|]. destruct f2 as [|f2]; [simpl in *; lia|].
    cbn [chunks_fuel]. f_equal. apply IH; rewrite length_drop; simpl in *; lia.
Qed.

Lemma chunks_nil {A} n : chunks n (A:=A) [] = [].
Proof. reflexivity. Qed.

Lemma chunks_step {A} (n : nat) (l : list A) : (0 < n)%nat -> l <> [] ->
  chunks n l = take n l :: chunks n (drop n l).
Proof.
  intros Hn Hl. destruct l as [|x l]; [done|].
  unfold chunks at 1. cbn [length chunks_fuel]. f_equal.
  apply chunks_fuel_ext; try done; rewrite length_drop; simpl; lia.
Qed.

(** Induction along the chunks of a list. *)
Lemma chunks_ind {A} (n : nat) (P : list A -> list (list A) -> Prop) : (0 < n)%nat ->
  P [] [] ->
  (forall l, l <> [] -> P (drop n l) (chunks n (drop n l)) -> P l (take n l :: chunks n (drop n l))) ->
  forall l, P l (chunks n l).
Proof.
  intros Hn H0 HS l. remember (length l) as k eqn:Hk. revert l Hk.
  induction (lt_wf k) as [k _ IH]. intros l ->.
  destruct (decide (l = [])) as [->|Hl]; [exact H0|].
  rewrite chunks_step by done. apply HS; [done|]. eapply IH; [|done].
  destruct l; [done|]. rewrite length_drop. simpl. lia.
Qed.

Lemma concat_chunks {A} (n : nat) (l : list A) : (0 < n)%nat -> concat (chunks n l) = l.
Proof.
  intros Hn. pattern l, (chunks n l). apply chunks_ind; [done|done|].
  intros l' _ IH. simpl. rewrite IH. apply take_drop.
Qed.

Lemma chunks_bounded {A} (n : nat) (l : list A) : (0 < n)%nat ->
  Forall (fun c => 0 < length c <= n)%nat (chunks n l).
Proof.
  intros Hn. pattern l, (chunks n l). apply chunks_ind; [done|constructor|].
  intros l' Hl IH. constructor; [|done]. rewrite length_take. destruct l'; [done|]. simpl. lia.
Qed.

Lemma chunks_single {A} (n : nat) (l : list A) : l <> [] -> (length l <= n)%nat -> chunks n l = [l].
Proof.
  intros Hl Hn. rewrite chunks_step; [|destruct l; [done|simpl in Hn; lia]|done].
  rewrite take_ge, drop_ge by lia. by rewrite chunks_nil.
Qed.

Lemma chunks_bytes n l : (0 < n)%nat -> bytes l -> Forall bytes (chunks n l).
Proof.
  intros Hn. pattern l, (chunks n l). apply chunks_ind; [done|constructor|].
  intros l' _ IH Hl. constructor; [by apply bytes_take|]. by apply IH, bytes_drop.
Qed.

Lemma bytes_concat ls : Forall bytes ls -> bytes (concat ls).
Proof. induction 1; simpl; [constructor|]. by apply bytes_app. Qed.

(** ** Search and iteration order *)

Lemma find_from_Some p n : forall start k, find_from p start n = Some k ->
  start <= k < start + Z.of_nat n /\ p k = true /\ forall j, start <= j < k -> p j = false.
Proof.
  induction n as [|n IH]; intros start k H; simpl in H; [done|].
  destruct (p start) eqn:Hp; simplify_eq.
  - repeat split; try done; lia.
  - apply IH in H as (? & ? & Hmin). repeat split; try done; try lia.
    intros j Hj. destruct (decide (j = start)) as [->|]; [done|]. apply Hmin. lia.
Qed.

Lemma find_from_None p n : forall start, find_from p start n = None ->
  forall j, start <= j < start + Z.of_nat n -> p j = false.
Proof.
  induction n as [|n IH]; intros start H j Hj; simpl in H; [lia|].
  destruct (p start) eqn:Hp; simplify_eq.
  destruct (decide (j = start)) as [->|]; [done|]. apply (IH _ H). lia.
Qed.

Lemma sorted_keys_spec {V} (m : gmap Z V) k : k ∈ sorted_keys m <-> is_Some (m !! k).
Proof.
  unfold sorted_keys. rewrite (merge_sort_Permutation Z.le).
  rewrite list_elem_of_fmap. split.
  - intros ([k' v] & -> & H). apply elem_of_map_to_list in H. eauto.
  - intros [v H]. exists (k, v). by rewrite elem_of_map_to_list.
Qed.

Lemma sorted_keys_sorted {V} (m : gmap Z V) : Sorted Z.le (sorted_keys m).
Proof. apply (Sorted_merge_sort Z.le). Qed.

Lemma collect_Ok {E A} (l : list (res E A)) xs :
  collect l = Ok xs <-> l = Ok <$> xs.
Proof.
  split.
  - revert xs. induction l as [|[x|e|] l IH]; intros xs H; simpl in H; simplify_eq; [done|].
    destruct (collect l) as [ys|e|]; simpl in H; simplify_eq. simpl. f_equal. by apply IH.
  - intros ->. induction xs as [|x xs IH]; [done|]. rewrite fmap_cons. cbn [collect]. by rewrite IH.
Qed.

Lemma collect_no_panic {E A} (l : list (res E A)) : Forall no_panic l -> no_panic (collect l).
Proof.
  unfold no_panic. induction 1 as [|r l Hr _ IH]; [done|]. destruct r; cbn; try done.
  by destruct (collect l).
Qed.

Lemma bind_no_panic {E A B} (r : res E A) (f : A -> res E B) :
  no_panic r -> (forall a, r = Ok a -> no_panic (f a)) -> no_panic (r ≫= f).
Proof. intros Hr Hf. destruct r; [by apply Hf|done|done]. Qed.

#[global] Instance Ok_inj {E A} : Inj eq eq (@Ok E A).
Proof. by intros a b [= ->]. Qed.

Lemma bind_ok {E A B} (r : res E A) (f : A -> res E B) b : (r ≫= f) = Ok b -> exists a, r = Ok a /\ f a = Ok b.
Proof. destruct r; try done. eauto. Qed.

Lemma stm_bind_ok {S E A B} (m : stm S E A) (k : A -> stm S E B) s b s' : (m ≫= k) s = (Ok b, s') ->
  exists a s1, m s = (Ok a, s1) /\ k a s1 = (Ok b, s').
Proof. unfold mbind, stm_bind. destruct (m s) as [[a|e|] s1]; try done. eauto. Qed.

Lemma stm_bind_run {S E A B} (m : stm S E A) (k : A -> stm S E B) s a s1 : m s = (Ok a, s1) -> (m ≫= k) s = k a s1.
Proof. intros Hm. unfold mbind, stm_bind. by rewrite Hm. Qed.

Lemma ok_or_no_panic {E A} (o : option A) (e : E) : no_panic (ok_or o e).
Proof. by destruct o. Qed.

(** ** Bit fields *)

Lemma lor_shiftl_add a b n : 0 <= n -> 0 <= a < 2 ^ n -> Z.lor a (Z.shiftl b n) = a + b * 2 ^ n.
Proof.
  intros Hn Ha. rewrite Z.shiftl_mul_pow2 by lia.
  rewrite <- Z.lxor_lor, <- Z.add_nocarry_lxor; try done.
  all: rewrite <- Z.shiftl_mul_pow2 by lia; apply Z.bits_inj'; intros k Hk;
    rewrite Z.land_spec, Z.bits_0; destruct (Z.ltb_spec k n);
    [rewrite Z.shiftl_spec_low by lia; apply andb_false_r|].
  all: rewrite <- (Z.mod_small a (2 ^ n)) by lia; by rewrite Z.mod_pow2_bits_high by lia.
Qed.

Lemma land_low_mod x n : 0 <= n -> Z.land x (2 ^ n - 1) = x mod 2 ^ n.
Proof. intros. rewrite <- Z.land_ones by lia. f_equal. rewrite Z.ones_equiv. lia. Qed.

(** A field of [w] bits at offset [n]. *)
Lemma field_low a b n : 0 <= n -> 0 <= a < 2 ^ n -> (a + b * 2 ^ n) mod 2 ^ n = a.
Proof. intros. rewrite Z.mod_add by lia. apply Z.mod_small. lia. Qed.

Lemma field_high a b n : 0 <= n -> 0 <= a < 2 ^ n -> (a + b * 2 ^ n) / 2 ^ n = b.
Proof. intros. rewrite Z.div_add by lia. rewrite Z.div_small by lia. lia. Qed.

Lemma fmap_Ok_inv {E A B} (g : A -> res E B) (f : A -> B) (l : list A) (ys : list B) :
  (forall x y, g x = Ok y -> y = f x) -> g <$> l = Ok <$> ys -> ys = f <$> l.
Proof.
  intros Hg. revert ys. induction l as [|x l IH]; intros [|y ys] H; simplify_eq/=; [done|].
  f_equal; [by apply Hg | by apply IH].
Qed.

Lemma lxor_range a b n : 0 <= n -> 0 <= a < 2 ^ n -> 0 <= b < 2 ^ n -> 0 <= Z.lxor a b < 2 ^ n.
Proof.
  intros Hn Ha Hb. assert (0 <= Z.lxor a b) as H0 by (apply Z.lxor_nonneg; lia).
  split; [done|]. destruct (decide (Z.lxor a b = 0)) as [->|]; [lia|].
  apply Z.log2_lt_pow2; [lia|]. eapply Z.le_lt_trans; [apply Z.log2_lxor; lia|].
  destruct (decide (a = 0)) as [->|]; destruct (decide (b = 0)) as [->|]; try done.
  all: apply Z.max_lub_lt; try (apply Z.log2_lt_pow2; lia).
  all: change (Z.log2 0) with 0; destruct (decide (n = 0)) as [->|]; [simpl in *; lia|lia].
Qed.

(** A decidable fact about every integer below a literal bound, by evaluation. *)
Lemma forall_below (P : Z -> Prop) `{!forall x, Decision (P x)} n :
  bool_decide (Forall P (seqZ 0 n)) = true -> forall x, 0 <= x < n -> P x.
Proof.
  intros Hall x Hx. apply bool_decide_eq_true in Hall. rewrite List.Forall_forall in Hall.
  apply Hall, list_elem_of_In, elem_of_seqZ. lia.
Qed.
