(* ===== verification/Hci.v ===== *)
(** * HCI packet codec and ACL reassembly ([src/src/hci.rs])

    The command, event and ACL packet codec, the fragmentation of an L2CAP
    PDU into ACL packets and the per-handle assembler that undoes it. *)
From S2P Require Import Prelude.

(** ** Constants *)

Definition COMMAND_PACKET_TYPE : Z := 0x01.
Definition ACL_PACKET_TYPE : Z := 0x02.
Definition EVENT_PACKET_TYPE : Z := 0x04.
Definition ACL_HANDLE_MASK : Z := 0x0FFF.
Definition ACL_BOUNDARY_MASK : Z := 0x0003.
Definition ACL_BROADCAST_MASK : Z := 0x0003.
Definition ACL_FIRST_NON_FLUSHABLE : Z := 0.
Definition ACL_CONTINUATION : Z := 1.
Definition ACL_FIRST_FLUSHABLE : Z := 2.

(** ** Data *)

Inductive CodecError : Type :=
| EmptyPacket
| UnsupportedPacketType (packet_type : Z)
| Truncated (field : string)
| TrailingBytes (expected actual : Z)
| ParameterTooLong (actual maximum : Z)
| InvalidConnectionHandle (handle : Z)
| InvalidPacketBoundary (boundary : Z)
| InvalidBroadcastFlag (flag : Z)
| InvalidL2capPdu
| UnexpectedContinuation (connection_handle : Z)
| ContinuationOverflow (expected actual : Z).

#[global] Instance CodecError_eq_dec : EqDecision CodecError.
Proof. solve_decision. Defined.

Record CommandPacket : Type := mkCommand {
  cmd_opcode : Z;
  cmd_parameters : list Z
}.

Record EventPacket : Type := mkEvent {
  event_code : Z;
  event_parameters : list Z
}.

Record AclPacket : Type := mkAcl {
  connection_handle : Z;
  packet_boundary : Z;
  broadcast_flag : Z;
  acl_data : list Z
}.

Inductive Packet : Type :=
| Command (p : CommandPacket)
| Event (p : EventPacket)
| Acl (p : AclPacket).

#[global] Instance CommandPacket_eq_dec : EqDecision CommandPacket.
Proof. solve_decision. Defined.
#[global] Instance EventPacket_eq_dec : EqDecision EventPacket.
Proof. solve_decision. Defined.
#[global] Instance AclPacket_eq_dec : EqDecision AclPacket.
Proof. solve_decision. Defined.
#[global] Instance Packet_eq_dec : EqDecision Packet.
Proof. solve_decision. Defined.

(** ** Guards *)

Definition require_packet_type (packet : list Z) (expected : Z) : res CodecError unit :=
  match head packet with
  | Some actual => if actual =? expected then Ok tt else Err (UnsupportedPacketType actual)
  | None => Err EmptyPacket
  end.

Definition validate_u8_length (actual : Z) : res CodecError unit :=
  if actual <=? 255 then Ok tt else Err (ParameterTooLong actual 255).

Definition validate_exact_length (actual expected : Z) : res CodecError unit :=
  if actual <? expected then Err (Truncated "payload")
  else if expected <? actual then Err (TrailingBytes expected actual)
  else Ok tt.

(** ** Command packets *)

Definition CommandPacket_new (opcode : Z) (parameters : list Z) : res CodecError CommandPacket :=
  _ ← validate_u8_length (len parameters);
  Ok {| cmd_opcode := opcode; cmd_parameters := parameters |}.

Definition CommandPacket_from_bytes (packet : list Z) : res CodecError CommandPacket :=
  _ ← require_packet_type packet COMMAND_PACKET_TYPE;
  if len packet <? 4 then Err (Truncated "command") else
  parameter_length ← idx packet 3;
  _ ← validate_exact_length (len packet) (4 + parameter_length);
  b1 ← idx packet 1;
  b2 ← idx packet 2;
  parameters ← slice_from packet 4;
  CommandPacket_new (from_le_bytes [b1; b2]) parameters.

Definition CommandPacket_to_bytes (self : CommandPacket) : list Z :=
  [COMMAND_PACKET_TYPE] ++ to_le_bytes 2 (cmd_opcode self)
  ++ [len (cmd_parameters self) mod 256] ++ cmd_parameters self.

(** ** Event packets *)

Definition EventPacket_new (code : Z) (parameters : list Z) : res CodecError EventPacket :=
  _ ← validate_u8_length (len parameters);
  Ok {| event_code := code; event_parameters := parameters |}.

Definition EventPacket_from_bytes (packet : list Z) : res CodecError EventPacket :=
  _ ← require_packet_type packet EVENT_PACKET_TYPE;
  if len packet <? 3 then Err (Truncated "event") else
  parameter_length ← idx packet 2;
  _ ← validate_exact_length (len packet) (3 + parameter_length);
  code ← idx packet 1;
  parameters ← slice_from packet 3;
  EventPacket_new code parameters.

Definition EventPacket_to_bytes (self : EventPacket) : list Z :=
  [EVENT_PACKET_TYPE; event_code self; len (event_parameters self) mod 256]
  ++ event_parameters self.

(** ** ACL packets *)

Definition AclPacket_new (handle boundary broadcast : Z) (data : list Z)
  : res CodecError AclPacket :=
  if ACL_HANDLE_MASK <? handle then Err (InvalidConnectionHandle handle) else
  if ACL_BOUNDARY_MASK <? boundary then Err (InvalidPacketBoundary boundary) else
  if ACL_BROADCAST_MASK <? broadcast then Err (InvalidBroadcastFlag broadcast) else
  if 65535 <? len data then Err (ParameterTooLong (len data) 65535) else
  Ok {| connection_handle := handle; packet_boundary := boundary;
        broadcast_flag := broadcast; acl_data := data |}.

Definition AclPacket_from_bytes (packet : list Z) : res CodecError AclPacket :=
  _ ← require_packet_type packet ACL_PACKET_TYPE;
  if len packet <? 5 then Err (Truncated "ACL packet") else
  b1 ← idx packet 1;
  b2 ← idx packet 2;
  b3 ← idx packet 3;
  b4 ← idx packet 4;
  let header := from_le_bytes [b1; b2] in
  let data_length := from_le_bytes [b3; b4] in
  _ ← validate_exact_length (len packet) (5 + data_length);
  data ← slice_from packet 5;
  AclPacket_new (Z.land header ACL_HANDLE_MASK)
    (Z.land (Z.shiftr header 12) ACL_BOUNDARY_MASK)
    (Z.land (Z.shiftr header 14) ACL_BROADCAST_MASK)
    data.

Definition AclPacket_header (self : AclPacket) : Z :=
  Z.lor (Z.lor (connection_handle self) (Z.shiftl (packet_boundary self) 12 mod 65536))
    (Z.shiftl (broadcast_flag self) 14 mod 65536).

Definition AclPacket_to_bytes (self : AclPacket) : list Z :=
  [ACL_PACKET_TYPE] ++ to_le_bytes 2 (AclPacket_header self)
  ++ to_le_bytes 2 (len (acl_data self) mod 65536) ++ acl_data self.

(** ** Packets *)

Definition res_map {E A B} (f : A -> B) (r : res E A) : res E B := x ← r; Ok (f x).

Definition Packet_from_bytes (packet : list Z) : res CodecError Packet :=
  packet_type ← ok_or (head packet) EmptyPacket;
  if packet_type =? COMMAND_PACKET_TYPE then res_map Command (CommandPacket_from_bytes packet)
  else if packet_type =? EVENT_PACKET_TYPE then res_map Event (EventPacket_from_bytes packet)
  else if packet_type =? ACL_PACKET_TYPE then res_map Acl (AclPacket_from_bytes packet)
  else Err (UnsupportedPacketType packet_type).

Definition Packet_to_bytes (self : Packet) : list Z :=
  match self with
  | Command packet => CommandPacket_to_bytes packet
  | Event packet => EventPacket_to_bytes packet
  | Acl packet => AclPacket_to_bytes packet
  end.

(** ** Fragmentation *)

Definition fragment_boundary (index : nat) (flushable : bool) : Z :=
  if (index =? 0)%nat then
    if flushable then ACL_FIRST_FLUSHABLE else ACL_FIRST_NON_FLUSHABLE
  else ACL_CONTINUATION.

Definition fragment_l2cap_pdu (handle broadcast : Z) (acl_payload_size : Z) (pdu : list Z)
  (flushable : bool) : res CodecError (list AclPacket) :=
  if (acl_payload_size =? 0) || (len pdu <? 4) then Err InvalidL2capPdu else
  b0 ← idx pdu 0;
  b1 ← idx pdu 1;
  let payload_length := from_le_bytes [b0; b1] in
  if negb (payload_length + 4 =? len pdu) then Err InvalidL2capPdu else
  collect
    ((fun '(index, data) => AclPacket_new handle (fragment_boundary index flushable) broadcast data)
       <$> enumerate (chunks (Z.to_nat acl_payload_size) pdu)).

(** ** Reassembly *)

Record PendingAcl : Type := mkPending {
  pa_expected : Z;
  pa_data : list Z
}.

(** [AclAssembler { pending: BTreeMap<u16, PendingAcl> }] *)
Abbreviation AclAssembler := (gmap Z PendingAcl).

Definition AclAssembler_feed (packet : AclPacket)
  : stm AclAssembler CodecError (option (list Z)) := fun pending =>
  let h := connection_handle packet in
  if packet_boundary packet =? ACL_CONTINUATION then
    match pending !! h with
    | None => (Err (UnexpectedContinuation h), pending)
    | Some entry =>
        let data := pa_data entry ++ acl_data packet in
        let extended := <[h := mkPending (pa_expected entry) data]> pending in
        if pa_expected entry <? len data then
          (Err (ContinuationOverflow (pa_expected entry) (len data)), delete h extended)
        else if len data =? pa_expected entry then
          (Ok (pa_data <$> extended !! h), delete h extended)
        else (Ok None, extended)
    end
  else if len (acl_data packet) <? 4 then (Err InvalidL2capPdu, pending)
  else
    match acl_data packet !! 0%nat, acl_data packet !! 1%nat with
    | Some b0, Some b1 =>
        let expected := from_le_bytes [b0; b1] + 4 in
        if expected <? len (acl_data packet) then
          (Err (ContinuationOverflow expected (len (acl_data packet))), pending)
        else if len (acl_data packet) =? expected then
          (Ok (Some (acl_data packet)), delete h pending)
        else (Ok None, <[h := mkPending expected (acl_data packet)]> pending)
    | _, _ => (Panic, pending)
    end.

Definition AclAssembler_clear_handle (handle : Z) (pending : AclAssembler) : AclAssembler :=
  delete handle pending.

(** ** Well-formed packets: the ranges their Rust types and constructors give *)

Definition Command_wf (p : CommandPacket) : Prop :=
  u16 (cmd_opcode p) /\ bytes (cmd_parameters p) /\ len (cmd_parameters p) <= 255.

Definition Event_wf (p : EventPacket) : Prop :=
  u8 (event_code p) /\ bytes (event_parameters p) /\ len (event_parameters p) <= 255.

Definition Acl_wf (p : AclPacket) : Prop :=
  0 <= connection_handle p <= ACL_HANDLE_MASK /\ 0 <= packet_boundary p <= ACL_BOUNDARY_MASK /\
  0 <= broadcast_flag p <= ACL_BROADCAST_MASK /\ bytes (acl_data p) /\ len (acl_data p) <= 65535.

Definition Packet_wf (p : Packet) : Prop :=
  match p with
  | Command p => Command_wf p
  | Event p => Event_wf p
  | Acl p => Acl_wf p
  end.

(** ** The codec *)

Lemma validate_exact_length_Ok a e : validate_exact_length a e = Ok tt <-> a = e.
Proof. unfold validate_exact_length. repeat case_match; bool_to_prop; split; intros; simplify_eq; lia || done. Qed.

Lemma validate_exact_length_refl a : validate_exact_length a a = Ok tt.
Proof. by apply validate_exact_length_Ok. Qed.

Lemma Command_from_bytes_inv b p : bytes b -> CommandPacket_from_bytes b = Ok p ->
  Command_wf p /\ b = CommandPacket_to_bytes p.
Proof.
  intros Hb H. destruct b as [|t [|b1 [|b2 [|n rest]]]]; try (unfold CommandPacket_from_bytes, require_packet_type in H; cbn in H;
    by repeat case_match).
  unfold CommandPacket_from_bytes, require_packet_type in H. cbn [head] in H.
  destruct (t =? COMMAND_PACKET_TYPE) eqn:Ht; [|done]. bool_to_prop. subst t.
  revert H. read_prefix. replace (len _ <? 4) with false by (symmetry; apply Z.ltb_ge; len_lia).
  intros H. revert H. read_prefix. destruct (validate_exact_length _ _) as [[]| |] eqn:Hv; [|done|done].
  apply validate_exact_length_Ok in Hv. read_prefix. unfold CommandPacket_new, validate_u8_length.
  unfold bytes in Hb. rewrite !Forall_cons_iff in Hb. destruct Hb as (_ & ? & ? & ? & Hr).
  case_match; [|done]. read_prefix. intros [= <-]. bool_to_prop.
  split; [unfold Command_wf; cbn; rewrite from_le_bytes_2; repeat split; lia || done|].
  unfold CommandPacket_to_bytes. cbn [cmd_opcode cmd_parameters].
  rewrite u16_le_inverse by lia. rewrite Z.mod_small by len_lia.
  cbn. repeat f_equal. len_lia.
Qed.

Lemma Command_from_to_bytes p : Command_wf p -> CommandPacket_from_bytes (CommandPacket_to_bytes p) = Ok p.
Proof.
  intros (Ho & Hp & Hl). destruct p as [o ps]. cbn [cmd_opcode cmd_parameters] in *.
  pose proof (len_nonneg ps).
  unfold CommandPacket_from_bytes, CommandPacket_to_bytes, require_packet_type.
  cbn [cmd_opcode cmd_parameters]. rewrite to_le_bytes_2, (Z.mod_small (len ps)) by lia.
  cbn [app head]. rewrite Z.eqb_refl. read_prefix.
  replace (len _ <? 4) with false by (symmetry; apply Z.ltb_ge; len_lia). read_prefix.
  replace (len (_ :: _)) with (4 + len ps) by len_lia.
  rewrite validate_exact_length_refl. read_prefix.
  rewrite u16_le_roundtrip by lia. unfold CommandPacket_new, validate_u8_length.
  apply Z.leb_le in Hl. by rewrite Hl.
Qed.

Lemma Event_from_bytes_inv b p : bytes b -> EventPacket_from_bytes b = Ok p ->
  Event_wf p /\ b = EventPacket_to_bytes p.
Proof.
  intros Hb H. destruct b as [|t [|c [|n rest]]]; try (unfold EventPacket_from_bytes, require_packet_type in H; cbn in H; by repeat case_match).
  unfold EventPacket_from_bytes, require_packet_type in H. cbn [head] in H.
  destruct (t =? EVENT_PACKET_TYPE) eqn:Ht; [|done]. bool_to_prop. subst t.
  revert H. read_prefix. replace (len _ <? 3) with false by (symmetry; apply Z.ltb_ge; len_lia).
  read_prefix. destruct (validate_exact_length _ _) as [[]| |] eqn:Hv; [|done|done].
  apply validate_exact_length_Ok in Hv. read_prefix. unfold EventPacket_new, validate_u8_length.
  unfold bytes in Hb. rewrite !Forall_cons_iff in Hb. destruct Hb as (_ & ? & ? & Hr).
  case_match; [|done]. read_prefix. intros [= <-]. bool_to_prop.
  split; [unfold Event_wf; cbn; repeat split; lia || done|].
  unfold EventPacket_to_bytes. cbn [event_code event_parameters].
  rewrite Z.mod_small by len_lia. cbn. repeat f_equal. len_lia.
Qed.

Lemma Event_from_to_bytes p : Event_wf p -> EventPacket_from_bytes (EventPacket_to_bytes p) = Ok p.
Proof.
  intros (Ho & Hp & Hl). destruct p as [c ps]. cbn [event_code event_parameters] in *.
  pose proof (len_nonneg ps).
  unfold EventPacket_from_bytes, EventPacket_to_bytes, require_packet_type.
  cbn [event_code event_parameters]. rewrite Z.mod_small by lia.
  cbn [app head]. rewrite Z.eqb_refl. read_prefix.
  replace (len _ <? 3) with false by (symmetry; apply Z.ltb_ge; len_lia). read_prefix.
  replace (len (_ :: _)) with (3 + len ps) by len_lia.
  rewrite validate_exact_length_refl. read_prefix. unfold EventPacket_new, validate_u8_length.
  apply Z.leb_le in Hl. by rewrite Hl.
Qed.

(** The ACL header packs its three fields without overlap. *)
Lemma AclPacket_header_sum p : Acl_wf p ->
  AclPacket_header p = connection_handle p + 4096 * packet_boundary p + 16384 * broadcast_flag p.
Proof.
  unfold Acl_wf, AclPacket_header, ACL_HANDLE_MASK, ACL_BOUNDARY_MASK, ACL_BROADCAST_MASK.
  intros (? & ? & ? & _).
  rewrite (Z.mod_small (Z.shiftl _ 12)), (Z.mod_small (Z.shiftl _ 14))
    by (rewrite Z.shiftl_mul_pow2 by lia; lia).
  rewrite (lor_shiftl_add (connection_handle p)) by lia. rewrite lor_shiftl_add by lia. lia.
Qed.

Lemma land_mask_12 x : Z.land x ACL_HANDLE_MASK = x mod 4096.
Proof. exact (land_low_mod x 12 ltac:(lia)). Qed.

Lemma land_mask_2 x : Z.land x ACL_BOUNDARY_MASK = x mod 4.
Proof. exact (land_low_mod x 2 ltac:(lia)). Qed.

Lemma acl_header_fields h :
  Z.land (Z.shiftr h 12) ACL_BOUNDARY_MASK = h / 4096 mod 4 /\
  Z.land (Z.shiftr h 14) ACL_BROADCAST_MASK = h / 16384 mod 4.
Proof.
  change ACL_BROADCAST_MASK with ACL_BOUNDARY_MASK.
  by rewrite !land_mask_2, !Z.shiftr_div_pow2 by lia.
Qed.

Lemma Acl_from_bytes_inv b p : bytes b -> AclPacket_from_bytes b = Ok p ->
  Acl_wf p /\ b = AclPacket_to_bytes p.
Proof.
  intros Hb H. destruct b as [|t [|b1 [|b2 [|b3 [|b4 rest]]]]]; try (unfold AclPacket_from_bytes, require_packet_type in H; cbn in H;
    by repeat case_match).
  unfold AclPacket_from_bytes, require_packet_type in H. cbn [head] in H.
  destruct (t =? ACL_PACKET_TYPE) eqn:Ht; [|done]. bool_to_prop. subst t.
  revert H. read_prefix. replace (len _ <? 5) with false by (symmetry; apply Z.ltb_ge; len_lia).
  read_prefix. destruct (validate_exact_length _ _) as [[]| |] eqn:Hv; [|done|done].
  apply validate_exact_length_Ok in Hv. read_prefix.
  destruct (acl_header_fields (from_le_bytes [b1; b2])) as [-> ->]. rewrite land_mask_12.
  unfold bytes in Hb. rewrite !Forall_cons_iff in Hb. destruct Hb as (_ & ? & ? & ? & ? & Hr).
  pose proof (u16_le_range b3 b4). pose proof (u16_le_range b1 b2) as Hh.
  assert (len rest = from_le_bytes [b3; b4]) as Hlen by len_lia.
  unfold AclPacket_new. repeat case_match; try done. intros [= <-]. bool_to_prop.
  assert (Acl_wf (mkAcl (from_le_bytes [b1; b2] mod 4096) (from_le_bytes [b1; b2] / 4096 mod 4)
    (from_le_bytes [b1; b2] / 16384 mod 4) rest)) as Hwf.
  { unfold Acl_wf; cbn; unfold ACL_HANDLE_MASK, ACL_BOUNDARY_MASK, ACL_BROADCAST_MASK.
    repeat split; try done; Z.div_mod_to_equations; lia. }
  split; [done|]. unfold AclPacket_to_bytes. rewrite AclPacket_header_sum by done.
  cbn [connection_handle packet_boundary broadcast_flag acl_data].
  rewrite Hlen, (Z.mod_small (from_le_bytes [b3; b4])), u16_le_inverse by lia.
  replace (_ + _ + _) with (from_le_bytes [b1; b2]) by (Z.div_mod_to_equations; lia).
  rewrite u16_le_inverse by lia. done.
Qed.

Lemma Acl_from_to_bytes p : Acl_wf p -> AclPacket_from_bytes (AclPacket_to_bytes p) = Ok p.
Proof.
  intros Hwf. pose proof (AclPacket_header_sum p Hwf) as Hh.
  unfold AclPacket_to_bytes. rewrite Hh. clear Hh.
  unfold Acl_wf, ACL_HANDLE_MASK, ACL_BOUNDARY_MASK, ACL_BROADCAST_MASK in Hwf.
  destruct p as [h bd bc data]. cbn [connection_handle packet_boundary broadcast_flag acl_data] in *.
  destruct Hwf as (? & ? & ? & ? & ?). pose proof (len_nonneg data).
  unfold AclPacket_from_bytes, require_packet_type. rewrite !to_le_bytes_2.
  cbn [app head]. rewrite Z.eqb_refl. read_prefix.
  replace (len _ <? 5) with false by (symmetry; apply Z.ltb_ge; len_lia). read_prefix.
  rewrite !u16_le_roundtrip by (Z.div_mod_to_equations; lia).
  rewrite (Z.mod_small (len data)) by lia. replace (len (_ :: _)) with (5 + len data) by len_lia.
  rewrite validate_exact_length_refl. read_prefix.
  match goal with |- context [Z.shiftr ?x 12] => destruct (acl_header_fields x) as [-> ->] end.
  rewrite land_mask_12. unfold AclPacket_new.
  replace (_ mod 4096) with h by (Z.div_mod_to_equations; lia).
  replace (_ / 4096 mod 4) with bd by (Z.div_mod_to_equations; lia).
  replace (_ / 16384 mod 4) with bc by (Z.div_mod_to_equations; lia).
  unfold ACL_HANDLE_MASK, ACL_BOUNDARY_MASK, ACL_BROADCAST_MASK.
  repeat case_match; bool_to_prop; lia || done.
Qed.

Lemma res_map_Ok {E A B} (f : A -> B) (r : res E A) y : res_map f r = Ok y <-> exists x, r = Ok x /\ y = f x.
Proof. destruct r; cbn; split; [intros [= <-]; eauto|intros (? & [= <-] & ->); done|done|intros (? & ? & ?); done|done|intros (? & ? & ?); done]. Qed.

Lemma head_to_bytes p : head (Packet_to_bytes p) =
  Some (match p with Command _ => COMMAND_PACKET_TYPE | Event _ => EVENT_PACKET_TYPE | Acl _ => ACL_PACKET_TYPE end).
Proof. by destruct p. Qed.

Lemma Packet_from_bytes_inv b p : bytes b -> Packet_from_bytes b = Ok p ->
  Packet_wf p /\ b = Packet_to_bytes p.
Proof.
  intros Hb. unfold Packet_from_bytes. destruct (head b) as [t|]; [|done]. cbn.
  repeat case_match; try done; intros (x & Hx & ->)%res_map_Ok.
  - by apply Command_from_bytes_inv.
  - by apply Event_from_bytes_inv.
  - by apply Acl_from_bytes_inv.
Qed.

Lemma Packet_from_to_bytes p : Packet_wf p -> Packet_from_bytes (Packet_to_bytes p) = Ok p.
Proof.
  intros Hp. unfold Packet_from_bytes. rewrite head_to_bytes.
  destruct p; cbn [ok_or mbind res_bind Packet_to_bytes Packet_wf] in *;
    repeat match goal with |- context [?a =? ?b] => let c := eval vm_compute in (a =? b) in change (a =? b) with c end;
    apply res_map_Ok.
  - rewrite Command_from_to_bytes; eauto.
  - rewrite Event_from_to_bytes; eauto.
  - rewrite Acl_from_to_bytes; eauto.
Qed.

(** ** Fragmentation and reassembly *)

(** The L2CAP length field covers the PDU exactly. *)
Definition pdu_complete (pdu : list Z) : Prop :=
  exists b0 b1 rest, pdu = b0 :: b1 :: rest /\ len pdu = from_le_bytes [b0; b1] + 4 /\ 4 <= len pdu.

(** Feed packets in order; the outcome of each call is kept. *)
Fixpoint feed_all (packets : list AclPacket) : stm AclAssembler CodecError (list (option (list Z))) :=
  match packets with
  | [] => mret []
  | p :: rest => r ← AclAssembler_feed p; rs ← feed_all rest; mret (r :: rs)
  end.

(** Feed packets in order, errors included. *)
Fixpoint feed_trace (packets : list AclPacket) (pending : AclAssembler)
  : list (AclPacket * res CodecError (option (list Z))) :=
  match packets with
  | [] => []
  | p :: rest => let (r, pending') := AclAssembler_feed p pending in (p, r) :: feed_trace rest pending'
  end.

Lemma AclPacket_new_Ok h bd bc data p :
  AclPacket_new h bd bc data = Ok p ->
  p = mkAcl h bd bc data /\ h <= ACL_HANDLE_MASK /\ bc <= ACL_BROADCAST_MASK /\ len data <= 65535.
Proof. unfold AclPacket_new. repeat case_match; intros; simplify_eq; bool_to_prop. repeat split; lia. Qed.

Lemma enumerate_cons {A} (x : A) l : enumerate (x :: l) = (0%nat, x) :: ((fun '(i, y) => (S i, y)) <$> enumerate l).
Proof. unfold enumerate. rewrite imap_cons. f_equal. by rewrite fmap_imap. Qed.

Lemma enumerate_snd {A B} (f : A -> B) l : (fun '(_, y) => f y) <$> enumerate l = f <$> l.
Proof.
  induction l as [|x l IH]; [done|]. rewrite enumerate_cons, !fmap_cons. f_equal.
  rewrite <- IH, <- list_fmap_compose. apply list_fmap_ext. by intros ? [].
Qed.

(** The packets of a fragmented PDU: one start packet, then continuations. *)
Lemma fragment_shape h bc size pdu fl packets :
  fragment_l2cap_pdu h bc size pdu fl = Ok packets -> 0 <= size ->
  pdu_complete pdu /\ 0 < size /\ exists c cs, chunks (Z.to_nat size) pdu = c :: cs /\
  packets = mkAcl h (fragment_boundary 0 fl) bc c :: (mkAcl h ACL_CONTINUATION bc <$> cs).
Proof.
  unfold fragment_l2cap_pdu. intros H Hs. destruct ((size =? 0) || (len pdu <? 4)) eqn:Hg; [done|].
  bool_to_prop. destruct pdu as [|b0 [|b1 rest]]; [done|done|]. revert H. read_prefix.
  destruct (_ + 4 =? _) eqn:Hl; cbn [negb]; [|done]. bool_to_prop. intros H%collect_Ok.
  split; [exists b0, b1, rest; repeat split; lia || done|]. split; [lia|].
  rewrite chunks_step in * by (lia || done). eexists _, _. split; [done|].
  apply (fmap_Ok_inv _ (fun '(i, d) => mkAcl h (fragment_boundary i fl) bc d)) in H.
  - rewrite H, enumerate_cons, fmap_cons. f_equal.
    rewrite <- list_fmap_compose, <- (enumerate_snd (mkAcl h ACL_CONTINUATION bc)).
    apply list_fmap_ext. by intros ? [].
  - intros [i d] y Hy. by apply AclPacket_new_Ok in Hy as [-> _].
Qed.

Lemma feed_continuations h bc cs : forall data ex (pending : AclAssembler),
  cs <> [] -> Forall (fun c => 0 < length c)%nat cs ->
  pending !! h = Some (mkPending ex data) -> len data + len (concat cs) = ex ->
  feed_all (mkAcl h ACL_CONTINUATION bc <$> cs) pending =
    (Ok (replicate (length cs - 1) None ++ [Some (data ++ concat cs)]), delete h pending).
Proof.
  induction cs as [|c cs IH]; intros data ex pending Hne Hcs Hp Hlen; [done|].
  apply Forall_cons_iff in Hcs as [Hc Hcs]. cbn [fmap list_fmap feed_all concat] in *.
  rewrite len_app in Hlen.
  unfold mbind, stm_bind, AclAssembler_feed at 1. cbn [connection_handle packet_boundary acl_data].
  rewrite Z.eqb_refl, Hp. cbn [pa_data pa_expected]. pose proof (len_nonneg (concat cs)).
  rewrite len_app. replace (ex <? _) with false by (symmetry; apply Z.ltb_ge; lia).
  destruct cs as [|c' cs].
  - cbn [concat] in *. change (len []) with 0 in Hlen. rewrite (proj2 (Z.eqb_eq _ _)) by lia.
    rewrite lookup_insert_eq. cbn. by rewrite delete_insert_eq, app_nil_r.
  - replace (_ =? ex) with false.
    2:{ symmetry. apply Z.eqb_neq. apply Forall_cons_iff in Hcs as [Hc' _].
        cbn [concat] in *. rewrite len_app in *. pose proof (len_nonneg (concat cs)). unfold len in *. lia. }
    change (list_fmap _ _ ?f ?l) with (f <$> l).
    erewrite (IH (data ++ c) ex); [|done|done|by rewrite lookup_insert_eq|rewrite len_app; lia].
    rewrite delete_insert_eq. cbn [length]. rewrite Nat.sub_succ, Nat.sub_0_r. cbn. by rewrite <- app_assoc.
Qed.

Lemma chunk_head_length {A} size (pdu : list A) c cs : chunks size pdu = c :: cs -> (0 < size)%nat -> pdu <> [] ->
  c = take size pdu /\ cs = chunks size (drop size pdu).
Proof. intros H ? ?. rewrite chunks_step in H by done. by simplify_eq. Qed.

Lemma feed_start h bd bc c (pending : AclAssembler) b0 b1 rest :
  bd <> ACL_CONTINUATION -> c = b0 :: b1 :: rest -> 4 <= len c ->
  AclAssembler_feed (mkAcl h bd bc c) pending =
    let expected := from_le_bytes [b0; b1] + 4 in
    if expected <? len c then (Err (ContinuationOverflow expected (len c)), pending)
    else if len c =? expected then (Ok (Some c), delete h pending)
    else (Ok None, <[h := mkPending expected c]> pending).
Proof.
  intros Hb -> Hl. unfold AclAssembler_feed. cbn [connection_handle packet_boundary acl_data].
  apply Z.eqb_neq in Hb. rewrite Hb. by rewrite (proj2 (Z.ltb_ge _ _)) by lia.
Qed.

Lemma fragment_boundary_start fl : fragment_boundary 0 fl <> ACL_CONTINUATION.
Proof. by destruct fl. Qed.

(** A first packet without room for the L2CAP header is refused. *)
Lemma fragment_too_small h bc size pdu fl packets (pending : AclAssembler) :
  fragment_l2cap_pdu h bc size pdu fl = Ok packets -> 0 <= size < 4 -> feed_all packets pending = (Err InvalidL2capPdu, pending).
Proof.
  intros H Hs. apply fragment_shape in H as (_ & Hpos & c & cs & Hc & ->); [|lia].
  pose proof (chunks_bounded (Z.to_nat size) pdu ltac:(lia)) as Hb. rewrite Hc in Hb. apply Forall_cons_iff in Hb as [Hb _].
  cbn [feed_all]. unfold mbind, stm_bind, AclAssembler_feed. cbn [connection_handle packet_boundary acl_data].
  rewrite (proj2 (Z.eqb_neq _ _)) by apply fragment_boundary_start. rewrite (proj2 (Z.ltb_lt _ _)) by (unfold len; lia). done.
Qed.

(** The assembler undoes the fragmentation, whatever else is pending. *)
Lemma fragment_feed_all h bc size pdu fl packets (pending : AclAssembler) :
  fragment_l2cap_pdu h bc size pdu fl = Ok packets -> 4 <= size ->
  feed_all packets pending =
    (Ok (replicate (length packets - 1) None ++ [Some pdu]), delete h pending).
Proof.
  intros H Hs. apply fragment_shape in H as ((b0 & b1 & rest & -> & Hl & H4) & _ & c & cs & Hc & ->); [|lia].
  pose proof (concat_chunks (Z.to_nat size) (b0 :: b1 :: rest) ltac:(lia)) as Hcat.
  pose proof (chunks_bounded (Z.to_nat size) (b0 :: b1 :: rest) ltac:(lia)) as Hb.
  rewrite Hc in Hcat, Hb. apply Forall_cons_iff in Hb as [_ Hb].
  apply chunk_head_length in Hc as [-> _]; [|lia|done]. cbn [concat] in Hcat.
  destruct (Z.to_nat size) as [|[|n]] eqn:Hn; [lia|lia|]. cbn [take] in *.
  assert (4 <= len (b0 :: b1 :: take n rest)) as Hc4 by len_lia.
  cbn [feed_all]. unfold mbind, stm_bind. rewrite (feed_start _ _ _ _ _ b0 b1 (take n rest))
    by (done || apply fragment_boundary_start). cbv zeta. rewrite <- Hl, <- Hcat, !len_app.
  pose proof (len_nonneg (concat cs)). rewrite (proj2 (Z.ltb_ge _ _)) by lia.
  destruct cs as [|c' cs].
  - cbn [concat] in *. change (len []) with 0. rewrite (proj2 (Z.eqb_eq _ _)) by lia.
    cbn. rewrite app_nil_r in *. by rewrite Hcat.
  - assert (0 < len (concat (c' :: cs))) as Hpos.
    { apply Forall_cons_iff in Hb as [Hc' _]. cbn [concat]. rewrite len_app.
      pose proof (len_nonneg (concat cs)). unfold len in *. lia. }
    rewrite (proj2 (Z.eqb_neq _ _)) by lia.
    erewrite feed_continuations; [|done| |by rewrite lookup_insert_eq|done].
    2:{ eapply List.Forall_impl; [|exact Hb]. cbn. intros; lia. }
    rewrite delete_insert_eq, Hcat. cbn [length]. rewrite length_fmap. cbn [length].
    by rewrite !Nat.sub_succ, !Nat.sub_0_r.
Qed.

(** ** Handles do not interfere *)

Lemma feed_other p h (pending : AclAssembler) : connection_handle p <> h ->
  (AclAssembler_feed p pending).2 !! h = pending !! h.
Proof.
  intros Hne. unfold AclAssembler_feed.
  repeat case_match; cbn; rewrite ?lookup_delete_ne, ?lookup_insert_ne by done; done.
Qed.

Lemma feed_local p (pending pending' : AclAssembler) :
  pending !! connection_handle p = pending' !! connection_handle p ->
  (AclAssembler_feed p pending).1 = (AclAssembler_feed p pending').1 /\
  (AclAssembler_feed p pending).2 !! connection_handle p =
    (AclAssembler_feed p pending').2 !! connection_handle p.
Proof.
  intros Heq. unfold AclAssembler_feed. rewrite <- Heq.
  destruct (packet_boundary p =? ACL_CONTINUATION).
  - destruct (pending !! connection_handle p) as [e|] eqn:He; [|cbn; by rewrite He, <- Heq].
    repeat case_match; cbn; by rewrite ?lookup_insert_eq, ?lookup_delete_eq.
  - repeat case_match; cbn; by rewrite ?lookup_insert_eq, ?lookup_delete_eq, ?Heq.
Qed.

Lemma feed_trace_filter h packets : forall pending pending' : AclAssembler,
  pending !! h = pending' !! h ->
  filter (fun x => connection_handle x.1 = h) (feed_trace packets pending) =
    feed_trace (filter (fun p => connection_handle p = h) packets) pending'.
Proof.
  induction packets as [|p packets IH]; intros pending pending' Heq; [done|]. cbn [feed_trace].
  destruct (AclAssembler_feed p pending) as [r s] eqn:Hf.
  rewrite !filter_cons. cbn [fst]. case_decide as Hp.
  - subst h. destruct (feed_local p _ _ Heq) as [Hr Hs]. rewrite Hf in Hr, Hs. cbn in Hr, Hs.
    cbn [feed_trace]. destruct (AclAssembler_feed p pending') as [r' s'].
    cbn in Hr, Hs. subst r'. f_equal. by apply IH.
  - apply IH. rewrite <- Heq. pose proof (feed_other p h pending Hp) as Ho. by rewrite Hf in Ho.
Qed.

(** ** Only complete PDUs come out *)

(** What a pending entry promises: its bytes start with a length field that
    announces [pa_expected] bytes, and more are missing. *)
Definition pending_ok (e : PendingAcl) : Prop :=
  exists b0 b1 rest, pa_data e = b0 :: b1 :: rest /\ pa_expected e = from_le_bytes [b0; b1] + 4 /\
  4 <= len (pa_data e) < pa_expected e.

Definition assembler_inv (pending : AclAssembler) : Prop := map_Forall (fun _ e => pending_ok e) pending.

Lemma feed_complete p : triple assembler_inv (AclAssembler_feed p)
  (fun r pending => assembler_inv pending /\
     match r with Ok (Some pdu) => pdu_complete pdu | Panic => False | _ => True end).
Proof.
  intros pending Hinv. unfold AclAssembler_feed.
  destruct (packet_boundary p =? ACL_CONTINUATION).
  - destruct (pending !! connection_handle p) as [[ex data]|] eqn:He; [|done].
    destruct (Hinv _ _ He) as (b0 & b1 & rest & Hd & Hex & Hlen). cbn in Hd, Hex, Hlen |- *.
    subst data. rewrite lookup_insert_eq, delete_insert_eq.
    pose proof (map_Forall_delete _ _ (connection_handle p) Hinv).
    destruct (ex <? _) eqn:?; [done|]. destruct (_ =? ex) eqn:?; bool_to_prop; (split; [done || idtac|done || idtac]).
    + eexists _, _, _. cbn [app pa_data] in *. repeat split; len_lia.
    + apply map_Forall_insert_2; [|done]. eexists _, _, _. cbn [app pa_data pa_expected] in *. repeat split; len_lia.
  - destruct (len (acl_data p) <? 4) eqn:H4; [done|]. bool_to_prop.
    destruct (acl_data p) as [|b0 [|b1 rest]]; [done|done|]. cbn [lookup list_lookup].
    destruct (_ + 4 <? _) eqn:?; [done|]. destruct (_ =? _ + 4) eqn:?; bool_to_prop; (split; [done || idtac|done || idtac]).
    + by apply map_Forall_delete.
    + eexists _, _, _. repeat split; lia.
    + apply map_Forall_insert_2; [|done]. eexists _, _, _. cbn. repeat split; lia.
Qed.

(** ** Properties of the HCI layer *)

(** Strict framing, both ways: a byte string decodes to a packet exactly
    when the packet is well formed and the string is its encoding. *)
Theorem packet_codec_exact b p : bytes b ->
  (Packet_from_bytes b = Ok p <-> Packet_wf p /\ b = Packet_to_bytes p).
Proof.
  intros Hb. split; [by apply Packet_from_bytes_inv|].
  intros [Hp ->]. by apply Packet_from_to_bytes.
Qed.

Lemma packet_codec_exact_witness :
  bytes [0x04; 0x0E; 0x04; 0x01; 0x03; 0x0C; 0x00] /\
  Packet_wf (Event (mkEvent 0x0E [0x01; 0x03; 0x0C; 0x00])).
Proof.
  assert (bytes [0x04; 0x0E; 0x04; 0x01; 0x03; 0x0C; 0x00]) as Hb by (vm_compute; repeat constructor; done).
  split; [exact Hb|].
  exact (proj1 (proj1 (packet_codec_exact _ (Event (mkEvent 0x0E [0x01; 0x03; 0x0C; 0x00])) Hb) eq_refl)).
Defined.

(** No byte string, whatever its length or declared lengths, makes the
    packet decoder panic: every index and slice is guarded. *)
Lemma packet_decode_no_panic b : no_panic (Packet_from_bytes b).
Proof.
  unfold no_panic, Packet_from_bytes, res_map, CommandPacket_from_bytes, EventPacket_from_bytes,
    AclPacket_from_bytes, CommandPacket_new, EventPacket_new, AclPacket_new, require_packet_type,
    validate_exact_length, validate_u8_length.
  destruct b as [|t [|b1 [|b2 [|b3 [|b4 rest]]]]]; read_prefix; repeat case_match; read_prefix; try done;
    repeat (match goal with |- context [if ?c then _ else _] => destruct c end; read_prefix); done.
Qed.

(** C36. Reassembly inverts fragmentation exactly when the ACL payload size has
    room for the four bytes of an L2CAP header: with such a size, feeding the
    packets of a fragmented PDU to the assembler, whatever it holds for this or
    other handles, yields nothing until the last packet, which yields the PDU
    unchanged, and leaves no pending bytes for the handle. With a smaller one,
    which the fragmentation accepts, the assembler refuses the first packet and
    keeps what it holds. *)
Theorem fragments_reassemble h bc size pdu fl packets (pending : AclAssembler) : 0 <= size ->
  fragment_l2cap_pdu h bc size pdu fl = Ok packets ->
  feed_all packets pending =
    if 4 <=? size then (Ok (replicate (length packets - 1) None ++ [Some pdu]), delete h pending)
    else (Err InvalidL2capPdu, pending).
Proof.
  intros Hs Hf. destruct (Z.leb_spec 4 size); [by eapply fragment_feed_all|]. by apply (fragment_too_small h bc size pdu fl).
Qed.

Definition sample_pdu : list Z := [5; 0; 0x40; 0; 1; 2; 3; 4; 5].

Lemma fragments_reassemble_witness :
  feed_all
    [mkAcl 0x123 0 0 [5; 0; 0x40; 0]; mkAcl 0x123 1 0 [1; 2; 3; 4]; mkAcl 0x123 1 0 [5]]
    {[ 7 := mkPending 9 [5; 0; 0x40; 0] ]}
  = (Ok [None; None; Some sample_pdu], delete 0x123 {[ 7 := mkPending 9 [5; 0; 0x40; 0] ]})
  /\ feed_all
       [mkAcl 0x123 0 0 [5; 0; 0x40]; mkAcl 0x123 1 0 [0; 1; 2]; mkAcl 0x123 1 0 [3; 4; 5]]
       {[ 7 := mkPending 9 [5; 0; 0x40; 0] ]}
     = (Err InvalidL2capPdu, {[ 7 := mkPending 9 [5; 0; 0x40; 0] ]}).
Proof.
  split.
  - apply (fragments_reassemble 0x123 0 4 sample_pdu false); [lia | reflexivity].
  - apply (fragments_reassemble 0x123 0 3 sample_pdu false); [lia | reflexivity].
Defined.

(** Traffic of different connection handles does not interfere: what the
    assembler answers to the packets of one handle in an interleaved stream
    is what it answers to that handle's packets alone. *)
Theorem assembler_handles_independent h packets (pending : AclAssembler) :
  filter (fun x => connection_handle x.1 = h) (feed_trace packets pending) =
    feed_trace (filter (fun p => connection_handle p = h) packets) pending.
Proof. by apply feed_trace_filter. Qed.

(** From the empty assembler, any sequence of ACL packets, erroneous ones
    included, keeps every pending entry short of its declared length, never
    panics, and delivers only PDUs whose L2CAP length field covers them
    exactly. *)
Theorem assembler_delivers_complete_pdus packets :
  Forall (fun x => match x.2 with Ok (Some pdu) => pdu_complete pdu | Panic => False | _ => True end)
    (feed_trace packets (∅ : AclAssembler)).
Proof.
  assert (assembler_inv ∅) as Hinv by apply map_Forall_empty. revert Hinv.
  generalize (∅ : AclAssembler). induction packets as [|p packets IH]; intros pending Hinv; [constructor|].
  cbn [feed_trace]. destruct (feed_complete p pending Hinv) as [Hinv' Hr].
  destruct (AclAssembler_feed p pending) as [r s]. constructor; [exact Hr | by apply IH].
Qed.
