(* ===== verification/L2cap.v ===== *)
(** * L2CAP frame codec ([src/src/l2cap/mod.rs])

    The L2CAP PDU with its optional frame check sequence, the signaling
    control frames, the variable-length PSM field, the configuration options
    and the information capabilities. *)
From S2P Require Import Prelude.

(** ** Errors: the message template of [format!] and its arguments *)
Inductive L2capError : Type :=
| InvalidPacket (template : string) (args : list Z).

#[global] Instance L2capError_eq_dec : EqDecision L2capError.
Proof. solve_decision. Defined.

(** ** Constants *)

Definition COMMAND_REJECT : Z := 0x01.
Definition CONNECTION_REQUEST : Z := 0x02.
Definition CONNECTION_RESPONSE : Z := 0x03.
Definition CONFIGURE_REQUEST : Z := 0x04.
Definition CONFIGURE_RESPONSE : Z := 0x05.
Definition DISCONNECTION_REQUEST : Z := 0x06.
Definition DISCONNECTION_RESPONSE : Z := 0x07.
Definition ECHO_REQUEST : Z := 0x08.
Definition ECHO_RESPONSE : Z := 0x09.
Definition INFORMATION_REQUEST : Z := 0x0A.
Definition INFORMATION_RESPONSE : Z := 0x0B.
Definition CONNECTION_PARAMETER_UPDATE_REQUEST : Z := 0x12.
Definition CONNECTION_PARAMETER_UPDATE_RESPONSE : Z := 0x13.
Definition LE_CREDIT_BASED_CONNECTION_REQUEST : Z := 0x14.
Definition LE_CREDIT_BASED_CONNECTION_RESPONSE : Z := 0x15.
Definition LE_FLOW_CONTROL_CREDIT : Z := 0x16.
Definition CREDIT_BASED_CONNECTION_REQUEST : Z := 0x17.
Definition CREDIT_BASED_CONNECTION_RESPONSE : Z := 0x18.
Definition CREDIT_BASED_RECONFIGURE_REQUEST : Z := 0x19.
Definition CREDIT_BASED_RECONFIGURE_RESPONSE : Z := 0x1A.

Definition L2CAP_SIGNALING_CID : Z := 0x0001.
Definition L2CAP_LE_SIGNALING_CID : Z := 0x0005.
Definition L2CAP_DEFAULT_CONNECTIONLESS_MTU : Z := 1024.

Definition INFORMATION_TYPE_CONNECTIONLESS_MTU : Z := 0x0001.
Definition INFORMATION_TYPE_EXTENDED_FEATURES_SUPPORTED : Z := 0x0002.
Definition INFORMATION_TYPE_FIXED_CHANNELS_SUPPORTED : Z := 0x0003.
Definition INFORMATION_RESULT_SUCCESS : Z := 0x0000.
Definition INFORMATION_RESULT_NOT_SUPPORTED : Z := 0x0001.

Definition CONNECTION_SUCCESSFUL : Z := 0x0000.
Definition CONNECTION_PENDING : Z := 0x0001.
Definition CONNECTION_REFUSED_PSM_NOT_SUPPORTED : Z := 0x0002.
Definition CONNECTION_REFUSED_NO_RESOURCES_AVAILABLE : Z := 0x0004.

Definition CONFIGURATION_SUCCESS : Z := 0x0000.
Definition CONFIGURATION_UNACCEPTABLE_PARAMETERS : Z := 0x0001.
Definition CONFIGURATION_REJECTED : Z := 0x0002.
Definition CONFIGURATION_UNKNOWN_OPTIONS : Z := 0x0003.

Definition CONFIGURATION_OPTION_MTU : Z := 0x01.
Definition CONFIGURATION_OPTION_RETRANSMISSION_AND_FLOW_CONTROL : Z := 0x04.
Definition CONFIGURATION_OPTION_FCS : Z := 0x05.

(** ** Frame check sequence *)

Definition crc_bit (crc : Z) : Z :=
  if negb (Z.land crc 0x0001 =? 0) then Z.lxor (Z.shiftr crc 1) 0xA001 else Z.shiftr crc 1.

Definition crc_byte (crc byte : Z) : Z := Nat.iter 8 crc_bit (Z.lxor crc byte).

Definition crc_16 (data : list Z) : Z := fold_left crc_byte data 0x0000.

(** ** PSM field *)

(** The [while rest != 0] loop of [serialize_psm]; a [u32] leaves at most two
    bytes after its low half, so two rounds of fuel suffice. *)
Fixpoint serialize_psm_rest (fuel : nat) (rest : Z) : list Z :=
  match fuel with
  | O => []
  | S fuel' =>
      if rest =? 0 then [] else Z.land rest 0xFF :: serialize_psm_rest fuel' (Z.shiftr rest 8)
  end.

Definition serialize_psm (psm : Z) : list Z :=
  to_le_bytes 2 (Z.land psm 0xFFFF) ++ serialize_psm_rest 2 (Z.shiftr psm 16).

Section psm.
Context `{Profile}.

(** The [while data[offset + psm_length - 1] % 2 == 1] loop of [parse_psm]:
    [last] is the byte the test reads, [rest] the bytes after it. *)
Fixpoint parse_psm_loop (last : Z) (rest : list Z) (psm : Z) (psm_length : nat)
  : res L2capError (nat * Z) :=
  if last mod 2 =? 1 then
    match rest with
    | [] => Err (InvalidPacket "truncated PSM" [])
    | b :: rest' =>
        shifted ← checked_shl 32 b (8 * Z.of_nat psm_length);
        parse_psm_loop b rest' (Z.lor psm shifted) (S psm_length)
    end
  else Ok (psm_length, psm).

Definition parse_psm (data : list Z) (offset : nat) : res L2capError (nat * Z) :=
  if len data <? Z.of_nat offset + 2 then Err (InvalidPacket "not enough data for PSM" []) else
  b0 ← idx data offset;
  b1 ← idx data (offset + 1);
  let psm := Z.lor b0 (Z.shiftl b1 8) in
  '(psm_length, psm) ← parse_psm_loop b1 (drop (offset + 2) data) psm 2;
  Ok ((offset + psm_length)%nat, psm).
End psm.

(** ** PDUs *)

Record L2capPdu : Type := mkPdu {
  pdu_cid : Z;
  pdu_payload : list Z
}.

#[global] Instance L2capPdu_eq_dec : EqDecision L2capPdu.
Proof. solve_decision. Defined.

Definition L2capPdu_from_bytes (data : list Z) : res L2capError L2capPdu :=
  if len data <? 4 then Err (InvalidPacket "not enough data for L2CAP header" []) else
  b0 ← idx data 0;
  b1 ← idx data 1;
  b2 ← idx data 2;
  b3 ← idx data 3;
  let length := from_le_bytes [b0; b1] in
  let cid := from_le_bytes [b2; b3] in
  let finish := Z.min (4 + length) (len data) in
  payload ← slice data 4 (Z.to_nat finish);
  Ok {| pdu_cid := cid; pdu_payload := payload |}.

Definition L2capPdu_to_bytes (self : L2capPdu) (with_fcs : bool) : list Z :=
  let length := len (pdu_payload self) + (if with_fcs then 2 else 0) in
  let body := to_le_bytes 2 (length mod 65536) ++ to_le_bytes 2 (pdu_cid self) ++ pdu_payload self in
  if with_fcs then body ++ to_le_bytes 2 (crc_16 body) else body.

(** ** Control frames *)

Inductive ControlFrame : Type :=
| CommandReject (identifier reason : Z) (data : list Z)
| ConnectionRequest (identifier psm source_cid : Z)
| ConnectionResponse (identifier destination_cid source_cid result status : Z)
| ConfigureRequest (identifier destination_cid flags : Z) (options : list Z)
| ConfigureResponse (identifier source_cid flags result : Z) (options : list Z)
| DisconnectionRequest (identifier destination_cid source_cid : Z)
| DisconnectionResponse (identifier destination_cid source_cid : Z)
| EchoRequest (identifier : Z) (data : list Z)
| EchoResponse (identifier : Z) (data : list Z)
| InformationRequest (identifier info_type : Z)
| InformationResponse (identifier info_type result : Z) (data : list Z)
| ConnectionParameterUpdateRequest (identifier interval_min interval_max latency timeout : Z)
| ConnectionParameterUpdateResponse (identifier result : Z)
| LeCreditBasedConnectionRequest (identifier le_psm source_cid mtu mps initial_credits : Z)
| LeCreditBasedConnectionResponse (identifier destination_cid mtu mps initial_credits result : Z)
| LeFlowControlCredit (identifier cid credits : Z)
| CreditBasedConnectionRequest (identifier spsm mtu mps initial_credits : Z) (source_cid : list Z)
| CreditBasedConnectionResponse (identifier mtu mps initial_credits result : Z) (destination_cid : list Z)
| CreditBasedReconfigureRequest (identifier mtu mps : Z) (destination_cid : list Z)
| CreditBasedReconfigureResponse (identifier result : Z)
| Generic (code identifier : Z) (payload : list Z).

#[global] Instance ControlFrame_eq_dec : EqDecision ControlFrame.
Proof. solve_decision. Defined.

Definition push_u16 (p : list Z) (v : Z) : list Z := p ++ to_le_bytes 2 v.

Definition read_cid_list (data : list Z) : res L2capError (list Z) :=
  if negb (len data mod 2 =? 0) then Err (InvalidPacket "CID list has an odd byte length" []) else
  collect ((fun c => c0 ← idx c 0; c1 ← idx c 1; Ok (from_le_bytes [c0; c1])) <$> chunks_exact 2 data).

Definition ControlFrame_code (self : ControlFrame) : Z :=
  match self with
  | CommandReject _ _ _ => COMMAND_REJECT
  | ConnectionRequest _ _ _ => CONNECTION_REQUEST
  | ConnectionResponse _ _ _ _ _ => CONNECTION_RESPONSE
  | ConfigureRequest _ _ _ _ => CONFIGURE_REQUEST
  | ConfigureResponse _ _ _ _ _ => CONFIGURE_RESPONSE
  | DisconnectionRequest _ _ _ => DISCONNECTION_REQUEST
  | DisconnectionResponse _ _ _ => DISCONNECTION_RESPONSE
  | EchoRequest _ _ => ECHO_REQUEST
  | EchoResponse _ _ => ECHO_RESPONSE
  | InformationRequest _ _ => INFORMATION_REQUEST
  | InformationResponse _ _ _ _ => INFORMATION_RESPONSE
  | ConnectionParameterUpdateRequest _ _ _ _ _ => CONNECTION_PARAMETER_UPDATE_REQUEST
  | ConnectionParameterUpdateResponse _ _ => CONNECTION_PARAMETER_UPDATE_RESPONSE
  | LeCreditBasedConnectionRequest _ _ _ _ _ _ => LE_CREDIT_BASED_CONNECTION_REQUEST
  | LeCreditBasedConnectionResponse _ _ _ _ _ _ => LE_CREDIT_BASED_CONNECTION_RESPONSE
  | LeFlowControlCredit _ _ _ => LE_FLOW_CONTROL_CREDIT
  | CreditBasedConnectionRequest _ _ _ _ _ _ => CREDIT_BASED_CONNECTION_REQUEST
  | CreditBasedConnectionResponse _ _ _ _ _ _ => CREDIT_BASED_CONNECTION_RESPONSE
  | CreditBasedReconfigureRequest _ _ _ _ => CREDIT_BASED_RECONFIGURE_REQUEST
  | CreditBasedReconfigureResponse _ _ => CREDIT_BASED_RECONFIGURE_RESPONSE
  | Generic code _ _ => code
  end.

Definition ControlFrame_identifier (self : ControlFrame) : Z :=
  match self with
  | CommandReject identifier _ _ | ConnectionRequest identifier _ _
  | ConnectionResponse identifier _ _ _ _ | ConfigureRequest identifier _ _ _
  | ConfigureResponse identifier _ _ _ _ | DisconnectionRequest identifier _ _
  | DisconnectionResponse identifier _ _ | EchoRequest identifier _ | EchoResponse identifier _
  | InformationRequest identifier _ | InformationResponse identifier _ _ _
  | ConnectionParameterUpdateRequest identifier _ _ _ _
  | ConnectionParameterUpdateResponse identifier _
  | LeCreditBasedConnectionRequest identifier _ _ _ _ _
  | LeCreditBasedConnectionResponse identifier _ _ _ _ _ | LeFlowControlCredit identifier _ _
  | CreditBasedConnectionRequest identifier _ _ _ _ _
  | CreditBasedConnectionResponse identifier _ _ _ _ _
  | CreditBasedReconfigureRequest identifier _ _ _ | CreditBasedReconfigureResponse identifier _
  | Generic _ identifier _ => identifier
  end.

(** Several [push_u16] calls in a row. *)
Definition push_all (vs : list Z) : list Z := fold_left push_u16 vs [].

Definition ControlFrame_payload (self : ControlFrame) : list Z :=
  match self with
  | CommandReject _ reason data => push_all [reason] ++ data
  | ConnectionRequest _ psm source_cid => push_u16 (serialize_psm psm) source_cid
  | ConnectionResponse _ destination_cid source_cid result status =>
      push_all [destination_cid; source_cid; result; status]
  | ConfigureRequest _ destination_cid flags options => push_all [destination_cid; flags] ++ options
  | ConfigureResponse _ source_cid flags result options => push_all [source_cid; flags; result] ++ options
  | DisconnectionRequest _ destination_cid source_cid
  | DisconnectionResponse _ destination_cid source_cid => push_all [destination_cid; source_cid]
  | EchoRequest _ data | EchoResponse _ data => data
  | InformationRequest _ info_type => push_all [info_type]
  | InformationResponse _ info_type result data => push_all [info_type; result] ++ data
  | ConnectionParameterUpdateRequest _ interval_min interval_max latency timeout =>
      push_all [interval_min; interval_max; latency; timeout]
  | ConnectionParameterUpdateResponse _ result => push_all [result]
  | LeCreditBasedConnectionRequest _ le_psm source_cid mtu mps initial_credits =>
      push_all [le_psm; source_cid; mtu; mps; initial_credits]
  | LeCreditBasedConnectionResponse _ destination_cid mtu mps initial_credits result =>
      push_all [destination_cid; mtu; mps; initial_credits; result]
  | LeFlowControlCredit _ cid credits => push_all [cid; credits]
  | CreditBasedConnectionRequest _ spsm mtu mps initial_credits source_cid =>
      push_all ([spsm; mtu; mps; initial_credits] ++ source_cid)
  | CreditBasedConnectionResponse _ mtu mps initial_credits result destination_cid =>
      push_all ([mtu; mps; initial_credits; result] ++ destination_cid)
  | CreditBasedReconfigureRequest _ mtu mps destination_cid => push_all ([mtu; mps] ++ destination_cid)
  | CreditBasedReconfigureResponse _ result => push_all [result]
  | Generic _ _ payload => payload
  end.

Definition ControlFrame_to_bytes (self : ControlFrame) : list Z :=
  let payload := ControlFrame_payload self in
  [ControlFrame_code self; ControlFrame_identifier self]
  ++ to_le_bytes 2 (len payload mod 65536) ++ payload.

Definition need (payload : list Z) (n : Z) : res L2capError unit :=
  if len payload <? n then
    Err (InvalidPacket "control frame payload too short: need {n}, have {}" [n; len payload])
  else Ok tt.

Definition le16 (data : list Z) (offset : nat) : res L2capError Z :=
  b0 ← idx data offset;
  b1 ← idx data (offset + 1);
  Ok (from_le_bytes [b0; b1]).

(** The LE and credit-based branches of [ControlFrame::from_bytes] and its
    fallback. *)
Definition ControlFrame_decode_credit (code identifier : Z) (payload : list Z)
  : res L2capError ControlFrame :=
  if code =? LE_CREDIT_BASED_CONNECTION_REQUEST then
    _ ← need payload 10;
    le_psm ← le16 payload 0;
    source_cid ← le16 payload 2;
    mtu ← le16 payload 4;
    mps ← le16 payload 6;
    initial_credits ← le16 payload 8;
    Ok (LeCreditBasedConnectionRequest identifier le_psm source_cid mtu mps initial_credits)
  else if code =? LE_CREDIT_BASED_CONNECTION_RESPONSE then
    _ ← need payload 10;
    destination_cid ← le16 payload 0;
    mtu ← le16 payload 2;
    mps ← le16 payload 4;
    initial_credits ← le16 payload 6;
    result ← le16 payload 8;
    Ok (LeCreditBasedConnectionResponse identifier destination_cid mtu mps initial_credits result)
  else if code =? LE_FLOW_CONTROL_CREDIT then
    _ ← need payload 4;
    cid ← le16 payload 0;
    credits ← le16 payload 2;
    Ok (LeFlowControlCredit identifier cid credits)
  else if code =? CREDIT_BASED_CONNECTION_REQUEST then
    _ ← need payload 8;
    spsm ← le16 payload 0;
    mtu ← le16 payload 2;
    mps ← le16 payload 4;
    initial_credits ← le16 payload 6;
    tail ← slice_from payload 8;
    source_cid ← read_cid_list tail;
    Ok (CreditBasedConnectionRequest identifier spsm mtu mps initial_credits source_cid)
  else if code =? CREDIT_BASED_CONNECTION_RESPONSE then
    _ ← need payload 8;
    mtu ← le16 payload 0;
    mps ← le16 payload 2;
    initial_credits ← le16 payload 4;
    result ← le16 payload 6;
    tail ← slice_from payload 8;
    destination_cid ← read_cid_list tail;
    Ok (CreditBasedConnectionResponse identifier mtu mps initial_credits result destination_cid)
  else if code =? CREDIT_BASED_RECONFIGURE_REQUEST then
    _ ← need payload 4;
    mtu ← le16 payload 0;
    mps ← le16 payload 2;
    tail ← slice_from payload 4;
    destination_cid ← read_cid_list tail;
    Ok (CreditBasedReconfigureRequest identifier mtu mps destination_cid)
  else if code =? CREDIT_BASED_RECONFIGURE_RESPONSE then
    _ ← need payload 2;
    result ← le16 payload 0;
    Ok (CreditBasedReconfigureResponse identifier result)
  else Ok (Generic code identifier payload).

Section decode.
Context `{Profile}.

(** The Classic branches of [ControlFrame::from_bytes]. *)
Definition ControlFrame_decode (code identifier : Z) (payload : list Z)
  : res L2capError ControlFrame :=
  if code =? COMMAND_REJECT then
    _ ← need payload 2;
    reason ← le16 payload 0;
    data ← slice_from payload 2;
    Ok (CommandReject identifier reason data)
  else if code =? CONNECTION_REQUEST then
    '(offset, psm) ← parse_psm payload 0;
    if len payload <? Z.of_nat offset + 2 then
      Err (InvalidPacket "truncated Connection_Request" [])
    else
      source_cid ← le16 payload offset;
      Ok (ConnectionRequest identifier psm source_cid)
  else if code =? CONNECTION_RESPONSE then
    _ ← need payload 8;
    destination_cid ← le16 payload 0;
    source_cid ← le16 payload 2;
    result ← le16 payload 4;
    status ← le16 payload 6;
    Ok (ConnectionResponse identifier destination_cid source_cid result status)
  else if code =? CONFIGURE_REQUEST then
    _ ← need payload 4;
    destination_cid ← le16 payload 0;
    flags ← le16 payload 2;
    options ← slice_from payload 4;
    Ok (ConfigureRequest identifier destination_cid flags options)
  else if code =? CONFIGURE_RESPONSE then
    _ ← need payload 6;
    source_cid ← le16 payload 0;
    flags ← le16 payload 2;
    result ← le16 payload 4;
    options ← slice_from payload 6;
    Ok (ConfigureResponse identifier source_cid flags result options)
  else if code =? DISCONNECTION_REQUEST then
    _ ← need payload 4;
    destination_cid ← le16 payload 0;
    source_cid ← le16 payload 2;
    Ok (DisconnectionRequest identifier destination_cid source_cid)
  else if code =? DISCONNECTION_RESPONSE then
    _ ← need payload 4;
    destination_cid ← le16 payload 0;
    source_cid ← le16 payload 2;
    Ok (DisconnectionResponse identifier destination_cid source_cid)
  else if code =? ECHO_REQUEST then Ok (EchoRequest identifier payload)
  else if code =? ECHO_RESPONSE then Ok (EchoResponse identifier payload)
  else if code =? INFORMATION_REQUEST then
    _ ← need payload 2;
    info_type ← le16 payload 0;
    Ok (InformationRequest identifier info_type)
  else if code =? INFORMATION_RESPONSE then
    _ ← need payload 4;
    info_type ← le16 payload 0;
    result ← le16 payload 2;
    data ← slice_from payload 4;
    Ok (InformationResponse identifier info_type result data)
  else if code =? CONNECTION_PARAMETER_UPDATE_REQUEST then
    _ ← need payload 8;
    interval_min ← le16 payload 0;
    interval_max ← le16 payload 2;
    latency ← le16 payload 4;
    timeout ← le16 payload 6;
    Ok (ConnectionParameterUpdateRequest identifier interval_min interval_max latency timeout)
  else if code =? CONNECTION_PARAMETER_UPDATE_RESPONSE then
    _ ← need payload 2;
    result ← le16 payload 0;
    Ok (ConnectionParameterUpdateResponse identifier result)
  else ControlFrame_decode_credit code identifier payload.

Definition ControlFrame_from_bytes (pdu : list Z) : res L2capError ControlFrame :=
  if len pdu <? 4 then Err (InvalidPacket "not enough data for control frame" []) else
  code ← idx pdu 0;
  identifier ← idx pdu 1;
  b2 ← idx pdu 2;
  b3 ← idx pdu 3;
  let length := from_le_bytes [b2; b3] in
  let finish := Z.min (4 + length) (len pdu) in
  payload ← slice pdu 4 (Z.to_nat finish);
  ControlFrame_decode code identifier payload.
End decode.

(** ** Configuration options *)

Record ConfigurationOption : Type := mkOption {
  option_type : Z;
  option_hint : bool;
  option_value : list Z
}.

#[global] Instance ConfigurationOption_eq_dec : EqDecision ConfigurationOption.
Proof. solve_decision. Defined.

Definition ConfigurationOption_new (type : Z) (value : list Z) : ConfigurationOption :=
  {| option_type := Z.land type 0x7f; option_hint := false; option_value := value |}.

Definition ConfigurationOption_hinted (type : Z) (value : list Z) : ConfigurationOption :=
  {| option_type := Z.land type 0x7f; option_hint := true; option_value := value |}.

Fixpoint encode_configuration_options (options : list ConfigurationOption) : res L2capError (list Z) :=
  match options with
  | [] => Ok []
  | option :: rest =>
      if 255 <? len (option_value option) then Err (InvalidPacket "configuration option is too long" [])
      else
        encoded ← encode_configuration_options rest;
        Ok ([Z.lor (option_type option) (if option_hint option then 0x80 else 0);
             len (option_value option)] ++ option_value option ++ encoded)
  end.

(** The [while !data.is_empty()] loop; every round consumes at least the two
    header bytes, so the length of the data is enough fuel. *)
Fixpoint decode_options_loop (fuel : nat) (data : list Z) : res L2capError (list ConfigurationOption) :=
  match fuel with
  | O => Ok []
  | S fuel' =>
      match data with
      | [] => Ok []
      | [_] => Err (InvalidPacket "truncated configuration option header" [])
      | raw_type :: length :: _ =>
          if len data <? 2 + length then
            Err (InvalidPacket "truncated configuration option value" [])
          else
            value ← slice data 2 (Z.to_nat (2 + length));
            tail ← slice_from data (Z.to_nat (2 + length));
            options ← decode_options_loop fuel' tail;
            Ok ({| option_type := Z.land raw_type 0x7f;
                   option_hint := negb (Z.land raw_type 0x80 =? 0);
                   option_value := value |} :: options)
      end
  end.

Definition decode_configuration_options (data : list Z) : res L2capError (list ConfigurationOption) :=
  decode_options_loop (length data) data.

(** ** Information capabilities *)

Record InformationCapabilities : Type := mkCapabilities {
  connectionless_mtu : Z;
  extended_features : Z;
  fixed_channels : Z
}.

Definition InformationCapabilities_default : InformationCapabilities :=
  {| connectionless_mtu := L2CAP_DEFAULT_CONNECTIONLESS_MTU;
     extended_features := 0;
     fixed_channels := Z.shiftl 1 L2CAP_SIGNALING_CID |}.

(** [extended_features.into_iter().map(u32::from).sum()] *)
Definition sum_u32 `{Profile} (xs : list Z) : res L2capError Z :=
  fold_left (fun acc x => total ← acc; checked_add 32 total x) xs (Ok 0).

Definition InformationCapabilities_new `{Profile} (features : list Z)
  : res L2capError InformationCapabilities :=
  total ← sum_u32 features;
  Ok {| connectionless_mtu := connectionless_mtu InformationCapabilities_default;
        extended_features := total;
        fixed_channels := fixed_channels InformationCapabilities_default |}.

Definition set_connectionless_mtu (self : InformationCapabilities) (mtu : Z) : InformationCapabilities :=
  {| connectionless_mtu := mtu; extended_features := extended_features self;
     fixed_channels := fixed_channels self |}.

Definition set_fixed_channels (self : InformationCapabilities) (mask : Z) : InformationCapabilities :=
  {| connectionless_mtu := connectionless_mtu self; extended_features := extended_features self;
     fixed_channels := mask |}.

Definition register_fixed_channel (cid : Z) : stm InformationCapabilities L2capError unit := fun self =>
  if 64 <=? cid then
    (Err (InvalidPacket "fixed channel CID {cid:#06x} cannot be represented in the information mask" [cid]), self)
  else (Ok tt, set_fixed_channels self (Z.lor (fixed_channels self) (Z.shiftl 1 cid))).

(** [!bit] on a [u64] *)
Definition lnot_u64 (x : Z) : Z := Z.lxor x (2 ^ 64 - 1).

Definition deregister_fixed_channel (self : InformationCapabilities) (cid : Z)
  : bool * InformationCapabilities :=
  if 64 <=? cid then (false, self) else
  let bit := Z.shiftl 1 cid in
  let was_registered := negb (Z.land (fixed_channels self) bit =? 0) in
  (was_registered, set_fixed_channels self (Z.land (fixed_channels self) (lnot_u64 bit))).

Definition InformationCapabilities_response (self : InformationCapabilities) (identifier info_type : Z)
  : ControlFrame :=
  let '(result, data) :=
    if info_type =? INFORMATION_TYPE_CONNECTIONLESS_MTU then
      (INFORMATION_RESULT_SUCCESS, to_le_bytes 2 (connectionless_mtu self))
    else if info_type =? INFORMATION_TYPE_EXTENDED_FEATURES_SUPPORTED then
      (INFORMATION_RESULT_SUCCESS, to_le_bytes 4 (extended_features self))
    else if info_type =? INFORMATION_TYPE_FIXED_CHANNELS_SUPPORTED then
      (INFORMATION_RESULT_SUCCESS, to_le_bytes 8 (fixed_channels self))
    else (INFORMATION_RESULT_NOT_SUPPORTED, []) in
  InformationResponse identifier info_type result data.

(** The struct [InformationResponse]: a peer's completed answer. *)
Record InformationAnswer : Type := mkAnswer {
  ans_identifier : Z;
  ans_info_type : Z;
  ans_result : Z;
  ans_data : list Z
}.

(** ** The frame check sequence *)

Lemma crc_bit_alt x : crc_bit x = Z.lxor (Z.shiftr x 1) (if Z.testbit x 0 then 0xA001 else 0).
Proof.
  unfold crc_bit. change 0x0001 with (Z.ones 1). rewrite Z.land_ones by lia.
  rewrite Z.bit0_odd. rewrite Zmod_odd. destruct (Z.odd x); [done|]. cbn. by rewrite Z.lxor_0_r.
Qed.

Lemma crc_bit_lxor a b : crc_bit (Z.lxor a b) = Z.lxor (crc_bit a) (crc_bit b).
Proof.
  rewrite !crc_bit_alt, Z.shiftr_lxor, Z.lxor_spec.
  apply Z.bits_inj'. intros k Hk.
  destruct (Z.testbit a 0), (Z.testbit b 0); cbn [xorb]; rewrite !Z.lxor_spec, ?Z.bits_0;
    repeat match goal with |- context [Z.testbit ?x k] => destruct (Z.testbit x k) end; done.
Qed.

Lemma crc_bit_range x : u16 x -> u16 (crc_bit x).
Proof.
  intros Hx. rewrite crc_bit_alt. apply (lxor_range _ _ 16); [lia| |].
  - rewrite Z.shiftr_div_pow2 by lia. change (2 ^ 1) with 2. Z.div_mod_to_equations. lia.
  - destruct (Z.testbit x 0); lia.
Qed.

Lemma crc_bit_double y : 0 <= y -> crc_bit (2 * y) = y.
Proof.
  intros Hy. rewrite crc_bit_alt, Z.testbit_even_0, Z.lxor_0_r, Z.shiftr_div_pow2 by lia.
  change (2 ^ 1) with 2. by rewrite Z.mul_comm, Z.div_mul.
Qed.

Lemma crc_bit_zero x : u16 x -> crc_bit x = 0 -> x = 0.
Proof.
  intros Hx. rewrite crc_bit_alt, Z.bit0_odd, Z.shiftr_div_pow2 by lia.
  change (2 ^ 1) with 2. intros H%Z.lxor_eq. pose proof (Zmod_odd x) as Ho.
  destruct (Z.odd x); Z.div_mod_to_equations; lia.
Qed.

Lemma crc_iter_lxor n a b :
  Nat.iter n crc_bit (Z.lxor a b) = Z.lxor (Nat.iter n crc_bit a) (Nat.iter n crc_bit b).
Proof. induction n as [|n IH]; [done|]. by rewrite !Nat.iter_succ, IH, crc_bit_lxor. Qed.

Lemma crc_iter_range n x : u16 x -> u16 (Nat.iter n crc_bit x).
Proof. intros Hx. induction n as [|n IH]; [done|]. rewrite Nat.iter_succ. by apply crc_bit_range. Qed.

Lemma crc_iter_zero n x : u16 x -> Nat.iter n crc_bit x = 0 -> x = 0.
Proof.
  intros Hx. induction n as [|n IH]; [done|]. rewrite Nat.iter_succ. intros H.
  apply IH, crc_bit_zero; [by apply crc_iter_range | done].
Qed.

Lemma crc_iter_shift n y : 0 <= y -> Nat.iter n crc_bit (2 ^ Z.of_nat n * y) = y.
Proof.
  intros Hy. revert y Hy. induction n as [|n IH]; intros y Hy; [cbn; lia|].
  rewrite Nat.iter_succ_r, Nat2Z.inj_succ, Z.pow_succ_r, <- Z.mul_assoc by lia.
  rewrite crc_bit_double by (apply Z.mul_nonneg_nonneg; lia). by apply IH.
Qed.

Lemma crc_byte_range c b : u16 c -> u8 b -> u16 (crc_byte c b).
Proof. intros. apply crc_iter_range, (lxor_range _ _ 16); lia. Qed.

Lemma crc_iter_inj n a b : u16 a -> u16 b -> Nat.iter n crc_bit a = Nat.iter n crc_bit b -> a = b.
Proof.
  intros Ha Hb Heq. apply Z.lxor_eq, (crc_iter_zero n); [apply (lxor_range _ _ 16); lia|].
  rewrite crc_iter_lxor, Heq. apply Z.lxor_nilpotent.
Qed.

Lemma lxor_inj_l c a b : Z.lxor c a = Z.lxor c b -> a = b.
Proof.
  intros H. apply (f_equal (Z.lxor c)) in H.
  by rewrite <- !Z.lxor_assoc, !Z.lxor_nilpotent, !Z.lxor_0_l in H.
Qed.

Lemma crc_byte_inj c c' b : u16 c -> u16 c' -> u8 b -> crc_byte c b = crc_byte c' b -> c = c'.
Proof.
  intros Hc Hc' Hb H. apply crc_iter_inj in H; [|apply (lxor_range _ _ 16); lia..].
  rewrite !(Z.lxor_comm _ b) in H. by apply lxor_inj_l in H.
Qed.

(** Two bytes entering a 16-bit register. *)
Lemma lxor_word a b : u8 a -> u8 b -> Z.lxor a (Z.shiftl b 8) = a + 256 * b.
Proof.
  intros Ha Hb. rewrite Z.mul_comm. change 256 with (2 ^ 8). rewrite <- lor_shiftl_add by lia. apply Z.lxor_lor.
  apply Z.bits_inj'. intros k Hk. rewrite Z.land_spec, Z.bits_0.
  destruct (Z.ltb_spec k 8); [by rewrite Z.shiftl_spec_low, andb_false_r by lia|].
  rewrite <- (Z.mod_small a (2 ^ 8)) by lia. by rewrite Z.mod_pow2_bits_high by lia.
Qed.

(** Two bytes enter the register as one 16-bit word. *)
Lemma crc_byte_byte c x y : u8 y ->
  crc_byte (crc_byte c x) y = Nat.iter 16 crc_bit (Z.lxor (Z.lxor c x) (Z.shiftl y 8)).
Proof.
  intros Hy. unfold crc_byte. replace 16%nat with (8 + 8)%nat by done. rewrite Nat.iter_add.
  rewrite !(crc_iter_lxor 8 _ (Z.shiftl y 8)).
  rewrite Z.shiftl_mul_pow2, (Z.mul_comm y) by lia. change (2 ^ 8) with (2 ^ Z.of_nat 8).
  by rewrite crc_iter_shift by lia.
Qed.

Lemma fold_left_two {A B} (f : A -> B -> A) a x y : fold_left f [x; y] a = f (f a x) y.
Proof. reflexivity. Qed.

Lemma crc_two_bytes_inj c x y x' y' : u16 c -> u8 x -> u8 y -> u8 x' -> u8 y' ->
  crc_byte (crc_byte c x) y = crc_byte (crc_byte c x') y' -> x = x' /\ y = y'.
Proof.
  intros Hc Hx Hy Hx' Hy' Heq. rewrite !crc_byte_byte, !Z.lxor_assoc, !lxor_word in Heq by assumption.
  apply crc_iter_inj in Heq; [|apply (lxor_range _ _ 16); lia..].
  apply lxor_inj_l in Heq. lia.
Qed.

Lemma crc_fold_range l : bytes l -> forall c, u16 c -> u16 (fold_left crc_byte l c).
Proof.
  induction 1 as [|b l Hb Hl IH]; intros c Hc; [exact Hc|]. cbn [fold_left]. apply IH, crc_byte_range; assumption.
Qed.

Lemma crc_fold_inj l : bytes l -> forall c c', u16 c -> u16 c' ->
  fold_left crc_byte l c = fold_left crc_byte l c' -> c = c'.
Proof.
  induction 1 as [|b l Hb Hl IH]; intros c c' Hc Hc' H; [exact H|]. cbn [fold_left] in H.
  apply (crc_byte_inj c c' b Hc Hc' Hb). exact (IH _ _ (crc_byte_range c b Hc Hb) (crc_byte_range c' b Hc' Hb) H).
Qed.

Lemma crc_16_range l : bytes l -> u16 (crc_16 l).
Proof. intros. apply crc_fold_range; [assumption | lia]. Qed.

Lemma crc_16_app l1 l2 : crc_16 (l1 ++ l2) = fold_left crc_byte l2 (crc_16 l1).
Proof. apply fold_left_app. Qed.

Lemma crc_burst pre x y x' y' post :
  bytes (pre ++ [x; y] ++ post) -> bytes (pre ++ [x'; y'] ++ post) ->
  crc_16 (pre ++ [x; y] ++ post) = crc_16 (pre ++ [x'; y'] ++ post) -> x = x' /\ y = y'.
Proof.
  rewrite !bytes_app. intros (Hpre & Hxy & Hpost) (_ & Hxy' & _).
  apply bytes_cons in Hxy as [Hx [Hy _]%bytes_cons]. apply bytes_cons in Hxy' as [Hx' [Hy' _]%bytes_cons].
  pose proof (crc_16_range pre Hpre) as Hc. rewrite !crc_16_app, !fold_left_app, !fold_left_two. intros Heq.
  apply (crc_two_bytes_inj (crc_16 pre)); try assumption.
  apply (crc_fold_inj post Hpost); [auto using crc_byte_range..|]. exact Heq.
Qed.

Lemma crc_residue_step c : u16 c -> fold_left crc_byte (to_le_bytes 2 c) c = 0.
Proof.
  intros Hc. rewrite to_le_bytes_2. cbn [fold_left].
  rewrite crc_byte_byte by (apply Z.mod_pos_bound; lia).
  replace (Z.lxor _ _) with 0; [done|]. symmetry. rewrite Z.lxor_assoc. apply Z.lxor_eq_0_iff.
  assert (c = c mod 256 + c / 256 mod 256 * 2 ^ 8) as Hs by (Z.div_mod_to_equations; lia).
  rewrite Hs at 1. pose proof (Z.mod_pos_bound c 256 ltac:(lia)) as Hlow.
  rewrite <- lor_shiftl_add by lia. rewrite Z.lxor_lor; [done|].
  apply Z.bits_inj'. intros k Hk. rewrite Z.land_spec, Z.bits_0. change 256 with (2 ^ 8) in *.
  destruct (Z.ltb_spec k 8); [rewrite (Z.shiftl_spec_low _ _ k) by lia; apply andb_false_r|].
  by rewrite Z.mod_pow2_bits_high by lia.
Qed.

(** ** The PSM field *)

(** The [u32] values whose serialization the extension rule of [parse_psm]
    reads back: every byte but the last one after the first is odd. *)
Definition psm_extension_ok (psm : Z) : bool :=
  if psm <? 2 ^ 16 then negb (Z.odd (psm / 2 ^ 8))
  else if psm <? 2 ^ 24 then Z.odd (psm / 2 ^ 8) && negb (Z.odd (psm / 2 ^ 16))
  else Z.odd (psm / 2 ^ 8) && Z.odd (psm / 2 ^ 16) && negb (Z.odd (psm / 2 ^ 24)).

Lemma serialize_psm_cases psm : u32 psm ->
  serialize_psm psm = [psm mod 256; psm / 256 mod 256] ++
    if psm <? 2 ^ 16 then [] else
    if psm <? 2 ^ 24 then [psm / 2 ^ 16] else [psm / 2 ^ 16 mod 256; psm / 2 ^ 24].
Proof.
  intros Hp. unfold serialize_psm, serialize_psm_rest.
  change 0xFFFF with (2 ^ 16 - 1). change 0xFF with (2 ^ 8 - 1).
  rewrite to_le_bytes_2, !land_low_mod, !Z.shiftr_div_pow2, Z.div_div by lia.
  f_equal; [f_equal; [|f_equal]; Z.div_mod_to_equations; lia|].
  change (2 ^ 16 * 2 ^ 8) with (2 ^ 24). change (2 ^ 8) with 256.
  destruct (Z.eqb_spec (psm / 2 ^ 16) 0); destruct (Z.ltb_spec psm (2 ^ 16)); try done;
    try (Z.div_mod_to_equations; lia).
  destruct (Z.eqb_spec (psm / 2 ^ 24) 0); destruct (Z.ltb_spec psm (2 ^ 24));
    try (Z.div_mod_to_equations; lia).
  - f_equal. apply Z.mod_small. Z.div_mod_to_equations; lia.
  - do 2 f_equal. apply Z.mod_small. Z.div_mod_to_equations; lia.
Qed.


Lemma odd_low x : (x mod 256 mod 2 =? 1) = Z.odd x.
Proof.
  replace (x mod 256 mod 2) with (x mod 2) by (Z.div_mod_to_equations; lia).
  rewrite Zmod_odd. by destruct (Z.odd x).
Qed.

Lemma odd_top x : 0 <= x < 256 -> (x mod 2 =? 1) = Z.odd x.
Proof. intros. by rewrite <- (odd_low x), (Z.mod_small x 256). Qed.

Section psm_facts.
Context `{Profile}.

Lemma checked_shl_byte (b : Z) (n : nat) : u8 b -> (n < 4)%nat ->
  checked_shl (E:=L2capError) 32 b (8 * Z.of_nat n) = Ok (Z.shiftl b (8 * Z.of_nat n)).
Proof.
  intros Hb Hn. unfold checked_shl. rewrite (proj2 (Z.ltb_lt _ _)) by lia.
  f_equal. apply Z.mod_small. rewrite Z.shiftl_mul_pow2 by lia.
  destruct n as [|[|[|[|]]]]; cbn -[Z.mul]; lia.
Qed.

Lemma parse_serialize_psm psm tail : u32 psm -> psm_extension_ok psm = true ->
  parse_psm (serialize_psm psm ++ tail) 0 = Ok (length (serialize_psm psm), psm).
Proof.
  intros Hp Hx. rewrite serialize_psm_cases by done. unfold psm_extension_ok in Hx.
  change (2 ^ 8) with 256 in Hx. unfold parse_psm.
  rewrite (proj2 (Z.ltb_ge _ _)) by (rewrite !len_app; pose proof (len_nonneg tail);
    match goal with |- _ <= _ + len ?l + _ => pose proof (len_nonneg l) end; unfold len at 1; cbn; lia).
  cbn [app]. read_prefix. cbn [drop]. rewrite drop_0.
  rewrite lor_shiftl_add by (try apply Z.mod_pos_bound; lia).
  destruct (Z.ltb_spec psm (2 ^ 16)).
  - cbn [app parse_psm_loop]. destruct tail; cbn [parse_psm_loop]; rewrite odd_low;
      apply negb_true_iff in Hx; rewrite Hx; cbn; do 2 f_equal; Z.div_mod_to_equations; lia.
  - destruct (Z.ltb_spec psm (2 ^ 24)); apply andb_prop in Hx as [Hx1 Hx2]; apply negb_true_iff in Hx2.
    + cbn [app parse_psm_loop]. rewrite odd_low, Hx1. rewrite (checked_shl_byte _ 2) by (Z.div_mod_to_equations; lia).
      cbn [mbind res_bind]. change (8 * Z.of_nat 2) with 16.
      rewrite lor_shiftl_add by (Z.div_mod_to_equations; lia).
      destruct tail; cbn [parse_psm_loop]; rewrite odd_top, Hx2 by (Z.div_mod_to_equations; lia);
        cbn; do 2 f_equal; Z.div_mod_to_equations; lia.
    + apply andb_prop in Hx1 as [Hx1 Hx3].
      cbn [app parse_psm_loop]. rewrite odd_low, Hx1. rewrite (checked_shl_byte _ 2) by (try apply Z.mod_pos_bound; lia).
      cbn [mbind res_bind]. rewrite odd_low, Hx3. rewrite (checked_shl_byte _ 3) by (Z.div_mod_to_equations; lia).
      cbn [mbind res_bind]. change (8 * Z.of_nat 2) with 16. change (8 * Z.of_nat 3) with 24.
      rewrite (lor_shiftl_add (_ + _)) by (Z.div_mod_to_equations; lia).
      rewrite lor_shiftl_add by (Z.div_mod_to_equations; lia).
      destruct tail; cbn [parse_psm_loop]; rewrite odd_top, Hx2 by (Z.div_mod_to_equations; lia);
        cbn; do 2 f_equal; Z.div_mod_to_equations; lia.
Qed.

Lemma parse_psm_loop_length rest : forall last psm n k q, parse_psm_loop last rest psm n = Ok (k, q) ->
  if last mod 2 =? 1 then (n < k)%nat else n = k /\ q = psm.
Proof.
  induction rest as [|b rest IH]; intros last psm n k q; cbn [parse_psm_loop]; destruct (last mod 2 =? 1); try done; try (by intros [= <- <-]).
  destruct (checked_shl _ _ _) as [v| |]; try done. cbn [mbind res_bind]. intros Hk%IH. destruct (b mod 2 =? 1); lia.
Qed.

(** A PSM is read back by the length of its serialization only if it follows the
    extension rule. *)
Lemma parse_psm_back psm tail k : u32 psm -> parse_psm (serialize_psm psm ++ tail) 0 = Ok (k, psm) ->
  psm_extension_ok psm = true \/ (length (serialize_psm psm) < k)%nat.
Proof.
  intros Hp. rewrite serialize_psm_cases by done. unfold parse_psm, psm_extension_ok. cbn [app]. change (2 ^ 8) with 256.
  rewrite (proj2 (Z.ltb_ge _ _)) by len_lia. cbn [Nat.add]. read_prefix. cbn [drop]. rewrite drop_0.
  rewrite lor_shiftl_add by (try apply Z.mod_pos_bound; lia). intros ([k' q] & Hloop & [= -> ->])%bind_ok.
  pose proof (parse_psm_loop_length _ _ _ _ _ _ Hloop) as Hk1. rewrite odd_low in Hk1.
  destruct (Z.ltb_spec psm (2 ^ 16)); [destruct (Z.odd (psm / 256)); [by right|by left]|].
  destruct (Z.odd (psm / 256)) eqn:Ho8; [|destruct Hk1 as [_ Hk1]; Z.div_mod_to_equations; lia].
  destruct (Z.ltb_spec psm (2 ^ 24)); cbn [app parse_psm_loop] in Hloop; rewrite odd_low, Ho8 in Hloop;
    rewrite (checked_shl_byte _ 2) in Hloop by (try apply Z.mod_pos_bound; try (Z.div_mod_to_equations; lia); lia);
    cbn [mbind res_bind] in Hloop.
  - apply parse_psm_loop_length in Hloop. rewrite odd_top in Hloop by (Z.div_mod_to_equations; lia).
    destruct (Z.odd (psm / 2 ^ 16)); [by right|by left].
  - rewrite odd_low in Hloop. destruct (Z.odd (psm / 2 ^ 16)) eqn:Ho16.
    + rewrite (checked_shl_byte _ 3) in Hloop by (Z.div_mod_to_equations; lia). cbn [mbind res_bind] in Hloop.
      apply parse_psm_loop_length in Hloop. rewrite odd_top in Hloop by (Z.div_mod_to_equations; lia).
      destruct (Z.odd (psm / 2 ^ 24)); [by right|by left].
    + injection Hloop as _ Hq. change (8 * Z.of_nat 2) with 16 in Hq. rewrite lor_shiftl_add in Hq by (Z.div_mod_to_equations; lia).
      Z.div_mod_to_equations; lia.
Qed.
End psm_facts.

(** ** Control frames *)

Lemma push_all_flat vs : push_all vs = flat_map (to_le_bytes 2) vs.
Proof.
  unfold push_all. rewrite <- (app_nil_l (flat_map _ _)). generalize (@nil Z) as acc.
  induction vs as [|v vs IH]; intros acc; cbn [fold_left flat_map]; [by rewrite app_nil_r|].
  rewrite IH. unfold push_u16. by rewrite app_assoc.
Qed.

Lemma chunks_cids vs : chunks 2 (flat_map (to_le_bytes 2) vs) = to_le_bytes 2 <$> vs.
Proof.
  induction vs as [|v vs IH]; [done|]. cbn [flat_map]. rewrite to_le_bytes_2.
  rewrite chunks_step by (lia || done). cbn [app take drop]. rewrite drop_0, IH. done.
Qed.

Lemma read_cid_list_push vs : Forall (fun v => u16 v) vs ->
  read_cid_list (flat_map (to_le_bytes 2) vs) = Ok vs.
Proof.
  intros Hvs. unfold read_cid_list, chunks_exact. rewrite chunks_cids.
  assert (len (flat_map (to_le_bytes 2) vs) = 2 * len vs) as ->.
  { induction vs as [|v vs IH]; [done|]. apply Forall_cons_iff in Hvs as [_ Hvs].
    cbn [flat_map]. rewrite len_app, len_cons, IH by done. unfold len. rewrite length_to_le_bytes. lia. }
  rewrite Z.mul_comm, Z.mod_mul by lia. cbn [negb Z.eqb]. apply collect_Ok.
  induction Hvs as [|v vs Hv _ IH]; [done|]. rewrite !fmap_cons, filter_cons_True, fmap_cons
    by apply length_to_le_bytes. rewrite IH, to_le_bytes_2. read_prefix. by rewrite u16_le_roundtrip.
Qed.

(** The signaling codes with a typed constructor. *)
Definition typed_code (code : Z) : bool :=
  (1 <=? code) && (code <=? 0x0B) || (0x12 <=? code) && (code <=? 0x1A).

(** Field ranges of the Rust types; a PSM must be one [parse_psm] reads back
    and a generic frame must carry a code without a constructor of its own. *)
Definition ControlFrame_fields_ok (f : ControlFrame) : Prop :=
  match f with
  | CommandReject _ reason _ => u16 reason
  | ConnectionRequest _ psm scid => u32 psm /\ psm_extension_ok psm = true /\ u16 scid
  | ConnectionResponse _ a b c d | ConnectionParameterUpdateRequest _ a b c d =>
      u16 a /\ u16 b /\ u16 c /\ u16 d
  | ConfigureRequest _ a b _ | InformationResponse _ a b _ => u16 a /\ u16 b
  | ConfigureResponse _ a b c _ => u16 a /\ u16 b /\ u16 c
  | DisconnectionRequest _ a b | DisconnectionResponse _ a b | LeFlowControlCredit _ a b => u16 a /\ u16 b
  | EchoRequest _ _ | EchoResponse _ _ => True
  | InformationRequest _ a | ConnectionParameterUpdateResponse _ a | CreditBasedReconfigureResponse _ a => u16 a
  | LeCreditBasedConnectionRequest _ a b c d e | LeCreditBasedConnectionResponse _ a b c d e =>
      u16 a /\ u16 b /\ u16 c /\ u16 d /\ u16 e
  | CreditBasedConnectionRequest _ a b c d l | CreditBasedConnectionResponse _ a b c d l =>
      u16 a /\ u16 b /\ u16 c /\ u16 d /\ Forall (fun v => u16 v) l
  | CreditBasedReconfigureRequest _ a b l => u16 a /\ u16 b /\ Forall (fun v => u16 v) l
  | Generic code _ _ => typed_code code = false
  end.

Lemma need_ok payload n : n <= len payload -> need payload n = Ok tt.
Proof. intros. unfold need. by rewrite (proj2 (Z.ltb_ge _ _)). Qed.

Lemma le16_app pre a b post : le16 (pre ++ a :: b :: post) (length pre) = Ok (from_le_bytes [a; b]).
Proof.
  unfold le16, idx. rewrite (list_lookup_middle pre (b :: post) a (length pre)) by done. cbn [expect mbind res_bind].
  replace (pre ++ a :: b :: post) with ((pre ++ [a]) ++ b :: post) by (by rewrite <- app_assoc).
  by rewrite list_lookup_middle by (by rewrite length_app).
Qed.

(** Decoding a payload of literal 16-bit fields. *)
Ltac decode_fields :=
  rewrite ?push_all_flat; cbn [flat_map app]; rewrite ?to_le_bytes_2; cbn [app];
  rewrite ?need_ok by len_lia;
  unfold le16; read_prefix; rewrite ?u16_le_roundtrip by lia; rewrite ?app_nil_r.

Section control_facts.
Context `{Profile}.

Lemma decode_credit_payload f : ControlFrame_fields_ok f ->
  (0x14 <=? ControlFrame_code f) = true \/ typed_code (ControlFrame_code f) = false ->
  ControlFrame_decode_credit (ControlFrame_code f) (ControlFrame_identifier f) (ControlFrame_payload f) = Ok f.
Proof.
  intros Hf Hc. destruct f; cbn in Hc; try (destruct Hc; discriminate);
    cbn [ControlFrame_fields_ok ControlFrame_code ControlFrame_identifier ControlFrame_payload] in *;
    destruct_and?.
  all: try (unfold ControlFrame_decode_credit; cbn -[need le16 slice_from read_cid_list push_all];
    decode_fields; rewrite ?read_cid_list_push by done; done).
  unfold ControlFrame_decode_credit, typed_code in *.
  repeat (match goal with |- context [?a =? ?b] => destruct (Z.eqb_spec a b) as [->|] end; [done|]). done.
Qed.

Lemma decode_payload f : ControlFrame_fields_ok f ->
  ControlFrame_decode (ControlFrame_code f) (ControlFrame_identifier f) (ControlFrame_payload f) = Ok f.
Proof.
  intros Hf. pose proof (decode_credit_payload f Hf) as Hcredit.
  destruct f; cbn [ControlFrame_fields_ok ControlFrame_code ControlFrame_identifier ControlFrame_payload] in *;
    destruct_and?.
  all: try (unfold ControlFrame_decode; cbn -[need le16 slice_from parse_psm push_all];
    decode_fields; done).
  all: try (unfold ControlFrame_decode; cbn -[ControlFrame_decode_credit push_all]; apply Hcredit; by left).
  - unfold ControlFrame_decode. cbn -[need le16 slice_from parse_psm serialize_psm].
    unfold push_u16. rewrite parse_serialize_psm by done. cbn [mbind res_bind].
    rewrite (proj2 (Z.ltb_ge _ _)) by (rewrite len_app; unfold len; rewrite length_to_le_bytes; lia).
    rewrite to_le_bytes_2, le16_app. cbn [mbind res_bind]. by rewrite u16_le_roundtrip.
  - unfold ControlFrame_decode, typed_code in *. rewrite Hcredit by auto.
    repeat (match goal with |- context [?a =? ?b] => destruct (Z.eqb_spec a b) as [->|] end; [done|]). done.
Qed.

Lemma from_bytes_header code identifier n payload tail : u16 n -> n = len payload ->
  ControlFrame_from_bytes ([code; identifier] ++ to_le_bytes 2 n ++ payload ++ tail) =
    ControlFrame_decode code identifier payload.
Proof.
  intros Hn ->. unfold ControlFrame_from_bytes. rewrite to_le_bytes_2. cbn [app].
  rewrite (proj2 (Z.ltb_ge _ _)) by len_lia. read_prefix. rewrite u16_le_roundtrip by done.
  replace (Z.to_nat _) with (4 + length payload)%nat by len_lia.
  unfold slice. change (code :: identifier :: ?a :: ?b :: ?l) with ([code; identifier; a; b] ++ l).
  change 4%nat with (length [code; identifier; len payload mod 256; len payload / 256 mod 256]) at 1 2.
  by rewrite get_range_app.
Qed.
End control_facts.

(** ** Panics of the signaling decoder *)

Definition odd_byte (b : Z) : bool := b mod 2 =? 1.

(** A PSM field that [parse_psm] extends past its fourth byte. *)
Definition long_psm (payload : list Z) : bool :=
  match payload with
  | _ :: b1 :: b2 :: b3 :: _ :: _ => odd_byte b1 && odd_byte b2 && odd_byte b3
  | _ => false
  end.

(** A connection request that carries such a field. *)
Definition long_psm_request (pdu : list Z) : bool :=
  match pdu with
  | code :: _ :: l0 :: l1 :: body =>
      (code =? CONNECTION_REQUEST) && long_psm (take (Z.to_nat (from_le_bytes [l0; l1])) body)
  | _ => false
  end.

Lemma le16_in payload k : Z.of_nat k + 2 <= len payload -> exists v, le16 payload k = Ok v.
Proof.
  intros Hk. unfold le16.
  destruct (idx_lt (E:=L2capError) payload k) as (x & -> & _); [len_lia|].
  destruct (idx_lt (E:=L2capError) payload (k + 1)) as (y & -> & _); [len_lia|]. cbn. eauto.
Qed.

Lemma need_inv payload n : need payload n = Ok tt -> n <= len payload.
Proof. unfold need. case_match; [done|]. bool_to_prop. done. Qed.

Lemma read_cid_list_no_panic data : no_panic (read_cid_list data).
Proof.
  unfold read_cid_list. case_match; [done|]. apply collect_no_panic. apply Forall_fmap.
  unfold chunks_exact. apply List.Forall_forall. intros c Hc%list_elem_of_In.
  apply list_elem_of_filter in Hc as [Hc _]. destruct c as [|c0 [|c1 []]]; done.
Qed.

(** Peel one step of a guarded decoder and keep what the guard established. *)
Ltac decode_step :=
  match goal with
  | |- context [need ?p ?n] =>
      let Hn := fresh "Hn" in destruct (need p n) as [[]| |] eqn:Hn;
      [apply need_inv in Hn | done | by unfold need in Hn; case_match]
  | |- context [le16 ?p ?k] =>
      let v := fresh "v" in let Hv := fresh "Hv" in
      destruct (le16_in p k) as [v Hv]; [lia | rewrite Hv]
  | |- context [slice_from ?p ?k] => rewrite (slice_from_ok p k) by len_lia
  | |- context [read_cid_list ?l] =>
      let Hl := fresh "Hl" in pose proof (read_cid_list_no_panic l) as Hl;
      destruct (read_cid_list l); [ | done | by destruct Hl]
  end; cbn [mbind res_bind].

Section panic_facts.
Context `{Profile}.

Lemma decode_credit_no_panic code identifier payload :
  no_panic (ControlFrame_decode_credit code identifier payload).
Proof.
  unfold no_panic, ControlFrame_decode_credit.
  repeat (match goal with |- context [if ?c then _ else _] => destruct c end; [by repeat decode_step|]). done.
Qed.

Lemma parse_loop_no_panic : overflow_checks = false -> forall rest last psm n,
  no_panic (parse_psm_loop last rest psm n).
Proof.
  unfold no_panic. intros Hoff. induction rest as [|b rest IH]; intros last psm n; cbn [parse_psm_loop];
    destruct (last mod 2 =? 1); try done.
  unfold checked_shl. rewrite Hoff. destruct (_ <? _); apply IH.
Qed.

Lemma parse_psm_offset payload k psm : parse_psm payload 0 = Ok (k, psm) -> (k <= length payload)%nat.
Proof.
  unfold parse_psm. destruct (len payload <? _) eqn:Hl; [done|]. bool_to_prop.
  destruct payload as [|b0 [|b1 rest]]; [done|done|]. read_prefix. cbn [drop]. rewrite drop_0.
  assert (forall rest last p n k' q, parse_psm_loop last rest p n = Ok (k', q) -> (k' <= n + length rest)%nat) as Hloop.
  { clear. induction rest as [|b rest IH]; intros last p n k' q; cbn [parse_psm_loop];
      destruct (last mod 2 =? 1); try done; try (intros; simplify_eq; lia).
    destruct (checked_shl 32 b _); cbn; try done. intros Hr%IH. cbn in *. lia. }
  destruct (parse_psm_loop _ _ _ _) as [[k' q]| |] eqn:Hp; cbn; try done. intros; simplify_eq.
  apply Hloop in Hp. cbn. lia.
Qed.

Lemma parse_psm_panics payload :
  parse_psm payload 0 = Panic <-> overflow_checks = true /\ long_psm payload = true.
Proof.
  unfold parse_psm. destruct (len payload <? _) eqn:Hl.
  { destruct payload as [|b0 [|b1 rest]]; try (split; [done|intros [_ ?]; done]). bool_to_prop. len_lia. }
  destruct payload as [|b0 [|b1 rest]]; [done|done|]. read_prefix. cbn [drop]. rewrite drop_0.
  pose proof (parse_loop_no_panic) as Hoff. unfold no_panic in Hoff.
  destruct overflow_checks eqn:Hc.
  - unfold long_psm, odd_byte. destruct rest as [|b2 [|b3 [|b4 rest]]]; cbn [parse_psm_loop];
      unfold checked_shl; cbn [Z.mul Z.ltb Z.compare Pos.compare Pos.compare_cont Z.of_nat Pos.of_succ_nat Pos.succ Pos.mul];
      rewrite ?Hc;
      repeat (match goal with |- context [?x mod 2 =? 1] => destruct (x mod 2 =? 1) eqn:? end; cbn);
      split; intros; destruct_and?; try done; by destruct rest; cbn; case_match.
  - split; [|intros []; done]. intros Hp. exfalso.
    destruct (parse_psm_loop _ _ _ _) as [[]| |] eqn:Hq; cbn in Hp; try done. by eapply Hoff.
Qed.

Lemma decode_panics code identifier payload :
  ControlFrame_decode code identifier payload = Panic <->
  overflow_checks = true /\ code = CONNECTION_REQUEST /\ long_psm payload = true.
Proof.
  split.
  - unfold ControlFrame_decode. destruct (code =? COMMAND_REJECT) eqn:Hcode; [by repeat decode_step|].
    destruct (Z.eqb_spec code CONNECTION_REQUEST) as [->|].
    + destruct (parse_psm payload 0) as [[k psm]| |] eqn:Hp; cbn [mbind res_bind]; [|done|].
      * destruct (len payload <? _) eqn:Hl; [done|]. bool_to_prop. by repeat decode_step.
      * intros _. apply parse_psm_panics in Hp. tauto.
    + repeat (match goal with |- context [if ?c then _ else _] => destruct c end; [by repeat decode_step|]).
      intros Hp. by apply decode_credit_no_panic in Hp.
  - intros (Hc & -> & Hl). unfold ControlFrame_decode. cbn.
    by rewrite (proj2 (parse_psm_panics payload)).
Qed.

Lemma from_bytes_split code identifier l0 l1 body : u8 l0 -> u8 l1 ->
  ControlFrame_from_bytes (code :: identifier :: l0 :: l1 :: body) =
    ControlFrame_decode code identifier (take (Z.to_nat (from_le_bytes [l0; l1])) body).
Proof.
  intros H0 H1. pose proof (u16_le_range l0 l1 H0 H1). unfold ControlFrame_from_bytes.
  rewrite (proj2 (Z.ltb_ge _ _)) by len_lia. read_prefix. unfold slice.
  rewrite get_range_Some by len_lia. cbn [expect mbind res_bind drop]. rewrite drop_0. f_equal.
  destruct (Z.min_spec (4 + from_le_bytes [l0; l1]) (len (code :: identifier :: l0 :: l1 :: body))) as [[? ->]|[? ->]].
  - f_equal. lia.
  - rewrite !take_ge by len_lia. done.
Qed.
End panic_facts.

(** ** Configuration options *)

Definition option_wf (o : ConfigurationOption) : Prop :=
  0 <= option_type o < 128 /\ bytes (option_value o) /\ len (option_value o) <= 255.

Lemma type_byte_split t : u8 t ->
  Z.land t 0x7f = t mod 128 /\ (Z.land t 0x80 =? 0) = (t <? 128).
Proof.
  intros Ht. change 0x7f with (2 ^ 7 - 1). rewrite land_low_mod by lia. split; [done|].
  change (Z.land t 0x80) with (Z.land t (Z.shiftl 1 7)). destruct (Z.ltb_spec t 128).
  - apply Z.eqb_eq. apply Z.bits_inj'. intros k Hk. rewrite Z.land_spec, Z.bits_0.
    destruct (Z.ltb_spec k 7); [by rewrite Z.shiftl_spec_low, andb_false_r by lia|].
    rewrite <- (Z.mod_small t (2 ^ 7)) by lia. by rewrite Z.mod_pow2_bits_high by lia.
  - apply Z.eqb_neq. intros H0. apply (f_equal (fun z => Z.testbit z 7)) in H0.
    assert (Z.testbit t 7 = true) as Hb.
    { apply Z.testbit_true; [lia|]. change (2 ^ 7) with 128. Z.div_mod_to_equations. lia. }
    rewrite Z.land_spec, Hb in H0. done.
Qed.

Lemma type_byte_join t (h : bool) : 0 <= t < 128 ->
  Z.lor t (if h then 0x80 else 0) = t + (if h then 128 else 0).
Proof.
  intros Ht. destruct h; [|by rewrite Z.lor_0_r, Z.add_0_r].
  change 0x80 with (Z.shiftl 1 7). rewrite lor_shiftl_add by lia. done.
Qed.

Lemma option_slices t n rest : 0 <= n <= len rest ->
  slice (E:=L2capError) (t :: n :: rest) 2 (Z.to_nat (2 + n)) = Ok (take (Z.to_nat n) rest) /\
  slice_from (E:=L2capError) (t :: n :: rest) (Z.to_nat (2 + n)) = Ok (drop (Z.to_nat n) rest).
Proof.
  intros Hn. replace (Z.to_nat (2 + n)) with (S (S (Z.to_nat n))) by lia.
  rewrite !slice_from_cons, slice_from_ok by len_lia. unfold slice.
  rewrite get_range_Some by len_lia. cbn [drop]. rewrite drop_0. cbn [expect].
  by replace (S (S (Z.to_nat n)) - 2)%nat with (Z.to_nat n) by lia.
Qed.

Lemma encode_options_cons o rest : option_wf o -> encode_configuration_options (o :: rest) =
  (encoded ← encode_configuration_options rest;
   Ok (option_type o + (if option_hint o then 128 else 0) :: len (option_value o) :: option_value o ++ encoded)).
Proof.
  intros (Ht & _ & Hl). cbn [encode_configuration_options].
  by rewrite (proj2 (Z.ltb_ge _ _)), type_byte_join by lia.
Qed.

Lemma decode_loop_encode fuel : forall opts data, (length data <= fuel)%nat ->
  Forall option_wf opts -> encode_configuration_options opts = Ok data ->
  decode_options_loop fuel data = Ok opts.
Proof.
  induction fuel as [|fuel IH]; intros [|o opts] data Hf Hw He; try by (cbn in He; simplify_eq).
  all: apply Forall_cons_iff in Hw as [Ho Hw]; rewrite encode_options_cons in He by done;
    destruct (encode_configuration_options opts) as [enc| |] eqn:Henc; cbn in He; simplify_eq.
  - cbn in Hf. lia.
  - destruct o as [t h v]. destruct Ho as (Ht & Hv & Hl). cbn [option_type option_hint option_value] in *.
    pose proof (len_nonneg v). cbn [decode_options_loop].
    rewrite (proj2 (Z.ltb_ge _ _)) by len_lia.
    destruct (option_slices (t + (if h then 128 else 0)) (len v) (v ++ enc)) as [-> ->]; [len_lia|].
    cbn [mbind res_bind]. unfold len at 1 2. rewrite Nat2Z.id, take_app_length, drop_app_length.
    rewrite (IH opts enc) by (done || cbn in Hf; rewrite length_app in Hf; lia).
    cbn [mbind res_bind]. destruct (type_byte_split (t + (if h then 128 else 0))) as [-> ->]; [destruct h; lia|].
    do 3 f_equal; [destruct h; Z.div_mod_to_equations; lia|].
    destruct h; [rewrite (proj2 (Z.ltb_ge _ _)) by lia | rewrite (proj2 (Z.ltb_lt _ _)) by lia]; done.
Qed.

Lemma decode_loop_inv fuel : forall data opts, (length data <= fuel)%nat -> bytes data ->
  decode_options_loop fuel data = Ok opts ->
  Forall option_wf opts /\ encode_configuration_options opts = Ok data.
Proof.
  induction fuel as [|fuel IH]; intros data opts Hf Hb Hd.
  { destruct data; [|cbn in Hf; lia]. cbn in Hd. simplify_eq. done. }
  destruct data as [|t [|n rest]]; cbn [decode_options_loop] in Hd; simplify_eq; [done|].
  apply bytes_cons in Hb as [Ht Hb]. apply bytes_cons in Hb as [Hn Hb].
  destruct (len _ <? _) eqn:Hl; [done|]. bool_to_prop.
  destruct (option_slices t n rest) as [Hs1 Hs2]; [len_lia|]. rewrite Hs1, Hs2 in Hd. cbn [mbind res_bind] in Hd.
  destruct (decode_options_loop fuel (drop _ rest)) as [opts'| |] eqn:Hrec; cbn in Hd; simplify_eq.
  apply IH in Hrec as [Hw He]; [|rewrite length_drop; cbn in Hf; lia|auto with bytes_db].
  destruct (type_byte_split t Ht) as [-> ->].
  assert (len (take (Z.to_nat n) rest) = n) as Hlen by len_lia.
  assert (option_wf (mkOption (t mod 128) (negb (t <? 128)) (take (Z.to_nat n) rest))) as Ho.
  { repeat split; cbn [option_type option_value]; try (apply Z.mod_pos_bound; lia); auto with bytes_db. lia. }
  split; [by constructor|]. rewrite encode_options_cons, He by done. cbn [mbind res_bind option_type option_hint option_value].
  rewrite Hlen, take_drop. do 2 f_equal. destruct (Z.ltb_spec t 128); cbn [negb]; Z.div_mod_to_equations; lia.
Qed.

(** ** Frames that survive the wire *)

(** Field ranges of the Rust types alone. *)
Definition ControlFrame_in_range (f : ControlFrame) : Prop :=
  match f with
  | ConnectionRequest _ psm scid => u32 psm /\ u16 scid
  | Generic _ _ _ => True
  | _ => ControlFrame_fields_ok f
  end.

Definition ControlFrame_survives (f : ControlFrame) : bool :=
  match f with
  | ConnectionRequest _ psm _ => psm_extension_ok psm
  | Generic code _ _ => negb (typed_code code)
  | _ => true
  end.

Lemma fields_ok_iff f : ControlFrame_fields_ok f <-> ControlFrame_in_range f /\ ControlFrame_survives f = true.
Proof. destruct f; cbn; rewrite ?negb_true_iff; tauto. Qed.

Section survival.
Context `{Profile}.

(** A code with a kind of its own never gives a generic frame. *)
Lemma decode_generic code id payload c i p : ControlFrame_decode code id payload = Ok (Generic c i p) -> typed_code code = false.
Proof.
  unfold ControlFrame_decode, ControlFrame_decode_credit. intros Hd.
  repeat match type of Hd with
    | (if code =? ?k then _ else _) = _ => destruct (Z.eqb_spec code k) as [->|?]; [exfalso|]
    | (_ ≫= _) = _ => apply bind_ok in Hd as (? & _ & Hd)
    | (let '(_, _) := ?x in _) = _ => destruct x
    | (if ?b then _ else _) = _ => destruct b
    end; try done.
  apply not_true_iff_false. unfold typed_code. rewrite orb_true_iff, !andb_true_iff, !Z.leb_le.
  unfold COMMAND_REJECT, CONNECTION_REQUEST, CONNECTION_RESPONSE, CONFIGURE_REQUEST, CONFIGURE_RESPONSE, DISCONNECTION_REQUEST,
    DISCONNECTION_RESPONSE, ECHO_REQUEST, ECHO_RESPONSE, INFORMATION_REQUEST, INFORMATION_RESPONSE, CONNECTION_PARAMETER_UPDATE_REQUEST,
    CONNECTION_PARAMETER_UPDATE_RESPONSE, LE_CREDIT_BASED_CONNECTION_REQUEST, LE_CREDIT_BASED_CONNECTION_RESPONSE, LE_FLOW_CONTROL_CREDIT,
    CREDIT_BASED_CONNECTION_REQUEST, CREDIT_BASED_CONNECTION_RESPONSE, CREDIT_BASED_RECONFIGURE_REQUEST, CREDIT_BASED_RECONFIGURE_RESPONSE in *.
  lia.
Qed.

Lemma decode_survives f : ControlFrame_in_range f ->
  ControlFrame_decode (ControlFrame_code f) (ControlFrame_identifier f) (ControlFrame_payload f) = Ok f -> ControlFrame_survives f = true.
Proof.
  intros Hr Hd. destruct f; try done; [|by apply decode_generic in Hd; apply negb_true_iff]. destruct Hr as [Hp Hc].
  cbn [ControlFrame_code ControlFrame_identifier ControlFrame_payload ControlFrame_survives] in *.
  change (ControlFrame_decode CONNECTION_REQUEST ?id ?l) with ('(offset, q) ← parse_psm l 0;
    if len l <? Z.of_nat offset + 2 then Err (InvalidPacket "truncated Connection_Request" [])
    else source_cid ← le16 l offset; Ok (ConnectionRequest id q source_cid)) in Hd.
  apply bind_ok in Hd as ([k q] & Hk & Hd). unfold push_u16 in *.
  destruct (Z.ltb_spec (len (serialize_psm psm ++ to_le_bytes 2 source_cid)) (Z.of_nat k + 2)) as [|Hl]; [done|].
  apply bind_ok in Hd as (v & _ & [= -> _]). rewrite len_app in Hl. apply parse_psm_back in Hk as [|Hk]; [done| |done].
  change (len (to_le_bytes 2 source_cid)) with 2 in Hl. unfold len in Hl. lia.
Qed.
End survival.

(** ** Properties of the L2CAP codec *)

Section theorems.
Context `{Profile}.

(** C40. A signaling frame, of any of the twenty-one kinds and with fields in the
    range of their types, survives the wire, in any build profile and even with
    bytes after it, if and only if it is not a connection request whose PSM
    breaks the extension rule (each byte from the second on is odd exactly when
    another follows) nor a generic frame with the code of another kind. *)
Theorem control_frame_roundtrip f tail : ControlFrame_in_range f -> len (ControlFrame_payload f) <= 65535 ->
  ControlFrame_from_bytes (ControlFrame_to_bytes f ++ tail) = Ok f <-> ControlFrame_survives f = true.
Proof.
  intros Hf Hl. unfold ControlFrame_to_bytes. pose proof (len_nonneg (ControlFrame_payload f)).
  rewrite Z.mod_small, <- !app_assoc by lia. rewrite from_bytes_header by lia. split; [by apply decode_survives|].
  intros Hs. by apply decode_payload, fields_ok_iff.
Qed.

(** The signaling decoder panics on a byte string exactly when overflow
    checks are on and the string is a connection request whose PSM field has
    odd second, third and fourth bytes and a fifth one. *)
Theorem control_frame_decode_panics_iff pdu : bytes pdu ->
  (ControlFrame_from_bytes pdu = Panic <-> overflow_checks = true /\ long_psm_request pdu = true).
Proof.
  intros Hb. destruct pdu as [|code [|identifier [|l0 [|l1 body]]]]; try (split; [done | intros [_ ?]; done]).
  unfold bytes in Hb. rewrite !Forall_cons_iff in Hb. destruct Hb as (_ & _ & H0 & H1 & _).
  rewrite from_bytes_split, decode_panics by done. unfold long_psm_request.
  rewrite andb_true_iff, Z.eqb_eq. tauto.
Qed.

(** A PSM field that follows the extension rule is read back with the
    offset just past it, whatever follows. *)
Theorem psm_roundtrip psm tail : u32 psm -> psm_extension_ok psm = true ->
  parse_psm (serialize_psm psm ++ tail) 0 = Ok (length (serialize_psm psm), psm).
Proof. apply parse_serialize_psm. Qed.
End theorems.

Lemma control_frame_roundtrip_witness :
  ControlFrame_from_bytes (H:=true)
    (ControlFrame_to_bytes (CreditBasedConnectionRequest 7 0x25 672 48 10 [0x40; 0x41]) ++ [0xFF])
  = Ok (CreditBasedConnectionRequest 7 0x25 672 48 10 [0x40; 0x41])
  /\ ControlFrame_from_bytes (H:=true) (ControlFrame_to_bytes (ConnectionRequest 7 0x020001 0x40) ++ [0xFF])
     <> Ok (ConnectionRequest 7 0x020001 0x40).
Proof.
  split.
  - apply (control_frame_roundtrip (H:=true)); [|vm_compute; discriminate|reflexivity].
    cbn. repeat split; try lia. repeat constructor; lia.
  - intros Heq. apply (control_frame_roundtrip (H:=true)) in Heq; [discriminate|cbn; lia|vm_compute; discriminate].
Defined.

Lemma control_frame_decode_panics_iff_witness :
  ControlFrame_from_bytes (H:=true) [2; 1; 7; 0; 1; 1; 1; 1; 0; 0x40; 0] = Panic.
Proof.
  apply (control_frame_decode_panics_iff (H:=true)); [by_compute | split; reflexivity].
Defined.

Lemma psm_roundtrip_witness : parse_psm (H:=false) (serialize_psm 0x20301 ++ [9]) 0 = Ok (3%nat, 0x20301).
Proof. apply (psm_roundtrip (H:=false) 0x20301 [9]); [lia | reflexivity]. Defined.

(** Configuration options decode to exactly what encodes to them: the
    decoder accepts a byte string if and only if it is the encoding of
    well-formed options, and gives those options. *)
Theorem configuration_options_exact data opts : bytes data ->
  (decode_configuration_options data = Ok opts <->
   Forall option_wf opts /\ encode_configuration_options opts = Ok data).
Proof.
  intros Hb. split; [by apply decode_loop_inv|]. intros [Hw He]. by eapply decode_loop_encode.
Qed.

Lemma configuration_options_exact_witness :
  encode_configuration_options [mkOption 1 false [0xA0; 2]; mkOption 0x7F true []] = Ok [1; 2; 0xA0; 2; 0xFF; 0].
Proof.
  apply (configuration_options_exact [1; 2; 0xA0; 2; 0xFF; 0]
    [mkOption 1 false [0xA0; 2]; mkOption 0x7F true []]);
    [by_compute | reflexivity].
Defined.

(** A PDU survives the wire; with a frame check sequence the payload comes
    back followed by it, and the whole frame has CRC zero. *)
Theorem pdu_roundtrip cid payload : u16 cid -> bytes payload -> len payload <= 65533 ->
  L2capPdu_from_bytes (L2capPdu_to_bytes (mkPdu cid payload) false) = Ok (mkPdu cid payload) /\
  (exists fcs, length fcs = 2%nat /\
     L2capPdu_from_bytes (L2capPdu_to_bytes (mkPdu cid payload) true) = Ok (mkPdu cid (payload ++ fcs))) /\
  crc_16 (L2capPdu_to_bytes (mkPdu cid payload) true) = 0.
Proof.
  intros Hc Hp Hl. pose proof (len_nonneg payload).
  assert (forall p, len p <= 65535 -> forall n, n = len p ->
    L2capPdu_from_bytes (to_le_bytes 2 (n mod 65536) ++ to_le_bytes 2 cid ++ p) = Ok (mkPdu cid p)) as Hdec.
  { intros p Hlp n ->. pose proof (len_nonneg p). rewrite Z.mod_small, !to_le_bytes_2 by lia. cbn [app].
    unfold L2capPdu_from_bytes. rewrite (proj2 (Z.ltb_ge _ _)) by len_lia. read_prefix.
    rewrite !u16_le_roundtrip by lia. unfold slice. rewrite get_range_Some by len_lia.
    cbn [expect mbind res_bind drop]. rewrite drop_0, take_ge by len_lia. done. }
  unfold L2capPdu_to_bytes. cbn [pdu_cid pdu_payload]. repeat split.
  - apply Hdec; lia.
  - eexists (to_le_bytes 2 _). split; [apply length_to_le_bytes|]. rewrite <- !app_assoc.
    apply Hdec; unfold len in *; rewrite length_app, length_to_le_bytes; lia.
  - rewrite crc_16_app. apply crc_residue_step, crc_16_range. rewrite !bytes_app. auto with bytes_db.
Qed.

Lemma pdu_roundtrip_witness :
  crc_16 (L2capPdu_to_bytes (mkPdu 0x40 [1; 2; 3]) true) = 0.
Proof. apply (pdu_roundtrip 0x40 [1; 2; 3]); [lia | repeat constructor; lia | vm_compute; discriminate]. Defined.

(** The frame check sequence detects every corruption confined to two
    consecutive bytes: frames that agree elsewhere and have equal CRCs are
    equal. *)
Theorem fcs_detects_two_byte_bursts pre x y x' y' post :
  bytes (pre ++ [x; y] ++ post) -> bytes (pre ++ [x'; y'] ++ post) ->
  crc_16 (pre ++ [x; y] ++ post) = crc_16 (pre ++ [x'; y'] ++ post) -> x = x' /\ y = y'.
Proof. apply crc_burst. Qed.

Lemma fcs_detects_two_byte_bursts_witness : crc_16 ([7] ++ [1; 2] ++ [9]) <> crc_16 ([7] ++ [3; 2] ++ [9]).
Proof.
  intros H. destruct (fcs_detects_two_byte_bursts [7] 1 2 3 2 [9]); [by_compute | by_compute | exact H | discriminate].
Defined.
