(* ===== verification/Ertm.v ===== *)
(** * Enhanced Retransmission Mode ([src/src/l2cap/ertm.rs])

    The control field codec and the data engine: segmentation, the transmit
    window with its retransmission timer, acknowledgements, reassembly and
    flow control. The engine is a state passed through [stm]; a method that
    returns an error keeps the changes it made before it. *)
From S2P Require Import Prelude L2cap.

Definition ERTM_SEQUENCE_MODULUS : Z := 64.

(** ** Control field *)

Inductive SegmentationAndReassembly : Type :=
| Unsegmented | Start | End | Continuation.

#[global] Instance SegmentationAndReassembly_eq_dec : EqDecision SegmentationAndReassembly.
Proof. solve_decision. Defined.

(** [sar as u8] *)
Definition sar_code (sar : SegmentationAndReassembly) : Z :=
  match sar with Unsegmented => 0 | Start => 1 | End => 2 | Continuation => 3 end.

Definition SegmentationAndReassembly_try_from (value : Z) : res L2capError SegmentationAndReassembly :=
  match value with
  | 0 => Ok Unsegmented
  | 1 => Ok Start
  | 2 => Ok End
  | 3 => Ok Continuation
  | _ => Err (InvalidPacket "invalid ERTM SAR value" [])
  end.

Inductive SupervisoryFunction : Type :=
| ReceiverReady | Reject | ReceiverNotReady | SelectiveReject.

#[global] Instance SupervisoryFunction_eq_dec : EqDecision SupervisoryFunction.
Proof. solve_decision. Defined.

(** [function as u8] *)
Definition function_code (function : SupervisoryFunction) : Z :=
  match function with ReceiverReady => 0 | Reject => 1 | ReceiverNotReady => 2 | SelectiveReject => 3 end.

Definition SupervisoryFunction_try_from (value : Z) : res L2capError SupervisoryFunction :=
  match value with
  | 0 => Ok ReceiverReady
  | 1 => Ok Reject
  | 2 => Ok ReceiverNotReady
  | 3 => Ok SelectiveReject
  | _ => Err (InvalidPacket "invalid ERTM supervisory function" [])
  end.

Inductive EnhancedControlField : Type :=
| Information (tx_seq : Z) (final_bit : bool) (req_seq : Z) (sar : SegmentationAndReassembly)
| Supervisory (function : SupervisoryFunction) (poll final_bit : bool) (req_seq : Z).

#[global] Instance EnhancedControlField_eq_dec : EqDecision EnhancedControlField.
Proof. solve_decision. Defined.

Definition EnhancedControlField_from_bytes (data : list Z) : res L2capError EnhancedControlField :=
  if len data <? 2 then Err (InvalidPacket "truncated ERTM control field" [])
  else
    d0 ← idx data 0;
    d1 ← idx data 1;
    if Z.land d0 1 =? 0 then
      sar ← SegmentationAndReassembly_try_from (Z.shiftr d1 6);
      Ok (Information (Z.land (Z.shiftr d0 1) 0x3f) (negb (Z.land d0 0x80 =? 0)) (Z.land d1 0x3f) sar)
    else
      function ← SupervisoryFunction_try_from (Z.land (Z.shiftr d0 2) 3);
      Ok (Supervisory function (negb (Z.land d0 0x10 =? 0)) (negb (Z.land d0 0x80 =? 0)) (Z.land d1 0x3f)).

(** [u8::from(bool)] *)
Definition u8_from (b : bool) : Z := if b then 1 else 0.

(** [x << n] on a [u8]. *)
Definition shl_u8 (x n : Z) : Z := Z.shiftl x n mod 256.

Definition validate_seq (message : string) (value : Z) : res L2capError Z :=
  if value <? ERTM_SEQUENCE_MODULUS then Ok value else Err (InvalidPacket message []).

Definition EnhancedControlField_to_bytes (self : EnhancedControlField) : res L2capError (list Z) :=
  match self with
  | Information tx_seq final_bit req_seq sar =>
      tx ← validate_seq "ERTM transmit sequence number out of range" tx_seq;
      req ← validate_seq "ERTM request sequence number out of range" req_seq;
      Ok [Z.lor (shl_u8 tx 1) (shl_u8 (u8_from final_bit) 7); Z.lor req (shl_u8 (sar_code sar) 6)]
  | Supervisory function poll final_bit req_seq =>
      req ← validate_seq "ERTM request sequence number out of range" req_seq;
      Ok [Z.lor (Z.lor (Z.lor 1 (shl_u8 (function_code function) 2)) (shl_u8 (u8_from poll) 4))
            (shl_u8 (u8_from final_bit) 7); req]
  end.

Definition EnhancedControlField_req_seq (self : EnhancedControlField) : Z :=
  match self with Information _ _ req_seq _ | Supervisory _ _ _ req_seq => req_seq end.

(** ** Configuration *)

Record ErtmConfig : Type := mkErtmConfig {
  local_mtu : Z;
  peer_mtu : Z;
  local_mps : Z;
  peer_mps : Z;
  tx_window_size : Z;
  max_retransmissions : Z;
  retransmission_timeout_ticks : Z }.

#[global] Instance ErtmConfig_eq_dec : EqDecision ErtmConfig.
Proof. solve_decision. Defined.

Definition ErtmConfig_default : ErtmConfig := mkErtmConfig 2048 2048 1010 1010 63 0 2000.

Definition ErtmConfig_validate (self : ErtmConfig) : res L2capError ErtmConfig :=
  if (self.(local_mtu) =? 0) || (self.(peer_mtu) =? 0) then
    Err (InvalidPacket "ERTM MTU cannot be zero" [])
  else if (self.(local_mps) =? 0) || (self.(peer_mps) =? 0) then
    Err (InvalidPacket "ERTM MPS cannot be zero" [])
  else if negb ((1 <=? self.(tx_window_size)) && (self.(tx_window_size) <? ERTM_SEQUENCE_MODULUS)) then
    Err (InvalidPacket "ERTM transmit window must be between 1 and 63" [])
  else if self.(retransmission_timeout_ticks) =? 0 then
    Err (InvalidPacket "ERTM retransmission timeout cannot be zero" [])
  else Ok self.

(** ** Frames *)

Record PendingFrame : Type := mkPending {
  payload : list Z;
  tx_seq : Z;
  sar : SegmentationAndReassembly;
  sdu_length : option Z }.

#[global] Instance PendingFrame_eq_dec : EqDecision PendingFrame.
Proof. solve_decision. Defined.

Definition PendingFrame_encode (self : PendingFrame) (req_seq : Z) (final_bit : bool) : res L2capError (list Z) :=
  control ← EnhancedControlField_to_bytes (Information self.(tx_seq) final_bit req_seq self.(sar));
  Ok (control ++ match self.(sdu_length) with Some length => to_le_bytes 2 length | None => [] end
              ++ self.(payload)).

Record TransmittedFrame : Type := mkTransmitted {
  frame : PendingFrame;
  transmissions : Z }.

#[global] Instance TransmittedFrame_eq_dec : EqDecision TransmittedFrame.
Proof. solve_decision. Defined.

(** ** Engine *)

Record ErtmEngine : Type := mkEngine {
  config : ErtmConfig;
  pending : list PendingFrame;
  tx_window : list TransmittedFrame;
  outbound : list (list Z);
  received : list (list Z);
  next_tx_seq : Z;
  last_acked_tx_seq : Z;
  expected_tx_seq : Z;
  last_acked_rx_seq : Z;
  remote_busy : bool;
  local_busy : bool;
  input_sdu : list Z;
  input_sdu_length : option Z;
  now : Z;
  retransmission_deadline : option Z;
  failed : bool }.

#[global] Instance ErtmEngine_eq_dec : EqDecision ErtmEngine.
Proof. solve_decision. Defined.

#[global] Instance ErtmEngine_settable : Settable ErtmEngine := fun e =>
  mkEngine e.(config) e.(pending) e.(tx_window) e.(outbound) e.(received) e.(next_tx_seq)
    e.(last_acked_tx_seq) e.(expected_tx_seq) e.(last_acked_rx_seq) e.(remote_busy) e.(local_busy)
    e.(input_sdu) e.(input_sdu_length) e.(now) e.(retransmission_deadline) e.(failed).

Definition set_pending (v : list PendingFrame) (e : ErtmEngine) : ErtmEngine := ltac:(set_field pending v e).
Definition set_tx_window (v : list TransmittedFrame) (e : ErtmEngine) : ErtmEngine := ltac:(set_field tx_window v e).
Definition set_outbound (v : list (list Z)) (e : ErtmEngine) : ErtmEngine := ltac:(set_field outbound v e).
Definition set_received (v : list (list Z)) (e : ErtmEngine) : ErtmEngine := ltac:(set_field received v e).
Definition set_next_tx_seq (v : Z) (e : ErtmEngine) : ErtmEngine := ltac:(set_field next_tx_seq v e).
Definition set_last_acked_tx_seq (v : Z) (e : ErtmEngine) : ErtmEngine := ltac:(set_field last_acked_tx_seq v e).
Definition set_expected_tx_seq (v : Z) (e : ErtmEngine) : ErtmEngine := ltac:(set_field expected_tx_seq v e).
Definition set_last_acked_rx_seq (v : Z) (e : ErtmEngine) : ErtmEngine := ltac:(set_field last_acked_rx_seq v e).
Definition set_remote_busy (v : bool) (e : ErtmEngine) : ErtmEngine := ltac:(set_field remote_busy v e).
Definition set_local_busy (v : bool) (e : ErtmEngine) : ErtmEngine := ltac:(set_field local_busy v e).
Definition set_input_sdu (v : list Z) (e : ErtmEngine) : ErtmEngine := ltac:(set_field input_sdu v e).
Definition set_input_sdu_length (v : option Z) (e : ErtmEngine) : ErtmEngine := ltac:(set_field input_sdu_length v e).
Definition set_now (v : Z) (e : ErtmEngine) : ErtmEngine := ltac:(set_field now v e).
Definition set_retransmission_deadline (v : option Z) (e : ErtmEngine) : ErtmEngine := ltac:(set_field retransmission_deadline v e).
Definition set_failed (v : bool) (e : ErtmEngine) : ErtmEngine := ltac:(set_field failed v e).

Definition ErtmEngine_new (config : ErtmConfig) : res L2capError ErtmEngine :=
  config ← ErtmConfig_validate config;
  Ok (mkEngine config [] [] [] [] 0 0 0 0 false false [] None 0 None false).

(** The engine's methods: a state and an [Error]. *)
Abbreviation engine := (stm ErtmEngine L2capError).

Definition sequence_add (sequence delta : Z) : Z := wrapping_add 8 sequence delta mod ERTM_SEQUENCE_MODULUS.

Definition sequence_distance (from to : Z) : Z :=
  wrapping_sub 8 (wrapping_add 8 to ERTM_SEQUENCE_MODULUS) from mod ERTM_SEQUENCE_MODULUS.

Definition retransmission_limit_reached (max : Z) (frame : TransmittedFrame) : bool :=
  let retransmissions := saturating_sub frame.(transmissions) 1 in
  negb (max =? 0) && (max <=? retransmissions).

Definition retransmission_limit_error (tx_seq : Z) : L2capError :=
  InvalidPacket "maximum retransmissions exceeded for ERTM sequence {tx_seq}" [tx_seq].

Definition ensure_active : engine unit :=
  self ← get;
  if self.(failed) then throw (InvalidPacket "ERTM engine has failed" []) else skip.

Definition reset_input : engine unit :=
  modify (set_input_sdu []);;
  modify (set_input_sdu_length None).

Definition refresh_deadline (self : ErtmEngine) : ErtmEngine :=
  set_retransmission_deadline
    (match self.(tx_window) with
     | [] => None
     | _ => Some (saturating_add 64 self.(now) self.(config).(retransmission_timeout_ticks))
     end) self.

Definition refresh_retransmission_deadline : engine unit := modify refresh_deadline.

Definition take_tx_seq : engine Z :=
  self ← get;
  modify (set_next_tx_seq (sequence_add self.(next_tx_seq) 1));;
  mret self.(next_tx_seq).

Definition push_pending (frame : PendingFrame) : engine unit :=
  modify (fun self => set_pending (self.(pending) ++ [frame]) self).

Definition push_outbound (encoded : list Z) : engine unit :=
  modify (fun self => set_outbound (self.(outbound) ++ [encoded]) self).

(** [self.last_acked_rx_seq = self.expected_tx_seq] *)
Definition note_acked_rx : engine unit :=
  modify (fun self => set_last_acked_rx_seq self.(expected_tx_seq) self).

Definition send_supervisory (function : SupervisoryFunction) (poll final_bit : bool) : engine unit :=
  self ← get;
  encoded ← lift (EnhancedControlField_to_bytes (Supervisory function poll final_bit self.(expected_tx_seq)));
  push_outbound encoded;;
  note_acked_rx.

(** The [while] loop of [process_output], over the frames pending at its entry. *)
Fixpoint process_output_loop (queue : list PendingFrame) : engine unit :=
  self ← get;
  if len self.(tx_window) <? self.(config).(tx_window_size) then
    match queue with
    | [] => skip
    | frame :: rest =>
        modify (set_pending rest);;
        encoded ← lift (PendingFrame_encode frame self.(expected_tx_seq) false);
        note_acked_rx;;
        modify (set_tx_window (self.(tx_window) ++ [mkTransmitted frame 1]));;
        push_outbound encoded;;
        process_output_loop rest
    end
  else skip.

Definition process_output : engine unit :=
  self ← get;
  if self.(remote_busy) then skip
  else
    process_output_loop self.(pending);;
    refresh_retransmission_deadline.

Section retransmission.
Context `{Profile}.

(** Send a frame of the window again: count it, encode it, queue it. *)
Definition retransmit_frame (put_back : TransmittedFrame -> list TransmittedFrame) (f : TransmittedFrame)
    : engine TransmittedFrame :=
  count ← lift (checked_add 16 f.(transmissions) 1);
  let f' := mkTransmitted f.(frame) count in
  modify (set_tx_window (put_back f'));;
  self ← get;
  encoded ← lift (PendingFrame_encode f.(frame) self.(expected_tx_seq) false);
  push_outbound encoded;;
  note_acked_rx;;
  mret f'.

(** [for frame in &mut self.tx_window]: [done] holds the frames already sent. *)
Fixpoint retransmit_loop (done todo : list TransmittedFrame) : engine unit :=
  match todo with
  | [] => skip
  | f :: rest =>
      f' ← retransmit_frame (fun f' => done ++ f' :: rest) f;
      retransmit_loop (done ++ [f']) rest
  end.

Definition retransmit_all : engine unit :=
  self ← get;
  if self.(remote_busy) then skip
  else
    match list_find (fun f => retransmission_limit_reached self.(config).(max_retransmissions) f = true)
            self.(tx_window) with
    | Some (_, f) =>
        modify (set_failed true);;
        throw (retransmission_limit_error f.(frame).(tx_seq))
    | None =>
        retransmit_loop [] self.(tx_window);;
        refresh_retransmission_deadline
    end.

Definition retransmit_one (seq : Z) : engine unit :=
  self ← get;
  if self.(remote_busy) then skip
  else
    match list_find (fun f => f.(frame).(tx_seq) = seq) self.(tx_window) with
    | None => throw (InvalidPacket "selective reject requested unknown ERTM sequence {tx_seq}" [seq])
    | Some (i, f) =>
        if retransmission_limit_reached self.(config).(max_retransmissions) f then
          modify (set_failed true);;
          throw (retransmission_limit_error f.(frame).(tx_seq))
        else
          retransmit_frame (fun f' => <[i := f']> self.(tx_window)) f;;
          refresh_retransmission_deadline
    end.
End retransmission.

(** ** Sending *)

(** The body of [for (index, chunk) in sdu.chunks(mps).enumerate()]. *)
Definition send_segment (sdu : list Z) (mps length16 : Z) (item : nat * list Z) : engine unit :=
  let '(index, chunk) := item in
  let offset := Z.of_nat index * mps in
  let sar :=
    if (index =? 0)%nat then Start
    else if offset + len chunk =? len sdu then End
    else Continuation in
  seq ← take_tx_seq;
  push_pending (mkPending chunk seq sar (if decide (sar = Start) then Some length16 else None)).

Definition send_sdu (sdu : list Z) : engine unit :=
  ensure_active;;
  self ← get;
  if self.(config).(peer_mtu) <? len sdu then
    throw (InvalidPacket "SDU exceeds peer MTU {}" [self.(config).(peer_mtu)])
  else
    let mps := self.(config).(peer_mps) in
    (if len sdu <=? mps then
       seq ← take_tx_seq;
       push_pending (mkPending sdu seq Unsegmented None)
     else if 65535 <? len sdu then
       throw (InvalidPacket "ERTM SDU length exceeds 16 bits" [])
     else
       for_each (send_segment sdu mps (len sdu)) (enumerate (chunks (Z.to_nat mps) sdu)));;
    process_output.

(** ** Receiving *)

Definition acknowledge (new_seq : Z) : engine bool :=
  if ERTM_SEQUENCE_MODULUS <=? new_seq then
    throw (InvalidPacket "ERTM acknowledgment sequence out of range" [])
  else
    self ← get;
    let count := sequence_distance self.(last_acked_tx_seq) new_seq in
    if len self.(tx_window) <? count then
      throw (InvalidPacket "ERTM acknowledged {count} frames with only {} outstanding" [count; len self.(tx_window)])
    else
      modify (set_tx_window (drop (Z.to_nat count) self.(tx_window)));;
      (if negb (count =? 0) then
         modify (set_last_acked_tx_seq new_seq);;
         refresh_retransmission_deadline
       else skip);;
      mret (negb (count =? 0)).

Definition check_partial_length : engine unit :=
  self ← get;
  if match self.(input_sdu_length) with Some length => length <=? len self.(input_sdu) | None => false end then
    reset_input;;
    throw (InvalidPacket "ERTM segmented SDU reached its length before an end frame" [])
  else skip.

Definition extend_input (payload : list Z) : engine unit :=
  modify (fun self => set_input_sdu (self.(input_sdu) ++ payload) self).

Definition push_received (sdu : list Z) : engine unit :=
  modify (fun self => set_received (self.(received) ++ [sdu]) self).

(** [!self.input_sdu.is_empty() || self.input_sdu_length.is_some()] *)
Definition input_in_progress (self : ErtmEngine) : bool :=
  negb (len self.(input_sdu) =? 0) || match self.(input_sdu_length) with Some _ => true | None => false end.

Definition accept_information (sar : SegmentationAndReassembly) (payload : list Z) : engine unit :=
  self ← get;
  match sar with
  | Unsegmented =>
      if input_in_progress self then
        reset_input;;
        throw (InvalidPacket "unsegmented frame interrupted an ERTM SDU" [])
      else if self.(config).(local_mtu) <? len payload then
        throw (InvalidPacket "ERTM SDU exceeds local MTU" [])
      else push_received payload
  | Start =>
      if len payload <? 2 then
        throw (InvalidPacket "ERTM start frame is missing SDU length" [])
      else if input_in_progress self then
        reset_input;;
        throw (InvalidPacket "ERTM start frame interrupted an SDU" [])
      else
        p0 ← lift (idx payload 0);
        p1 ← lift (idx payload 1);
        let length := from_le_bytes [p0; p1] in
        if self.(config).(local_mtu) <? length then
          throw (InvalidPacket "ERTM SDU exceeds local MTU" [])
        else
          modify (set_input_sdu_length (Some length));;
          body ← lift (slice_from payload 2);
          extend_input body;;
          check_partial_length
  | Continuation =>
      match self.(input_sdu_length) with
      | None => throw (InvalidPacket "ERTM continuation without start" [])
      | Some _ => extend_input payload;; check_partial_length
      end
  | End =>
      match self.(input_sdu_length) with
      | None => throw (InvalidPacket "ERTM end without start" [])
      | Some length =>
          extend_input payload;;
          self ← get;
          if negb (len self.(input_sdu) =? length) then
            reset_input;;
            throw (InvalidPacket "ERTM SDU length mismatch" [])
          else
            push_received self.(input_sdu);;
            modify (set_input_sdu []);;
            modify (set_input_sdu_length None)
      end
  end.

Section receiving.
Context `{Profile}.

Definition receive_information (seq : Z) (final_bit : bool) (sar : SegmentationAndReassembly) (frame : list Z)
    : engine unit :=
  self ← get;
  if self.(local_busy) then send_supervisory ReceiverNotReady false final_bit
  else if negb (seq =? self.(expected_tx_seq)) then send_supervisory Reject false final_bit
  else
    modify (set_expected_tx_seq (sequence_add self.(expected_tx_seq) 1));;
    body ← lift (slice_from frame 2);
    accept_information sar body;;
    process_output;;
    self ← get;
    if negb (self.(last_acked_rx_seq) =? self.(expected_tx_seq)) then
      send_supervisory ReceiverReady false final_bit
    else skip.

Definition receive_supervisory (acked : bool) (function : SupervisoryFunction) (poll final_bit : bool) (req : Z)
    : engine unit :=
  modify (set_remote_busy (bool_decide (function = ReceiverNotReady)));;
  self ← get;
  match function with
  | Reject => retransmit_all
  | SelectiveReject => retransmit_one req
  | ReceiverReady | ReceiverNotReady =>
      if final_bit && negb acked && negb (len self.(tx_window) =? 0) then retransmit_all else skip
  end;;
  (if poll then
     self ← get;
     send_supervisory (if self.(local_busy) then ReceiverNotReady else ReceiverReady) false true
   else skip);;
  process_output.

Definition receive_frame (frame : list Z) : engine unit :=
  ensure_active;;
  control ← lift (EnhancedControlField_from_bytes frame);
  acked ← acknowledge (EnhancedControlField_req_seq control);
  match control with
  | Information seq final_bit _ sar => receive_information seq final_bit sar frame
  | Supervisory function poll final_bit req => receive_supervisory acked function poll final_bit req
  end.

Definition tick (ticks : Z) : engine unit :=
  ensure_active;;
  modify (fun self => set_now (saturating_add 64 self.(now) ticks) self);;
  self ← get;
  if match self.(retransmission_deadline) with Some deadline => deadline <=? self.(now) | None => false end
     && negb (len self.(tx_window) =? 0)
  then retransmit_all else skip.
End receiving.

Definition set_receiver_busy (busy : bool) : engine unit :=
  ensure_active;;
  self ← get;
  if negb (Bool.eqb self.(local_busy) busy) then
    modify (set_local_busy busy);;
    send_supervisory (if busy then ReceiverNotReady else ReceiverReady) false false
  else skip.

(** ** Queues and queries *)

Definition poll_outbound (self : ErtmEngine) : option (list Z) * ErtmEngine :=
  match self.(outbound) with
  | [] => (None, self)
  | frame :: rest => (Some frame, set_outbound rest self)
  end.

Definition drain_outbound (self : ErtmEngine) : list (list Z) * ErtmEngine :=
  (self.(outbound), set_outbound [] self).

Definition pop_received (self : ErtmEngine) : option (list Z) * ErtmEngine :=
  match self.(received) with
  | [] => (None, self)
  | sdu :: rest => (Some sdu, set_received rest self)
  end.

Definition pending_frames (self : ErtmEngine) : Z := len self.(pending) + len self.(tx_window).
Definition unacked_frames (self : ErtmEngine) : Z := len self.(tx_window).
Definition remote_is_busy (self : ErtmEngine) : bool := self.(remote_busy).
Definition is_failed (self : ErtmEngine) : bool := self.(failed).

(** ** The control field on the wire *)

(** Sequence numbers the control field can carry. *)
Definition control_ok (c : EnhancedControlField) : Prop :=
  match c with
  | Information tx _ req _ => 0 <= tx < 64 /\ 0 <= req < 64
  | Supervisory _ _ _ req => 0 <= req < 64
  end.

(** The octets of a control field. *)
Definition info_octet0 (tx : Z) (f : bool) : Z := Z.lor (shl_u8 tx 1) (shl_u8 (u8_from f) 7).
Definition info_octet1 (req : Z) (s : SegmentationAndReassembly) : Z := Z.lor req (shl_u8 (sar_code s) 6).
Definition supervisory_octet0 (fn : SupervisoryFunction) (p f : bool) : Z :=
  Z.lor (Z.lor (Z.lor 1 (shl_u8 (function_code fn) 2)) (shl_u8 (u8_from p) 4)) (shl_u8 (u8_from f) 7).

Lemma info_octet0_fields tx f : 0 <= tx < 64 ->
  Z.land (info_octet0 tx f) 1 = 0 /\ Z.land (Z.shiftr (info_octet0 tx f) 1) 0x3f = tx /\
  negb (Z.land (info_octet0 tx f) 0x80 =? 0) = f.
Proof. revert tx. destruct f; apply (forall_below _); vm_compute; reflexivity. Qed.

Lemma info_octet1_fields req s : 0 <= req < 64 ->
  Z.land (info_octet1 req s) 0x3f = req /\ Z.shiftr (info_octet1 req s) 6 = sar_code s.
Proof. revert req. destruct s; apply (forall_below _); vm_compute; reflexivity. Qed.

Lemma land_6_small req : 0 <= req < 64 -> Z.land req 0x3f = req.
Proof. intros. change 0x3f with (2 ^ 6 - 1). rewrite land_low_mod by lia. apply (Z.mod_small req). lia. Qed.

Lemma validate_seq_ok msg v : v < 64 -> validate_seq msg v = Ok v.
Proof. intros. unfold validate_seq, ERTM_SEQUENCE_MODULUS. by rewrite (proj2 (Z.ltb_lt _ _)). Qed.

Lemma sar_try_from_code s : SegmentationAndReassembly_try_from (sar_code s) = Ok s.
Proof. by destruct s. Qed.

Lemma control_to_bytes_ok c : control_ok c ->
  EnhancedControlField_to_bytes c = Ok match c with
    | Information tx f req s => [info_octet0 tx f; info_octet1 req s]
    | Supervisory fn p f req => [supervisory_octet0 fn p f; req]
    end.
Proof.
  destruct c as [tx f req s|fn p f req]; cbn [control_ok EnhancedControlField_to_bytes].
  - intros [Htx Hreq]. by rewrite !validate_seq_ok by lia.
  - intros Hreq. by rewrite validate_seq_ok by lia.
Qed.

Lemma control_decode_encode c data tail : control_ok c -> EnhancedControlField_to_bytes c = Ok data ->
  EnhancedControlField_from_bytes (data ++ tail) = Ok c.
Proof.
  intros Hc He. rewrite control_to_bytes_ok in He by done. injection He as <-.
  destruct c as [tx f req s|fn p f req]; cbn [control_ok app] in *; unfold EnhancedControlField_from_bytes;
    rewrite (proj2 (Z.ltb_ge _ _)) by len_lia; read_prefix.
  - destruct Hc as [Htx Hreq]. destruct (info_octet0_fields tx f Htx) as (-> & -> & ->).
    destruct (info_octet1_fields req s Hreq) as (-> & ->). cbn [Z.eqb]. by rewrite sar_try_from_code.
  - rewrite (land_6_small req) by done. by destruct fn, p, f.
Qed.

(** A frame decodes to its own control field, and what follows it is the
    length field, if any, and the payload. *)
Definition frame_body (f : PendingFrame) : list Z :=
  match f.(sdu_length) with Some l => to_le_bytes 2 l | None => [] end ++ f.(payload).

Lemma frame_encode_ok f req : 0 <= f.(tx_seq) < 64 -> 0 <= req < 64 ->
  PendingFrame_encode f req false =
    Ok (info_octet0 f.(tx_seq) false :: info_octet1 req f.(sar) :: frame_body f).
Proof.
  intros. unfold PendingFrame_encode. by rewrite control_to_bytes_ok by done.
Qed.

Lemma frame_decode_encode f req data : 0 <= f.(tx_seq) < 64 -> 0 <= req < 64 ->
  PendingFrame_encode f req false = Ok data ->
  EnhancedControlField_from_bytes data = Ok (Information f.(tx_seq) false req f.(sar)) /\
  slice_from (E:=L2capError) data 2 = Ok (frame_body f).
Proof.
  intros Ht Hr. rewrite frame_encode_ok by done. intros [= <-]. split.
  - apply (control_decode_encode _ [info_octet0 f.(tx_seq) false; info_octet1 req f.(sar)] (frame_body f)); [done|].
    by rewrite control_to_bytes_ok.
  - by rewrite !slice_from_cons, slice_from_0.
Qed.

Lemma supervisory_decode_encode fn p f req data : 0 <= req < 64 ->
  EnhancedControlField_to_bytes (Supervisory fn p f req) = Ok data ->
  EnhancedControlField_from_bytes data = Ok (Supervisory fn p f req).
Proof. intros Hr He. rewrite <- (app_nil_r data). by apply control_decode_encode. Qed.
