(* ===== verification/ErtmSpec.v ===== *)
(** * What an ERTM engine has sent, acknowledged and awaits

    A ghost state with unbounded sequence numbers gives the meaning of the
    engine's six-bit ones: every frame ever queued, how many are acknowledged
    and sent, how many were accepted from the peer, and the frames on the
    wire. [R] ties an engine to its ghost state; every internal operation of
    the engine is simulated by steps of the ghost ([gstep]). *)
From S2P Require Import Prelude L2cap Ertm.

(** ** Ghost state *)

(** A frame on the wire: the number of the I-frame, how many I-frames had been
    sent when it was, and the acknowledgement it carries. *)
Inductive wire_frame : Type :=
| WInfo (n top req : nat)
| WSup (fn : SupervisoryFunction) (poll final : bool) (req : nat).

Definition wire_req (w : wire_frame) : nat :=
  match w with WInfo _ _ req | WSup _ _ _ req => req end.

(** Frames enter the wire with growing acknowledgements and send counts. *)
Definition wire_le (w w' : wire_frame) : Prop :=
  (wire_req w <= wire_req w')%nat /\
  match w, w' with WInfo _ top _, WInfo _ top' _ => (top <= top')%nat | _, _ => True end.

Record ghost : Type := mkGhost {
  hist : list PendingFrame;
  acked : nat;
  sent : nat;
  awaited : nat;
  wire : list wire_frame }.

Definition seq64 (n : nat) : Z := Z.of_nat n mod 64.

Definition encodes (h : list PendingFrame) (w : wire_frame) (data : list Z) : Prop :=
  match w with
  | WInfo n _ req => exists f, h !! n = Some f /\ PendingFrame_encode f (seq64 req) false = Ok data
  | WSup fn p f req => EnhancedControlField_to_bytes (Supervisory fn p f (seq64 req)) = Ok data
  end.

Definition wire_ok (g : ghost) (w : wire_frame) : Prop :=
  (wire_req w <= g.(awaited))%nat /\
  match w with
  | WInfo n top _ => (n < top <= g.(sent))%nat /\ (top <= n + 63)%nat
  | WSup fn _ _ _ => fn <> SelectiveReject
  end.

(** The frames on the wire are those of [out], in order. *)
Record wire_inv (g : ghost) (out : list (list Z)) : Prop := {
  wire_encodes : Forall2 (encodes g.(hist)) g.(wire) out;
  wire_frames_ok : Forall (wire_ok g) g.(wire);
  wire_sorted : StronglySorted wire_le g.(wire) }.

Definition config_ok (c : ErtmConfig) : Prop :=
  0 < c.(peer_mps) /\ c.(peer_mtu) <= 65535 /\ c.(local_mtu) <= 65535 /\
  1 <= c.(tx_window_size) <= 63 /\ 0 <= c.(max_retransmissions) <= 255.

Definition count_ok (c : ErtmConfig) (f : TransmittedFrame) : Prop :=
  0 <= f.(transmissions) <= 65535 /\
  (c.(max_retransmissions) <> 0 -> f.(transmissions) <= c.(max_retransmissions) + 1).

(** The engine's fields that carry the protocol, related to a ghost state. *)
Record related (c : ErtmConfig) (pend : list PendingFrame) (win : list TransmittedFrame)
    (out : list (list Z)) (next last expected : Z) (g : ghost) : Prop := {
  rel_config : config_ok c;
  rel_window : frame <$> win = take (g.(sent) - g.(acked)) (drop g.(acked) g.(hist));
  rel_pending : pend = drop g.(sent) g.(hist);
  rel_order : (g.(acked) <= g.(sent) <= length g.(hist))%nat;
  rel_size : (Z.of_nat (g.(sent) - g.(acked)) <= c.(tx_window_size));
  rel_seqs : forall i f, g.(hist) !! i = Some f -> f.(tx_seq) = seq64 i;
  rel_next : next = seq64 (length g.(hist));
  rel_last : last = seq64 g.(acked);
  rel_expected : expected = seq64 g.(awaited);
  rel_counts : Forall (count_ok c) win;
  rel_wire : wire_inv g out }.

Definition R (e : ErtmEngine) (g : ghost) : Prop :=
  related e.(config) e.(pending) e.(tx_window) e.(outbound) e.(next_tx_seq) e.(last_acked_tx_seq)
    e.(expected_tx_seq) g.

(** The retransmission timer runs exactly while frames are unacknowledged. *)
Definition deadline_ok (e : ErtmEngine) : Prop := is_Some e.(retransmission_deadline) <-> e.(tx_window) <> [].

(** A partly received SDU is shorter than its announced length, which the
    local MTU bounds. *)
Definition input_ok (e : ErtmEngine) : Prop :=
  match e.(input_sdu_length) with
  | None => e.(input_sdu) = []
  | Some l => len e.(input_sdu) < l <= e.(config).(local_mtu)
  end.

Definition initial_ghost : ghost := mkGhost [] 0 0 0 [].

(** ** Ghost steps: what an engine can do on its own *)

Definition push_wire (w : wire_frame) (g : ghost) : ghost :=
  mkGhost g.(hist) g.(acked) g.(sent) g.(awaited) (g.(wire) ++ [w]).

Inductive gstep (g : ghost) : ghost -> Prop :=
| gstep_next : (g.(sent) < length g.(hist))%nat ->
    gstep g (push_wire (WInfo g.(sent) (S g.(sent)) g.(awaited))
               (mkGhost g.(hist) g.(acked) (S g.(sent)) g.(awaited) g.(wire)))
| gstep_again n : (g.(acked) <= n < g.(sent))%nat ->
    gstep g (push_wire (WInfo n g.(sent) g.(awaited)) g)
| gstep_supervisory fn p f : fn <> SelectiveReject ->
    gstep g (push_wire (WSup fn p f g.(awaited)) g).

(** What steps never change, and what they add to the wire. *)
Definition grown (g g' : ghost) : Prop :=
  g'.(hist) = g.(hist) /\ g'.(acked) = g.(acked) /\ g'.(awaited) = g.(awaited) /\
  (g.(sent) <= g'.(sent))%nat /\
  exists added, g'.(wire) = g.(wire) ++ added /\
    Forall (fun w => wire_req w = g.(awaited) /\
                     match w with WInfo _ top _ => (g.(sent) <= top)%nat | _ => True end) added.

#[global] Instance grown_preorder : PreOrder grown.
Proof.
  split.
  - intros g. do 4 (split; [done|]). exists []. by rewrite app_nil_r.
  - intros g1 g2 g3 (H1 & H2 & H3 & H4 & a & Ha & Fa) (K1 & K2 & K3 & K4 & b & Hb & Fb).
    split; [congruence|]. split; [congruence|]. split; [congruence|]. split; [lia|].
    exists (a ++ b). rewrite Hb, Ha, <- app_assoc. split; [done|]. apply Forall_app. split; [done|].
    eapply List.Forall_impl; [|exact Fb]. intros [n top req|] [? ?]; simpl in *; split; try congruence; lia.
Qed.

Lemma gstep_grown g g' : gstep g g' -> grown g g'.
Proof.
  intros []; unfold push_wire, grown; cbn [hist acked sent awaited wire]; repeat (split; [done || lia|]);
    eexists [_]; (split; [reflexivity|]); (constructor; [|constructor]); cbn; lia.
Qed.

Lemma gsteps_grown g g' : rtc gstep g g' -> grown g g'.
Proof. induction 1; [reflexivity|]. etrans; [by apply gstep_grown | done]. Qed.

(** ** Sequence arithmetic *)

Lemma seq64_range n : 0 <= seq64 n < 64.
Proof. apply Z.mod_pos_bound. lia. Qed.

Lemma seq64_succ n : sequence_add (seq64 n) 1 = seq64 (S n).
Proof.
  unfold sequence_add, wrapping_add, seq64, ERTM_SEQUENCE_MODULUS. rewrite Nat2Z.inj_succ.
  change (2 ^ 8) with 256. Z.div_mod_to_equations. lia.
Qed.

(** The distance to a number at most 63 ahead is the true one. *)
Lemma seq64_distance m n : (m <= n <= m + 63)%nat -> sequence_distance (seq64 m) (seq64 n) = Z.of_nat (n - m).
Proof.
  intros H. unfold sequence_distance, wrapping_add, wrapping_sub, seq64, ERTM_SEQUENCE_MODULUS.
  change (2 ^ 8) with 256. rewrite Nat2Z.inj_sub by lia. Z.div_mod_to_equations. lia.
Qed.

Lemma sequence_distance_advance m new : 0 <= new < 64 ->
  0 <= sequence_distance (seq64 m) new < 64 /\
  new = seq64 (m + Z.to_nat (sequence_distance (seq64 m) new)).
Proof.
  intros H. unfold sequence_distance, wrapping_add, wrapping_sub, seq64, ERTM_SEQUENCE_MODULUS.
  change (2 ^ 8) with 256. split; [apply Z.mod_pos_bound; lia|].
  rewrite Nat2Z.inj_add, Z2Nat.id by (apply Z.mod_pos_bound; lia). Z.div_mod_to_equations. lia.
Qed.

Lemma seq64_inj m n : seq64 m = seq64 n -> (m < n + 64)%nat -> (n < m + 64)%nat -> m = n.
Proof. unfold seq64. intros. Z.div_mod_to_equations. lia. Qed.

(** ** The wire *)

Lemma StronglySorted_snoc {A} (le : A -> A -> Prop) l x :
  StronglySorted le l -> Forall (fun y => le y x) l -> StronglySorted le (l ++ [x]).
Proof.
  induction 1 as [|y l Hl IH Hy]; intros Hx; cbn [app]; [repeat constructor|].
  apply Forall_cons_iff in Hx as [Hyx Hx]. constructor; [by apply IH|]. apply Forall_app. split; [done|]. by apply Forall_singleton.
Qed.

(** A frame that is well formed for the ghost, carries the current
    acknowledgement and the current count keeps the wire in order. *)
Lemma wire_inv_push g g' out w data :
  wire_inv g out -> g'.(hist) = g.(hist) -> g'.(awaited) = g.(awaited) -> (g.(sent) <= g'.(sent))%nat ->
  g'.(wire) = g.(wire) ++ [w] -> encodes g.(hist) w data -> wire_req w = g.(awaited) ->
  wire_ok g' w -> match w with WInfo _ top _ => (g.(sent) <= top)%nat | _ => True end ->
  wire_inv g' (out ++ [data]).
Proof.
  intros [He Hok Hs] Hh Ha Hsent Hw Hd Hreq Hwok Htop. constructor; rewrite Hw.
  - rewrite Hh. apply Forall2_app; [done|]. by constructor; [|constructor].
  - apply Forall_app. split; [|by apply Forall_singleton]. eapply List.Forall_impl; [|exact Hok].
    intros [n top r|fn p f r] [Hr H]; split; cbn in *; rewrite ?Ha; try done. lia.
  - apply StronglySorted_snoc; [done|]. eapply List.Forall_impl; [|exact Hok].
    intros [n top r|fn p f r] [Hr H]; split; cbn in *; try lia; try done. destruct w; [lia|done].
Qed.

(** A wire whose frames are all still well formed. *)
Lemma wire_inv_ghost g g' out :
  wire_inv g out -> g'.(wire) = g.(wire) -> (forall i f, g.(hist) !! i = Some f -> g'.(hist) !! i = Some f) ->
  (g.(awaited) <= g'.(awaited))%nat -> (g.(sent) <= g'.(sent))%nat -> wire_inv g' out.
Proof.
  intros [He Hok Hs] Hw Hh Ha Hsent. constructor; rewrite Hw; [| |done].
  - eapply Forall2_impl; [exact He|]. intros [n top r|] data; cbn; [|done].
    intros (f & Hf & Hd). eauto.
  - eapply List.Forall_impl; [|exact Hok]. intros [n top r|fn p f r] [Hr H]; split; cbn in *; try done; lia.
Qed.

(** ** Simulation *)

(** What the internal operations leave alone. *)
Definition keeps (e e' : ErtmEngine) : Prop :=
  e'.(config) = e.(config) /\ e'.(received) = e.(received) /\ e'.(input_sdu) = e.(input_sdu) /\
  e'.(input_sdu_length) = e.(input_sdu_length) /\ e'.(expected_tx_seq) = e.(expected_tx_seq) /\
  e'.(local_busy) = e.(local_busy) /\ (e.(failed) = true -> e'.(failed) = true).

#[global] Instance keeps_preorder : PreOrder keeps.
Proof.
  split; [by repeat split|]. intros e1 e2 e3 (?&?&?&?&?&?&?) (?&?&?&?&?&?&?).
  repeat split; try congruence. auto.
Qed.

(** Which ways of not returning [Ok] a simulation admits; [None] is a panic. *)
Definition outcome {A} (allowed : option L2capError -> ErtmEngine -> Prop) (out : res L2capError A * ErtmEngine)
    : Prop :=
  match out.1 with Ok _ => True | Err x => allowed (Some x) out.2 | Panic => allowed None out.2 end.

(** Only a failed engine returns an error; a panic needs overflow checks and
    unlimited retransmissions. *)
Definition benign `{Profile} (o : option L2capError) (e : ErtmEngine) : Prop :=
  match o with
  | Some _ => e.(failed) = true
  | None => overflow_checks = true /\ e.(config).(max_retransmissions) = 0
  end.

Definition sim_at {A} (allowed : option L2capError -> ErtmEngine -> Prop) (e : ErtmEngine) (g : ghost)
    (m : engine A) : Prop :=
  exists g', rtc gstep g g' /\ R (m e).2 g' /\ keeps e (m e).2 /\ (deadline_ok e -> deadline_ok (m e).2) /\
             outcome allowed (m e).

Definition sim {A} (allowed : option L2capError -> ErtmEngine -> Prop) (m : engine A) : Prop :=
  forall e g, R e g -> sim_at allowed e g m.

Section sim_rules.
Context (allowed : option L2capError -> ErtmEngine -> Prop).

Lemma sim_at_bind {A B} e g (m : engine A) (k : A -> engine B) :
  sim_at allowed e g m ->
  (forall a e' g', m e = (Ok a, e') -> R e' g' -> rtc gstep g g' -> sim_at allowed e' g' (k a)) ->
  sim_at allowed e g (m ≫= k).
Proof.
  intros (g1 & Hs1 & HR1 & Hk1 & Hd1 & Ho1) Hk. unfold sim_at, mbind, stm_bind.
  destruct (m e) as [[a|x|] e1] eqn:Hm; cbn [fst snd] in *; [|exists g1; auto..].
  destruct (Hk a e1 g1 eq_refl HR1 Hs1) as (g2 & Hs2 & HR2 & Hk2 & Hd2 & Ho2).
  exists g2. split; [by etrans|]. split; [done|]. split; [by etrans|]. split; [auto|done].
Qed.

Lemma sim_bind {A B} (m : engine A) (k : A -> engine B) :
  sim allowed m -> (forall a, sim allowed (k a)) -> sim allowed (m ≫= k).
Proof. intros Hm Hk e g HR. apply sim_at_bind; [by apply Hm|]. intros. by apply Hk. Qed.

Lemma sim_at_get {A} e g (k : ErtmEngine -> engine A) :
  sim_at allowed e g (k e) -> sim_at allowed e g (get ≫= k).
Proof. exact id. Qed.

Lemma sim_get {A} (k : ErtmEngine -> engine A) :
  (forall e g, R e g -> sim_at allowed e g (k e)) -> sim allowed (get ≫= k).
Proof. intros Hk e g HR. exact (Hk e g HR). Qed.

Lemma sim_ret {A} (a : A) : sim allowed (mret a).
Proof. intros e g HR. exists g. do 2 (split; [done|]). done. Qed.

Lemma sim_skip : sim allowed skip.
Proof. exact (sim_ret tt). Qed.

(** A field update outside the protocol state. *)
Lemma sim_modify (f : ErtmEngine -> ErtmEngine) :
  (forall e g, R e g -> R (f e) g /\ keeps e (f e) /\ (deadline_ok e -> deadline_ok (f e))) ->
  sim allowed (modify f).
Proof. intros Hf e g HR. exists g. destruct (Hf e g HR) as (? & ? & ?). done. Qed.

Lemma sim_note_acked_rx : sim allowed note_acked_rx.
Proof. apply sim_modify. intros e g HR. done. Qed.

Lemma sim_send_supervisory fn p f : fn <> SelectiveReject -> sim allowed (send_supervisory fn p f).
Proof.
  intros Hfn. apply sim_get. intros e g HR. pose proof (rel_expected _ _ _ _ _ _ _ _ HR) as Hexp.
  pose proof (seq64_range g.(awaited)).
  exists (push_wire (WSup fn p f g.(awaited)) g). unfold sim_at, send_supervisory.
  unfold mbind, stm_bind, lift, push_outbound, note_acked_rx, modify, get. rewrite Hexp.
  rewrite control_to_bytes_ok by done. cbn [fst snd].
  split; [by apply rtc_once; constructor|]. split.
  { destruct HR as [H1 H2 H3 H4 H5 H6 H7 H8 H9 H10 H11]. constructor; try done. cbn [outbound set_outbound].
    eapply wire_inv_push; try done. by apply control_to_bytes_ok. }
  split; [by repeat split|]. split; [done|exact I].
Qed.
End sim_rules.

Create HintDb sim_db discriminated.
#[export] Hint Resolve sim_bind sim_ret sim_skip sim_note_acked_rx sim_send_supervisory : sim_db.

(** ** The engine's queues *)

Lemma window_length e g : R e g -> length e.(tx_window) = (g.(sent) - g.(acked))%nat.
Proof.
  intros HR. rewrite <- (length_fmap frame), (rel_window _ _ _ _ _ _ _ _ HR), length_take, length_drop.
  pose proof (rel_order _ _ _ _ _ _ _ _ HR). lia.
Qed.

Lemma window_lookup e g i f : R e g -> e.(tx_window) !! i = Some f ->
  (i < g.(sent) - g.(acked))%nat /\ g.(hist) !! (g.(acked) + i)%nat = Some f.(frame).
Proof.
  intros HR Hi. pose proof (lookup_lt_Some _ _ _ Hi) as Hlt. rewrite (window_length e g HR) in Hlt.
  split; [done|]. apply (f_equal (fmap frame)) in Hi. rewrite <- list_lookup_fmap in Hi.
  rewrite (rel_window _ _ _ _ _ _ _ _ HR), lookup_take in Hi. case_decide; [|lia]. by rewrite lookup_drop in Hi.
Qed.

(** The next pending frame moved to the window. *)
Lemma take_next e g f rest : R e g -> e.(pending) = f :: rest ->
  g.(hist) !! g.(sent) = Some f /\ rest = drop (S g.(sent)) g.(hist) /\ (g.(sent) < length g.(hist))%nat /\
  take (S g.(sent) - g.(acked)) (drop g.(acked) g.(hist)) = (frame <$> e.(tx_window)) ++ [f].
Proof.
  intros HR Hp. pose proof (rel_order _ _ _ _ _ _ _ _ HR).
  rewrite (rel_pending _ _ _ _ _ _ _ _ HR) in Hp.
  assert (g.(hist) !! g.(sent) = Some f) as Hf.
  { rewrite <- (Nat.add_0_r g.(sent)), <- lookup_drop, Hp. done. }
  split; [done|]. split; [by rewrite (drop_S _ _ _ Hf) in Hp; injection Hp|].
  split; [by eapply lookup_lt_Some|]. rewrite (rel_window _ _ _ _ _ _ _ _ HR), Nat.sub_succ_l by lia.
  apply take_S_r. rewrite lookup_drop, <- Hf. f_equal. lia.
Qed.

(** One turn of the loop of [process_output]. *)
Definition output_turn (f : PendingFrame) (rest : list PendingFrame) (data : list Z) (e : ErtmEngine) : ErtmEngine :=
  set_outbound (e.(outbound) ++ [data])
    (set_tx_window (e.(tx_window) ++ [mkTransmitted f 1])
      (set_last_acked_rx_seq e.(expected_tx_seq) (set_pending rest e))).

Definition sent_next (g : ghost) : ghost :=
  push_wire (WInfo g.(sent) (S g.(sent)) g.(awaited)) (mkGhost g.(hist) g.(acked) (S g.(sent)) g.(awaited) g.(wire)).

Lemma output_turn_related e g f rest data : R e g -> e.(pending) = f :: rest ->
  len e.(tx_window) < e.(config).(tx_window_size) ->
  PendingFrame_encode f e.(expected_tx_seq) false = Ok data -> R (output_turn f rest data e) (sent_next g).
Proof.
  intros HR Hp Hsize Henc. destruct (take_next e g f rest HR Hp) as (Hf & Hrest & Hlt & Hwin).
  pose proof (window_length e g HR) as Hlen.
  destruct HR as [H1 H2 H3 H4 H5 H6 H7 H8 H9 H10 H11].
  constructor; cbn [output_turn sent_next push_wire hist acked sent awaited wire config pending tx_window outbound
    set_outbound set_tx_window set_last_acked_rx_seq set_pending next_tx_seq last_acked_tx_seq expected_tx_seq];
    try done.
  - by rewrite fmap_app, Hwin.
  - lia.
  - unfold len in Hsize. lia.
  - apply Forall_app. split; [done|]. apply Forall_singleton. split; cbn; [lia|]. destruct H1 as (?&?&?&?&?). lia.
  - rewrite H9 in Henc. eapply wire_inv_push; [exact H11|..]; try done.
    + cbn. lia.
    + by exists f.
    + split; cbn; lia.
    + cbn. lia.
Qed.

Lemma process_output_loop_spec queue : forall e g, R e g -> e.(pending) = queue ->
  exists e' g', process_output_loop queue e = (Ok tt, e') /\ rtc gstep g g' /\ R e' g' /\ keeps e e'.
Proof.
  induction queue as [|f rest IH]; intros e g HR Hp.
  - exists e, g. cbn [process_output_loop]. unfold mbind, stm_bind, get. by case_match.
  - cbn [process_output_loop]. unfold mbind at 1, stm_bind at 1, get. destruct (_ <? _) eqn:Hsize; [|by exists e, g].
    bool_to_prop. destruct (take_next e g f rest HR Hp) as (Hf & Hrest & Hlt & Hwin).
    assert (PendingFrame_encode f e.(expected_tx_seq) false =
      Ok (info_octet0 f.(tx_seq) false :: info_octet1 e.(expected_tx_seq) f.(sar) :: frame_body f)) as Henc.
    { rewrite (rel_expected _ _ _ _ _ _ _ _ HR). apply frame_encode_ok; [|apply seq64_range].
      rewrite (rel_seqs _ _ _ _ _ _ _ _ HR _ _ Hf). apply seq64_range. }
    rewrite Henc. pose proof (output_turn_related e g f rest _ HR Hp Hsize Henc) as HR'.
    destruct (IH _ _ HR' eq_refl) as (e' & g' & Hrun & Hsteps & HRe & Hk).
    exists e', g'. split; [exact Hrun|]. split; [|split; [done|]].
    + eapply rtc_l; [|exact Hsteps]. by apply gstep_next.
    + etrans; [|exact Hk]. by repeat split.
Qed.

Lemma refresh_deadline_ok e : deadline_ok (refresh_deadline e).
Proof.
  unfold deadline_ok, refresh_deadline. cbn [tx_window retransmission_deadline set_retransmission_deadline].
  destruct e.(tx_window); split; done.
Qed.

Section sim_operations.
Context (allowed : option L2capError -> ErtmEngine -> Prop).

Lemma sim_process_output : sim allowed process_output.
Proof.
  apply sim_get. intros e g HR. destruct (remote_busy e); [by apply sim_skip|].
  destruct (process_output_loop_spec _ e g HR eq_refl) as (e' & g' & Hrun & Hsteps & HR' & Hk).
  exists g'. unfold mbind, stm_bind. rewrite Hrun. split; [done|]. cbn [fst snd refresh_retransmission_deadline modify].
  split; [exact HR'|]. split; [exact Hk|]. split; [intros _; apply refresh_deadline_ok | exact I].
Qed.

Lemma sim_refresh : sim allowed refresh_retransmission_deadline.
Proof. apply sim_modify. intros e g HR. repeat split; try apply HR; try done; apply refresh_deadline_ok. Qed.

Context `{Profile}.
Hypothesis allowed_panic : forall e, overflow_checks = true -> e.(config).(max_retransmissions) = 0 -> allowed None e.
Hypothesis allowed_failed : forall x e, e.(failed) = true -> allowed (Some x) e.

Lemma window_encode e g i f : R e g -> e.(tx_window) !! i = Some f ->
  exists data, PendingFrame_encode f.(frame) e.(expected_tx_seq) false = Ok data /\
    encodes g.(hist) (WInfo (g.(acked) + i) g.(sent) g.(awaited)) data.
Proof.
  intros HR Hi. destruct (window_lookup e g i f HR Hi) as [_ Hf].
  rewrite (rel_expected _ _ _ _ _ _ _ _ HR). eexists.
  assert (forall data, PendingFrame_encode f.(frame) (seq64 g.(awaited)) false = Ok data ->
    encodes g.(hist) (WInfo (g.(acked) + i) g.(sent) g.(awaited)) data) as Henc by (intros; by exists f.(frame)).
  enough (PendingFrame_encode f.(frame) (seq64 g.(awaited)) false = Ok _) by eauto.
  apply frame_encode_ok; [|apply seq64_range]. rewrite (rel_seqs _ _ _ _ _ _ _ _ HR _ _ Hf). apply seq64_range.
Qed.

(** A frame of the window counted once more and queued again. *)
Definition resent (i : nat) (f' : TransmittedFrame) (data : list Z) (e : ErtmEngine) : ErtmEngine :=
  set_last_acked_rx_seq e.(expected_tx_seq)
    (set_outbound (e.(outbound) ++ [data]) (set_tx_window (<[i := f']> e.(tx_window)) e)).

Lemma resent_related e g i f data count : R e g -> e.(tx_window) !! i = Some f ->
  count_ok e.(config) (mkTransmitted f.(frame) count) ->
  encodes g.(hist) (WInfo (g.(acked) + i) g.(sent) g.(awaited)) data ->
  R (resent i (mkTransmitted f.(frame) count) data e) (push_wire (WInfo (g.(acked) + i) g.(sent) g.(awaited)) g).
Proof.
  intros HR Hi Hc Hd. destruct (window_lookup e g i f HR Hi) as [Hlt Hf].
  destruct HR as [H1 H2 H3 H4 H5 H6 H7 H8 H9 H10 H11]. destruct H1 as (?&?&?&?&?).
  constructor; cbn [resent push_wire hist acked sent awaited wire config pending tx_window outbound
    set_outbound set_tx_window set_last_acked_rx_seq next_tx_seq last_acked_tx_seq expected_tx_seq]; try done.
  - rewrite list_fmap_insert. cbn [frame]. rewrite list_insert_id; [done|]. by rewrite list_lookup_fmap, Hi.
  - by apply Forall_insert.
  - eapply wire_inv_push; [exact H11|..]; try done; [split; cbn; lia | cbn; lia].
Qed.

Lemma sim_retransmit_frame e g i f put_back : R e g -> e.(tx_window) !! i = Some f ->
  (forall f', put_back f' = <[i := f']> e.(tx_window)) ->
  retransmission_limit_reached e.(config).(max_retransmissions) f = false ->
  sim_at allowed e g (retransmit_frame put_back f) /\
  forall f' e', retransmit_frame put_back f e = (Ok f', e') -> e'.(tx_window) = <[i := f']> e.(tx_window).
Proof.
  intros HR Hi Hput Hlim. destruct (window_encode e g i f HR Hi) as (data & Henc & Hdata).
  assert (count_ok e.(config) f) as [Hc1 Hc2].
  { pose proof (rel_counts _ _ _ _ _ _ _ _ HR) as Hall. rewrite Forall_lookup in Hall. eauto. }
  unfold retransmission_limit_reached, saturating_sub in Hlim.
  assert (forall count, count_ok e.(config) (mkTransmitted f.(frame) count) ->
    sim_at allowed e g (fun e => (Ok (mkTransmitted f.(frame) count), resent i (mkTransmitted f.(frame) count) data e)))
    as Hok.
  { intros count Hcount. exists (push_wire (WInfo (g.(acked) + i) g.(sent) g.(awaited)) g).
    destruct (window_lookup e g i f HR Hi) as [Hlt _].
    split; [apply rtc_once, gstep_again; lia|]. split; [by apply resent_related with (f := f)|].
    split; [by repeat split|]. split; [|done]. unfold deadline_ok, resent.
    cbn [retransmission_deadline tx_window set_last_acked_rx_seq set_outbound set_tx_window].
    intros ->. destruct e.(tx_window), i; done. }
  unfold sim_at, retransmit_frame, mbind, stm_bind, lift, checked_add, modify, get, push_outbound, note_acked_rx, mret,
    stm_ret in *.
  destruct (_ <? _) eqn:Hb; [|destruct overflow_checks eqn:Hov]; bool_to_prop;
    cbn [set_tx_window expected_tx_seq]; rewrite ?Hput, ?Henc.
  - split; [apply Hok|by intros f' e' [= <- <-]]. split; cbn; [lia|]. intros Hm. specialize (Hc2 Hm).
    destruct (Z.eqb_spec e.(config).(max_retransmissions) 0); [done|]. cbn in Hlim. bool_to_prop. lia.
  - split; [|done]. exists g. split; [done|]. split; [done|]. split; [done|]. split; [done|]. apply allowed_panic; [done|].
    destruct (Z.eqb_spec e.(config).(max_retransmissions) 0); [done|]. cbn in Hlim. bool_to_prop.
    pose proof (rel_config _ _ _ _ _ _ _ _ HR) as (_&_&_&_&?). lia.
  - split; [apply Hok|by intros f' e' [= <- <-]].
    assert (f.(transmissions) = 65535) as -> by lia.
    change ((65535 + 1) mod 2 ^ 16) with 0. split; cbn; [lia|]. intros Hm. specialize (Hc2 Hm).
    pose proof (rel_config _ _ _ _ _ _ _ _ HR) as (_&_&_&_&?). lia.
Qed.

Lemma sim_retransmit_loop todo : forall done_ e g, R e g -> e.(tx_window) = done_ ++ todo ->
  Forall (fun f => retransmission_limit_reached e.(config).(max_retransmissions) f = false) todo ->
  sim_at allowed e g (retransmit_loop done_ todo).
Proof.
  induction todo as [|f rest IH]; intros done_ e g HR Hw Hl; cbn [retransmit_loop]; [by apply sim_skip|].
  apply Forall_cons_iff in Hl as [Hf Hl].
  destruct (sim_retransmit_frame e g (length done_) f (fun f' => done_ ++ f' :: rest) HR) as [Hs Hw']; try done.
  { by rewrite Hw, list_lookup_middle. }
  { intros f'. by rewrite Hw, insert_app_r_alt, Nat.sub_diag by lia. }
  apply sim_at_bind; [done|]. intros f' e' g' Hrun HR' _.
  assert (config e' = config e) as Hc by (destruct Hs as (?&_&_&Hk&_); rewrite Hrun in Hk; apply Hk).
  apply IH; [done| |by rewrite Hc].
  rewrite (Hw' _ _ Hrun), Hw, insert_app_r_alt, Nat.sub_diag, <- app_assoc by lia. done.
Qed.

Lemma sim_fail seq : sim allowed (modify (set_failed true);; throw (A:=unit) (retransmission_limit_error seq)).
Proof. intros e g HR. exists g. split; [done|]. split; [exact HR|]. split; [by repeat split|]. split; [done|]. by apply allowed_failed. Qed.

Lemma sim_retransmit_all : sim allowed retransmit_all.
Proof.
  apply sim_get. intros e g HR. destruct (remote_busy e); [by apply sim_skip|].
  destruct (list_find _ _) as [[i f]|] eqn:Hfind; [by apply sim_fail|].
  apply sim_at_bind; [|intros; by apply sim_refresh].
  apply sim_retransmit_loop; [done|done|]. apply list_find_None in Hfind.
  eapply List.Forall_impl; [|exact Hfind]. intros f Hf. cbn beta in Hf. by destruct (retransmission_limit_reached _ _).
Qed.

Lemma sim_retransmit_one seq :
  (forall e, allowed (Some (InvalidPacket "selective reject requested unknown ERTM sequence {tx_seq}" [seq])) e) ->
  sim allowed (retransmit_one seq).
Proof.
  intros Hunknown. apply sim_get. intros e g HR. destruct (remote_busy e); [by apply sim_skip|].
  destruct (list_find _ _) as [[i f]|] eqn:Hfind.
  - destruct (retransmission_limit_reached _ _) eqn:Hl; [by apply sim_fail|].
    apply list_find_Some in Hfind as (Hi & _ & _).
    apply sim_at_bind; [|intros; by apply sim_refresh].
    by apply (sim_retransmit_frame e g i).
  - exists g. split; [done|]. split; [done|]. split; [done|]. split; [done|]. apply Hunknown.
Qed.
End sim_operations.

(** ** Acknowledgements *)

Definition set_acked (n : nat) (g : ghost) : ghost := mkGhost g.(hist) n g.(sent) g.(awaited) g.(wire).

Lemma acked_related e g n : R e g -> (g.(acked) <= n <= g.(sent))%nat ->
  R (set_last_acked_tx_seq (seq64 n) (set_tx_window (drop (n - g.(acked)) e.(tx_window)) e)) (set_acked n g).
Proof.
  intros [H1 H2 H3 H4 H5 H6 H7 H8 H9 H10 H11] Hn.
  constructor; cbn [set_acked hist acked sent awaited wire config pending tx_window outbound next_tx_seq
    last_acked_tx_seq expected_tx_seq set_tx_window set_last_acked_tx_seq]; try done; try lia.
  - rewrite fmap_drop, H2, skipn_firstn_comm, drop_drop. f_equal; [lia|]. f_equal. lia.
  - by apply Forall_drop.
  - by apply (wire_inv_ghost g).
Qed.

(** [acknowledge] moves the window forward by the distance to the new
    sequence number, or refuses and changes nothing. *)
Lemma acknowledge_spec e g new : R e g -> 0 <= new < 64 ->
  let count := sequence_distance e.(last_acked_tx_seq) new in
  (count <= len e.(tx_window) ->
   exists e', acknowledge new e = (Ok (negb (count =? 0)), e') /\
     R e' (set_acked (g.(acked) + Z.to_nat count) g) /\ keeps e e' /\ (deadline_ok e -> deadline_ok e')) /\
  (len e.(tx_window) < count -> exists x, acknowledge new e = (Err x, e)).
Proof.
  intros HR Hnew count. subst count. pose proof (window_length e g HR) as Hlen.
  pose proof (rel_order _ _ _ _ _ _ _ _ HR). rewrite (rel_last _ _ _ _ _ _ _ _ HR).
  destruct (sequence_distance_advance g.(acked) new Hnew) as [Hcount Hadv].
  set (count := sequence_distance (seq64 (acked g)) new) in *.
  unfold acknowledge, ERTM_SEQUENCE_MODULUS. rewrite (proj2 (Z.leb_gt _ _)) by lia.
  unfold mbind, stm_bind, get. rewrite (rel_last _ _ _ _ _ _ _ _ HR). fold count. split.
  - intros Hle. rewrite (proj2 (Z.ltb_ge _ _)) by lia.
    pose proof (acked_related e g (g.(acked) + Z.to_nat count) HR) as HR'.
    replace (acked g + Z.to_nat count - acked g)%nat with (Z.to_nat count) in HR' by lia.
    rewrite <- Hadv in HR'. unfold len in Hle. specialize (HR' ltac:(lia)).
    unfold modify, skip, mret, stm_ret, refresh_retransmission_deadline.
    destruct (Z.eqb_spec count 0) as [H0|H0]; cbn [negb].
    + eexists. split; [reflexivity|]. rewrite H0 in *. cbn [Z.to_nat drop] in *.
      rewrite Nat.add_0_r in *. split; [|split; [by repeat split|done]]. pose proof (rel_last _ _ _ _ _ _ _ _ HR) as Hlast.
      rewrite <- Hadv in Hlast. unfold R in *. cbn [last_acked_tx_seq set_tx_window]. by rewrite Hlast.
    + eexists. split; [reflexivity|]. split; [exact HR'|]. split; [by repeat split|]. intros _. apply refresh_deadline_ok.
  - intros Hlt. rewrite (proj2 (Z.ltb_lt _ _)) by lia. eexists. reflexivity.
Qed.

(** ** Reassembly *)

(** Only the receive queue and the partly received SDU may change. *)
Definition rx_only (e e' : ErtmEngine) : Prop :=
  e' = set_received e'.(received) (set_input_sdu e'.(input_sdu) (set_input_sdu_length e'.(input_sdu_length) e)).

Lemma rx_only_related e e' g : rx_only e e' -> R e g -> R e' g.
Proof. intros H. by rewrite H. Qed.

Lemma rx_only_deadline e e' : rx_only e e' -> deadline_ok e -> deadline_ok e'.
Proof. intros H. by rewrite H. Qed.

Ltac run := unfold mbind, stm_bind, get, put, modify, lift, throw, skip, mret, stm_ret.

Lemma accept_information_rx s body e : rx_only e (accept_information s body e).2.
Proof.
  unfold accept_information, check_partial_length, reset_input, extend_input, push_received. run.
  destruct e. unfold rx_only. cbn.
  repeat (case_match; simplify_eq/=); reflexivity.
Qed.

Lemma accept_information_input s body e : input_ok e -> input_ok (accept_information s body e).2.
Proof.
  unfold accept_information, check_partial_length, reset_input, extend_input, push_received, input_in_progress. run.
  destruct e. unfold input_ok. cbn.
  repeat (case_match; simplify_eq/=); bool_to_prop; try done; try lia.
  all: match goal with Hs : slice_from _ 2 = _ |- _ => rewrite slice_from_ok in Hs by len_lia; done end.
Qed.

(** ** Receiving *)

Definition advance (g : ghost) : ghost := mkGhost g.(hist) g.(acked) g.(sent) (S g.(awaited)) g.(wire).

Lemma advance_related e g : R e g ->
  R (set_expected_tx_seq (sequence_add e.(expected_tx_seq) 1) e) (advance g).
Proof.
  intros [H1 H2 H3 H4 H5 H6 H7 H8 H9 H10 H11]. constructor; try done.
  - cbn. by rewrite H9, seq64_succ.
  - apply (wire_inv_ghost g); try done. cbn. lia.
Qed.

Section sim_receive.
Context (allowed : option L2capError -> ErtmEngine -> Prop).

(** A frame that is out of order, or met while busy, only causes an answer. *)
Lemma sim_receive_ignored e g seq f s data : R e g ->
  e.(local_busy) = true \/ seq <> e.(expected_tx_seq) -> sim_at allowed e g (receive_information seq f s data).
Proof.
  intros HR Hcase. apply sim_at_get.
  destruct (local_busy e); [by apply sim_send_supervisory|].
  destruct Hcase as [?|Hne]; [done|]. apply Z.eqb_neq in Hne. rewrite Hne.
  by apply sim_send_supervisory.
Qed.

(** The frame that is awaited is accepted: the outcome is that of
    reassembly, after which the engine sends what it can. *)
Lemma receive_accepted e g seq f s data body : R e g -> e.(local_busy) = false -> seq = e.(expected_tx_seq) ->
  slice_from (E:=L2capError) data 2 = Ok body ->
  let e1 := set_expected_tx_seq (sequence_add e.(expected_tx_seq) 1) e in
  match accept_information s body e1 with
  | (Ok _, e2) => exists g' e', receive_information seq f s data e = (Ok tt, e') /\
      rtc gstep (advance g) g' /\ R e' g' /\ keeps e2 e' /\ (deadline_ok e -> deadline_ok e')
  | (r, e2) => receive_information seq f s data e = (r, e2)
  end.
Proof.
  intros HR Hb -> Hbody e1. pose proof (accept_information_rx s body e1) as Hrx.
  set (send := process_output;; self ← get;
    if negb (self.(last_acked_rx_seq) =? self.(expected_tx_seq)) then send_supervisory ReceiverReady false f
    else skip).
  assert (receive_information (expected_tx_seq e) f s data e = (accept_information s body;; send) e1) as ->.
  { unfold receive_information, mbind, stm_bind, get at 1, modify, lift. by rewrite Hb, Z.eqb_refl, Hbody. }
  unfold mbind, stm_bind.
  destruct (accept_information s body e1) as [[[]|x|] e2]; [|done..]. cbn [snd] in Hrx.
  assert (sim (fun _ _ => False) send) as Hsim.
  { apply sim_bind; [apply sim_process_output|]. intros _. apply sim_get. intros e' g' HR'.
    case_match; [by apply sim_send_supervisory | by apply sim_skip]. }
  destruct (Hsim e2 (advance g)) as (g' & Hs & HR' & Hk & Hd & Ho).
  { by apply (rx_only_related e1), advance_related. }
  destruct (send e2) as [[[]|x|] e'] eqn:Hrun; cbn [fst snd] in *; [|done..].
  exists g', e'. split; [done|]. split; [done|]. split; [done|]. split; [done|]. intros Hde. apply Hd.
  by apply (rx_only_deadline e1).
Qed.

Context `{Profile}.
Hypothesis allowed_panic : forall e, overflow_checks = true -> e.(config).(max_retransmissions) = 0 -> allowed None e.
Hypothesis allowed_failed : forall x e, e.(failed) = true -> allowed (Some x) e.

Lemma sim_receive_supervisory acked fn p f req :
  (fn = SelectiveReject -> forall x e, allowed (Some x) e) ->
  sim allowed (receive_supervisory acked fn p f req).
Proof.
  intros Hsrej. unfold receive_supervisory. apply sim_bind; [by apply sim_modify|]. intros _.
  apply sim_get. intros e g HR. apply sim_at_bind.
  - destruct fn.
    + case_match; [by apply sim_retransmit_all | by apply sim_skip].
    + by apply sim_retransmit_all.
    + case_match; [by apply sim_retransmit_all | by apply sim_skip].
    + apply sim_retransmit_one; auto.
  - intros _ e' g' _ HR' _. apply sim_bind; [|intros; apply sim_process_output|done].
    destruct p; [|apply sim_skip]. apply sim_get. intros e'' g'' HR''. by destruct (local_busy e''); apply sim_send_supervisory.
Qed.
End sim_receive.


(** ** Segmentation *)

(** What a frame says apart from its number. *)
Definition content : Type := SegmentationAndReassembly * option Z * list Z.
Definition content_of (f : PendingFrame) : content := (f.(sar), f.(sdu_length), f.(payload)).

Fixpoint tail_segments (cs : list (list Z)) : list content :=
  match cs with
  | [] => []
  | [c] => [(End, None, c)]
  | c :: rest => (Continuation, None, c) :: tail_segments rest
  end.

(** The segments of an SDU: it alone, or a start, continuations and an end. *)
Definition segments (mps : Z) (sdu : list Z) : list content :=
  if len sdu <=? mps then [(Unsegmented, None, sdu)]
  else match chunks (Z.to_nat mps) sdu with
       | [] => []
       | c :: cs => (Start, Some (len sdu), c) :: tail_segments cs
       end.

(** Frames appended to the history, numbered in order. *)
Fixpoint enqueue (cs : list content) (g : ghost) : ghost :=
  match cs with
  | [] => g
  | (s, l, p) :: rest =>
      enqueue rest (mkGhost (g.(hist) ++ [mkPending p (seq64 (length g.(hist))) s l])
                      g.(acked) g.(sent) g.(awaited) g.(wire))
  end.

Lemma enqueue_fields cs : forall g,
  acked (enqueue cs g) = acked g /\ sent (enqueue cs g) = sent g /\ awaited (enqueue cs g) = awaited g /\
  wire (enqueue cs g) = wire g /\ content_of <$> hist (enqueue cs g) = (content_of <$> hist g) ++ cs /\
  exists new, hist (enqueue cs g) = hist g ++ new.
Proof.
  induction cs as [|[[s l] p] cs IH]; intros g; cbn [enqueue].
  - rewrite app_nil_r. do 5 (split; [done|]). exists []. by rewrite app_nil_r.
  - destruct (IH (mkGhost (g.(hist) ++ [mkPending p (seq64 (length g.(hist))) s l])
                      g.(acked) g.(sent) g.(awaited) g.(wire))) as (-> & -> & -> & -> & -> & new & ->).
    do 4 (split; [done|]). cbn [hist]. rewrite fmap_app, <- !app_assoc. split; [done|]. eauto.
Qed.

Definition queue_frame (c : content) : engine unit :=
  let '(s, l, p) := c in seq ← take_tx_seq; push_pending (mkPending p seq s l).

(** Queueing touches the pending frames and the next number only. *)
Definition queued (e e' : ErtmEngine) : Prop :=
  e' = set_pending e'.(pending) (set_next_tx_seq e'.(next_tx_seq) e).

#[global] Instance queued_trans : Transitive queued.
Proof. unfold queued. intros e1 e2 e3 H1 H2. rewrite H2, H1. done. Qed.

Lemma queue_frame_related c e g : R e g ->
  exists e', queue_frame c e = (Ok tt, e') /\ R e' (enqueue [c] g) /\ queued e e'.
Proof.
  destruct c as [[s l] p]. intros [H1 H2 H3 H4 H5 H6 H7 H8 H9 H10 H11].
  eexists. split; [reflexivity|]. split; [|done].
  constructor; cbn [enqueue hist acked sent awaited wire set_pending set_next_tx_seq config pending tx_window outbound
    next_tx_seq last_acked_tx_seq expected_tx_seq]; try done.
  - rewrite drop_app_le, take_app_le by (rewrite ?length_drop; lia). done.
  - rewrite drop_app_le, H3, H7 by lia. done.
  - rewrite length_app. cbn. lia.
  - intros i f. rewrite lookup_app_Some. intros [Hi|[Hge Hi]]; [by apply H6|].
    destruct (i - length (hist g))%nat eqn:Hd; cbn in Hi; simplify_eq. cbn. f_equal. lia.
  - rewrite H7, seq64_succ, length_app. f_equal. cbn. lia.
  - apply (wire_inv_ghost g); try done. cbn. intros. by apply lookup_app_l_Some.
Qed.

Lemma queue_frames_related cs : forall e g, R e g ->
  exists e', for_each queue_frame cs e = (Ok tt, e') /\ R e' (enqueue cs g) /\ queued e e'.
Proof.
  induction cs as [|c cs IH]; intros e g HR; [by exists e; destruct e|].
  destruct (queue_frame_related c e g HR) as (e1 & Hrun & HR1 & Hq1).
  destruct (IH e1 _ HR1) as (e2 & Hrun2 & HR2 & Hq2). exists e2.
  cbn [for_each]. unfold mbind, stm_bind. rewrite Hrun. split; [done|]. split; [|by etrans].
  destruct c as [[s l] p]. exact HR2.
Qed.

(** A chunk is the last one exactly when it ends the SDU. *)
Lemma chunk_last (sdu : list Z) mps i c rest : (0 < mps)%nat -> chunks mps (drop (i * mps) sdu) = c :: rest ->
  rest = chunks mps (drop (S i * mps) sdu) /\
  (Z.of_nat i * Z.of_nat mps + len c =? len sdu) = match rest with [] => true | _ => false end.
Proof.
  intros Hm Hcs.
  assert (drop (i * mps) sdu <> []) as Hne by (intros Hn; by rewrite Hn, chunks_nil in Hcs).
  rewrite chunks_step, drop_drop in Hcs by done. injection Hcs as <- <-.
  assert ((i * mps < length sdu)%nat) as Hlt.
  { destruct (decide (length sdu <= i * mps)%nat); [|lia]. by rewrite drop_ge in Hne. }
  replace (i * mps + mps)%nat with (S i * mps)%nat by lia. split; [done|].
  destruct (decide (length sdu <= S i * mps)%nat).
  - rewrite (drop_ge sdu (S i * mps)), chunks_nil by done. apply Z.eqb_eq. len_lia.
  - rewrite chunks_step; [|done|].
    + apply Z.eqb_neq. len_lia.
    + intros Hn%(f_equal length). rewrite length_drop in Hn. cbn in Hn. lia.
Qed.

(** The loop of [send_sdu] queues the tail of the segments. *)
Lemma send_segments_tail sdu mps cs : forall i, (0 < mps)%nat -> (0 < i)%nat -> chunks mps (drop (i * mps) sdu) = cs ->
  forall e, for_each (send_segment sdu (Z.of_nat mps) (len sdu)) (imap (fun k c => ((i + k)%nat, c)) cs) e =
            for_each queue_frame (tail_segments cs) e.
Proof.
  induction cs as [|c cs IH]; intros i Hm Hi Hcs e; [done|].
  destruct (chunk_last sdu mps i c cs Hm Hcs) as [Hrest Hlast].
  rewrite imap_cons. cbn [for_each]. rewrite Nat.add_0_r.
  assert (send_segment sdu (Z.of_nat mps) (len sdu) (i, c) =
    queue_frame (match cs with [] => End | _ => Continuation end, None, c)) as ->.
  { unfold send_segment. rewrite Hlast. destruct i; [lia|]. by destruct cs. }
  assert (tail_segments (c :: cs) = (match cs with [] => End | _ => Continuation end, None, c) :: tail_segments cs) as ->
    by (by destruct cs).
  cbn [for_each]. unfold mbind, stm_bind. destruct (queue_frame _ e) as [[[]|x|] e1]; [|done..].
  rewrite <- (IH (S i)); [|done|lia|done]. f_equal. apply imap_ext. intros k x _. cbn. f_equal. lia.
Qed.

Lemma send_segments_all sdu mps e : 0 < mps < len sdu ->
  for_each (send_segment sdu mps (len sdu)) (enumerate (chunks (Z.to_nat mps) sdu)) e =
  for_each queue_frame (segments mps sdu) e.
Proof.
  intros Hm. unfold segments. rewrite (proj2 (Z.leb_gt _ _)) by lia.
  destruct (chunks (Z.to_nat mps) sdu) as [|c cs] eqn:Hcs; [done|].
  unfold enumerate. rewrite imap_cons. cbn [for_each].
  change (send_segment sdu mps (len sdu) (0%nat, c)) with (queue_frame (Start, Some (len sdu), c)).
  unfold mbind, stm_bind. destruct (queue_frame _ e) as [[[]|x|] e2]; [|done..].
  replace mps with (Z.of_nat (Z.to_nat mps)) at 1 by lia.
  rewrite <- (send_segments_tail sdu (Z.to_nat mps) cs 1); [done|lia|lia|].
  destruct (chunk_last sdu (Z.to_nat mps) 0 c cs) as [-> _]; [lia|done|done].
Qed.

Lemma queued_keeps e e' : queued e e' -> keeps e e' /\ (deadline_ok e -> deadline_ok e').
Proof. intros H. rewrite H. split; [by repeat split|done]. Qed.

Lemma send_sdu_spec e g sdu : R e g -> e.(failed) = false -> len sdu <= e.(config).(peer_mtu) ->
  exists e' g', send_sdu sdu e = (Ok tt, e') /\ rtc gstep (enqueue (segments e.(config).(peer_mps) sdu) g) g' /\
    R e' g' /\ keeps e e' /\ (deadline_ok e -> deadline_ok e').
Proof.
  intros HR Hf Hlen. pose proof (rel_config _ _ _ _ _ _ _ _ HR) as (Hmps & Hmtu & _).
  destruct (queue_frames_related (segments e.(config).(peer_mps) sdu) e g HR) as (e1 & Hrun & HR1 & Hq).
  destruct (sim_process_output (fun _ _ => False) e1 _ HR1) as (g' & Hs & HR' & Hk & Hd & Ho).
  destruct (queued_keeps e e1 Hq) as [Hk1 Hd1].
  destruct (process_output e1) as [[[]|x|] e'] eqn:Hout; cbn [fst snd] in *; [|done..].
  exists e', g'. split; [|split; [done|]; split; [done|]; split; [by etrans | auto]].
  unfold send_sdu, ensure_active, mbind, stm_bind, get. rewrite Hf. unfold skip at 1.
  rewrite (proj2 (Z.ltb_ge _ _)) by lia.
  destruct (Z.leb_spec (len sdu) e.(config).(peer_mps)) as [Hle|Hgt].
  - unfold segments in Hrun. rewrite (proj2 (Z.leb_le _ _)) in Hrun by lia.
    cbn [for_each queue_frame] in Hrun. unfold mbind, stm_bind, skip in Hrun.
    destruct (take_tx_seq e) as [[seq|x|] e0]; [|done..].
    destruct (push_pending _ e0) as [[[]|x|] e0']; [|done..]. by injection Hrun as ->.
  - rewrite (proj2 (Z.ltb_ge _ _)) by lia. rewrite send_segments_all by lia. by rewrite Hrun.
Qed.

Lemma send_sdu_refused e sdu : e.(failed) = true \/ e.(config).(peer_mtu) < len sdu ->
  exists x, send_sdu sdu e = (Err x, e).
Proof.
  intros Hc. unfold send_sdu, ensure_active. run. destruct (failed e) eqn:Hf; [by eexists|].
  destruct Hc as [?|Hl]; [done|]. rewrite (proj2 (Z.ltb_lt _ _)) by lia. by eexists.
Qed.

(** ** The whole engine *)

(** One call of the engine's interface. *)
Inductive call : Type :=
| SendSdu (sdu : list Z)
| ReceiveFrame (frame : list Z)
| SetReceiverBusy (busy : bool)
| Tick (ticks : Z)
| PollOutbound
| DrainOutbound
| PopReceived.

Section engine.
Context `{Profile}.

Definition run_call (c : call) (e : ErtmEngine) : res L2capError unit * ErtmEngine :=
  match c with
  | SendSdu sdu => send_sdu sdu e
  | ReceiveFrame frame => receive_frame frame e
  | SetReceiverBusy busy => set_receiver_busy busy e
  | Tick ticks => tick ticks e
  | PollOutbound => (Ok tt, (poll_outbound e).2)
  | DrainOutbound => (Ok tt, (drain_outbound e).2)
  | PopReceived => (Ok tt, (pop_received e).2)
  end.

Definition engine_ok (e : ErtmEngine) : Prop := (exists g, R e g) /\ deadline_ok e /\ input_ok e.

(** A call may return any error, and panic on an overflow of the
    retransmission count. *)
Definition may_panic (o : option L2capError) (e : ErtmEngine) : Prop :=
  match o with
  | Some _ => True
  | None => overflow_checks = true /\ e.(config).(max_retransmissions) = 0
  end.

Definition call_ok (c : engine unit) : Prop :=
  forall e, engine_ok e -> engine_ok (c e).2 /\ outcome may_panic (c e) /\ (c e).2.(config) = e.(config).

Lemma sim_call_ok m : sim may_panic m -> call_ok m.
Proof.
  intros Hs e [[g HR] [Hd Hi]]. destruct (Hs e g HR) as (g' & _ & HR' & Hk & Hd' & Ho).
  destruct Hk as (Hc & _ & Hi1 & Hi2 & _). split; [|done]. split; [by exists g'|]. split; [auto|].
  unfold input_ok in *. by rewrite Hc, Hi1, Hi2.
Qed.

Lemma sim_ensure_active : sim may_panic ensure_active.
Proof. apply sim_get. intros e g HR. destruct (failed e); [|by apply sim_skip]. by exists g. Qed.

Lemma sim_tick ticks : sim may_panic (tick ticks).
Proof.
  apply sim_bind; [apply sim_ensure_active|]. intros _. apply sim_bind; [by apply sim_modify|]. intros _.
  apply sim_get. intros e g HR. case_match; [by apply sim_retransmit_all | by apply sim_skip].
Qed.

Lemma call_ok_refused (m : engine unit) e x : engine_ok e -> m e = (Err x, e) ->
  engine_ok (m e).2 /\ outcome may_panic (m e) /\ (m e).2.(config) = e.(config).
Proof. intros He ->. done. Qed.

Lemma set_receiver_busy_run busy e : set_receiver_busy busy e =
  if failed e then (Err (InvalidPacket "ERTM engine has failed" []), e)
  else if negb (Bool.eqb e.(local_busy) busy)
  then send_supervisory (if busy then ReceiverNotReady else ReceiverReady) false false (set_local_busy busy e)
  else (Ok tt, e).
Proof. unfold set_receiver_busy, ensure_active. run. destruct (failed e); [done|]. by destruct (negb _). Qed.

Lemma call_ok_set_busy busy : call_ok (set_receiver_busy busy).
Proof.
  intros e He. rewrite set_receiver_busy_run.
  destruct (failed e); [done|]. destruct (negb _); [|done].
  pose proof (sim_call_ok (send_supervisory (if busy then ReceiverNotReady else ReceiverReady) false false)) as Hs.
  apply (Hs ltac:(apply sim_send_supervisory; by destruct busy) (set_local_busy busy e)). exact He.
Qed.

Lemma call_ok_send sdu : call_ok (send_sdu sdu).
Proof.
  intros e He. destruct (failed e) eqn:Hf.
  { destruct (send_sdu_refused e sdu) as [x ->]; [by left|]. by split. }
  destruct (decide (len sdu <= e.(config).(peer_mtu))).
  - destruct He as [[g HR] [Hd Hi]]. destruct (send_sdu_spec e g sdu HR Hf) as (e' & g' & -> & _ & HR' & Hk & Hd'); [done|].
    destruct Hk as (Hc & _ & Hi1 & Hi2 & _). split; [|by split]. split; [by exists g'|]. split; [auto|].
    cbn. unfold input_ok in *. by rewrite Hc, Hi1, Hi2.
  - destruct (send_sdu_refused e sdu) as [x ->]; [right; lia|]. by split.
Qed.

(** Decoding a control field either fails with an error or yields numbers
    that fit and leaves at least the two octets it read. *)
Lemma control_decode_cases data :
  (exists x, EnhancedControlField_from_bytes data = Err x) \/
  (exists c, EnhancedControlField_from_bytes data = Ok c /\ 0 <= EnhancedControlField_req_seq c < 64 /\ 2 <= len data).
Proof.
  unfold EnhancedControlField_from_bytes. destruct (Z.ltb_spec (len data) 2) as [|Hlen]; [by left; eexists|].
  destruct data as [|d0 [|d1 data]]; try (unfold len in Hlen; cbn in Hlen; lia). read_prefix.
  assert (0 <= Z.land d1 63 < 64) by (change 63 with (2 ^ 6 - 1); rewrite land_low_mod by lia; apply Z.mod_pos_bound; lia).
  case_match.
  - destruct (SegmentationAndReassembly_try_from _) as [s|x|] eqn:Hs; [right; by eexists | left; by eexists |].
    unfold SegmentationAndReassembly_try_from in Hs. by repeat case_match.
  - destruct (SupervisoryFunction_try_from _) as [s|x|] eqn:Hs; [right; by eexists | left; by eexists |].
    unfold SupervisoryFunction_try_from in Hs. by repeat case_match.
Qed.

Lemma accept_information_no_panic s body e : (accept_information s body e).1 <> Panic.
Proof.
  unfold accept_information, check_partial_length, reset_input, extend_input, push_received. run.
  destruct s; repeat (case_match; simplify_eq/=); bool_to_prop; try done.
  all: try (match goal with Hs : slice_from _ 2 = _ |- _ => rewrite slice_from_ok in Hs by len_lia; done end).
  all: destruct body as [|? [|? ?]]; try done; unfold len in *; cbn in *; lia.
Qed.

Lemma receive_information_ok seq f s data : 2 <= len data -> call_ok (receive_information seq f s data).
Proof.
  intros Hlen e [[g HR] [Hd Hi]].
  destruct (decide (e.(local_busy) = true \/ seq <> e.(expected_tx_seq))) as [Hc|Hc].
  - destruct (sim_receive_ignored may_panic e g seq f s data HR Hc) as (g' & _ & HR' & Hk & Hd' & Ho).
    destruct Hk as (Hcf & _ & Hi1 & Hi2 & _). split; [|by split]. split; [by exists g'|]. split; [auto|].
    unfold input_ok in *. by rewrite Hcf, Hi1, Hi2.
  - assert (local_busy e = false) as Hb by (destruct (local_busy e); [exfalso; apply Hc; by left|done]).
    assert (seq = e.(expected_tx_seq)) as Hseq by (destruct (decide (seq = expected_tx_seq e)); [done|exfalso; apply Hc; by right]).
    pose proof (receive_accepted e g seq f s data _ HR Hb Hseq (slice_from_ok data 2 ltac:(unfold len in Hlen; lia))) as Ha.
    cbv zeta in Ha. set (e1 := set_expected_tx_seq _ e) in Ha.
    pose proof (accept_information_rx s (drop 2 data) e1) as Hrx.
    pose proof (accept_information_input s (drop 2 data) e1 Hi) as Hin.
    pose proof (accept_information_no_panic s (drop 2 data) e1) as Hnp.
    destruct (accept_information _ _ e1) as [[[]|x|] e2]; cbn [fst snd] in *; [| |done].
    + destruct Ha as (g' & e' & -> & _ & HR' & (Hcf & _ & Hi1 & Hi2 & _) & Hd').
      split; [|split; [done|]; cbn; by rewrite Hcf, Hrx]. split; [by exists g'|]. split; [auto|]. cbn.
      unfold input_ok in *. by rewrite Hcf, Hi1, Hi2.
    + rewrite Ha. split; [|split; [done|]; cbn; by rewrite Hrx].
      split; [exists (advance g); by apply (rx_only_related e1), advance_related|]. split; [|done].
      by apply (rx_only_deadline e1).
Qed.

(** A well-formed frame is acknowledged and dispatched. *)
Lemma receive_frame_decoded data e c : e.(failed) = false -> EnhancedControlField_from_bytes data = Ok c ->
  receive_frame data e =
    (acked ← acknowledge (EnhancedControlField_req_seq c);
     match c with
     | Information seq final_bit _ sar => receive_information seq final_bit sar data
     | Supervisory function poll final_bit req => receive_supervisory acked function poll final_bit req
     end) e.
Proof. intros Hf Hc. unfold receive_frame, ensure_active. run. by rewrite Hf, Hc. Qed.

Lemma receive_frame_refused data e : e.(failed) = true \/ (exists x, EnhancedControlField_from_bytes data = Err x) ->
  exists x, receive_frame data e = (Err x, e).
Proof.
  intros Hc. unfold receive_frame, ensure_active. run. destruct (failed e); [by eexists|].
  destruct Hc as [?|[x ->]]; [done|]. by eexists.
Qed.

Lemma call_ok_receive data : call_ok (receive_frame data).
Proof.
  intros e He. destruct (failed e) eqn:Hf.
  { destruct (receive_frame_refused data e) as [x Hx]; [by left|]. by eapply call_ok_refused. }
  destruct (control_decode_cases data) as [Hx|(c & Hdec & Hreq & Hlen)].
  { destruct (receive_frame_refused data e) as [x Hr]; [by right|]. by eapply call_ok_refused. }
  rewrite (receive_frame_decoded data e c) by done.
  unfold mbind, stm_bind. pose proof He as [[g HR] [Hd Hi]].
  destruct (acknowledge_spec e g _ HR Hreq) as [Hack Hrefuse].
  destruct (decide (sequence_distance e.(last_acked_tx_seq) (EnhancedControlField_req_seq c) <= len e.(tx_window))).
  - destruct Hack as (e1 & -> & HR1 & (Hcf & _ & Hi1 & Hi2 & _) & Hd1); [done|].
    assert (engine_ok e1) as He1.
    { split; [by eexists|]. split; [auto|]. unfold input_ok in *. by rewrite Hcf, Hi1, Hi2. }
    rewrite <- Hcf. destruct c; [by apply receive_information_ok|].
    apply sim_call_ok; [|done]. by apply sim_receive_supervisory.
  - destruct Hrefuse as [x ->]; [lia|]. by split.
Qed.

(** Taking the oldest frame off the wire. *)
Lemma poll_related e g data rest : R e g -> e.(outbound) = data :: rest ->
  exists w ws, g.(wire) = w :: ws /\ encodes g.(hist) w data /\ wire_ok g w /\ Forall (wire_le w) ws /\
    R (set_outbound rest e) (mkGhost g.(hist) g.(acked) g.(sent) g.(awaited) ws).
Proof.
  intros [H1 H2 H3 H4 H5 H6 H7 H8 H9 H10 [He Hok Hs]] Ho. rewrite Ho in He.
  apply Forall2_cons_inv_r in He as (w & ws & Hd & He & Hw). rewrite Hw in *.
  apply Forall_cons_iff in Hok as [Hwok Hok]. apply StronglySorted_inv in Hs as [Hs Hle].
  exists w, ws. do 4 (split; [done|]). by constructor; try done; constructor.
Qed.

Lemma call_ok_run c : call_ok (run_call c).
Proof.
  destruct c; cbn [run_call].
  - apply call_ok_send.
  - apply call_ok_receive.
  - apply call_ok_set_busy.
  - apply sim_call_ok, sim_tick.
  - intros e He. unfold run_call, poll_outbound. destruct (outbound e) as [|data rest] eqn:Ho; [done|].
    destruct He as [[g HR] Hrest]. destruct (poll_related e g data rest HR Ho) as (w & ws & _ & _ & _ & _ & HR').
    split; [|done]. split; [by eexists|exact Hrest].
  - intros e [[g HR] Hrest]. split; [|done]. split; [|exact Hrest]. exists (mkGhost g.(hist) g.(acked) g.(sent) g.(awaited) []).
    destruct HR as [H1 H2 H3 H4 H5 H6 H7 H8 H9 H10 H11]. constructor; try done. by constructor; constructor.
  - intros e He. unfold run_call, pop_received. by destruct (received e).
Qed.

Definition run_calls (cs : list call) (e : ErtmEngine) : ErtmEngine := fold_left (fun e c => (run_call c e).2) cs e.

Lemma run_calls_ok cs : forall e, engine_ok e -> engine_ok (run_calls cs e) /\ (run_calls cs e).(config) = e.(config).
Proof.
  induction cs as [|c cs IH]; intros e He; [done|]. cbn [run_calls fold_left].
  destruct (call_ok_run c e He) as (He' & _ & Hc). destruct (IH _ He') as [Hok Hcf]. split; [exact Hok|].
  by rewrite <- Hc, <- Hcf.
Qed.
End engine.

(** The machine ranges of a configuration's fields. *)
Definition config_in_range (c : ErtmConfig) : Prop :=
  u16 c.(local_mtu) /\ u16 c.(peer_mtu) /\ u16 c.(local_mps) /\ u16 c.(peer_mps) /\
  u8 c.(tx_window_size) /\ u8 c.(max_retransmissions) /\ u32 c.(retransmission_timeout_ticks).

#[global] Instance config_in_range_dec c : Decision (config_in_range c).
Proof. unfold config_in_range. apply _. Defined.

Lemma validate_config_ok c c' : config_in_range c -> ErtmConfig_validate c = Ok c' -> c' = c /\ config_ok c.
Proof.
  intros (?&?&?&?&?&?&?). unfold ErtmConfig_validate, ERTM_SEQUENCE_MODULUS. intros Hv.
  repeat (case_match; try done). simplify_eq. bool_to_prop. split; [done|]. unfold config_ok. lia.
Qed.

Lemma new_related c e : config_in_range c -> ErtmEngine_new c = Ok e -> R e initial_ghost /\ deadline_ok e /\ input_ok e /\
  e.(config) = c /\ e.(failed) = false /\ e.(received) = [] /\ e.(input_sdu_length) = None.
Proof.
  intros Hc. unfold ErtmEngine_new. destruct (ErtmConfig_validate c) as [c'| |] eqn:Hv; cbn; try done. intros [= <-].
  destruct (validate_config_ok c c' Hc Hv) as [-> Hok]. split; [|split; [|done]].
  - constructor; cbn; try done; try lia; [destruct Hok as (?&?&?&?&?); lia|]. constructor; constructor.
  - split; cbn; [by intros [? ?] | done].
Qed.

(** What the invariant says of the engine's own fields: the window fits, the
    frames to send carry consecutive numbers that start at the last
    acknowledged one, the timer runs exactly while frames are outstanding and
    a partial SDU is shorter than its length. *)
Definition engine_wf (e : ErtmEngine) : Prop :=
  len e.(tx_window) <= e.(config).(tx_window_size) <= 63 /\
  (forall i f, ((frame <$> e.(tx_window)) ++ e.(pending)) !! i = Some f ->
     f.(tx_seq) = (e.(last_acked_tx_seq) + Z.of_nat i) mod 64) /\
  e.(next_tx_seq) = (e.(last_acked_tx_seq) + pending_frames e) mod 64 /\
  deadline_ok e /\ input_ok e.

Lemma engine_ok_wf e : engine_ok e -> engine_wf e.
Proof.
  intros [[g HR] [Hd Hi]]. pose proof (window_length e g HR) as Hlen.
  destruct HR as [H1 H2 H3 H4 H5 H6 H7 H8 H9 H10 H11]. destruct H1 as (_&_&_&Hw&_).
  split; [unfold len; lia|].
  assert ((frame <$> e.(tx_window)) ++ e.(pending) = drop g.(acked) g.(hist)) as Hall.
  { rewrite H2, H3. replace g.(sent) with (g.(acked) + (g.(sent) - g.(acked)))%nat at 2 by lia.
    by rewrite <- drop_drop, take_drop. }
  rewrite Hall, H7, H8. unfold seq64. split; [|split; [|done]].
  - intros i f. rewrite lookup_drop. intros Hf%H6. rewrite Hf. unfold seq64. rewrite Nat2Z.inj_add.
    by rewrite Zplus_mod_idemp_l.
  - unfold pending_frames, len. rewrite Hlen, H3, length_drop, Zplus_mod_idemp_l. f_equal. lia.
Qed.

(** ** Go-back-N retransmission, as a function *)

Definition encoded (req : Z) (f : PendingFrame) : list Z :=
  info_octet0 f.(tx_seq) false :: info_octet1 req f.(sar) :: frame_body f.

Definition count_again (f : TransmittedFrame) : TransmittedFrame := mkTransmitted f.(frame) (f.(transmissions) + 1).

(** The engine after its whole window was sent again. *)
Definition window_resent (e : ErtmEngine) : ErtmEngine :=
  set_last_acked_rx_seq e.(expected_tx_seq)
    (set_outbound (e.(outbound) ++ (encoded e.(expected_tx_seq) ∘ frame <$> e.(tx_window)))
       (set_tx_window (count_again <$> e.(tx_window)) e)).

Section go_back_n.
Context `{Profile}.

Lemma retransmit_loop_run todo : forall done_ e, e.(tx_window) = done_ ++ todo -> todo <> [] ->
  0 <= e.(expected_tx_seq) < 64 ->
  Forall (fun f => 0 <= f.(frame).(tx_seq) < 64 /\ f.(transmissions) < 65535) todo ->
  retransmit_loop done_ todo e = (Ok tt, set_last_acked_rx_seq e.(expected_tx_seq)
    (set_outbound (e.(outbound) ++ (encoded e.(expected_tx_seq) ∘ frame <$> todo))
       (set_tx_window (done_ ++ (count_again <$> todo)) e))).
Proof.
  induction todo as [|f rest IH]; intros done_ e Hw Hne Hexp Hall; [done|].
  apply Forall_cons_iff in Hall as [[Hseq Hc] Hall]. cbn [retransmit_loop].
  unfold retransmit_frame, push_outbound, note_acked_rx, checked_add. run.
  rewrite (proj2 (Z.ltb_lt _ _)) by lia. cbn [expected_tx_seq set_tx_window]. rewrite frame_encode_ok by done.
  destruct rest as [|f' rest]; [done|]. rewrite IH; [|cbn; by rewrite <- app_assoc|done|done|done].
  cbn. rewrite <- !app_assoc. done.
Qed.

Lemma tick_resends e ticks deadline : e.(failed) = false -> e.(remote_busy) = false ->
  e.(tx_window) <> [] -> e.(retransmission_deadline) = Some deadline ->
  deadline <= saturating_add 64 e.(now) ticks -> 0 <= e.(expected_tx_seq) < 64 ->
  Forall (fun f => retransmission_limit_reached e.(config).(max_retransmissions) f = false) e.(tx_window) ->
  Forall (fun f => 0 <= f.(frame).(tx_seq) < 64 /\ f.(transmissions) < 65535) e.(tx_window) ->
  tick ticks e = (Ok tt, refresh_deadline (window_resent (set_now (saturating_add 64 e.(now) ticks) e))).
Proof.
  intros Hf Hb Hw Hdl Hle Hexp Hlim Hall. unfold tick, ensure_active, retransmit_all. run. rewrite Hf.
  cbn [retransmission_deadline now set_now tx_window remote_busy config]. rewrite Hdl, (proj2 (Z.leb_le _ _)) by done.
  assert (negb (len (tx_window e) =? 0) = true) as ->.
  { apply negb_true_iff, Z.eqb_neq. intros H0. by apply len_zero in H0. }
  cbn [andb remote_busy set_now]. rewrite Hb. cbn [tx_window config set_now].
  replace (list_find _ _) with (@None (nat * TransmittedFrame)); [by rewrite retransmit_loop_run|].
  symmetry. apply list_find_None. eapply List.Forall_impl; [|exact Hlim]. intros f ->. done.
Qed.
End go_back_n.

(** ** Properties of one engine *)

Section theorems.
Context `{Profile}.

(** C29. Whatever is sent to it, in whatever order its methods are called and
    whether they succeed or not, a new engine keeps its window within the
    configured size, numbers the frames it has yet to get acknowledged
    consecutively modulo 64, runs its timer exactly while frames are
    outstanding, and never buffers a partial SDU beyond its announced length. *)
Theorem engine_invariant c e calls : config_in_range c -> ErtmEngine_new c = Ok e ->
  engine_wf (run_calls calls e).
Proof.
  intros Hc He. destruct (new_related c e Hc He) as (HR & Hd & Hi & _).
  apply engine_ok_wf, run_calls_ok. split; [by exists initial_ghost|done].
Qed.

(** No sequence of calls makes a method of the engine panic, when overflow
    checks are off or retransmissions are limited. *)
Theorem engine_panic_free c e calls last : config_in_range c -> ErtmEngine_new c = Ok e ->
  overflow_checks = false \/ c.(max_retransmissions) <> 0 ->
  (run_call last (run_calls calls e)).1 <> Panic.
Proof.
  intros Hc He Hor Hp. destruct (new_related c e Hc He) as (HR & Hd & Hi & Hcf & _).
  destruct (run_calls_ok calls e) as [Hok Hcf']; [split; [by exists initial_ghost|done]|].
  destruct (call_ok_run last _ Hok) as (_ & Ho & Hcf''). unfold outcome in Ho. rewrite Hp in Ho.
  cbn in Ho. rewrite Hcf'', Hcf', Hcf in Ho. destruct Ho as [Ho1 Ho2]. rewrite Ho1 in Hor. by destruct Hor.
Qed.

(** When the timer expires with the peer ready and no frame exhausted, the
    engine sends its whole window again, oldest frame first, acknowledging
    what it has received, counts each frame once more and restarts the timer;
    nothing else changes. *)
Theorem tick_goes_back_n e ticks deadline : engine_ok e -> e.(failed) = false -> e.(remote_busy) = false ->
  e.(tx_window) <> [] -> e.(retransmission_deadline) = Some deadline ->
  deadline <= saturating_add 64 e.(now) ticks ->
  Forall (fun f => retransmission_limit_reached e.(config).(max_retransmissions) f = false /\ f.(transmissions) < 65535)
    e.(tx_window) ->
  tick ticks e =
    (Ok tt, refresh_deadline (window_resent (set_now (saturating_add 64 e.(now) ticks) e))).
Proof.
  intros [[g HR] _] Hf Hb Hw Hdl Hle Hall. apply (tick_resends _ _ deadline); try done.
  - rewrite (rel_expected _ _ _ _ _ _ _ _ HR). apply seq64_range.
  - eapply List.Forall_impl; [|exact Hall]. by intros f [? _].
  - apply Forall_lookup. intros i f Hi. rewrite Forall_lookup in Hall. split; [|by apply (Hall i f)].
    destruct (window_lookup e g i f HR Hi) as [_ Hh]. rewrite (rel_seqs _ _ _ _ _ _ _ _ HR _ _ Hh). apply seq64_range.
Qed.

(** A frame that has used up its retransmissions when the timer expires
    fails the engine: nothing is sent, the error names the frame, and from
    then on every call that can fail does, changing nothing. *)
Theorem retransmission_limit_fails e ticks deadline i f : e.(failed) = false -> e.(remote_busy) = false ->
  e.(retransmission_deadline) = Some deadline -> deadline <= saturating_add 64 e.(now) ticks ->
  list_find (fun f => retransmission_limit_reached e.(config).(max_retransmissions) f = true) e.(tx_window) = Some (i, f) ->
  let e' := set_failed true (set_now (saturating_add 64 e.(now) ticks) e) in
  tick ticks e = (Err (retransmission_limit_error f.(frame).(tx_seq)), e') /\
  forall c, match c with
            | SendSdu _ | ReceiveFrame _ | SetReceiverBusy _ | Tick _ =>
                run_call c e' = (Err (InvalidPacket "ERTM engine has failed" []), e')
            | PollOutbound | DrainOutbound | PopReceived => (run_call c e').2.(failed) = true
            end.
Proof.
  intros Hf Hb Hdl Hle Hfind e'. split.
  - unfold tick, ensure_active, retransmit_all. run. rewrite Hf.
    cbn [retransmission_deadline now set_now tx_window remote_busy config]. rewrite Hdl, (proj2 (Z.leb_le _ _)) by done.
    apply list_find_Some in Hfind as Hi. destruct Hi as (Hi & _).
    assert (negb (len (tx_window e) =? 0) = true) as ->.
    { apply negb_true_iff, Z.eqb_neq. intros H0. apply len_zero in H0. by rewrite H0 in Hi. }
    cbn [andb remote_busy set_now]. rewrite Hb. cbn [tx_window config set_now]. rewrite Hfind. done.
  - intros []; try reflexivity; cbn [run_call].
    + unfold poll_outbound. by destruct (outbound e').
    + unfold pop_received. by destruct (received e').
Qed.
End theorems.

(** An engine whose only frame was transmitted [n + 1] times. *)
Definition silent_peer (n : Z) : ErtmEngine :=
  mkEngine ErtmConfig_default [] [mkTransmitted (mkPending [1] 0 Unsegmented None) (n + 1)] [] [] 1 0 0 0
    false false [] None (2000 * n) (Some (2000 * n + 2000)) false.

Lemma silent_peer_step `{Profile} n : 0 <= n < 65534 ->
  run_calls [Tick 2000; DrainOutbound] (silent_peer n) = silent_peer (n + 1).
Proof.
  intros Hn. unfold run_calls. cbn [fold_left run_call].
  assert (forall d, 0 <= d <= 4000 -> saturating_add 64 (2000 * n) d = 2000 * n + d) as Hsat.
  { intros d Hd. unfold saturating_add. apply Z.min_r. change (2 ^ 64) with 18446744073709551616. lia. }
  rewrite (tick_resends _ 2000 (2000 * n + 2000)); try done; try (cbn [silent_peer now]; rewrite Hsat; lia).
  - cbn [silent_peer now]. rewrite Hsat by lia. unfold silent_peer.
    replace (2000 * (n + 1)) with (2000 * n + 2000) by lia. unfold refresh_deadline, drain_outbound, window_resent.
    cbn -[Z.mul Z.add saturating_add]. unfold count_again. cbn -[Z.mul Z.add saturating_add].
    replace (saturating_add 64 (2000 * n + 2000) 2000) with (2000 * n + 2000 + 2000); [done|].
    unfold saturating_add. symmetry. apply Z.min_r. change (2 ^ 64) with 18446744073709551616. lia.
  - repeat constructor.
  - constructor; [|constructor]. cbn. lia.
Qed.

Lemma silent_peer_steps `{Profile} k : Z.of_nat k <= 65534 ->
  run_calls (concat (replicate k [Tick 2000; DrainOutbound])) (silent_peer 0) = silent_peer (Z.of_nat k).
Proof.
  induction k as [|k IH]; intros Hk; [done|]. rewrite replicate_S_end, concat_app. unfold run_calls in *.
  rewrite fold_left_app, IH, concat_cons, app_nil_r by lia.
  rewrite Nat2Z.inj_succ. apply silent_peer_step. lia.
Qed.

Definition fresh : ErtmEngine := mkEngine ErtmConfig_default [] [] [] [] 0 0 0 0 false false [] None 0 None false.

Lemma silent_peer_overflow k : Z.of_nat k = 65534 ->
  (run_call (H:=true) (Tick 2000)
     (run_calls (H:=true) ([SendSdu [1]; DrainOutbound] ++ concat (replicate k [Tick 2000; DrainOutbound])) fresh)).1 = Panic.
Proof.
  intros Hk. pose proof (silent_peer_steps (H:=true) k ltac:(lia)) as Hs. unfold run_calls in *.
  rewrite fold_left_app. change (fold_left _ [SendSdu [1]; DrainOutbound] fresh) with (silent_peer 0).
  rewrite Hs, Hk. reflexivity.
Qed.

(** With unlimited retransmissions (the default configuration) and overflow
    checks on, a peer that never answers makes the engine panic: the
    transmission count of its frame overflows sixteen bits. *)
Theorem unlimited_retransmissions_panic :
  exists e calls, ErtmEngine_new ErtmConfig_default = Ok e /\
    (run_call (H:=true) (Tick 2000) (run_calls (H:=true) calls e)).1 = Panic.
Proof.
  exists fresh, ([SendSdu [1]; DrainOutbound] ++ concat (replicate (Z.to_nat 65534) [Tick 2000; DrainOutbound])).
  split; [reflexivity|]. apply silent_peer_overflow. apply Z2Nat.id. lia.
Qed.

(** ** Witnesses *)

(** A small configuration: segments of two bytes, a window of two frames and
    one retransmission. *)
Definition small : ErtmConfig := mkErtmConfig 8 8 2 2 2 1 10.
Definition small_engine : ErtmEngine := mkEngine small [] [] [] [] 0 0 0 0 false false [] None 0 None false.

Lemma engine_invariant_witness :
  engine_wf (run_calls (H:=true) [SendSdu [1; 2; 3]; Tick 10; ReceiveFrame [1; 1]; ReceiveFrame [7]] small_engine).
Proof. apply (engine_invariant (H:=true) small); [by_compute | reflexivity]. Defined.

Lemma engine_panic_free_witness :
  (run_call (H:=true) (Tick 10) (run_calls (H:=true) [SendSdu [1; 2; 3]; Tick 10] small_engine)).1 <> Panic.
Proof. apply (engine_panic_free (H:=true) small); [by_compute | reflexivity | by right]. Defined.

Lemma tick_goes_back_n_witness :
  (tick (H:=true) 10 (run_calls (H:=true) [SendSdu [1; 2; 3]; DrainOutbound] small_engine)).2.(outbound)
  = [[0; 64; 3; 0; 1; 2]; [2; 128; 3]].
Proof.
  rewrite (tick_goes_back_n (H:=true) _ 10 10); [reflexivity| | reflexivity | reflexivity | discriminate | reflexivity | done |].
  - apply run_calls_ok. destruct (new_related small small_engine) as (HR & Hd & Hi & _); [by_compute | reflexivity|].
    split; [by exists initial_ghost | done].
  - repeat constructor.
Defined.

Lemma retransmission_limit_fails_witness :
  (tick (H:=true) 10 (run_calls (H:=true) [SendSdu [1; 2; 3]; Tick 10] small_engine)).1
  = Err (retransmission_limit_error 0).
Proof.
  set (e := run_calls _ small_engine).
  destruct (retransmission_limit_fails (H:=true) e 10 20 0
    (mkTransmitted (mkPending [1; 2] 0 Start (Some 3)) 2)) as [-> _]; [reflexivity..| done | reflexivity | reflexivity].
Defined.
