(* ===== verification/ErtmLink.v ===== *)
(** * Two ERTM engines over a lossy link

    Two engines exchange frames through their outbound queues; a frame is
    delivered in order or lost. Each side may send, receive, tick and signal
    that it is busy at any time. The SDUs an engine hands out are, in order,
    a prefix of those its peer accepted: nothing is lost, duplicated,
    reordered or altered, for every interleaving and every pattern of loss. *)
From S2P Require Import Prelude L2cap Ertm ErtmSpec.

(** ** The system *)

Record system : Type := mkSystem {
  side_a : ErtmEngine;
  side_b : ErtmEngine;
  sent_a : list (list Z);   (** SDUs [side_a] accepted for sending *)
  sent_b : list (list Z);
  taken_a : list (list Z);  (** SDUs taken from [side_a] by its user *)
  taken_b : list (list Z) }.

Definition swap (s : system) : system :=
  mkSystem s.(side_b) s.(side_a) s.(sent_b) s.(sent_a) s.(taken_b) s.(taken_a).

Section system.
Context `{Profile}.

(** What can happen at, or from, [side_a]. *)
Inductive step_a (s : system) : system -> Prop :=
| step_send sdu e :
    send_sdu sdu s.(side_a) = (Ok tt, e) ->
    step_a s (mkSystem e s.(side_b) (s.(sent_a) ++ [sdu]) s.(sent_b) s.(taken_a) s.(taken_b))
| step_refuse sdu x e :
    send_sdu sdu s.(side_a) = (Err x, e) ->
    step_a s (mkSystem e s.(side_b) s.(sent_a) s.(sent_b) s.(taken_a) s.(taken_b))
| step_tick ticks r e :
    tick ticks s.(side_a) = (r, e) ->
    step_a s (mkSystem e s.(side_b) s.(sent_a) s.(sent_b) s.(taken_a) s.(taken_b))
| step_busy busy r e :
    set_receiver_busy busy s.(side_a) = (r, e) ->
    step_a s (mkSystem e s.(side_b) s.(sent_a) s.(sent_b) s.(taken_a) s.(taken_b))
| step_deliver data e r f :
    poll_outbound s.(side_a) = (Some data, e) -> receive_frame data s.(side_b) = (r, f) ->
    step_a s (mkSystem e f s.(sent_a) s.(sent_b) s.(taken_a) s.(taken_b))
| step_lose data e :
    poll_outbound s.(side_a) = (Some data, e) ->
    step_a s (mkSystem e s.(side_b) s.(sent_a) s.(sent_b) s.(taken_a) s.(taken_b))
| step_take sdu e :
    pop_received s.(side_a) = (Some sdu, e) ->
    step_a s (mkSystem e s.(side_b) s.(sent_a) s.(sent_b) (s.(taken_a) ++ [sdu]) s.(taken_b)).

Inductive step (s : system) : system -> Prop :=
| on_a s' : step_a s s' -> step s s'
| on_b s' : step_a (swap s) s' -> step s (swap s').
End system.

(** ** Reassembly of a history *)

(** [rest] is what the sender's history still holds for the receiver, whose
    handed-out SDUs are [outs] and whose partial SDU is [inp] of length [il];
    [all] is everything sent. *)
Definition assembling (mps : Z) (outs : list (list Z)) (il : option Z) (inp : list Z)
    (rest : list content) (all : list (list Z)) : Prop :=
  match il with
  | None => inp = [] /\ exists later, all = outs ++ later /\ rest = concat (segments mps <$> later)
  | Some l => exists sdu cs later,
      all = outs ++ sdu :: later /\ cs <> [] /\ Forall (fun c => 0 < len c) cs /\
      sdu = inp ++ concat cs /\ l = len sdu /\ rest = tail_segments cs ++ concat (segments mps <$> later)
  end.

(** A new SDU is appended to what the receiver has yet to see. *)
Lemma assembling_more mps outs il inp rest all sdu :
  assembling mps outs il inp rest all -> assembling mps outs il inp (rest ++ segments mps sdu) (all ++ [sdu]).
Proof.
  destruct il; cbn.
  - intros (x & cs & later & -> & Hne & Hf & Hx & Hl & ->). exists x, cs, (later ++ [sdu]).
    rewrite fmap_app, concat_app, <- !app_assoc. cbn. by rewrite app_nil_r.
  - intros (-> & later & -> & ->). split; [done|]. exists (later ++ [sdu]).
    rewrite fmap_app, concat_app, <- app_assoc. cbn. by rewrite app_nil_r.
Qed.

Lemma assembling_prefix mps outs il inp rest all : assembling mps outs il inp rest all -> outs `prefix_of` all.
Proof.
  destruct il; cbn.
  - intros (sdu & cs & later & -> & _). by eexists.
  - intros (_ & later & -> & _). by eexists.
Qed.

(** The tail of a segmented SDU. *)
Lemma chunks_tail mps (sdu c : list Z) cs : 0 < mps < len sdu -> chunks (Z.to_nat mps) sdu = c :: cs ->
  cs <> [] /\ Forall (fun c => 0 < len c) cs /\ sdu = c ++ concat cs.
Proof.
  intros Hm Hcs. pose proof (concat_chunks (Z.to_nat mps) sdu ltac:(lia)) as Hcat.
  pose proof (chunks_bounded (Z.to_nat mps) sdu ltac:(lia)) as Hb. rewrite Hcs in Hcat, Hb.
  apply Forall_cons_iff in Hb as [Hc Hb]. split; [|split; [|done]].
  - intros ->. cbn in Hcat. rewrite app_nil_r in Hcat. subst. unfold len in Hm. lia.
  - eapply List.Forall_impl; [|exact Hb]. intros x Hx. cbn beta in Hx. unfold len. lia.
Qed.

Lemma concat_pos cs : cs <> [] -> Forall (fun c : list Z => 0 < len c) cs -> 0 < len (concat cs).
Proof.
  intros Hne Hf. destruct cs as [|c cs]; [done|]. apply Forall_cons_iff in Hf as [Hc _]. cbn. rewrite len_app.
  pose proof (len_nonneg (concat cs)). lia.
Qed.

(** The body of a frame that carries a content. *)
Definition content_body (c : content) : list Z :=
  let '(_, l, p) := c in match l with Some n => to_le_bytes 2 n | None => [] end ++ p.

(** One segment accepted: reassembly succeeds and moves one frame on. *)
Lemma accept_unsegmented mps outs e sdu later all :
  len sdu <= e.(config).(local_mtu) -> e.(input_sdu_length) = None -> e.(input_sdu) = [] ->
  all = outs ++ sdu :: later ->
  exists e', accept_information Unsegmented (content_body (Unsegmented, None, sdu)) e = (Ok tt, e') /\
    e'.(received) = e.(received) ++ [sdu] /\
    assembling mps (outs ++ [sdu]) e'.(input_sdu_length) e'.(input_sdu) (concat (segments mps <$> later)) all.
Proof.
  intros Hl Hil Hinp Hall. unfold accept_information, input_in_progress, push_received. run.
  cbn [content_body app]. rewrite Hil, Hinp. change (len (@nil Z)) with 0. cbn [Z.eqb negb orb].
  rewrite (proj2 (Z.ltb_ge _ _)) by done. eexists. split; [reflexivity|]. split; [done|].
  cbn. rewrite Hil, Hinp. split; [done|]. exists later. by rewrite <- app_assoc.
Qed.

Lemma accept_start mps outs e sdu c cs later all :
  0 < mps < len sdu -> len sdu <= e.(config).(local_mtu) -> len sdu <= 65535 ->
  chunks (Z.to_nat mps) sdu = c :: cs ->
  e.(input_sdu_length) = None -> e.(input_sdu) = [] -> all = outs ++ sdu :: later ->
  exists e', accept_information Start (content_body (Start, Some (len sdu), c)) e = (Ok tt, e') /\
    e'.(received) = e.(received) /\
    assembling mps outs e'.(input_sdu_length) e'.(input_sdu) (tail_segments cs ++ concat (segments mps <$> later)) all.
Proof.
  intros Hm Hl H16 Hcs Hil Hinp Hall. destruct (chunks_tail mps sdu c cs Hm Hcs) as (Hne & Hpos & Hsdu).
  pose proof (concat_pos cs Hne Hpos). pose proof (len_nonneg c).
  assert (len sdu = len c + len (concat cs)) as Hlen by (rewrite Hsdu at 1; apply len_app).
  unfold accept_information, input_in_progress, check_partial_length, extend_input. run.
  cbn [content_body]. rewrite to_le_bytes_2, Hil, Hinp. cbn [app]. change (len (@nil Z)) with 0. cbn [Z.eqb negb orb].
  rewrite (proj2 (Z.ltb_ge _ 2)) by len_lia. cbn [idx expect lookup list_lookup].
  rewrite u16_le_roundtrip by lia. rewrite (proj2 (Z.ltb_ge _ _)) by lia.
  rewrite !slice_from_cons, slice_from_0. cbn [input_sdu_length input_sdu set_input_sdu set_input_sdu_length].
  rewrite Hinp. cbn [app]. rewrite (proj2 (Z.leb_gt _ _)) by lia.
  eexists. split; [reflexivity|]. split; [done|]. cbn. by exists sdu, cs, later.
Qed.

Lemma accept_tail mps outs e sdu l c cs later all :
  e.(input_sdu_length) = Some l -> all = outs ++ sdu :: later -> Forall (fun c => 0 < len c) (c :: cs) ->
  sdu = e.(input_sdu) ++ concat (c :: cs) -> l = len sdu ->
  exists e', accept_information (match cs with [] => End | _ => Continuation end) c e = (Ok tt, e') /\
    exists new, e'.(received) = e.(received) ++ new /\
    assembling mps (outs ++ new) e'.(input_sdu_length) e'.(input_sdu)
      (tail_segments cs ++ concat (segments mps <$> later)) all.
Proof.
  intros Hil Hall Hpos Hsdu Hl. apply Forall_cons_iff in Hpos as [Hc Hpos].
  assert (len sdu = len e.(input_sdu) + len c + len (concat cs)) as Hlen
    by (rewrite Hsdu, len_app; cbn; rewrite len_app; lia).
  unfold accept_information, check_partial_length, extend_input, push_received. run. rewrite Hil.
  destruct cs as [|c' cs]; cbn [input_sdu_length input_sdu set_input_sdu received].
  - rewrite (proj2 (Z.eqb_eq _ _)) by (rewrite len_app; change (len (concat [])) with 0 in Hlen; lia). cbn [negb].
    eexists. split; [reflexivity|]. exists [sdu]. cbn. cbn in Hsdu. rewrite app_nil_r in Hsdu. rewrite <- Hsdu.
    split; [done|]. split; [done|]. exists later. by rewrite <- app_assoc.
  - rewrite Hil. pose proof (concat_pos (c' :: cs) ltac:(done) Hpos).
    rewrite (proj2 (Z.leb_gt _ _)) by (rewrite len_app; lia).
    eexists. split; [reflexivity|]. exists []. rewrite !app_nil_r. split; [done|]. cbn. rewrite Hil.
    exists sdu, (c' :: cs), later. split; [done|]. split; [done|]. split; [done|]. cbn in *. by rewrite <- app_assoc.
Qed.

Lemma accept_segment mps outs e c rest all :
  0 < mps -> assembling mps outs e.(input_sdu_length) e.(input_sdu) (c :: rest) all ->
  Forall (fun sdu => len sdu <= e.(config).(local_mtu) /\ len sdu <= 65535) all ->
  exists e', accept_information c.1.1 (content_body c) e = (Ok tt, e') /\
    exists new, e'.(received) = e.(received) ++ new /\
    assembling mps (outs ++ new) e'.(input_sdu_length) e'.(input_sdu) rest all.
Proof.
  intros Hm Ha Hmtu. unfold assembling in Ha. destruct (input_sdu_length e) as [l|] eqn:Hil.
  - destruct Ha as (sdu & [|c0 cs] & later & Hall & Hne & Hpos & Hsdu & Hl & Hrest); [done|].
    destruct (accept_tail mps outs e sdu l c0 cs later all) as (e' & Hacc & Hnew); try done.
    exists e'. destruct cs as [|c1 cs]; cbn [tail_segments app] in Hrest; injection Hrest as -> ->; done.
  - destruct Ha as (Hinp & [|sdu later] & Hall & Hrest); [done|].
    rewrite Hall, Forall_app, Forall_cons_iff in Hmtu. destruct Hmtu as (_ & [Hl H16] & _).
    cbn in Hrest. unfold segments at 1 in Hrest. destruct (Z.leb_spec (len sdu) mps).
    + cbn in Hrest. injection Hrest as -> ->.
      destruct (accept_unsegmented mps outs e sdu later all) as (e' & Hacc & Hrec & Has); try done.
      exists e'. split; [done|]. by exists [sdu].
    + destruct (chunks (Z.to_nat mps) sdu) as [|c0 cs] eqn:Hcs.
      { pose proof (concat_chunks (Z.to_nat mps) sdu ltac:(lia)) as Hcat. rewrite Hcs in Hcat. cbn in Hcat.
        subst sdu. unfold len in *. cbn in *. lia. }
      cbn in Hrest. injection Hrest as -> ->.
      destruct (accept_start mps outs e sdu c0 cs later all) as (e' & Hacc & Hrec & Has); try done.
      exists e'. split; [done|]. exists []. by rewrite !app_nil_r.
Qed.

(** ** One direction of the link *)

(** [a] sends, with ghost [ga]; [b] receives, with ghost [gb]. [all] is what
    [a] accepted for sending, [taken] what [b]'s user took. *)
Record link (a b : ErtmEngine) (ga gb : ghost) (all taken : list (list Z)) : Prop := {
  link_mtu : a.(config).(peer_mtu) <= b.(config).(local_mtu);
  link_sdus : Forall (fun sdu => len sdu <= a.(config).(peer_mtu)) all;
  link_order : (ga.(acked) <= gb.(awaited) <= ga.(sent))%nat;
  link_tops : forall n top req, WInfo n top req ∈ ga.(wire) -> (gb.(awaited) <= top)%nat;
  link_acks : forall w, w ∈ gb.(wire) -> (ga.(acked) <= wire_req w)%nat;
  link_data : assembling a.(config).(peer_mps) (taken ++ b.(received)) b.(input_sdu_length) b.(input_sdu)
                (drop gb.(awaited) (content_of <$> ga.(hist))) all }.

(** The sender made progress of its own. *)
Lemma link_sender a a' b ga ga' gb all taken :
  link a b ga gb all taken -> a'.(config) = a.(config) -> grown ga ga' -> link a' b ga' gb all taken.
Proof.
  intros [H1 H2 H3 H4 H5 H6] Hc (Hh & Ha & _ & Hs & added & Hw & Hadd). constructor; rewrite ?Hc, ?Hh, ?Ha; try done.
  - lia.
  - intros n top req. rewrite Hw, elem_of_app. intros [Hin|Hin]; [by eapply H4|].
    rewrite Forall_forall in Hadd. apply Hadd in Hin as [_ Hin]. lia.
Qed.

(** The receiver made progress of its own. *)
Lemma link_receiver a b b' ga gb gb' all taken :
  link a b ga gb all taken -> keeps b b' -> grown gb gb' -> link a b' ga gb' all taken.
Proof.
  intros [H1 H2 H3 H4 H5 H6] (Hc & Hr & Hi & Hil & _) (_ & _ & Ha & _ & added & Hw & Hadd).
  constructor; rewrite ?Hc, ?Hr, ?Hi, ?Hil, ?Ha; try done.
  intros w. rewrite Hw, elem_of_app. intros [Hin|Hin]; [by apply H5|].
  rewrite Forall_forall in Hadd. apply Hadd in Hin as [-> _]. lia.
Qed.

(** The sender learnt of an acknowledgement. *)
Lemma link_acknowledged a a' b ga gb all taken n :
  link a b ga gb all taken -> a'.(config) = a.(config) -> (n <= gb.(awaited))%nat ->
  (forall w, w ∈ gb.(wire) -> (n <= wire_req w)%nat) -> link a' b (set_acked n ga) gb all taken.
Proof. intros [H1 H2 H3 H4 H5 H6] Hc Hn Hw. constructor; rewrite ?Hc; try done. cbn. lia. Qed.

(** Frames left the wire. *)
Lemma link_polled_sender a a' b ga gb ws all taken :
  link a b ga gb all taken -> a'.(config) = a.(config) -> (forall w, w ∈ ws -> w ∈ ga.(wire)) ->
  link a' b (mkGhost ga.(hist) ga.(acked) ga.(sent) ga.(awaited) ws) gb all taken.
Proof. intros [H1 H2 H3 H4 H5 H6] Hc Hin. constructor; rewrite ?Hc; try done. cbn. intros. by eapply H4, Hin. Qed.

Lemma link_polled_receiver a b b' ga gb ws all taken :
  link a b ga gb all taken -> keeps b b' -> (forall w, w ∈ ws -> w ∈ gb.(wire)) ->
  link a b' ga (mkGhost gb.(hist) gb.(acked) gb.(sent) gb.(awaited) ws) all taken.
Proof.
  intros [H1 H2 H3 H4 H5 H6] (Hc & Hr & Hi & Hil & _) Hin. constructor; rewrite ?Hc, ?Hr, ?Hi, ?Hil; try done.
  cbn. intros. by apply H5, Hin.
Qed.

(** The sender queued an SDU. *)
Lemma link_queued a b ga gb all taken sdu :
  R a ga -> link a b ga gb all taken -> len sdu <= a.(config).(peer_mtu) ->
  link a b (enqueue (segments a.(config).(peer_mps) sdu) ga) gb (all ++ [sdu]) taken.
Proof.
  intros HR [H1 H2 H3 H4 H5 H6] Hl. pose proof (rel_order _ _ _ _ _ _ _ _ HR) as Hord.
  destruct (enqueue_fields (segments a.(config).(peer_mps) sdu) ga) as (Ha & Hs & _ & Hw & Hc & _).
  constructor; rewrite ?Ha, ?Hs, ?Hw; try done.
  - apply Forall_app. split; [done|]. by apply Forall_singleton.
  - rewrite Hc, drop_app_le by (rewrite length_fmap; lia). by apply assembling_more.
Qed.

(** The receiver accepted the frame it awaited. *)
Lemma link_accepted a b b' ga gb all taken :
  link a b ga gb all taken -> (S gb.(awaited) <= ga.(sent))%nat -> b'.(config) = b.(config) ->
  (forall n top req, WInfo n top req ∈ ga.(wire) -> (S gb.(awaited) <= top)%nat) ->
  assembling a.(config).(peer_mps) (taken ++ b'.(received)) b'.(input_sdu_length) b'.(input_sdu)
    (drop (S gb.(awaited)) (content_of <$> ga.(hist))) all ->
  link a b' ga (advance gb) all taken.
Proof.
  intros [H1 H2 H3 H4 H5 H6] Hsent Hcf Htops Has. constructor; cbn; rewrite ?Hcf; try done. lia.
Qed.

(** ** The invariant of the system *)

Record linked (s : system) (ga gb : ghost) : Prop := {
  linked_a : R s.(side_a) ga;
  linked_b : R s.(side_b) gb;
  linked_ab : link s.(side_a) s.(side_b) ga gb s.(sent_a) s.(taken_b);
  linked_ba : link s.(side_b) s.(side_a) gb ga s.(sent_b) s.(taken_a) }.

Lemma linked_swap s ga gb : linked s ga gb -> linked (swap s) gb ga.
Proof. by intros []. Qed.

(** Side [a] acted within the simulation. *)
Lemma linked_grown s ga gb e ga' :
  linked s ga gb -> R e ga' -> keeps s.(side_a) e -> grown ga ga' ->
  linked (mkSystem e s.(side_b) s.(sent_a) s.(sent_b) s.(taken_a) s.(taken_b)) ga' gb.
Proof.
  intros [Ha Hb Hab Hba] HR Hk Hg. constructor; cbn; try done.
  - eapply link_sender; [exact Hab | apply Hk | done].
  - by eapply link_receiver.
Qed.

(** The oldest frame of [a] left its queue. *)
Lemma linked_poll s ga gb data e : linked s ga gb -> poll_outbound s.(side_a) = (Some data, e) ->
  exists w ws, ga.(wire) = w :: ws /\ encodes ga.(hist) w data /\ wire_ok ga w /\ Forall (wire_le w) ws /\
    linked (mkSystem e s.(side_b) s.(sent_a) s.(sent_b) s.(taken_a) s.(taken_b))
      (mkGhost ga.(hist) ga.(acked) ga.(sent) ga.(awaited) ws) gb.
Proof.
  intros [Ha Hb Hab Hba] Hp. unfold poll_outbound in Hp.
  destruct (outbound (side_a s)) as [|d rest] eqn:Ho; [done|]. injection Hp as -> <-.
  destruct (poll_related _ ga data rest Ha Ho) as (w & ws & Hw & Henc & Hok & Hle & HR).
  exists w, ws. do 4 (split; [done|]).
  assert (forall x, x ∈ ws -> x ∈ ga.(wire)) as Hin by (intros x Hx; rewrite Hw; by apply list_elem_of_further).
  constructor; cbn; try done.
  - by eapply link_polled_sender.
  - eapply link_polled_receiver; [exact Hba | by repeat split | done].
Qed.

(** A frame's acknowledgement reaches [b]. *)
Lemma linked_acknowledge s ga gb req :
  linked s ga gb -> (gb.(acked) <= req <= ga.(awaited))%nat -> (forall w, w ∈ ga.(wire) -> (req <= wire_req w)%nat) ->
  exists acked_any e, acknowledge (seq64 req) s.(side_b) = (Ok acked_any, e) /\ keeps s.(side_b) e /\
    linked (mkSystem s.(side_a) e s.(sent_a) s.(sent_b) s.(taken_a) s.(taken_b)) ga (set_acked req gb).
Proof.
  intros [Ha Hb Hab Hba] Hreq Hw. pose proof (link_order _ _ _ _ _ _ Hba) as Hord.
  pose proof (rel_order _ _ _ _ _ _ _ _ Hb) as Hob. pose proof (rel_size _ _ _ _ _ _ _ _ Hb) as Hsz.
  pose proof (rel_config _ _ _ _ _ _ _ _ Hb) as (_&_&_&Hwin&_).
  destruct (acknowledge_spec _ gb (seq64 req) Hb (seq64_range req)) as [Hack _].
  rewrite (rel_last _ _ _ _ _ _ _ _ Hb), seq64_distance in Hack by lia.
  destruct Hack as (e & Hrun & HR & Hk & _).
  { unfold len. rewrite (window_length _ gb Hb). lia. }
  rewrite Nat2Z.id in HR. replace (acked gb + (req - acked gb))%nat with req in HR by lia.
  eexists _, e. split; [exact Hrun|]. split; [done|]. constructor; cbn; try done.
  - destruct Hk as (Hc & Hr & Hi & Hil & _). destruct Hab. by constructor; rewrite ?Hc, ?Hr, ?Hi, ?Hil.
  - eapply link_acknowledged; [exact Hba | apply Hk | lia | done].
Qed.

Section delivery.
Context `{Profile}.

(** A result that is not [Ok] only comes from a failed engine, or from a
    retransmission count that overflowed. *)
Definition settled {A} (out : res L2capError A * ErtmEngine) : Prop := outcome benign out.

Lemma linked_sim_b {A} s ga gb (m : engine A) : linked s ga gb -> sim_at benign s.(side_b) gb m ->
  settled (m s.(side_b)) /\
  exists gb', linked (mkSystem s.(side_a) (m s.(side_b)).2 s.(sent_a) s.(sent_b) s.(taken_a) s.(taken_b)) ga gb'.
Proof.
  intros Hl (gb' & Hs & HR & Hk & _ & Ho). split; [done|]. exists gb'.
  apply (linked_swap (mkSystem _ _ _ _ _ _)). apply (linked_grown (swap s) gb); [by apply linked_swap|done|done|].
  by apply gsteps_grown.
Qed.

(** The frame at hand is the awaited one exactly when its number says so. *)
Lemma awaited_frame s ga gb n top : linked s ga gb -> (n < top <= ga.(sent))%nat -> (top <= n + 63)%nat ->
  (gb.(awaited) <= top)%nat -> seq64 n = s.(side_b).(expected_tx_seq) -> n = gb.(awaited).
Proof.
  intros [Ha Hb Hab Hba] Hn Htop Haw Hseq. rewrite (rel_expected _ _ _ _ _ _ _ _ Hb) in Hseq.
  pose proof (link_order _ _ _ _ _ _ Hab). pose proof (rel_size _ _ _ _ _ _ _ _ Ha).
  pose proof (rel_config _ _ _ _ _ _ _ _ Ha) as (_&_&_&Hwin&_).
  apply seq64_inj in Hseq; lia.
Qed.

Lemma linked_deliver_information s ga gb data n top f :
  linked s ga gb -> ga.(hist) !! n = Some f -> (n < top <= ga.(sent))%nat -> (top <= n + 63)%nat ->
  (gb.(awaited) <= top)%nat -> (forall n' top' req', WInfo n' top' req' ∈ ga.(wire) -> (top <= top')%nat) ->
  slice_from (E:=L2capError) data 2 = Ok (frame_body f) ->
  let out := receive_information f.(tx_seq) false f.(sar) data s.(side_b) in
  settled out /\
  exists gb', linked (mkSystem s.(side_a) out.2 s.(sent_a) s.(sent_b) s.(taken_a) s.(taken_b)) ga gb'.
Proof.
  intros Hl Hf Hn Htop Haw Htops Hbody out. subst out.
  destruct (decide (s.(side_b).(local_busy) = true \/ f.(tx_seq) <> s.(side_b).(expected_tx_seq))) as [Hc|Hc].
  { apply (linked_sim_b s ga gb); [done|]. apply sim_receive_ignored; [apply Hl|done]. }
  assert (local_busy (side_b s) = false) as Hb by (destruct (local_busy _); [exfalso; apply Hc; by left|done]).
  assert (f.(tx_seq) = s.(side_b).(expected_tx_seq)) as Hseq
    by (destruct (decide (tx_seq f = expected_tx_seq (side_b s))); [done|exfalso; apply Hc; by right]).
  pose proof (linked_a _ _ _ Hl) as HRa. pose proof (linked_b _ _ _ Hl) as HRb. pose proof (linked_ab _ _ _ Hl) as Hab.
  assert (n = gb.(awaited)) as ->.
  { eapply awaited_frame; eauto. by rewrite <- Hseq, (rel_seqs _ _ _ _ _ _ _ _ HRa _ _ Hf). }
  pose proof (receive_accepted _ gb f.(tx_seq) false f.(sar) data _ HRb Hb Hseq Hbody) as Hrecv.
  cbv zeta in Hrecv. set (e1 := set_expected_tx_seq _ (side_b s)) in Hrecv.
  pose proof (rel_config _ _ _ _ _ _ _ _ HRa) as (Hmps & Hmtu16 & _). pose proof (link_mtu _ _ _ _ _ _ Hab) as Hmtu.
  destruct (accept_segment s.(side_a).(config).(peer_mps) (s.(taken_b) ++ s.(side_b).(received)) e1 (content_of f)
    (drop (S gb.(awaited)) (content_of <$> ga.(hist))) s.(sent_a)) as (e2 & Hacc & new & Hnew & Has).
  { done. }
  { pose proof (link_data _ _ _ _ _ _ Hab) as Hd. erewrite drop_S in Hd; [exact Hd|]. by rewrite list_lookup_fmap, Hf. }
  { eapply List.Forall_impl; [|exact (link_sdus _ _ _ _ _ _ Hab)]. intros sdu Hsdu. cbn in *. lia. }
  pose proof (accept_information_rx f.(sar) (frame_body f) e1) as Hrx.
  change (accept_information (sar f) (frame_body f) e1 = (Ok tt, e2)) in Hacc. rewrite Hacc in Hrecv, Hrx.
  destruct Hrecv as (gb' & b' & -> & Hs & HR' & Hk & _). cbn [snd] in *. split; [exact I|]. exists gb'.
  apply gsteps_grown in Hs. assert (e2.(config) = s.(side_b).(config)) as Hcf by (by rewrite Hrx).
  constructor; cbn; try done.
  - eapply link_receiver; [|exact Hk|exact Hs]. apply (link_accepted _ (side_b s)); try done; [lia| |].
    + intros n' top' req' Hin. specialize (Htops _ _ _ Hin). lia.
    + rewrite Hnew. cbn. by rewrite app_assoc.
  - eapply (link_sender e2); [|apply Hk|exact Hs]. pose proof (linked_ba _ _ _ Hl) as [K1 K2 K3 K4 K5 K6].
    by constructor; rewrite ?Hcf.
Qed.

(** A frame delivered in order keeps the invariant, and its receiver settles. *)
Lemma linked_deliver s ga gb data e : linked s ga gb -> poll_outbound s.(side_a) = (Some data, e) ->
  let out := receive_frame data s.(side_b) in
  settled out /\
  exists ga' gb', linked (mkSystem e out.2 s.(sent_a) s.(sent_b) s.(taken_a) s.(taken_b)) ga' gb'.
Proof.
  intros Hl Hp out. subst out. destruct (linked_poll s ga gb data e Hl Hp) as (w & ws & Hw & Henc & [Hreq Hok] & Hle & Hl1).
  set (ga1 := mkGhost _ _ _ _ ws) in Hl1. rewrite Forall_forall in Hle.
  destruct (failed (side_b s)) eqn:Hf.
  { destruct (receive_frame_refused data (side_b s)) as [x ->]; [by left|]. split; [done|]. by exists ga1, gb. }
  assert (gb.(acked) <= wire_req w)%nat as Hlow
    by (apply (link_acks _ _ _ _ _ _ (linked_ba _ _ _ Hl)); rewrite Hw; apply list_elem_of_here).
  destruct (linked_acknowledge _ ga1 gb (wire_req w) Hl1) as (any & b1 & Hack & Hk & Hl2); [done| |].
  { intros w' Hin. by apply Hle. }
  cbn [side_a side_b sent_a sent_b taken_a taken_b] in *.
  destruct w as [n top req|fn p f req]; cbn [wire_req encodes] in *.
  - destruct Henc as (f & Hhist & Henc). destruct Hok as [Hok1 Hok2]. pose proof (rel_seqs _ _ _ _ _ _ _ _ (linked_a _ _ _ Hl) _ _ Hhist) as Hseq.
    destruct (frame_decode_encode f (seq64 req) data) as [Hdec Hbody]; [rewrite Hseq; apply seq64_range|apply seq64_range|done|].
    rewrite (receive_frame_decoded data _ _ Hf Hdec). cbn [EnhancedControlField_req_seq]. unfold mbind, stm_bind. rewrite Hack.
    edestruct (linked_deliver_information _ ga1 (set_acked req gb) data n top f Hl2) as [Hset [gb' Hl3]]; try done.
    + apply (link_tops _ _ _ _ _ _ (linked_ab _ _ _ Hl) n top req). rewrite Hw. apply list_elem_of_here.
    + intros n' top' req' Hin. by apply (Hle (WInfo n' top' req')).
    + split; [exact Hset|]. by exists ga1, gb'.
  - pose proof (supervisory_decode_encode fn p f (seq64 req) data (seq64_range req) Henc) as Hdec.
    rewrite (receive_frame_decoded data _ _ Hf Hdec). cbn [EnhancedControlField_req_seq]. unfold mbind, stm_bind. rewrite Hack.
    edestruct (linked_sim_b _ ga1 (set_acked req gb) (receive_supervisory any fn p f (seq64 req)) Hl2) as [Hset [gb' Hl3]].
    { apply (sim_receive_supervisory benign); [by split|done|done|apply Hl2]. }
    split; [exact Hset|]. by exists ga1, gb'.
Qed.

Lemma send_sdu_err_state sdu e x e' : (exists g, R e g) -> send_sdu sdu e = (Err x, e') -> e' = e.
Proof.
  intros [g HR] Hrun. destruct (failed e) eqn:Hf.
  { destruct (send_sdu_refused e sdu) as [y Hy]; [by left|]. congruence. }
  destruct (decide (len sdu <= e.(config).(peer_mtu))) as [Hle|].
  - destruct (send_sdu_spec e g sdu HR Hf Hle) as (? & ? & Hok & _). congruence.
  - destruct (send_sdu_refused e sdu) as [y Hy]; [right; lia|]. congruence.
Qed.

Lemma linked_set_busy s ga gb busy r e : linked s ga gb -> set_receiver_busy busy s.(side_a) = (r, e) ->
  exists ga' gb', linked (mkSystem e s.(side_b) s.(sent_a) s.(sent_b) s.(taken_a) s.(taken_b)) ga' gb'.
Proof.
  intros Hl. rewrite set_receiver_busy_run. destruct (failed _); [intros [= _ <-]; exists ga, gb; by destruct s|].
  destruct (negb _); [|intros [= _ <-]; exists ga, gb; by destruct s]. intros Hrun.
  set (s1 := mkSystem (set_local_busy busy s.(side_a)) s.(side_b) s.(sent_a) s.(sent_b) s.(taken_a) s.(taken_b)).
  assert (linked s1 ga gb) as Hl1 
    by (destruct Hl as [Ha Hb [] []]; constructor; [exact Ha | exact Hb | by constructor | by constructor]).
  assert ((if busy then ReceiverNotReady else ReceiverReady) <> SelectiveReject) as Hfn by (by destruct busy).
  destruct (sim_send_supervisory benign _ false false Hfn _ ga (linked_a _ _ _ Hl1)) as (ga' & Hs & HR & Hk & _).
  cbn [s1 side_a] in *. rewrite Hrun in HR, Hk. exists ga', gb. apply (linked_grown s1 ga gb); try done. by apply gsteps_grown.
Qed.

Lemma linked_step_a s s' ga gb : linked s ga gb -> step_a s s' -> exists ga' gb', linked s' ga' gb'.
Proof.
  intros Hl Hstep. pose proof (linked_a _ _ _ Hl) as HRa.
  destruct Hstep as [sdu e Hrun|sdu x e Hrun|ticks r e Hrun|busy r e Hrun|data e r f Hp Hrun|data e Hp|sdu e Hp].
  - destruct (failed (side_a s)) eqn:Hf; [destruct (send_sdu_refused (side_a s) sdu); [by left|congruence]|].
    destruct (decide (len sdu <= (side_a s).(config).(peer_mtu))) as [Hle|];
      [|destruct (send_sdu_refused (side_a s) sdu); [right; lia|congruence]].
    destruct (send_sdu_spec _ ga sdu HRa Hf Hle) as (e' & ga' & Hrun' & Hs & HR' & Hk & _).
    rewrite Hrun in Hrun'. injection Hrun' as <-. exists ga', gb. apply gsteps_grown in Hs.
    destruct (enqueue_fields (segments (side_a s).(config).(peer_mps) sdu) ga) as (Ea & Es & Ew & Ewi & _).
    pose proof (link_queued _ _ _ _ _ _ sdu HRa (linked_ab _ _ _ Hl) Hle) as Hab.
    constructor; cbn; try done; [apply Hl|eapply link_sender; [exact Hab | apply Hk | done]|].
    eapply link_receiver; [|exact Hk|exact Hs]. destruct (linked_ba _ _ _ Hl). by constructor; rewrite ?Ea, ?Es, ?Ew, ?Ewi.
  - exists ga, gb. assert (e = side_a s) as -> by (eapply send_sdu_err_state; eauto). by destruct s.
  - destruct (sim_tick ticks _ ga HRa) as (ga' & Hs & HR' & Hk & _). rewrite Hrun in *. cbn in *.
    exists ga', gb. eapply linked_grown; eauto using gsteps_grown.
  - by eapply linked_set_busy.
  - pose proof (linked_deliver s ga gb data e Hl Hp) as [_ Hd]. by rewrite Hrun in Hd.
  - destruct (linked_poll s ga gb data e Hl Hp) as (w & ws & _ & _ & _ & _ & Hl'). eauto.
  - exists ga, gb. unfold pop_received in Hp. destruct (received (side_a s)) as [|x rest] eqn:Hr; [done|].
    injection Hp as -> <-. destruct Hl as [Ha Hb Hab [K1 K2 K3 K4 K5 K6]].
    constructor; [exact Ha | exact Hb | destruct Hab; by constructor|]. constructor; try done. cbn. rewrite Hr in K6. by rewrite <- app_assoc.
Qed.

Lemma linked_step s s' : (exists ga gb, linked s ga gb) -> step s s' -> exists ga gb, linked s' ga gb.
Proof.
  intros (ga & gb & Hl) [s1 Hs|s1 Hs]; [by eapply linked_step_a|].
  apply linked_swap in Hl. destruct (linked_step_a _ _ _ _ Hl Hs) as (ga' & gb' & Hl'). exists gb', ga'.
  by apply linked_swap in Hl'.
Qed.

Lemma linked_steps s s' : (exists ga gb, linked s ga gb) -> rtc step s s' -> exists ga gb, linked s' ga gb.
Proof. intros Hl Hs. induction Hs; [done|]. eauto using linked_step. Qed.
End delivery.

(** ** Properties of the link *)

(** Two new engines whose MTUs fit each other, with nothing sent yet. *)
Definition connected (ca cb : ErtmConfig) (s : system) : Prop :=
  config_in_range ca /\ config_in_range cb /\ ca.(peer_mtu) <= cb.(local_mtu) /\ cb.(peer_mtu) <= ca.(local_mtu) /\
  exists a b, ErtmEngine_new ca = Ok a /\ ErtmEngine_new cb = Ok b /\ s = mkSystem a b [] [] [] [].

Lemma connected_linked ca cb s : connected ca cb s -> linked s initial_ghost initial_ghost.
Proof.
  intros (Ha & Hb & Hab & Hba & a & b & Hna & Hnb & ->).
  destruct (new_related ca a Ha Hna) as (HRa & _ & Hia & Hca & _ & Hra & Hla).
  destruct (new_related cb b Hb Hnb) as (HRb & _ & Hib & Hcb & _ & Hrb & Hlb).
  unfold input_ok in *. rewrite Hla in Hia. rewrite Hlb in Hib.
  constructor; cbn; try done; constructor; cbn; rewrite ?Hca, ?Hcb, ?Hra, ?Hrb, ?Hla, ?Hlb; try done; try lia.
  all: try (intros *; apply not_elem_of_nil).
  all: try (by intros ? ?%not_elem_of_nil). all: try (by intros ? ? ? ?%not_elem_of_nil).
  all: split; [done|]; by exists [].
Qed.

Section theorems.
Context `{Profile}.

(** C3. Reliable, ordered delivery over a lossy link: whatever the two engines
    are asked to do, however their frames are interleaved and whichever are
    lost, the SDUs an engine has handed out or holds ready are, in order, a
    prefix of those its peer accepted, in both directions. *)
Theorem delivery_in_order ca cb s s' : connected ca cb s -> rtc step s s' ->
  (s'.(taken_b) ++ s'.(side_b).(received)) `prefix_of` s'.(sent_a) /\
  (s'.(taken_a) ++ s'.(side_a).(received)) `prefix_of` s'.(sent_b).
Proof.
  intros Hc Hs. apply connected_linked in Hc. destruct (linked_steps s s') as (ga & gb & [_ _ Hab Hba]); [eauto|done|].
  split; eapply assembling_prefix; apply link_data; eassumption.
Qed.

(** C32. On such a link no frame is ever refused: delivering the oldest frame of
    an engine succeeds, unless the receiving engine has exhausted its
    retransmissions (or their count overflows, which needs overflow checks and
    no limit). In particular, every acknowledgement lies in the window and
    every segment fits the SDU being assembled. *)
Theorem delivery_never_refused ca cb s s' data e : connected ca cb s -> rtc step s s' ->
  poll_outbound s'.(side_a) = (Some data, e) ->
  match receive_frame data s'.(side_b) with
  | (Ok _, _) => True
  | (Err _, b) => b.(failed) = true
  | (Panic, b) => overflow_checks = true /\ b.(config).(max_retransmissions) = 0
  end.
Proof.
  intros Hc Hs Hp. apply connected_linked in Hc. destruct (linked_steps s s') as (ga & gb & Hl); [eauto|done|].
  pose proof (linked_deliver s' ga gb data e Hl Hp) as [Hset _]. unfold settled, outcome in Hset.
  destruct (receive_frame data (side_b s')) as [[]]; exact Hset.
Qed.
End theorems.

(** ** Witnesses *)

(** Both sides with the small configuration. *)
Definition pair0 : system := mkSystem small_engine small_engine [] [] [] [].

(** Steps as functions, to run a scenario. *)
Definition do_send (sdu : list Z) (s : system) : system :=
  mkSystem (send_sdu sdu s.(side_a)).2 s.(side_b) (s.(sent_a) ++ [sdu]) s.(sent_b) s.(taken_a) s.(taken_b).
Definition do_lose (s : system) : system :=
  mkSystem (poll_outbound s.(side_a)).2 s.(side_b) s.(sent_a) s.(sent_b) s.(taken_a) s.(taken_b).
Definition do_deliver (s : system) : system :=
  mkSystem (poll_outbound s.(side_a)).2 (receive_frame (H:=true) (hd [] s.(side_a).(outbound)) s.(side_b)).2
    s.(sent_a) s.(sent_b) s.(taken_a) s.(taken_b).

Lemma do_send_step sdu s : (send_sdu sdu s.(side_a)).1 = Ok tt -> step (H:=true) s (do_send sdu s).
Proof. intros Hr. apply on_a, step_send. rewrite <- Hr. apply surjective_pairing. Qed.

Lemma poll_hd e : e.(outbound) <> [] -> poll_outbound e = (Some (hd [] e.(outbound)), (poll_outbound e).2).
Proof. unfold poll_outbound. by destruct (outbound e). Qed.

Lemma do_lose_step s : s.(side_a).(outbound) <> [] -> step (H:=true) s (do_lose s).
Proof. intros Hr. eapply on_a, step_lose, poll_hd, Hr. Qed.

Lemma deliver_step_a s : s.(side_a).(outbound) <> [] -> step_a (H:=true) s (do_deliver s).
Proof. intros Hr. eapply step_deliver; [by apply poll_hd|]. apply surjective_pairing. Qed.

(** [side_a] sends one SDU in two frames, of which the first is lost. *)
Definition after_loss : system := do_deliver (do_lose (do_send [1; 2; 3] pair0)).

(** [side_b]'s reject reaches [side_a], which sends both frames again. *)
Definition recovered : system := do_deliver (do_deliver (swap (do_deliver (swap after_loss)))).

Lemma lost_steps : rtc (step (H:=true)) pair0 (do_lose (do_send [1; 2; 3] pair0)).
Proof.
  apply (rtc_l _ _ (do_send [1; 2; 3] pair0)); [by apply do_send_step|]. by apply rtc_once, do_lose_step.
Qed.

Lemma recovered_steps : rtc (step (H:=true)) pair0 recovered.
Proof.
  etrans; [exact lost_steps|]. apply (rtc_l _ _ after_loss); [by apply on_a, deliver_step_a|].
  apply (rtc_l _ _ (swap (do_deliver (swap after_loss)))); [by apply on_b, deliver_step_a|].
  apply (rtc_l _ _ (do_deliver (swap (do_deliver (swap after_loss))))); [by apply on_a, deliver_step_a|].
  by apply rtc_once, on_a, deliver_step_a.
Qed.

Lemma pair0_connected : connected small small pair0.
Proof. split; [by_compute|]. split; [by_compute|]. split; [done|]. split; [done|]. by exists small_engine, small_engine. Qed.

Lemma recovered_received : recovered.(side_b).(received) = [[1; 2; 3]].
Proof. vm_compute. reflexivity. Qed.

Lemma delivery_in_order_witness :
  (recovered.(taken_b) ++ recovered.(side_b).(received)) `prefix_of` recovered.(sent_a) /\
  recovered.(side_b).(received) = [[1; 2; 3]].
Proof.
  split; [|exact recovered_received].
  exact (proj1 (delivery_in_order (H:=true) small small pair0 recovered pair0_connected recovered_steps)).
Defined.

Lemma lost_poll : poll_outbound (side_a (do_lose (do_send [1; 2; 3] pair0))) =
  (Some [2; 128; 3], (poll_outbound (side_a (do_lose (do_send [1; 2; 3] pair0)))).2).
Proof. vm_compute. reflexivity. Qed.

Lemma delivery_never_refused_witness :
  match receive_frame (H:=true) [2; 128; 3] (side_b (do_lose (do_send [1; 2; 3] pair0))) with
  | (Ok _, _) => True
  | (Err _, b) => b.(failed) = true
  | (Panic, b) => @overflow_checks true = true /\ b.(config).(max_retransmissions) = 0
  end.
Proof.
  eapply (delivery_never_refused (H:=true) small small pair0 (do_lose (do_send [1; 2; 3] pair0)) [2; 128; 3]).
  - exact pair0_connected.
  - exact lost_steps.
  - exact lost_poll.
Defined.
