(* ===== verification/Classic.v ===== *)
(** * Classic L2CAP channels ([src/src/l2cap/classic.rs])

    The channel manager of one connection: PSM registration, connection,
    configuration and disconnection signaling, basic and ERTM data transfer.
    A map key of [channels] is the local (source) CID. *)
From S2P Require Import Prelude L2cap Ertm.

Definition L2CAP_MIN_BR_EDR_MTU : Z := 48.
Definition L2CAP_DEFAULT_MTU : Z := 2048.
Definition L2CAP_DEFAULT_MPS : Z := 1010.
Definition L2CAP_ACL_U_DYNAMIC_CID_RANGE_START : Z := 0x0040.
Definition L2CAP_ACL_U_DYNAMIC_CID_RANGE_END : Z := 0xffff.
Definition L2CAP_PSM_DYNAMIC_RANGE_START : Z := 0x1001.
Definition L2CAP_PSM_DYNAMIC_RANGE_END : Z := 0xffff.
Definition DEFAULT_ERTM_TX_WINDOW_SIZE : Z := 63.
Definition DEFAULT_ERTM_MAX_RETRANSMISSIONS : Z := 1.
Definition DEFAULT_ERTM_RETRANSMISSION_TIMEOUT_MS : Z := 2000.
Definition DEFAULT_ERTM_MONITOR_TIMEOUT_MS : Z := 12000.
Definition RETRANSMISSION_MODE_ENHANCED : Z := 0x03.

(** ** Channel specifications *)

Record ClassicChannelSpec : Type := mkClassicSpec { spec_mtu : Z }.

Definition ClassicChannelSpec_default : ClassicChannelSpec := mkClassicSpec L2CAP_DEFAULT_MTU.

Record ErtmChannelSpec : Type := mkErtmSpec {
  ertm_mtu : Z;
  ertm_mps : Z;
  ertm_tx_window_size : Z;
  ertm_max_retransmissions : Z;
  ertm_retransmission_timeout_ms : Z;
  ertm_monitor_timeout_ms : Z;
  ertm_fcs_enabled : bool }.

Definition ErtmChannelSpec_default : ErtmChannelSpec :=
  mkErtmSpec L2CAP_DEFAULT_MTU L2CAP_DEFAULT_MPS DEFAULT_ERTM_TX_WINDOW_SIZE DEFAULT_ERTM_MAX_RETRANSMISSIONS
    DEFAULT_ERTM_RETRANSMISSION_TIMEOUT_MS DEFAULT_ERTM_MONITOR_TIMEOUT_MS false.

Inductive ClassicChannelMode : Type := Basic | EnhancedRetransmission.

Inductive ChannelSpec : Type :=
| BasicSpec (spec : ClassicChannelSpec)
| ErtmSpecOf (spec : ErtmChannelSpec).

Definition ChannelSpec_mtu (self : ChannelSpec) : Z :=
  match self with BasicSpec spec => spec.(spec_mtu) | ErtmSpecOf spec => spec.(ertm_mtu) end.

Definition ChannelSpec_mode (self : ChannelSpec) : ClassicChannelMode :=
  match self with BasicSpec _ => Basic | ErtmSpecOf _ => EnhancedRetransmission end.

Definition ChannelSpec_ertm (self : ChannelSpec) : option ErtmChannelSpec :=
  match self with BasicSpec _ => None | ErtmSpecOf spec => Some spec end.

Inductive ClassicChannelState : Type :=
| Closed | WaitConnectResponse | Configuring | Open | WaitDisconnect.

#[global] Instance ClassicChannelMode_eq_dec : EqDecision ClassicChannelMode.
Proof. solve_decision. Defined.
#[global] Instance ClassicChannelState_eq_dec : EqDecision ClassicChannelState.
Proof. solve_decision. Defined.
#[global] Instance ClassicChannelSpec_eq_dec : EqDecision ClassicChannelSpec.
Proof. solve_decision. Defined.
#[global] Instance ErtmChannelSpec_eq_dec : EqDecision ErtmChannelSpec.
Proof. solve_decision. Defined.
#[global] Instance ChannelSpec_eq_dec : EqDecision ChannelSpec.
Proof. solve_decision. Defined.

(** ** Channels *)

Record ClassicChannel : Type := mkChannel {
  psm : Z;
  source_cid : Z;
  destination_cid : Z;
  ch_mtu : Z;
  ch_peer_mtu : Z;
  ch_peer_mps : Z;
  mode : ClassicChannelMode;
  fcs_enabled : bool;
  state : ClassicChannelState;
  connection_result : option Z;
  incoming : bool;
  peer_configuration_received : bool;
  configuration_response_received : bool;
  open_announced : bool;
  spec : ChannelSpec;
  ertm : option ErtmEngine;
  ch_received : list (list Z) }.

#[global] Instance ClassicChannel_settable : Settable ClassicChannel := fun c =>
  mkChannel c.(psm) c.(source_cid) c.(destination_cid) c.(ch_mtu) c.(ch_peer_mtu) c.(ch_peer_mps) c.(mode)
    c.(fcs_enabled) c.(state) c.(connection_result) c.(incoming) c.(peer_configuration_received)
    c.(configuration_response_received) c.(open_announced) c.(spec) c.(ertm) c.(ch_received).

Definition set_destination_cid (v : Z) (c : ClassicChannel) : ClassicChannel := ltac:(set_field destination_cid v c).
Definition set_ch_peer_mtu (v : Z) (c : ClassicChannel) : ClassicChannel := ltac:(set_field ch_peer_mtu v c).
Definition set_ch_peer_mps (v : Z) (c : ClassicChannel) : ClassicChannel := ltac:(set_field ch_peer_mps v c).
Definition set_fcs_enabled (v : bool) (c : ClassicChannel) : ClassicChannel := ltac:(set_field fcs_enabled v c).
Definition set_state (v : ClassicChannelState) (c : ClassicChannel) : ClassicChannel := ltac:(set_field state v c).
Definition set_connection_result (v : option Z) (c : ClassicChannel) : ClassicChannel :=
  ltac:(set_field connection_result v c).
Definition set_peer_configuration_received (v : bool) (c : ClassicChannel) : ClassicChannel :=
  ltac:(set_field peer_configuration_received v c).
Definition set_configuration_response_received (v : bool) (c : ClassicChannel) : ClassicChannel :=
  ltac:(set_field configuration_response_received v c).
Definition set_open_announced (v : bool) (c : ClassicChannel) : ClassicChannel := ltac:(set_field open_announced v c).
Definition set_ertm (v : option ErtmEngine) (c : ClassicChannel) : ClassicChannel := ltac:(set_field ertm v c).
Definition set_ch_received (v : list (list Z)) (c : ClassicChannel) : ClassicChannel := ltac:(set_field ch_received v c).

Definition ClassicChannel_outgoing (psm source_cid : Z) (spec : ChannelSpec) : ClassicChannel :=
  mkChannel psm source_cid 0 (ChannelSpec_mtu spec) L2CAP_MIN_BR_EDR_MTU L2CAP_DEFAULT_MPS (ChannelSpec_mode spec)
    false WaitConnectResponse None false false false false spec None [].

Definition ClassicChannel_incoming (psm source_cid destination_cid : Z) (spec : ChannelSpec) : ClassicChannel :=
  mkChannel psm source_cid destination_cid (ChannelSpec_mtu spec) L2CAP_MIN_BR_EDR_MTU L2CAP_DEFAULT_MPS
    (ChannelSpec_mode spec) false Configuring (Some CONNECTION_SUCCESSFUL) true false false false spec None [].

Definition is_open (self : ClassicChannel) : bool := bool_decide (self.(state) = Open).

Definition ClassicChannel_pop_received (self : ClassicChannel) : option (list Z) * ClassicChannel :=
  match self.(ch_received) with
  | [] => (None, self)
  | sdu :: rest => (Some sdu, set_ch_received rest self)
  end.

(** Methods that work on one channel. *)
Abbreviation channel_op := (stm ClassicChannel L2capError).

(** [channel.ertm.as_mut()...]: [missing] is what the code does without an engine. *)
Definition on_ertm {A} (missing : res L2capError A) (m : engine A) : channel_op A := fun self =>
  match self.(ertm) with
  | None => (missing, self)
  | Some e => let '(r, e') := m e in (r, set_ertm (Some e') self)
  end.

(** ** Validation *)

Definition validate_spec (spec : ClassicChannelSpec) : res L2capError unit :=
  if spec.(spec_mtu) <? L2CAP_MIN_BR_EDR_MTU then
    Err (InvalidPacket "Classic MTU must be at least {L2CAP_MIN_BR_EDR_MTU}" [L2CAP_MIN_BR_EDR_MTU])
  else Ok tt.

Definition validate_ertm_spec (spec : ErtmChannelSpec) : res L2capError unit :=
  validate_spec (mkClassicSpec spec.(ertm_mtu));;
  if spec.(ertm_mps) =? 0 then Err (InvalidPacket "ERTM MPS cannot be zero" [])
  else if negb ((1 <=? spec.(ertm_tx_window_size)) && (spec.(ertm_tx_window_size) <? 64)) then
    Err (InvalidPacket "ERTM transmit window must be between 1 and 63" [])
  else if (spec.(ertm_retransmission_timeout_ms) =? 0) || (spec.(ertm_monitor_timeout_ms) =? 0) then
    Err (InvalidPacket "ERTM timeout cannot be zero" [])
  else Ok tt.

(** The [while high != 0] loop of [validate_psm]; a [u32] needs three turns. *)
Fixpoint validate_psm_high (fuel : nat) (high : Z) : res L2capError unit :=
  match fuel with
  | O => Ok tt
  | S fuel' =>
      if high =? 0 then Ok tt
      else if negb (Z.land high 1 =? 0) then Err (InvalidPacket "invalid Classic PSM" [])
      else validate_psm_high fuel' (Z.shiftr high 8)
  end.

Definition validate_psm (psm : Z) : res L2capError unit :=
  if (psm =? 0) || (Z.land psm 1 =? 0) then Err (InvalidPacket "invalid Classic PSM" [])
  else validate_psm_high 4 (Z.shiftr psm 8).

(** ** ERTM option and frame check sequence *)

Record ErtmOption : Type := mkErtmOption {
  opt_mode : Z;
  opt_tx_window_size : Z;
  opt_max_retransmissions : Z;
  opt_mps : Z }.

Definition encode_ertm_option (spec : ErtmChannelSpec) : list Z :=
  [RETRANSMISSION_MODE_ENHANCED; spec.(ertm_tx_window_size); spec.(ertm_max_retransmissions)]
  ++ to_le_bytes 2 spec.(ertm_retransmission_timeout_ms)
  ++ to_le_bytes 2 spec.(ertm_monitor_timeout_ms)
  ++ to_le_bytes 2 spec.(ertm_mps).

Definition decode_ertm_option (value : list Z) : option ErtmOption :=
  match value with
  | [v0; v1; v2; _; _; _; _; v7; v8] => Some (mkErtmOption v0 v1 v2 (from_le_bytes [v7; v8]))
  | _ => None
  end.

Definition append_fcs (cid : Z) (payload : list Z) : res L2capError (list Z) :=
  if 65535 <? len payload + 2 then Err (InvalidPacket "ERTM frame is too large" [])
  else
    let checked := to_le_bytes 2 (len payload + 2) ++ to_le_bytes 2 cid ++ payload in
    Ok (payload ++ to_le_bytes 2 (crc_16 checked)).

Definition verify_and_strip_fcs (cid : Z) (payload : list Z) : res L2capError (list Z) :=
  if len payload <? 2 then Err (InvalidPacket "ERTM frame is missing its FCS" [])
  else if 65535 <? len payload then Err (InvalidPacket "ERTM frame is too large" [])
  else
    let split := (length payload - 2)%nat in
    p0 ← idx payload split;
    p1 ← idx payload (split + 1);
    body ← slice payload 0 split;
    let checked := to_le_bytes 2 (len payload) ++ to_le_bytes 2 cid ++ body in
    if negb (crc_16 checked =? from_le_bytes [p0; p1]) then
      Err (InvalidPacket "ERTM frame has an invalid FCS" [])
    else Ok body.

(** ** The channel manager *)

Record ChannelManager : Type := mkManager {
  servers : gmap Z ChannelSpec;
  channels : gmap Z ClassicChannel;
  accepted_channels : list Z;
  mgr_outbound : list L2capPdu;
  information : InformationCapabilities;
  information_responses : list InformationAnswer;
  identifier : Z }.

#[global] Instance ChannelManager_settable : Settable ChannelManager := fun m =>
  mkManager m.(servers) m.(channels) m.(accepted_channels) m.(mgr_outbound) m.(information)
    m.(information_responses) m.(identifier).

Definition set_servers (v : gmap Z ChannelSpec) (m : ChannelManager) : ChannelManager := ltac:(set_field servers v m).
Definition set_channels (v : gmap Z ClassicChannel) (m : ChannelManager) : ChannelManager := ltac:(set_field channels v m).
Definition set_accepted_channels (v : list Z) (m : ChannelManager) : ChannelManager := ltac:(set_field accepted_channels v m).
Definition set_mgr_outbound (v : list L2capPdu) (m : ChannelManager) : ChannelManager := ltac:(set_field mgr_outbound v m).
Definition set_information_responses (v : list InformationAnswer) (m : ChannelManager) : ChannelManager :=
  ltac:(set_field information_responses v m).
Definition set_identifier (v : Z) (m : ChannelManager) : ChannelManager := ltac:(set_field identifier v m).

Definition ChannelManager_new : ChannelManager := mkManager ∅ ∅ [] [] InformationCapabilities_default [] 0.

Definition with_information_capabilities (information : InformationCapabilities) : ChannelManager :=
  mkManager ∅ ∅ [] [] information [] 0.

Abbreviation manager := (stm ChannelManager L2capError).

Definition next_identifier : manager Z :=
  self ← get;
  let identifier := wrapping_add 8 self.(identifier) 1 in
  let identifier := if identifier =? 0 then 1 else identifier in
  modify (set_identifier identifier);;
  mret identifier.

Definition push_pdu (pdu : L2capPdu) : manager unit :=
  modify (fun self => set_mgr_outbound (self.(mgr_outbound) ++ [pdu]) self).

Definition queue_control (frame : ControlFrame) : manager unit :=
  push_pdu (mkPdu L2CAP_SIGNALING_CID (ControlFrame_to_bytes frame)).

Definition put_channel (cid : Z) (channel : ClassicChannel) : manager unit :=
  modify (fun self => set_channels (<[cid := channel]> self.(channels)) self).

(** [self.channels.get_mut(&cid)]: run a channel method and keep what it left
    of the channel; [missing] is what the code does for an unknown CID. *)
Definition on_channel {A} (cid : Z) (missing : res L2capError A) (m : channel_op A) : manager A := fun self =>
  match self.(channels) !! cid with
  | None => (missing, self)
  | Some channel =>
      let '(r, channel') := m channel in
      (r, set_channels (<[cid := channel']> self.(channels)) self)
  end.

Definition no_channel {A} (cid : Z) : res L2capError A :=
  Err (InvalidPacket "channel not found for CID {source_cid:#06x}" [cid]).

Definition allocate_cid : manager Z :=
  self ← get;
  lift (ok_or (find_from (fun cid => bool_decide (self.(channels) !! cid = None))
                 L2CAP_ACL_U_DYNAMIC_CID_RANGE_START
                 (Z.to_nat (L2CAP_ACL_U_DYNAMIC_CID_RANGE_END - L2CAP_ACL_U_DYNAMIC_CID_RANGE_START + 1)))
          (InvalidPacket "no free Classic CID" [])).

(** *** Information requests *)

Definition request_information (info_type : Z) : manager Z :=
  identifier ← next_identifier;
  queue_control (InformationRequest identifier info_type);;
  mret identifier.

Definition poll_information_response (self : ChannelManager) : option InformationAnswer * ChannelManager :=
  match self.(information_responses) with
  | [] => (None, self)
  | r :: rest => (Some r, set_information_responses rest self)
  end.

Definition drain_information_responses (self : ChannelManager) : list InformationAnswer * ChannelManager :=
  (self.(information_responses), set_information_responses [] self).

(** *** Servers *)

(** The odd candidates of [L2CAP_PSM_DYNAMIC_RANGE], in order. *)
Definition find_dynamic_psm (p : Z -> bool) : option Z :=
  k ← find_from (fun k => p (L2CAP_PSM_DYNAMIC_RANGE_START + 2 * k)) 0
        (Z.to_nat ((L2CAP_PSM_DYNAMIC_RANGE_END - L2CAP_PSM_DYNAMIC_RANGE_START) / 2 + 1));
  Some (L2CAP_PSM_DYNAMIC_RANGE_START + 2 * k).

Definition register_server_with_spec (psm : option Z) (spec : ChannelSpec) : manager Z :=
  self ← get;
  psm ← match psm with
        | Some psm => lift (validate_psm psm);; mret psm
        | None =>
            lift (ok_or (find_dynamic_psm (fun candidate =>
                           is_ok (validate_psm candidate) && bool_decide (self.(servers) !! candidate = None)))
                    (InvalidPacket "no free Classic PSM" []))
        end;
  if bool_decide (is_Some (self.(servers) !! psm)) then
    throw (InvalidPacket "PSM {psm:#x} is already in use" [psm])
  else
    modify (set_servers (<[psm := spec]> self.(servers)));;
    mret psm.

Definition register_server (psm : option Z) (spec : ClassicChannelSpec) : manager Z :=
  lift (validate_spec spec);;
  register_server_with_spec psm (BasicSpec spec).

Definition register_ertm_server (psm : option Z) (spec : ErtmChannelSpec) : manager Z :=
  lift (validate_ertm_spec spec);;
  register_server_with_spec psm (ErtmSpecOf spec).

Definition unregister_server (psm : Z) : manager bool :=
  self ← get;
  modify (set_servers (delete psm self.(servers)));;
  mret (bool_decide (is_Some (self.(servers) !! psm))).

(** *** Outgoing connections *)

Definition connect_with_spec (psm : Z) (spec : ChannelSpec) : manager Z :=
  source_cid ← allocate_cid;
  identifier ← next_identifier;
  put_channel source_cid (ClassicChannel_outgoing psm source_cid spec);;
  queue_control (ConnectionRequest identifier psm source_cid);;
  mret source_cid.

Definition connect (psm : Z) (spec : ClassicChannelSpec) : manager Z :=
  lift (validate_psm psm);;
  lift (validate_spec spec);;
  connect_with_spec psm (BasicSpec spec).

Definition connect_ertm (psm : Z) (spec : ErtmChannelSpec) : manager Z :=
  lift (validate_psm psm);;
  lift (validate_ertm_spec spec);;
  connect_with_spec psm (ErtmSpecOf spec).

(** *** Queues *)

Definition poll_accepted_channel (self : ChannelManager) : option Z * ChannelManager :=
  match self.(accepted_channels) with
  | [] => (None, self)
  | cid :: rest => (Some cid, set_accepted_channels rest self)
  end.

Definition ChannelManager_poll_outbound (self : ChannelManager) : option L2capPdu * ChannelManager :=
  match self.(mgr_outbound) with
  | [] => (None, self)
  | pdu :: rest => (Some pdu, set_mgr_outbound rest self)
  end.

Definition ChannelManager_drain_outbound (self : ChannelManager) : list L2capPdu * ChannelManager :=
  (self.(mgr_outbound), set_mgr_outbound [] self).

(** *** ERTM channels *)

(** Drain the engine: its frames go out, its SDUs join the channel's queue. *)
Definition drain_engine : channel_op (Z * bool * list (list Z)) := fun channel =>
  match channel.(ertm) with
  | None => (Err (InvalidPacket "channel is not using ERTM" []), channel)
  | Some e =>
      let '(frames, e) := drain_outbound e in
      let received := e.(received) in
      (Ok (channel.(destination_cid), channel.(fcs_enabled), frames),
       set_ch_received (channel.(ch_received) ++ received) (set_ertm (Some (set_received [] e)) channel))
  end.

Definition flush_ertm (local_cid : Z) : manager unit :=
  drained ← on_channel local_cid (no_channel local_cid) drain_engine;
  let '(destination_cid, fcs, frames) := drained in
  for_each (fun frame =>
    payload ← lift (if (fcs : bool) then append_fcs destination_cid frame else Ok frame);
    push_pdu (mkPdu destination_cid payload)) frames.

Definition uses_ertm (self : ChannelManager) (cid : Z) : bool :=
  match self.(channels) !! cid with Some channel => bool_decide (is_Some channel.(ertm)) | None => false end.

Section ticking.
Context `{Profile}.

Definition ChannelManager_tick (ticks : Z) : manager unit :=
  self ← get;
  for_each (fun cid =>
    on_channel cid Panic (on_ertm Panic (tick ticks));;
    flush_ertm cid) (filter (fun cid => uses_ertm self cid = true) (sorted_keys self.(channels))).
End ticking.

Definition ChannelManager_set_receiver_busy (source_cid : Z) (busy : bool) : manager unit :=
  on_channel source_cid (no_channel source_cid)
    (on_ertm (Err (InvalidPacket "channel is not using ERTM" [])) (set_receiver_busy busy));;
  flush_ertm source_cid.

Definition ertm_pending_frames (self : ChannelManager) (source_cid : Z) : option Z :=
  channel ← self.(channels) !! source_cid;
  e ← channel.(ertm);
  Some (pending_frames e).

(** *** Signaling *)

Definition maybe_open (local_cid : Z) : manager unit :=
  self ← get;
  match self.(channels) !! local_cid with
  | None => skip
  | Some channel =>
      if channel.(peer_configuration_received) && channel.(configuration_response_received)
         && bool_decide (channel.(state) = Configuring) then
        put_channel local_cid (set_state Open channel);;
        if channel.(incoming) && negb channel.(open_announced) then
          put_channel local_cid (set_open_announced true (set_state Open channel));;
          modify (fun self => set_accepted_channels (self.(accepted_channels) ++ [local_cid]) self)
        else skip
      else skip
  end.

(** The options of a configuration request. *)
Definition configure_options (spec : ChannelSpec) : list ConfigurationOption :=
  ConfigurationOption_new CONFIGURATION_OPTION_MTU (to_le_bytes 2 (ChannelSpec_mtu spec))
  :: match ChannelSpec_ertm spec with
     | None => []
     | Some ertm =>
         ConfigurationOption_new CONFIGURATION_OPTION_RETRANSMISSION_AND_FLOW_CONTROL (encode_ertm_option ertm)
         :: if ertm.(ertm_fcs_enabled) then [ConfigurationOption_new CONFIGURATION_OPTION_FCS [1]] else []
     end.

Definition queue_configure_request (local_cid : Z) : manager unit :=
  self ← get;
  channel ← lift (match self.(channels) !! local_cid with Some c => Ok c | None => no_channel local_cid end);
  identifier ← next_identifier;
  options ← lift (encode_configuration_options (configure_options channel.(spec)));
  queue_control (ConfigureRequest identifier channel.(destination_cid) 0 options).

Definition on_connection_request (identifier psm remote_cid : Z) : manager unit :=
  self ← get;
  match self.(servers) !! psm with
  | None =>
      queue_control (ConnectionResponse identifier 0 remote_cid CONNECTION_REFUSED_PSM_NOT_SUPPORTED 0)
  | Some spec =>
      match allocate_cid self with
      | (Ok local_cid, _) =>
          put_channel local_cid (ClassicChannel_incoming psm local_cid remote_cid spec);;
          queue_control (ConnectionResponse identifier local_cid remote_cid CONNECTION_SUCCESSFUL 0);;
          queue_configure_request local_cid
      | _ =>
          queue_control (ConnectionResponse identifier 0 remote_cid CONNECTION_REFUSED_NO_RESOURCES_AVAILABLE 0)
      end
  end.

(** The channel's part of [on_connection_response]: whether to configure. *)
Definition connection_answered (destination_cid result : Z) : channel_op bool :=
  channel ← get;
  if negb (bool_decide (channel.(state) = WaitConnectResponse)) then
    throw (InvalidPacket "connection response in invalid state" [])
  else
    modify (set_connection_result (Some result));;
    if negb (result =? CONNECTION_SUCCESSFUL) then
      modify (set_state Closed);; mret false
    else
      modify (set_destination_cid destination_cid);;
      modify (set_state Configuring);; mret true.

Definition on_connection_response (destination_cid source_cid result : Z) : manager unit :=
  configure ← on_channel source_cid
    (Err (InvalidPacket "connection response for unknown CID {source_cid:#06x}" [source_cid]))
    (connection_answered destination_cid result);
  if (configure : bool) then queue_configure_request source_cid else skip.

(** The local variables of [on_configure_request] and the channel it mutates. *)
Record ConfigureScan : Type := mkScan {
  scan_result : Z;
  response_options : list ConfigurationOption;
  scan_channel : ClassicChannel;
  peer_ertm : option ErtmOption;
  peer_fcs : option bool }.

(** [result = ...; response_options = vec![option]; break] *)
Definition scan_stop (result : Z) (options : list ConfigurationOption) (s : ConfigureScan) : ConfigureScan :=
  mkScan result options s.(scan_channel) s.(peer_ertm) s.(peer_fcs).

Definition expected_mode (m : ClassicChannelMode) : Z :=
  match m with Basic => 0 | EnhancedRetransmission => RETRANSMISSION_MODE_ENHANCED end.

Definition ertm_parameters_refused (m : ClassicChannelMode) (parameters : ErtmOption) : bool :=
  negb (parameters.(opt_mode) =? expected_mode m)
  || ((parameters.(opt_mode) =? RETRANSMISSION_MODE_ENHANCED)
      && ((parameters.(opt_tx_window_size) =? 0) || (64 <=? parameters.(opt_tx_window_size))
          || (parameters.(opt_mps) =? 0))).

(** One turn of [for option in options]: the scan goes on ([inl]) or breaks ([inr]). *)
Definition scan_option (option : ConfigurationOption) (s : ConfigureScan) : ConfigureScan + ConfigureScan :=
  if option.(option_type) =? CONFIGURATION_OPTION_MTU then
    match option.(option_value) with
    | [b0; b1] =>
        let mtu := from_le_bytes [b0; b1] in
        if mtu <? L2CAP_MIN_BR_EDR_MTU then
          inr (scan_stop CONFIGURATION_UNACCEPTABLE_PARAMETERS
                 [ConfigurationOption_new CONFIGURATION_OPTION_MTU (to_le_bytes 2 L2CAP_MIN_BR_EDR_MTU)] s)
        else
          inl (mkScan s.(scan_result) (s.(response_options) ++ [option]) (set_ch_peer_mtu mtu s.(scan_channel))
                 s.(peer_ertm) s.(peer_fcs))
    | _ => inr (scan_stop CONFIGURATION_UNACCEPTABLE_PARAMETERS [option] s)
    end
  else if option.(option_type) =? CONFIGURATION_OPTION_RETRANSMISSION_AND_FLOW_CONTROL then
    match decode_ertm_option option.(option_value) with
    | None => inr (scan_stop CONFIGURATION_UNACCEPTABLE_PARAMETERS [option] s)
    | Some parameters =>
        if ertm_parameters_refused s.(scan_channel).(mode) parameters then
          inr (scan_stop CONFIGURATION_UNACCEPTABLE_PARAMETERS [option] s)
        else
          inl (mkScan s.(scan_result) (s.(response_options) ++ [option]) s.(scan_channel)
                 (Some parameters) s.(peer_fcs))
    end
  else if option.(option_type) =? CONFIGURATION_OPTION_FCS then
    match option.(option_value) with
    | [b] =>
        if 1 <? b then inr (scan_stop CONFIGURATION_UNACCEPTABLE_PARAMETERS [option] s)
        else
          inl (mkScan s.(scan_result) (s.(response_options) ++ [option]) s.(scan_channel)
                 s.(peer_ertm) (Some (negb (b =? 0))))
    | _ => inr (scan_stop CONFIGURATION_UNACCEPTABLE_PARAMETERS [option] s)
    end
  else if negb option.(option_hint) then inr (scan_stop CONFIGURATION_UNKNOWN_OPTIONS [option] s)
  else inl s.

Fixpoint scan_options (options : list ConfigurationOption) (s : ConfigureScan) : ConfigureScan :=
  match options with
  | [] => s
  | option :: rest =>
      match scan_option option s with
      | inl s' => scan_options rest s'
      | inr s' => s'
      end
  end.

(** The engine an accepted ERTM configuration creates. *)
Definition negotiated_config (spec : ErtmChannelSpec) (parameters : ErtmOption) : ErtmConfig :=
  mkErtmConfig 65535 65535 spec.(ertm_mps) parameters.(opt_mps) parameters.(opt_tx_window_size)
    parameters.(opt_max_retransmissions) spec.(ertm_retransmission_timeout_ms).

(** The last part of a complete request ([flags & 1 == 0]) whose options were
    accepted: the result and the response options. *)
Definition conclude_configuration (s : ConfigureScan) : channel_op (Z * list ConfigurationOption) :=
  channel ← get;
  outcome ← match ChannelSpec_ertm channel.(spec) with
    | Some spec =>
        match s.(peer_ertm) with
        | Some parameters =>
            if negb (Bool.eqb (default false s.(peer_fcs)) spec.(ertm_fcs_enabled)) then
              mret (CONFIGURATION_UNACCEPTABLE_PARAMETERS,
                    [ConfigurationOption_new CONFIGURATION_OPTION_FCS [if spec.(ertm_fcs_enabled) then 1 else 0]])
            else
              modify (set_ch_peer_mps parameters.(opt_mps));;
              modify (set_fcs_enabled spec.(ertm_fcs_enabled));;
              e ← lift (ErtmEngine_new (negotiated_config spec parameters));
              modify (set_ertm (Some e));;
              mret (s.(scan_result), s.(response_options))
        | None =>
            mret (CONFIGURATION_UNACCEPTABLE_PARAMETERS,
                  [ConfigurationOption_new CONFIGURATION_OPTION_RETRANSMISSION_AND_FLOW_CONTROL
                     (encode_ertm_option spec)])
        end
    | None =>
        mret (if bool_decide (is_Some s.(peer_ertm)) || default false s.(peer_fcs)
              then CONFIGURATION_UNACCEPTABLE_PARAMETERS else s.(scan_result), s.(response_options))
    end;
  if outcome.1 =? CONFIGURATION_SUCCESS then
    modify (set_peer_configuration_received true);; mret outcome
  else
    modify (set_state Closed);;
    modify (set_connection_result (Some outcome.1));; mret outcome.

(** The channel's part of [on_configure_request]: the remote CID, the result
    and the options to answer with. *)
Definition channel_configured (flags : Z) (options : list ConfigurationOption)
    : channel_op (Z * Z * list ConfigurationOption) :=
  channel ← get;
  let remote_cid := channel.(destination_cid) in
  let s := scan_options options (mkScan CONFIGURATION_SUCCESS [] channel None None) in
  put s.(scan_channel);;
  outcome ← (if (s.(scan_result) =? CONFIGURATION_SUCCESS) && (Z.land flags 1 =? 0)
             then conclude_configuration s
             else mret (s.(scan_result), s.(response_options)));
  mret (remote_cid, outcome.1, outcome.2).

Definition on_configure_request (identifier local_cid flags : Z) (encoded_options : list Z) : manager unit :=
  options ← lift (decode_configuration_options encoded_options);
  answer ← on_channel local_cid
    (Err (InvalidPacket "configuration request for unknown CID {local_cid:#06x}" [local_cid]))
    (channel_configured flags options);
  let '(remote_cid, result, response_options) := answer in
  encoded ← lift (encode_configuration_options response_options);
  queue_control (ConfigureResponse identifier remote_cid 0 result encoded);;
  maybe_open local_cid.

Definition on_configure_response (local_cid result : Z) : manager unit :=
  on_channel local_cid
    (Err (InvalidPacket "configuration response for unknown CID {local_cid:#06x}" [local_cid]))
    (if result =? CONFIGURATION_SUCCESS then modify (set_configuration_response_received true)
     else modify (set_connection_result (Some result));; modify (set_state Closed));;
  maybe_open local_cid.

(** [channel.destination_cid != expected], then [state = Closed]. *)
Definition close_matching (expected : Z) : channel_op unit :=
  channel ← get;
  if negb (channel.(destination_cid) =? expected) then throw (InvalidPacket "disconnection CID mismatch" [])
  else modify (set_state Closed).

Definition on_disconnection_request (identifier local_cid remote_cid : Z) : manager unit :=
  on_channel local_cid
    (Err (InvalidPacket "disconnection request for unknown CID {local_cid:#06x}" [local_cid]))
    (close_matching remote_cid);;
  queue_control (DisconnectionResponse identifier local_cid remote_cid).

Definition on_disconnection_response (destination_cid source_cid : Z) : manager unit :=
  on_channel source_cid
    (Err (InvalidPacket "disconnection response for unknown CID {source_cid:#06x}" [source_cid]))
    (close_matching destination_cid).

Definition process_control (frame : ControlFrame) : manager unit :=
  match frame with
  | ConnectionRequest identifier psm source_cid => on_connection_request identifier psm source_cid
  | ConnectionResponse _ destination_cid source_cid result _ =>
      on_connection_response destination_cid source_cid result
  | ConfigureRequest identifier destination_cid flags options =>
      on_configure_request identifier destination_cid flags options
  | ConfigureResponse _ source_cid _ result _ => on_configure_response source_cid result
  | DisconnectionRequest identifier destination_cid source_cid =>
      on_disconnection_request identifier destination_cid source_cid
  | DisconnectionResponse _ destination_cid source_cid => on_disconnection_response destination_cid source_cid
  | EchoRequest identifier data => queue_control (EchoResponse identifier data)
  | InformationRequest identifier info_type =>
      self ← get;
      queue_control (InformationCapabilities_response self.(information) identifier info_type)
  | InformationResponse identifier info_type result data =>
      modify (fun self => set_information_responses
        (self.(information_responses) ++ [mkAnswer identifier info_type result data]) self)
  | _ => skip
  end.

(** *** Data *)

Section data.
Context `{Profile}.

(** A data PDU at its channel: whether the engine has something to flush. *)
Definition channel_receive (local_cid : Z) (payload : list Z) : channel_op bool :=
  channel ← get;
  if negb (bool_decide (channel.(state) = Open)) then
    throw (InvalidPacket "channel {local_cid:#06x} is not open" [local_cid])
  else
    match channel.(ertm) with
    | Some _ =>
        payload ← lift (if channel.(fcs_enabled) then verify_and_strip_fcs local_cid payload else Ok payload);
        on_ertm Panic (receive_frame payload);;
        mret true
    | None =>
        if channel.(ch_mtu) <? len payload then
          throw (InvalidPacket "incoming SDU exceeds channel MTU {}" [channel.(ch_mtu)])
        else
          modify (set_ch_received (channel.(ch_received) ++ [payload]));;
          mret false
    end.

Definition process_pdu (pdu : L2capPdu) : manager unit :=
  if pdu.(pdu_cid) =? L2CAP_SIGNALING_CID then
    frame ← lift (ControlFrame_from_bytes pdu.(pdu_payload));
    process_control frame
  else
    flush ← on_channel pdu.(pdu_cid) (no_channel pdu.(pdu_cid)) (channel_receive pdu.(pdu_cid) pdu.(pdu_payload));
    if (flush : bool) then flush_ertm pdu.(pdu_cid) else skip.

Definition process_bytes (data : list Z) : manager unit :=
  pdu ← lift (L2capPdu_from_bytes data);
  process_pdu pdu.
End data.

(** The channel's part of [send]: [None] for an SDU the engine took, the
    destination of a basic-mode one otherwise. *)
Definition channel_send (sdu : list Z) : channel_op (option Z) :=
  channel ← get;
  if negb (bool_decide (channel.(state) = Open)) then throw (InvalidPacket "channel not open" [])
  else
    match channel.(ertm) with
    | Some _ => on_ertm Panic (send_sdu sdu);; mret None
    | None =>
        if channel.(ch_peer_mtu) <? len sdu then
          throw (InvalidPacket "SDU exceeds peer MTU {}" [channel.(ch_peer_mtu)])
        else mret (Some channel.(destination_cid))
    end.

Definition ChannelManager_send (source_cid : Z) (sdu : list Z) : manager unit :=
  destination ← on_channel source_cid (no_channel source_cid) (channel_send sdu);
  match destination with
  | None => flush_ertm source_cid
  | Some destination_cid => push_pdu (mkPdu destination_cid sdu)
  end.

Definition disconnect (source_cid : Z) : manager unit :=
  destination_cid ← on_channel source_cid (no_channel source_cid)
    (channel ← get;
     if negb (bool_decide (channel.(state) = Open)) then throw (InvalidPacket "channel not open" [])
     else modify (set_state WaitDisconnect);; mret channel.(destination_cid));
  identifier ← next_identifier;
  queue_control (DisconnectionRequest identifier destination_cid source_cid).
