(* ===== verification/ClassicProps.v ===== *)
(** * Properties of the Classic channel manager

    The life cycle of a channel, the invariant of the manager, the
    connection handshake between two managers, data transfer, the frame check
    sequence of ERTM frames and the PSM rules. *)
From S2P Require Import Prelude L2cap Ertm ErtmSpec Classic.

(** ** Frame check sequence *)

Definition fcs_input (cid : Z) (payload : list Z) : list Z :=
  to_le_bytes 2 (len payload + 2) ++ to_le_bytes 2 cid ++ payload.

Lemma fcs_input_bytes cid payload : bytes payload -> bytes (fcs_input cid payload).
Proof. intros. unfold fcs_input. rewrite !bytes_app. auto with bytes_db. Qed.

Lemma append_fcs_ok cid payload : len payload <= 65533 ->
  append_fcs cid payload = Ok (payload ++ to_le_bytes 2 (crc_16 (fcs_input cid payload))).
Proof. intros. unfold append_fcs. by rewrite (proj2 (Z.ltb_ge _ _)) by lia. Qed.

(** What the check accepts: a frame whose last two bytes are the CRC of the rest. *)
Lemma verify_fcs_split cid body x y : len body <= 65533 -> u8 x -> u8 y ->
  verify_and_strip_fcs cid (body ++ [x; y]) =
    if crc_16 (fcs_input cid body) =? from_le_bytes [x; y] then Ok body
    else Err (InvalidPacket "ERTM frame has an invalid FCS" []).
Proof.
  intros Hl Hx Hy. unfold verify_and_strip_fcs, fcs_input, idx, slice. pose proof (len_nonneg body).
  assert (len (body ++ [x; y]) = len body + 2) as -> by len_lia.
  rewrite (proj2 (Z.ltb_ge _ 2)), (proj2 (Z.ltb_ge 65535 _)) by lia.
  rewrite length_app. cbn [length]. replace (length body + 2 - 2)%nat with (length body) by lia.
  rewrite (list_lookup_middle body [y] x (length body)) by done. replace (body ++ [x; y]) with ((body ++ [x]) ++ [y]) by (by rewrite <- app_assoc).
  rewrite (list_lookup_middle (body ++ [x]) [] y (length body + 1)) by (rewrite length_app; cbn; lia).
  cbn [expect mbind res_bind]. rewrite <- app_assoc. rewrite get_range_Some by (rewrite ?length_app; cbn; lia).
  rewrite drop_0, Nat.sub_0_r, take_app_length. cbn [expect mbind res_bind]. by destruct (_ =? _).
Qed.

(** The frame check sequence of an ERTM frame is undone by the check of the
    receiver, and a frame that differs in two consecutive bytes is refused. *)
Theorem fcs_roundtrip cid payload : bytes payload -> len payload <= 65533 ->
  exists frame, append_fcs cid payload = Ok frame /\ verify_and_strip_fcs cid frame = Ok payload /\
    forall pre x y x' y' post, payload = pre ++ [x; y] ++ post -> u8 x' -> u8 y' -> (x, y) <> (x', y') ->
      verify_and_strip_fcs cid (pre ++ [x'; y'] ++ post ++ drop (length payload) frame)
      = Err (InvalidPacket "ERTM frame has an invalid FCS" []).
Proof.
  intros Hb Hl. exists (payload ++ to_le_bytes 2 (crc_16 (fcs_input cid payload))).
  pose proof (crc_16_range _ (fcs_input_bytes cid payload Hb)) as Hcrc.
  assert (u8 (crc_16 (fcs_input cid payload) mod 256)) by (apply Z.mod_pos_bound; lia).
  assert (u8 (crc_16 (fcs_input cid payload) / 256 mod 256)) by (apply Z.mod_pos_bound; lia).
  split; [by apply append_fcs_ok|]. rewrite drop_app_length, to_le_bytes_2. split.
  - rewrite verify_fcs_split by done. by rewrite u16_le_roundtrip, Z.eqb_refl.
  - intros pre x y x' y' post Hp Hx' Hy' Hne. rewrite !app_assoc, <- (app_assoc pre), verify_fcs_split; try done.
    2:{ rewrite Hp in Hl. len_lia. }
    rewrite u16_le_roundtrip by done. rewrite (proj2 (Z.eqb_neq _ _)); [done|]. intros Heq. apply Hne.
    assert (len (pre ++ [x'; y'] ++ post) = len payload) as Hlen by (rewrite Hp; len_lia).
    unfold fcs_input in Heq. rewrite Hlen in Heq. remember (len payload + 2) as n eqn:Hn. clear Hn. rewrite Hp in Heq, Hb.
    assert (forall u v, to_le_bytes 2 n ++ to_le_bytes 2 cid ++ pre ++ [u; v] ++ post =
      (to_le_bytes 2 n ++ to_le_bytes 2 cid ++ pre) ++ [u; v] ++ post) as Hassoc by (intros; by rewrite <- !app_assoc).
    rewrite !Hassoc in Heq. rewrite !bytes_app in Hb. destruct Hb as (Hpre & Hxy & Hpost).
    assert (bytes [x'; y']) by (repeat constructor; lia).
    apply crc_burst in Heq as [-> ->]; [done|..]; rewrite !bytes_app; auto with bytes_db.
Qed.

Lemma fcs_roundtrip_witness : exists frame, append_fcs 0x40 [1; 2; 3] = Ok frame /\
  verify_and_strip_fcs 0x40 frame = Ok [1; 2; 3].
Proof.
  destruct (fcs_roundtrip 0x40 [1; 2; 3]) as (frame & Ha & Hv & _); [by_compute | done |]. by exists frame.
Defined.

(** ** PSMs *)

Lemma land_1_odd x : (Z.land x 1 =? 0) = negb (Z.odd x).
Proof.
  change 1 with (Z.ones 1). rewrite Z.land_ones by lia. change (2 ^ 1) with 2. rewrite Zmod_odd. by destruct (Z.odd x).
Qed.

(** What [validate_psm] accepts: an odd low byte and even bytes above it. *)
Lemma validate_psm_iff p : u32 p ->
  validate_psm p = Ok tt <->
  Z.odd p = true /\ Z.odd (p / 2 ^ 8) = false /\ Z.odd (p / 2 ^ 16) = false /\ Z.odd (p / 2 ^ 24) = false.
Proof.
  intros Hp. unfold validate_psm. rewrite land_1_odd.
  destruct (Z.eqb_spec p 0) as [->|Hne]; [cbn; split; [done|]; by intros [? _]|].
  destruct (Z.odd p) eqn:Ho; cbn [orb negb]; [|split; [done|]; by intros [? _]].
  cbn [validate_psm_high]. rewrite !land_1_odd, !negb_involutive.
  rewrite !Z.shiftr_div_pow2, !Z.div_div by lia. change (2 ^ 8 * 2 ^ 8) with (2 ^ 16). change (2 ^ 16 * 2 ^ 8) with (2 ^ 24).
  change (2 ^ 24 * 2 ^ 8) with (2 ^ 32).
  assert (forall n, 0 <= n -> p / 2 ^ n = 0 -> Z.odd (p / 2 ^ n) = false) as H0 by (by intros n _ ->).
  assert (p / 2 ^ 32 = 0) as -> by (apply Z.div_small; lia).
  assert (p / 2 ^ 8 = 0 -> p / 2 ^ 16 = 0) by (intros; Z.div_mod_to_equations; lia).
  assert (p / 2 ^ 16 = 0 -> p / 2 ^ 24 = 0) by (intros; Z.div_mod_to_equations; lia).
  destruct (Z.eqb_spec (p / 2 ^ 8) 0) as [E8|]; [rewrite !H0 by (lia || auto); done|].
  destruct (Z.odd (p / 2 ^ 8)); [split; [done|]; by intros (_ & ? & _)|].
  destruct (Z.eqb_spec (p / 2 ^ 16) 0) as [E16|]; [rewrite !(H0 16), !(H0 24) by (lia || auto); done|].
  destruct (Z.odd (p / 2 ^ 16)); [split; [done|]; by intros (_ & _ & ? & _)|].
  destruct (Z.eqb_spec (p / 2 ^ 24) 0) as [E24|]; [rewrite !(H0 24) by (lia || auto); done|].
  destruct (Z.odd (p / 2 ^ 24)); [split; [done|]; by intros (_ & _ & _ & ?)|]. done.
Qed.

Lemma control_wire `{Profile} f : ControlFrame_fields_ok f -> len (ControlFrame_payload f) <= 65535 ->
  ControlFrame_from_bytes (ControlFrame_to_bytes f) = Ok f.
Proof.
  intros Hf Hl. unfold ControlFrame_to_bytes. pose proof (len_nonneg (ControlFrame_payload f)).
  rewrite Z.mod_small by lia. rewrite <- (app_nil_r (ControlFrame_payload f)) at 2.
  rewrite from_bytes_header by lia. by apply decode_payload.
Qed.

Lemma small_psm_extension p : 0 <= p < 65536 -> Z.odd (p / 2 ^ 8) = false -> psm_extension_ok p = true.
Proof. intros Hp Ho. unfold psm_extension_ok. rewrite (proj2 (Z.ltb_lt _ _)) by lia. by rewrite Ho. Qed.

(** A PSM of three or four bytes whose second byte is even is cut short. *)
Lemma parse_psm_cut `{Profile} p tail : u32 p -> Z.odd (p / 2 ^ 8) = false ->
  parse_psm (serialize_psm p ++ tail) 0 = Ok (2%nat, p mod 65536).
Proof.
  intros Hp Ho. rewrite serialize_psm_cases by done. unfold parse_psm. cbn [app].
  rewrite (proj2 (Z.ltb_ge _ _)) by len_lia. cbn [Nat.add]. read_prefix.
  set (rest := _ ++ tail). assert (parse_psm_loop (p / 256 mod 256) rest
    (Z.lor (p mod 256) (Z.shiftl (p / 256 mod 256) 8)) 2 = Ok (2%nat, p mod 65536)) as Hloop.
  { destruct rest; cbn [parse_psm_loop]; rewrite odd_low; change (p / 256) with (p / 2 ^ 8); rewrite Ho.
    all: rewrite lor_shiftl_add by (lia || apply Z.mod_pos_bound; lia). all: do 2 f_equal.
    all: change (2 ^ 8) with 256; Z.div_mod_to_equations; lia. }
  cbn [Nat.add drop]. by rewrite drop_0, Hloop.
Qed.

Section psm_theorems.
Context `{Profile}.

(** A PSM the manager accepts travels in a connection request exactly when
    it fits sixteen bits: a longer one passes [validate_psm] but is read by
    the peer as another PSM. *)
Theorem validated_psm_wire_iff id p cid : u32 p -> u16 cid -> validate_psm p = Ok tt ->
  (ControlFrame_from_bytes (ControlFrame_to_bytes (ConnectionRequest id p cid)) = Ok (ConnectionRequest id p cid)
   <-> p < 65536).
Proof.
  intros Hp Hc (_ & Ho & _)%validate_psm_iff; [|done]. split.
  - intros Hdec. destruct (decide (p < 65536)); [done|]. exfalso. revert Hdec.
    assert (2 <= length (serialize_psm p))%nat as Hlen by (rewrite serialize_psm_cases by done; cbn; lia).
    unfold ControlFrame_to_bytes. cbn [ControlFrame_code ControlFrame_identifier ControlFrame_payload]. unfold push_u16.
    assert (length (serialize_psm p) <= 4)%nat as Hlen4
      by (rewrite serialize_psm_cases by done; cbn; repeat case_match; cbn; lia).
    rewrite Z.mod_small by (unfold len; rewrite length_app, length_to_le_bytes; lia).
    rewrite <- (app_nil_r (serialize_psm p ++ to_le_bytes 2 cid)) at 2.
    rewrite from_bytes_header by (done || unfold len; rewrite length_app, length_to_le_bytes; lia).
    change (ControlFrame_decode CONNECTION_REQUEST id ?l) with ('(offset, q) ← parse_psm l 0;
      if len l <? Z.of_nat offset + 2 then Err (InvalidPacket "truncated Connection_Request" [])
      else source_cid ← le16 l offset; Ok (ConnectionRequest id q source_cid)).
    rewrite parse_psm_cut by done. cbn [mbind res_bind]. case_match; [done|].
    destruct (le16 _ 2) as [v| |]; cbn; try done. intros [= Hq _]. pose proof (Z.mod_pos_bound p 65536). lia.
  - intros Hlt. apply control_wire; [|].
    + cbn. split; [done|]. split; [apply small_psm_extension; [lia|done]|done].
    + cbn [ControlFrame_payload]. unfold push_u16. rewrite serialize_psm_cases by done. rewrite (proj2 (Z.ltb_lt _ _)) by lia.
      rewrite to_le_bytes_2. rewrite app_nil_r. done.
Qed.
End psm_theorems.

Lemma validated_psm_wire_iff_witness :
  ControlFrame_from_bytes (H:=false) (ControlFrame_to_bytes (ConnectionRequest 1 0x020001 0x40))
  <> Ok (ConnectionRequest 1 0x020001 0x40).
Proof.
  intros Heq. apply (validated_psm_wire_iff (H:=false)) in Heq; [discriminate | lia | lia | reflexivity].
Defined.

(** ** Life cycle of a channel *)

(** The order a channel goes through its states. *)
Definition rank (s : ClassicChannelState) : Z :=
  match s with
  | WaitConnectResponse => 0 | Configuring => 1 | Open => 2 | WaitDisconnect => 3 | Closed => 4
  end.

(** A channel keeps its identity and never goes back. *)
Record channel_le (c c' : ClassicChannel) : Prop := {
  le_psm : c'.(psm) = c.(psm);
  le_source : c'.(source_cid) = c.(source_cid);
  le_mtu : c'.(ch_mtu) = c.(ch_mtu);
  le_mode : c'.(mode) = c.(mode);
  le_incoming : c'.(incoming) = c.(incoming);
  le_spec : c'.(spec) = c.(spec);
  le_state : rank c.(state) <= rank c'.(state);
  le_announced : c.(open_announced) = true -> c'.(open_announced) = true }.

#[global] Instance channel_le_preorder : PreOrder channel_le.
Proof.
  split; [by constructor|]. intros c1 c2 c3 [] []. constructor; try congruence; try lia. auto.
Qed.

Definition spec_ok (s : ChannelSpec) : Prop :=
  match s with
  | BasicSpec s => 48 <= s.(spec_mtu) <= 65535
  | ErtmSpecOf s =>
      48 <= s.(ertm_mtu) <= 65535 /\ 1 <= s.(ertm_mps) <= 65535 /\ 1 <= s.(ertm_tx_window_size) <= 63 /\
      0 <= s.(ertm_max_retransmissions) <= 255 /\ 1 <= s.(ertm_retransmission_timeout_ms) <= 65535 /\
      1 <= s.(ertm_monitor_timeout_ms) <= 65535
  end.

#[global] Instance spec_ok_dec s : Decision (spec_ok s).
Proof. destruct s; apply _. Defined.

Record channel_ok (cid : Z) (c : ClassicChannel) : Prop := {
  ok_source : c.(source_cid) = cid;
  ok_range : 0x40 <= cid <= 0xffff;
  ok_spec : spec_ok c.(spec);
  ok_mtu : c.(ch_mtu) = ChannelSpec_mtu c.(spec);
  ok_mode : c.(mode) = ChannelSpec_mode c.(spec);
  ok_peer_mtu : 48 <= c.(ch_peer_mtu) <= 65535;
  ok_open : c.(state) = Open -> c.(peer_configuration_received) = true /\ c.(configuration_response_received) = true;
  ok_engine : forall e, c.(ertm) = Some e -> engine_ok e /\ c.(mode) = EnhancedRetransmission;
  ok_configured : c.(peer_configuration_received) = true -> c.(mode) = EnhancedRetransmission -> is_Some c.(ertm);
  ok_announced : c.(open_announced) = true -> c.(incoming) = true }.

Record mgr_ok (m : ChannelManager) : Prop := {
  ok_channels : forall cid c, m.(channels) !! cid = Some c -> channel_ok cid c;
  ok_servers : forall p s, m.(servers) !! p = Some s -> spec_ok s /\ validate_psm p = Ok tt;
  ok_identifier : u8 m.(identifier);
  ok_accepted : forall cid, cid ∈ m.(accepted_channels) ->
    exists c, m.(channels) !! cid = Some c /\ c.(open_announced) = true }.

(** Channels stay, and go forward. *)
Definition mgr_le (m m' : ChannelManager) : Prop :=
  forall cid c, m.(channels) !! cid = Some c -> exists c', m'.(channels) !! cid = Some c' /\ channel_le c c'.

#[global] Instance mgr_le_preorder : PreOrder mgr_le.
Proof.
  split.
  - intros m cid c Hc. by exists c.
  - intros m1 m2 m3 H12 H23 cid c Hc. destruct (H12 cid c Hc) as (c2 & Hc2 & Hle2).
    destruct (H23 cid c2 Hc2) as (c3 & Hc3 & Hle3). exists c3. split; [done|]. by etrans.
Qed.

(** A manager method that keeps the invariant and only moves channels forward,
    on every outcome; likewise for a channel method. *)
Definition good_at {A} (self : ChannelManager) (m : manager A) : Prop :=
  mgr_ok (m self).2 /\ mgr_le self (m self).2.
Definition good {A} (m : manager A) : Prop := forall self, mgr_ok self -> good_at self m.
Definition channel_good {A} (m : channel_op A) : Prop :=
  forall cid c, channel_ok cid c -> channel_ok cid (m c).2 /\ channel_le c (m c).2.

Create HintDb mgr_db discriminated.

Lemma good_at_bind {A B} self (m : manager A) (k : A -> manager B) :
  good_at self m -> (forall a self', m self = (Ok a, self') -> mgr_ok self' -> good_at self' (k a)) ->
  good_at self (m ≫= k).
Proof.
  intros [Hm Hle] Hk. unfold good_at, mbind, stm_bind. destruct (m self) as [[a|x|] s1] eqn:Hrun; cbn in *; try done.
  destruct (Hk a s1 eq_refl Hm) as [Hok Hle']. split; [done|]. by etrans.
Qed.

Lemma good_bind {A B} (m : manager A) (k : A -> manager B) : good m -> (forall a, good (k a)) -> good (m ≫= k).
Proof. intros Hm Hk self Hs. apply good_at_bind; [by apply Hm|]. intros. by apply Hk. Qed.

Lemma good_get {A} (k : ChannelManager -> manager A) :
  (forall self, mgr_ok self -> good_at self (k self)) -> good (get ≫= k).
Proof. intros Hk self Hs. exact (Hk self Hs). Qed.

Lemma good_ret {A} (a : A) : good (mret a).
Proof. intros self Hs. by split. Qed.

Lemma good_lift {A} (r : res L2capError A) : good (lift r).
Proof. intros self Hs. by split. Qed.

Lemma good_skip : good skip.
Proof. exact (good_ret tt). Qed.

Lemma good_throw {A} x : good (throw (A:=A) x).
Proof. intros self Hs. by split. Qed.

Lemma good_for_each {A} (body : A -> manager unit) xs : (forall x, good (body x)) -> good (for_each body xs).
Proof. intros H. induction xs as [|x xs IH]; [apply good_skip|]. by apply good_bind. Qed.

Lemma good_push_pdu p : good (push_pdu p).
Proof. intros self [H1 H2 H3 H4]. split; [by constructor | by intros cid c Hc; exists c]. Qed.

Lemma good_queue_control f : good (queue_control f).
Proof. apply good_push_pdu. Qed.

Lemma good_next_identifier : good next_identifier.
Proof.
  intros self [H1 H2 H3 H4]. split; [|by intros cid c Hc; exists c]. constructor; try done.
  unfold next_identifier, wrapping_add. run. cbn [snd identifier set_identifier]. change (2 ^ 8) with 256.
  pose proof (Z.mod_pos_bound (identifier self + 1) 256).
  case_match; lia.
Qed.

#[export] Hint Resolve good_bind good_ret good_lift good_skip good_throw good_for_each good_push_pdu
  good_queue_control good_next_identifier : mgr_db.

(** Replacing a channel by a later version of itself. *)
Lemma replace_channel self cid c c' : mgr_ok self -> self.(channels) !! cid = Some c ->
  channel_ok cid c' -> channel_le c c' ->
  mgr_ok (set_channels (<[cid := c']> self.(channels)) self) /\
  mgr_le self (set_channels (<[cid := c']> self.(channels)) self).
Proof.
  intros [H1 H2 H3 H4] Hc Hok Hle. split.
  - constructor; cbn; try done.
    + intros k d. rewrite lookup_insert_Some. intros [[<- <-]|[_ Hd]]; [done|by apply H1].
    + intros k Hk. destruct (H4 k Hk) as (d & Hd & Ha). destruct (decide (k = cid)) as [->|].
      * exists c'. rewrite lookup_insert_eq. split; [done|]. assert (d = c) as -> by congruence. by apply Hle.
      * exists d. by rewrite lookup_insert_ne by done.
  - intros k d Hd. cbn. destruct (decide (k = cid)) as [->|].
    + exists c'. rewrite lookup_insert_eq. split; [done|]. by assert (d = c) as -> by congruence.
    + exists d. by rewrite lookup_insert_ne by done.
Qed.

Lemma good_on_channel {A} cid missing (m : channel_op A) : channel_good m -> good (on_channel cid missing m).
Proof.
  intros Hm self Hs. unfold good_at, on_channel. destruct (channels self !! cid) as [c|] eqn:Hc; [|by split].
  destruct (Hm cid c (ok_channels _ Hs cid c Hc)) as [Hok Hle]. destruct (m c) as [r c']. by apply (replace_channel self cid c).
Qed.

(** A new channel at a free CID. *)
Lemma good_put_new self cid c : mgr_ok self -> self.(channels) !! cid = None -> channel_ok cid c ->
  good_at self (put_channel cid c).
Proof.
  intros [H1 H2 H3 H4] Hn Hok. split.
  - constructor; cbn; try done.
    + intros k d. rewrite lookup_insert_Some. intros [[<- <-]|[_ Hd]]; [done|by apply H1].
    + intros k Hk. destruct (H4 k Hk) as (d & Hd & Ha). exists d. rewrite lookup_insert_ne; [done|]. congruence.
  - intros k d Hd. exists d. cbn. rewrite lookup_insert_ne; [done|]. congruence.
Qed.

Lemma allocate_cid_spec self cid self' : allocate_cid self = (Ok cid, self') ->
  self' = self /\ 0x40 <= cid <= 0xffff /\ self.(channels) !! cid = None /\
  forall k, 0x40 <= k < cid -> is_Some (self.(channels) !! k).
Proof.
  unfold allocate_cid, lift. run. destruct (find_from _ _ _) as [k|] eqn:Hf; [|done]. cbn. intros [= -> <-].
  apply find_from_Some in Hf as (Hr & Hp & Hmin). apply bool_decide_eq_true in Hp.
  unfold L2CAP_ACL_U_DYNAMIC_CID_RANGE_START, L2CAP_ACL_U_DYNAMIC_CID_RANGE_END in *.
  split; [done|]. split; [lia|]. split; [done|]. intros j Hj. specialize (Hmin j Hj).
  apply bool_decide_eq_false in Hmin. by apply not_eq_None_Some in Hmin.
Qed.

(** *** Channel methods *)

Lemma channel_good_bind {A B} (m : channel_op A) (k : A -> channel_op B) :
  channel_good m -> (forall a, channel_good (k a)) -> channel_good (m ≫= k).
Proof.
  intros Hm Hk cid c Hc. destruct (Hm cid c Hc) as [Hok Hle]. unfold mbind, stm_bind.
  destruct (m c) as [[a|x|] c1]; cbn in *; try done. destruct (Hk a cid c1 Hok). split; [done|]. by etrans.
Qed.

Lemma channel_good_ret {A} (a : A) : channel_good (mret a).
Proof. intros cid c Hc. by split. Qed.

Lemma channel_good_lift {A} (r : res L2capError A) : channel_good (lift r).
Proof. intros cid c Hc. by split. Qed.

Lemma channel_good_throw {A} x : channel_good (throw (A:=A) x).
Proof. intros cid c Hc. by split. Qed.

Lemma channel_good_modify (f : ClassicChannel -> ClassicChannel) :
  (forall cid c, channel_ok cid c -> channel_ok cid (f c) /\ channel_le c (f c)) -> channel_good (modify f).
Proof. intros Hf cid c Hc. by apply Hf. Qed.

(** Engine calls keep the engine in order. *)
Lemma channel_good_on_ertm missing (m : engine unit) : (forall e, engine_ok e -> engine_ok (m e).2) ->
  channel_good (on_ertm missing m).
Proof.
  intros Hm cid c Hc. unfold on_ertm. destruct (ertm c) as [e|] eqn:He; [|by split].
  destruct (ok_engine _ _ Hc e He) as [Heok Hmode]. specialize (Hm e Heok). destruct (m e) as [r e'].
  destruct Hc as [H1 H2 H3 H4 H5 H6 H7 H8 H9 H10]. split; [|by constructor]. constructor; cbn; try done.
  intros e0 [= <-]. done.
Qed.

Lemma channel_good_close : channel_good (modify (set_state Closed)).
Proof.
  apply channel_good_modify. intros cid c [H1 H2 H3 H4 H5 H6 H7 H8 H9 H10]. split; [by constructor|].
  constructor; try done. cbn. by destruct (state c).
Qed.

Lemma channel_good_result r : channel_good (modify (set_connection_result r)).
Proof. apply channel_good_modify. intros cid c [H1 H2 H3 H4 H5 H6 H7 H8 H9 H10]. split; by constructor. Qed.

Lemma channel_good_answered d r : channel_good (connection_answered d r).
Proof.
  intros cid c Hc. unfold connection_answered. run.
  destruct (bool_decide (state c = WaitConnectResponse)) eqn:Hs; cbn [negb]; [|by split].
  apply bool_decide_eq_true in Hs. destruct Hc as [H1 H2 H3 H4 H5 H6 H7 H8 H9 H10].
  destruct (negb _); cbn [snd]; (split; [by constructor|]); constructor; cbn; try done; by rewrite Hs.
Qed.

Lemma channel_good_close_matching d : channel_good (close_matching d).
Proof.
  intros cid c Hc. unfold close_matching. unfold mbind, stm_bind, get. destruct (negb _); [by split|].
  by apply channel_good_close.
Qed.

Lemma channel_good_drain : channel_good drain_engine.
Proof.
  intros cid c Hc. unfold drain_engine. destruct (ertm c) as [e|] eqn:He; [|by split].
  destruct (ok_engine _ _ Hc e He) as [Heok Hmode].
  pose proof (call_ok_run (H:=false) DrainOutbound e Heok) as [Hd _].
  destruct Hc as [H1 H2 H3 H4 H5 H6 H7 H8 H9 H10]. split; [|by constructor]. constructor; cbn; try done.
  intros e0 [= <-]. done.
Qed.

#[export] Hint Resolve channel_good_bind channel_good_ret channel_good_lift channel_good_throw channel_good_close
  channel_good_result channel_good_answered channel_good_close_matching channel_good_drain good_on_channel : mgr_db.

(** *** Configuration *)

(** What the scan of the options guarantees. *)
Record scan_ok (cid : Z) (c0 : ClassicChannel) (s : ConfigureScan) : Prop := {
  scan_channel_ok : channel_ok cid s.(scan_channel);
  scan_channel_le : channel_le c0 s.(scan_channel);
  scan_ertm_ok : forall p, s.(peer_ertm) = Some p -> ertm_parameters_refused s.(scan_channel).(mode) p = false /\
    u8 p.(opt_tx_window_size) /\ u8 p.(opt_max_retransmissions) /\ u16 p.(opt_mps) }.

Lemma set_peer_mtu_ok cid c mtu : channel_ok cid c -> 48 <= mtu <= 65535 ->
  channel_ok cid (set_ch_peer_mtu mtu c) /\ channel_le c (set_ch_peer_mtu mtu c).
Proof. intros [H1 H2 H3 H4 H5 H6 H7 H8 H9 H10] Hm. split; by constructor. Qed.

Lemma scan_option_ok cid c0 o s : scan_ok cid c0 s -> option_wf o ->
  match scan_option o s with inl s' | inr s' => scan_ok cid c0 s' end.
Proof.
  intros [H1 H2 H3] (_ & Hb & _).
  assert (forall r os, scan_ok cid c0 (scan_stop r os s)) as Hstop by (intros; by constructor).
  unfold scan_option. repeat (case_match; simplify_eq; try done); try apply Hstop; try (by constructor).
  - unfold bytes in Hb. rewrite !Forall_cons_iff in Hb. destruct Hb as (Hx & Hy & _).
    match goal with H : (from_le_bytes [?x; ?y] <? _) = false |- _ =>
      pose proof (u16_le_range x y Hx Hy); apply Z.ltb_ge in H; unfold L2CAP_MIN_BR_EDR_MTU in H;
      destruct (set_peer_mtu_ok cid (scan_channel s) (from_le_bytes [x; y]) H1) as [Hok Hle]; [lia|] end.
    constructor; cbn; [done | by etrans | done].
  - match goal with H : decode_ertm_option (option_value o) = Some ?p |- _ =>
      unfold decode_ertm_option in H; repeat (case_match; simplify_eq) end.
    unfold bytes in Hb. rewrite !Forall_cons_iff in Hb.
    destruct Hb as (? & ? & ? & ? & ? & ? & ? & ? & ? & _). constructor; cbn; try done.
    intros p [= <-]. cbn. split; [done|]. split; [done|]. split; [done|]. by apply u16_le_range.
Qed.

Lemma scan_options_ok cid c0 os : forall s, scan_ok cid c0 s -> Forall option_wf os ->
  scan_ok cid c0 (scan_options os s).
Proof.
  induction os as [|o os IH]; intros s Hs Hos; [done|]. apply Forall_cons_iff in Hos as [Ho Hos].
  cbn [scan_options]. pose proof (scan_option_ok cid c0 o s Hs Ho). destruct (scan_option o s); auto.
Qed.

Lemma negotiated_engine_ok spec p e : spec_ok (ErtmSpecOf spec) ->
  ertm_parameters_refused EnhancedRetransmission p = false ->
  u8 p.(opt_tx_window_size) -> u8 p.(opt_max_retransmissions) -> u16 p.(opt_mps) ->
  ErtmEngine_new (negotiated_config spec p) = Ok e -> engine_ok e.
Proof.
  intros (?&?&?&?&?&?) Hr Hw Hm Hmps He. destruct (new_related (negotiated_config spec p) e) as (HR & Hd & Hi & _).
  - unfold config_in_range. cbn. lia.
  - done.
  - split; [by exists initial_ghost|done].
Qed.

(** The updates that end a configuration. *)
Definition advances (cid : Z) (c c' : ClassicChannel) : Prop := channel_ok cid c' /\ channel_le c c'.

Lemma advances_trans cid c1 c2 c3 : advances cid c1 c2 -> advances cid c2 c3 -> advances cid c1 c3.
Proof. intros [_ H12] [H3 H23]. split; [done|]. by etrans. Qed.

Lemma closed_advances cid c r : channel_ok cid c -> advances cid c (set_connection_result r (set_state Closed c)).
Proof.
  intros [H1 H2 H3 H4 H5 H6 H7 H8 H9 H10]. split; constructor; try done. cbn. by destruct (state c).
Qed.

Lemma configured_advances cid c : channel_ok cid c -> (c.(mode) = EnhancedRetransmission -> is_Some c.(ertm)) ->
  advances cid c (set_peer_configuration_received true c).
Proof.
  intros [H1 H2 H3 H4 H5 H6 H7 H8 H9 H10] He. split; constructor; try done. cbn. intros Hs. split; [done|]. by apply H7.
Qed.

Lemma negotiated_advances cid c mps fcs : channel_ok cid c -> advances cid c (set_fcs_enabled fcs (set_ch_peer_mps mps c)).
Proof. intros [H1 H2 H3 H4 H5 H6 H7 H8 H9 H10]. by split; constructor. Qed.

Lemma engine_advances cid c e : channel_ok cid c -> engine_ok e -> c.(mode) = EnhancedRetransmission ->
  advances cid c (set_ertm (Some e) c).
Proof.
  intros [H1 H2 H3 H4 H5 H6 H7 H8 H9 H10] He Hm. split; constructor; try done. cbn. by intros e0 [= <-].
Qed.

(** The verdict on a configuration whose channel is [c]. *)
Lemma verdict_advances cid c (outcome : Z * list ConfigurationOption) : channel_ok cid c ->
  (c.(mode) = EnhancedRetransmission -> is_Some c.(ertm)) \/ (outcome.1 =? CONFIGURATION_SUCCESS) = false ->
  advances cid c
    ((if outcome.1 =? CONFIGURATION_SUCCESS
      then modify (set_peer_configuration_received true);; mret (M:=channel_op) outcome
      else modify (set_state Closed);; modify (set_connection_result (Some outcome.1));; mret outcome) c).2.
Proof.
  intros Hc He. destruct (_ =? _) eqn:Hr; [|by apply closed_advances]. apply configured_advances; [done|].
  by destruct He.
Qed.

Lemma conclude_good cid c0 s : scan_ok cid c0 s ->
  advances cid s.(scan_channel) (conclude_configuration s s.(scan_channel)).2.
Proof.
  intros [Hc _ He]. set (c := scan_channel s) in *. unfold conclude_configuration.
  unfold mbind at 1, stm_bind at 1, get. unfold mbind at 1, stm_bind at 1.
  pose proof (ok_mode _ _ Hc) as Hmode. pose proof (ok_spec _ _ Hc) as Hsp.
  destruct (spec c) as [b|sp] eqn:Hspec; cbn [ChannelSpec_ertm ChannelSpec_mode] in *.
  - unfold mret at 1, stm_ret at 1. apply verdict_advances; [done|]. left. congruence.
  - destruct (peer_ertm s) as [p|] eqn:Hp; [|unfold mret at 1, stm_ret at 1; apply verdict_advances; [done|by right]].
    destruct (negb (eqb _ _)); [unfold mret at 1, stm_ret at 1; apply verdict_advances; [done|by right]|].
    destruct (He p eq_refl) as (Hr & Hw & Hm & Hmps). rewrite Hmode in Hr.
    pose proof (negotiated_advances cid c (opt_mps p) (ertm_fcs_enabled sp) Hc) as Hn.
    unfold mbind at 1 2 3, stm_bind at 1 2 3, modify at 1 2, lift.
    destruct (ErtmEngine_new _) as [e|x|] eqn:Hnew; [|exact Hn..].
    pose proof (negotiated_engine_ok sp p e Hsp Hr Hw Hm Hmps Hnew) as Hok.
    pose proof (engine_advances cid _ e (proj1 Hn) Hok Hmode) as Hen.
    eapply advances_trans; [exact Hn|]. eapply advances_trans; [exact Hen|].
    unfold mbind at 1, stm_bind at 1, modify at 1, mret at 1, stm_ret at 1.
    apply verdict_advances; [apply Hen|]. left. by eexists.
Qed.

Lemma channel_good_configured flags options : Forall option_wf options ->
  channel_good (channel_configured flags options).
Proof.
  intros Hwf cid c Hc. unfold channel_configured.
  set (s := scan_options options (mkScan CONFIGURATION_SUCCESS [] c None None)).
  assert (scan_ok cid c s) as Hs by (apply scan_options_ok; [by constructor|done]).
  unfold mbind, stm_bind, get, put. fold s.
  pose proof (conclude_good cid c s Hs) as [Hok Hle].
  destruct (_ && _); [|cbn; split; apply Hs].
  destruct (conclude_configuration s _) as [[[r os]|x|] c']; cbn in *; (split; [done|]); (etrans; [apply Hs|done]).
Qed.

Lemma good_maybe_open cid : good (maybe_open cid).
Proof.
  apply good_get. intros self Hs. destruct (channels self !! cid) as [c|] eqn:Hc; [|by apply good_skip].
  destruct (_ && _) eqn:Hcond; [|by apply good_skip]. apply andb_prop in Hcond as [[Hp Hr]%andb_prop Hst].
  apply bool_decide_eq_true in Hst.
  pose proof (ok_channels _ Hs cid c Hc) as Hco. destruct Hco as [H1 H2 H3 H4 H5 H6 H7 H8 H9 H10].
  assert (channel_ok cid (set_state Open c)) as Hopen by (by constructor).
  assert (channel_le c (set_state Open c)) as Hle by (constructor; try done; cbn; by rewrite Hst).
  apply good_at_bind; [by apply (replace_channel self cid c)|]. intros [] self' Hrun Hs'. injection Hrun as <-.
  destruct (incoming c && negb (open_announced c)) eqn:Hin; [|by apply good_skip].
  apply andb_prop in Hin as [Hin Hann].
  set (c2 := set_open_announced true (set_state Open c)).
  assert (channel_ok cid c2) as Hok2 by (by constructor).
  destruct (replace_channel _ cid (set_state Open c) c2 Hs') as [Hs2 Hle2]; [apply lookup_insert_eq|done|by constructor|].
  apply good_at_bind; [done|]. intros [] self'' Hrun _. injection Hrun as <-.
  split; [|by intros k d Hd; exists d]. destruct Hs2 as [K1 K2 K3 K4]. constructor; try done. cbn in *.
  intros k [Hk|Hk%list_elem_of_singleton]%elem_of_app; [by apply K4|]. subst k. exists c2. by rewrite lookup_insert_eq.
Qed.

Lemma good_queue_configure cid : good (queue_configure_request cid).
Proof.
  apply good_get. intros self Hs. apply good_bind; [apply good_lift| |done]. intros c. eauto 10 with mgr_db.
Qed.

Lemma good_flush cid : good (flush_ertm cid).
Proof.
  unfold flush_ertm. apply good_bind; [auto with mgr_db|]. intros [[d f] frames]. eauto 10 with mgr_db.
Qed.

#[export] Hint Resolve good_maybe_open good_queue_configure good_flush channel_good_configured : mgr_db.

Lemma new_outgoing_ok p cid s : 0x40 <= cid <= 0xffff -> spec_ok s -> channel_ok cid (ClassicChannel_outgoing p cid s).
Proof. intros. by constructor. Qed.

Lemma new_incoming_ok p cid d s : 0x40 <= cid <= 0xffff -> spec_ok s -> channel_ok cid (ClassicChannel_incoming p cid d s).
Proof. intros. by constructor. Qed.

Lemma good_connect_with_spec p s : spec_ok s -> good (connect_with_spec p s).
Proof.
  intros Hsp self Hs. apply good_at_bind.
  { unfold allocate_cid. apply good_get; [|done]. intros; by apply good_lift. }
  intros cid self1 Hrun Hs1. apply allocate_cid_spec in Hrun as (-> & Hr & Hn & _).
  apply good_at_bind; [by apply good_next_identifier|]. intros id self2 Hrun Hs2.
  assert (channels self2 = channels self) as Hch by (unfold next_identifier in Hrun; by injection Hrun as _ <-).
  apply good_at_bind; [apply good_put_new; [done|by rewrite Hch|by apply new_outgoing_ok]|].
  intros [] self3 _ Hs3. by apply good_bind; auto with mgr_db.
Qed.

Lemma good_on_connection_request id p r : good (on_connection_request id p r).
Proof.
  apply good_get. intros self Hs. destruct (servers self !! p) as [s|] eqn:Hsrv; [|by apply good_queue_control].
  destruct (allocate_cid self) as [[cid|x|] self1] eqn:Hal; try by apply good_queue_control.
  apply allocate_cid_spec in Hal as (_ & Hr & Hn & _). destruct (ok_servers _ Hs p s Hsrv) as [Hsp _].
  apply good_at_bind; [apply good_put_new; [done|done|by apply new_incoming_ok]|].
  intros [] self2 _ Hs2. apply good_bind; auto with mgr_db.
Qed.

#[export] Hint Resolve good_on_connection_request good_connect_with_spec : mgr_db.

Lemma good_on_connection_response d c r : good (on_connection_response d c r).
Proof. unfold on_connection_response. apply good_bind; [auto with mgr_db|]. intros []; auto with mgr_db. Qed.

(** Options decoded from bytes are well formed. *)
Lemma decoded_options_wf data options : bytes data -> decode_configuration_options data = Ok options ->
  Forall option_wf options.
Proof. intros Hb Hd. by eapply decode_loop_inv in Hd as [Hw _]. Qed.

Lemma good_on_configure_request id cid flags data : bytes data -> good (on_configure_request id cid flags data).
Proof.
  intros Hb self Hs. unfold on_configure_request. apply good_at_bind; [by apply good_lift|].
  intros options self' Hrun Hs'. unfold lift in Hrun. injection Hrun as Hdec <-.
  apply (decoded_options_wf _ _ Hb) in Hdec.
  apply good_bind; [auto with mgr_db| |done]. intros [[remote result] response]. eauto 10 with mgr_db.
Qed.

Lemma channel_good_response_received : channel_good (modify (set_configuration_response_received true)).
Proof.
  apply channel_good_modify. intros cid c [H1 H2 H3 H4 H5 H6 H7 H8 H9 H10]. split; constructor; try done.
  cbn. intros Ho. split; [by apply H7|done].
Qed.

Lemma good_on_configure_response cid r : good (on_configure_response cid r).
Proof.
  unfold on_configure_response. apply good_bind; [|auto with mgr_db]. apply good_on_channel.
  destruct (r =? _); [apply channel_good_response_received | auto with mgr_db].
Qed.

Lemma good_disconnection_request id l r : good (on_disconnection_request id l r).
Proof. unfold on_disconnection_request. apply good_bind; auto with mgr_db. Qed.

Lemma good_disconnection_response d c : good (on_disconnection_response d c).
Proof. unfold on_disconnection_response. auto with mgr_db. Qed.

#[export] Hint Resolve good_on_connection_response good_on_configure_request good_on_configure_response
  good_disconnection_request good_disconnection_response : mgr_db.

Lemma good_process_control f : match f with ConfigureRequest _ _ _ o => bytes o | _ => True end ->
  good (process_control f).
Proof.
  intros Hf. destruct f; cbn [process_control]; auto with mgr_db.
  intros self [H1 H2 H3 H4]. split; [by constructor | by intros k c Hc; exists c].
Qed.

(** The options of a decoded configuration request are bytes. *)
Lemma decoded_request_bytes `{Profile} data id d f o : bytes data ->
  ControlFrame_from_bytes data = Ok (ConfigureRequest id d f o) -> bytes o.
Proof.
  intros Hb. destruct data as [|code [|i [|l0 [|l1 body]]]]; try done.
  unfold bytes in Hb. rewrite !Forall_cons_iff in Hb. destruct Hb as (_ & _ & H0 & H1 & Hbody).
  rewrite from_bytes_split by done. set (payload := take _ body). assert (bytes payload) as Hp by (by apply bytes_take).
  clearbody payload. unfold ControlFrame_decode, ControlFrame_decode_credit, mbind, res_bind. intros Hd.
  repeat (case_match; simplify_eq; try done).
  match goal with Hs : slice_from payload 4 = Ok _ |- _ =>
    unfold slice_from, slice, expect in Hs; case_match; simplify_eq; unfold get_range in *; case_match; simplify_eq end.
  auto with bytes_db.
Qed.

Lemma channel_good_get {A} (k : ClassicChannel -> channel_op A) :
  (forall cid c, channel_ok cid c -> advances cid c (k c c).2) -> channel_good (get ≫= k).
Proof. exact id. Qed.

Lemma advances_refl cid c : channel_ok cid c -> advances cid c c.
Proof. by split. Qed.

(** The dynamic PSM search gives the least candidate that satisfies the test. *)
Lemma find_dynamic_psm_Some (p : Z -> bool) q : find_dynamic_psm p = Some q ->
  p q = true /\ 0x1001 <= q <= 0xffff /\ Z.odd q = true /\
  forall r, 0x1001 <= r < q -> Z.odd r = true -> p r = false.
Proof.
  unfold find_dynamic_psm. set (n := Z.to_nat _). assert (Z.of_nat n = 30720) as Hn by (apply Z2Nat.id; done). clearbody n.
  unfold mbind, option_bind. destruct (find_from _ 0 n) as [j|] eqn:Hj; [|discriminate]. intros [= <-].
  apply find_from_Some in Hj as (Hr & Hp & Hmin). unfold L2CAP_PSM_DYNAMIC_RANGE_START in *.
  split; [done|]. split; [lia|]. split; [by rewrite Z.odd_add_mul_2|].
  intros r Hr' Ho. assert (r = 4097 + 2 * ((r - 4097) / 2)) as ->.
  { pose proof (Zmod_odd r) as Hm. rewrite Ho in Hm. Z.div_mod_to_equations. lia. }
  apply Hmin. Z.div_mod_to_equations. lia.
Qed.

Lemma find_dynamic_psm_None (p : Z -> bool) q : find_dynamic_psm p = None ->
  0x1001 <= q <= 0xffff -> Z.odd q = true -> p q = false.
Proof.
  unfold find_dynamic_psm. set (n := Z.to_nat _). assert (Z.of_nat n = 30720) as Hn by (apply Z2Nat.id; done). clearbody n.
  unfold mbind, option_bind. destruct (find_from _ 0 n) as [j|] eqn:Hj; [discriminate|]. intros _ Hq Ho.
  assert (q = 4097 + 2 * ((q - 4097) / 2)) as Heq.
  { pose proof (Zmod_odd q) as Hm. rewrite Ho in Hm. Z.div_mod_to_equations. lia. }
  pose proof (find_from_None _ _ _ Hj ((q - 4097) / 2)) as Hf.
  unfold L2CAP_PSM_DYNAMIC_RANGE_START in Hf. rewrite Heq. apply Hf. Z.div_mod_to_equations. lia.
Qed.

Section data.
Context `{Profile}.

Lemma channel_good_receive cid payload : channel_good (channel_receive cid payload).
Proof.
  apply channel_good_get. intros k c Hc. destruct (negb _); [by apply advances_refl|]. destruct (ertm c) eqn:He.
  - apply (channel_good_bind (lift _)); [auto with mgr_db| |done]. intros p. apply channel_good_bind; [|auto with mgr_db].
    apply channel_good_on_ertm. intros e0 Hok. by apply call_ok_receive.
  - destruct (_ <? _); [by apply advances_refl|]. destruct Hc. split; by constructor.
Qed.

Lemma channel_good_send sdu : channel_good (channel_send sdu).
Proof.
  apply channel_good_get. intros k c Hc. destruct (negb _); [by apply advances_refl|]. destruct (ertm c) eqn:He.
  - apply channel_good_bind; [|auto with mgr_db|done]. apply channel_good_on_ertm. intros e0 Hok. by apply call_ok_send.
  - destruct (_ <? _); by apply advances_refl.
Qed.

Lemma good_process_pdu pdu : bytes pdu.(pdu_payload) -> good (process_pdu pdu).
Proof.
  intros Hb. unfold process_pdu. destruct (_ =? _).
  - intros self Hs. apply good_at_bind; [by apply good_lift|]. intros f self' Hrun Hs'. injection Hrun as Hdec <-.
    apply good_process_control; [|done]. destruct f; try done. by eapply decoded_request_bytes.
  - apply good_bind; [apply good_on_channel, channel_good_receive|]. intros []; auto with mgr_db.
Qed.

Lemma good_process_bytes data : bytes data -> good (process_bytes data).
Proof.
  intros Hb self Hs. unfold process_bytes. apply good_at_bind; [by apply good_lift|]. intros pdu self' Hrun Hs'.
  injection Hrun as Hdec <-. apply good_process_pdu; [|done]. unfold L2capPdu_from_bytes in Hdec.
  unfold mbind, res_bind in Hdec. repeat (case_match; simplify_eq; try done). cbn.
  match goal with Hsl : slice data _ _ = Ok _ |- _ =>
    unfold slice, expect in Hsl; case_match; simplify_eq; unfold get_range in *; case_match; simplify_eq end.
  auto with bytes_db.
Qed.

Lemma good_send cid sdu : good (ChannelManager_send cid sdu).
Proof.
  unfold ChannelManager_send. apply good_bind; [apply good_on_channel, channel_good_send|]. intros []; auto with mgr_db.
Qed.

Lemma good_tick t : good (ChannelManager_tick t).
Proof.
  apply good_get. intros self Hs. apply good_for_each; [|done]. intros cid. apply good_bind; [|auto with mgr_db].
  apply good_on_channel, channel_good_on_ertm. intros e He. by apply (sim_call_ok (tick t)), He; apply sim_tick.
Qed.

Lemma good_busy cid b : good (ChannelManager_set_receiver_busy cid b).
Proof.
  apply good_bind; [|auto with mgr_db]. apply good_on_channel, channel_good_on_ertm. intros e He. by apply call_ok_set_busy.
Qed.

Lemma good_disconnect cid : good (disconnect cid).
Proof.
  unfold disconnect. apply good_bind; [|eauto 10 with mgr_db]. apply good_on_channel, channel_good_get. intros k c Hc.
  destruct (bool_decide (state c = Open)) eqn:Ho; [|by apply advances_refl]. apply bool_decide_eq_true in Ho.
  destruct Hc as [H1 H2 H3 H4 H5 H6 H7 H8 H9 H10]. split; constructor; try done. cbn. by rewrite Ho.
Qed.

Lemma good_register p s : spec_ok s -> good (register_server_with_spec p s).
Proof.
  intros Hsp. apply good_get. intros self Hs. apply good_at_bind.
  { destruct p; [apply (good_bind (lift _)); auto with mgr_db | by apply good_lift]. }
  intros q self' Hrun Hs'. destruct (bool_decide _) eqn:Hd; [by apply good_throw|].
  assert (self' = self /\ validate_psm q = Ok tt) as [-> Hv].
  { destruct p as [p|].
    - unfold mbind, stm_bind, lift, mret, stm_ret in Hrun. destruct (validate_psm p) as [[]| |] eqn:Hv; simplify_eq. done.
    - unfold lift in Hrun. destruct (find_dynamic_psm _) as [k|] eqn:Hf; [|discriminate]. injection Hrun as <- <-.
      split; [done|]. apply find_dynamic_psm_Some in Hf as (Hk & _). apply andb_prop in Hk as [Hk _].
      by destruct (validate_psm k) as [[]| |]. }
  apply good_at_bind; [|intros; by apply good_ret]. destruct Hs as [H1 H2 H3 H4].
  split; [|by intros k c Hc; exists c]. constructor; try done. cbn. intros k sp.
  rewrite lookup_insert_Some. intros [[<- <-]|[_ Hk]]; [done|by apply H2].
Qed.
End data.

(** ** The manager's interface *)

Inductive mgr_call : Type :=
| CallRequestInformation (info_type : Z)
| CallRegister (psm : option Z) (spec : ClassicChannelSpec)
| CallRegisterErtm (psm : option Z) (spec : ErtmChannelSpec)
| CallUnregister (psm : Z)
| CallConnect (psm : Z) (spec : ClassicChannelSpec)
| CallConnectErtm (psm : Z) (spec : ErtmChannelSpec)
| CallTick (ticks : Z)
| CallReceiverBusy (cid : Z) (busy : bool)
| CallProcess (data : list Z)
| CallSend (cid : Z) (sdu : list Z)
| CallDisconnect (cid : Z)
| CallPollAccepted
| CallPollOutbound
| CallDrainOutbound
| CallPollInformation
| CallDrainInformation
| CallPopReceived (cid : Z).

(** The machine ranges of the arguments. *)
Definition ertm_spec_in_range (s : ErtmChannelSpec) : Prop :=
  u16 s.(ertm_mtu) /\ u16 s.(ertm_mps) /\ u8 s.(ertm_tx_window_size) /\ u8 s.(ertm_max_retransmissions) /\
  u16 s.(ertm_retransmission_timeout_ms) /\ u16 s.(ertm_monitor_timeout_ms).

Definition call_in_range (c : mgr_call) : Prop :=
  match c with
  | CallRegister _ s | CallConnect _ s => u16 s.(spec_mtu)
  | CallRegisterErtm _ s | CallConnectErtm _ s => ertm_spec_in_range s
  | CallProcess data => bytes data
  | _ => True
  end.

#[global] Instance call_in_range_dec c : Decision (call_in_range c).
Proof. destruct c; cbn; unfold ertm_spec_in_range; apply _. Defined.

Section interface.
Context `{Profile}.

(** The manager after a call, whatever the call returns. *)
Definition run_mgr_call (c : mgr_call) (self : ChannelManager) : ChannelManager :=
  match c with
  | CallRequestInformation t => (request_information t self).2
  | CallRegister p s => (register_server p s self).2
  | CallRegisterErtm p s => (register_ertm_server p s self).2
  | CallUnregister p => (unregister_server p self).2
  | CallConnect p s => (connect p s self).2
  | CallConnectErtm p s => (connect_ertm p s self).2
  | CallTick t => (ChannelManager_tick t self).2
  | CallReceiverBusy cid b => (ChannelManager_set_receiver_busy cid b self).2
  | CallProcess data => (process_bytes data self).2
  | CallSend cid sdu => (ChannelManager_send cid sdu self).2
  | CallDisconnect cid => (disconnect cid self).2
  | CallPollAccepted => (poll_accepted_channel self).2
  | CallPollOutbound => (ChannelManager_poll_outbound self).2
  | CallDrainOutbound => (ChannelManager_drain_outbound self).2
  | CallPollInformation => (poll_information_response self).2
  | CallDrainInformation => (drain_information_responses self).2
  | CallPopReceived cid =>
      (on_channel cid (Ok None) (fun c => let '(r, c') := ClassicChannel_pop_received c in (Ok r, c')) self).2
  end.

Lemma basic_spec_ok s : u16 s.(spec_mtu) -> validate_spec s = Ok tt -> spec_ok (BasicSpec s).
Proof. unfold validate_spec, L2CAP_MIN_BR_EDR_MTU. intros ? Hv. case_match; [done|]. bool_to_prop. cbn. lia. Qed.

Lemma ertm_spec_ok s : ertm_spec_in_range s -> validate_ertm_spec s = Ok tt -> spec_ok (ErtmSpecOf s).
Proof.
  unfold validate_ertm_spec, validate_spec, L2CAP_MIN_BR_EDR_MTU, mbind, res_bind. cbn [spec_mtu].
  intros (?&?&?&?&?&?) Hv. repeat (case_match; try done). bool_to_prop. cbn. lia.
Qed.

(** A method guarded by a check whose success gives [P]. *)
Lemma good_guarded {A} (P : Prop) (check : res L2capError unit) (m : manager A) :
  (check = Ok tt -> P) -> (P -> good m) -> good (lift check;; m).
Proof.
  intros Hc Hm self Hs. apply good_at_bind; [by apply good_lift|]. intros [] self' Hrun Hs'. injection Hrun as Hrun <-.
  apply Hm; auto.
Qed.

Lemma mgr_call_good c self : call_in_range c -> mgr_ok self ->
  mgr_ok (run_mgr_call c self) /\ mgr_le self (run_mgr_call c self).
Proof.
  intros Hr Hs. pose proof Hs as [H1 H2 H3 H4]. destruct c; cbn [run_mgr_call call_in_range] in *.
  - by apply (good_bind next_identifier); eauto 10 with mgr_db.
  - by apply (good_guarded (spec_ok (BasicSpec spec))); [apply basic_spec_ok|apply good_register|].
  - by apply (good_guarded (spec_ok (ErtmSpecOf spec))); [apply ertm_spec_ok|apply good_register|].
  - split; [|by intros k c Hc; exists c]. constructor; try done.
    intros p s Hp. change (delete psm (servers self) !! p = Some s) in Hp. apply lookup_delete_Some in Hp as [_ Hp]. by apply H2.
  - apply (good_bind (lift _)); [auto with mgr_db| |done]. intros _.
    by apply (good_guarded (spec_ok (BasicSpec spec))); [apply basic_spec_ok|apply good_connect_with_spec].
  - apply (good_bind (lift _)); [auto with mgr_db| |done]. intros _.
    by apply (good_guarded (spec_ok (ErtmSpecOf spec))); [apply ertm_spec_ok|apply good_connect_with_spec].
  - by apply good_tick.
  - by apply good_busy.
  - by apply good_process_bytes.
  - by apply good_send.
  - by apply good_disconnect.
  - unfold poll_accepted_channel. destruct (accepted_channels self) as [|cid rest] eqn:Ha; [done|].
    split; [|by intros k c Hc; exists c]. constructor; try done. cbn. intros k Hk. apply H4.
    by apply list_elem_of_further.
  - unfold ChannelManager_poll_outbound. destruct (mgr_outbound self); [done|].
    split; [by constructor|by intros k c Hc; exists c].
  - split; [by constructor|by intros k c Hc; exists c].
  - unfold poll_information_response. destruct (information_responses self); [done|].
    split; [by constructor|by intros k c Hc; exists c].
  - split; [by constructor|by intros k c Hc; exists c].
  - apply good_on_channel; [|done]. intros k c Hc. unfold ClassicChannel_pop_received.
    destruct (ch_received c); [by split|]. destruct Hc. split; by constructor.
Qed.

Definition run_mgr_calls (cs : list mgr_call) (self : ChannelManager) : ChannelManager :=
  fold_left (fun self c => run_mgr_call c self) cs self.

Lemma mgr_calls_good cs : forall self, Forall call_in_range cs -> mgr_ok self ->
  mgr_ok (run_mgr_calls cs self) /\ mgr_le self (run_mgr_calls cs self).
Proof.
  induction cs as [|c cs IH]; intros self Hr Hs; [by split|]. apply Forall_cons_iff in Hr as [Hc Hr].
  destruct (mgr_call_good c self Hc Hs) as [Hok Hle]. destruct (IH _ Hr Hok) as [Hok' Hle'].
  split; [done|]. cbn [run_mgr_calls fold_left]. etrans; [exact Hle | exact Hle'].
Qed.

Lemma new_manager_ok info : mgr_ok (with_information_capabilities info).
Proof. constructor; cbn; try done. by intros cid ?%not_elem_of_nil. Qed.

(** C28. The manager's invariant: from a new manager, after any sequence of
    calls with any results, every channel sits at its own CID of the dynamic
    range with the MTU and mode of its specification, an open channel has been
    configured by both sides, an ERTM channel configured by its peer has an
    engine whose own invariant holds, and every server's PSM is valid. *)
Theorem manager_invariant info calls : Forall call_in_range calls ->
  mgr_ok (run_mgr_calls calls (with_information_capabilities info)).
Proof. intros Hr. apply mgr_calls_good; [done|apply new_manager_ok]. Qed.

(** C31. A channel never disappears, keeps its identity, and its state only moves
    along connecting, configuring, open, disconnecting, closed; in particular a
    closed channel stays closed for ever, and so its CID is never given out
    again. *)
Theorem channel_life_cycle info before after cid c : Forall call_in_range (before ++ after) ->
  let m := run_mgr_calls before (with_information_capabilities info) in
  m.(channels) !! cid = Some c ->
  exists c', (run_mgr_calls after m).(channels) !! cid = Some c' /\ channel_le c c' /\
    (c.(state) = Closed -> c'.(state) = Closed) /\
    forall cid' self', allocate_cid (run_mgr_calls after m) = (Ok cid', self') -> cid' <> cid.
Proof.
  rewrite Forall_app. intros [Hb Ha] m Hc.
  destruct (mgr_calls_good before _ Hb (new_manager_ok info)) as [Hok _].
  destruct (mgr_calls_good after _ Ha Hok) as [_ Hle]. destruct (Hle cid c Hc) as (c' & Hc' & Hcc).
  exists c'. split; [done|]. split; [done|]. split.
  - intros Hs. pose proof (le_state _ _ Hcc) as Hr. rewrite Hs in Hr. by destruct (state c').
  - intros cid' self' (_ & _ & Hn & _)%allocate_cid_spec ->. unfold m in Hn. congruence.
Qed.
End interface.

Lemma manager_invariant_witness :
  mgr_ok (run_mgr_calls (H:=true)
    [CallRegister None (mkClassicSpec 100); CallConnect 0x11 (mkClassicSpec 672); CallProcess [12; 0; 1; 0; 2; 9; 4; 0; 1; 0x10; 0x41; 0]]
    (with_information_capabilities InformationCapabilities_default)).
Proof. apply (manager_invariant (H:=true)). by_compute. Defined.

Lemma channel_life_cycle_witness :
  exists c', (run_mgr_calls (H:=true) [CallProcess [12; 0; 1; 0; 3; 1; 8; 0; 0; 0; 0x40; 0; 2; 0; 0; 0]]
      (run_mgr_calls (H:=true) [CallConnect 0x11 (mkClassicSpec 672)]
        (with_information_capabilities InformationCapabilities_default))).(channels) !! 0x40 = Some c'
    /\ channel_le (ClassicChannel_outgoing 0x11 0x40 (BasicSpec (mkClassicSpec 672))) c'.
Proof.
  destruct (channel_life_cycle (H:=true) InformationCapabilities_default [CallConnect 0x11 (mkClassicSpec 672)]
    [CallProcess [12; 0; 1; 0; 3; 1; 8; 0; 0; 0; 0x40; 0; 2; 0; 0; 0]] 0x40
    (ClassicChannel_outgoing 0x11 0x40 (BasicSpec (mkClassicSpec 672)))) as (c' & Hc & Hle & _).
  - by_compute.
  - vm_compute. reflexivity.
  - by exists c'.
Defined.

(** ** Connection establishment *)

(** Everything [a] has queued is delivered to [b], in order. *)
Definition exchange `{Profile} (a b : ChannelManager) : res L2capError unit * ChannelManager * ChannelManager :=
  let '(pdus, a') := ChannelManager_drain_outbound a in
  let '(r, b') := for_each process_pdu pdus b in
  (r, a', b').

Definition next_id (id : Z) : Z := let i := wrapping_add 8 id 1 in if i =? 0 then 1 else i.

Definition control_pdu (f : ControlFrame) : L2capPdu := mkPdu L2CAP_SIGNALING_CID (ControlFrame_to_bytes f).

(** The options of a basic-mode configuration request. *)
Definition mtu_options (mtu : Z) : list Z := [1; 2; mtu mod 256; mtu / 256 mod 256].

Lemma configure_options_basic s : encode_configuration_options (configure_options (BasicSpec s)) = Ok (mtu_options s.(spec_mtu)).
Proof. reflexivity. Qed.

Lemma mtu_options_decode mtu : u16 mtu ->
  decode_configuration_options (mtu_options mtu) = Ok [mkOption 1 false [mtu mod 256; mtu / 256 mod 256]].
Proof.
  intros Hm. assert (u8 (mtu mod 256)) by (apply Z.mod_pos_bound; lia).
  assert (u8 (mtu / 256 mod 256)) by (apply Z.mod_pos_bound; lia).
  apply (decode_loop_encode (length (mtu_options mtu))); [done| |done].
  constructor; [|constructor]. split; [cbn; lia|]. split; [by repeat constructor; lia|done].
Qed.

Section handshake.
Context `{Profile}.

Lemma process_control_pdu f m : ControlFrame_fields_ok f -> len (ControlFrame_payload f) <= 65535 ->
  process_pdu (control_pdu f) m = process_control f m.
Proof.
  intros Hf Hl. unfold process_pdu, control_pdu. cbn [pdu_cid pdu_payload]. rewrite Z.eqb_refl.
  unfold mbind, stm_bind, lift. by rewrite control_wire.
Qed.

Lemma connect_runs p sa cid sv ch ac info ir id : validate_psm p = Ok tt -> validate_spec sa = Ok tt ->
  allocate_cid (mkManager sv ch ac [] info ir id) = (Ok cid, mkManager sv ch ac [] info ir id) ->
  connect p sa (mkManager sv ch ac [] info ir id) =
    (Ok cid, mkManager sv (<[cid := ClassicChannel_outgoing p cid (BasicSpec sa)]> ch) ac
               [control_pdu (ConnectionRequest (next_id id) p cid)] info ir (next_id id)).
Proof.
  intros Hp Hs Ha. unfold connect, connect_with_spec, mbind, stm_bind, lift. rewrite Hp, Hs, Ha. reflexivity.
Qed.

(** The passive side answers and starts its own configuration. *)
Lemma accept_runs id p r s cid sv ch ac info ir n : sv !! p = Some (BasicSpec s) ->
  allocate_cid (mkManager sv ch ac [] info ir n) = (Ok cid, mkManager sv ch ac [] info ir n) ->
  process_control (ConnectionRequest id p r) (mkManager sv ch ac [] info ir n) =
    (Ok tt, mkManager sv (<[cid := ClassicChannel_incoming p cid r (BasicSpec s)]> ch) ac
              [control_pdu (ConnectionResponse id cid r 0 0);
               control_pdu (ConfigureRequest (next_id n) r 0 (mtu_options s.(spec_mtu)))] info ir (next_id n)).
Proof.
  intros Hs Ha. cbn [process_control]. unfold on_connection_request, queue_configure_request. run. cbn [servers].
  rewrite Hs, Ha. cbn. rewrite lookup_insert_eq. reflexivity.
Qed.

Lemma queue_configure_runs cid c s sv ch ac out info ir n : ch !! cid = Some c -> c.(spec) = BasicSpec s ->
  queue_configure_request cid (mkManager sv ch ac out info ir n) =
    (Ok tt, mkManager sv ch ac
              (out ++ [control_pdu (ConfigureRequest (next_id n) c.(destination_cid) 0 (mtu_options s.(spec_mtu)))])
              info ir (next_id n)).
Proof. intros Hc Hs. unfold queue_configure_request. run. cbn [channels]. rewrite Hc, Hs. reflexivity. Qed.

(** The active side learns of the acceptance and configures. *)
Lemma answered_runs id d cid c sv ch ac out info ir n s : ch !! cid = Some c -> c.(state) = WaitConnectResponse ->
  c.(spec) = BasicSpec s ->
  process_control (ConnectionResponse id d cid 0 0) (mkManager sv ch ac out info ir n) =
    (Ok tt, mkManager sv (<[cid := set_state Configuring (set_destination_cid d (set_connection_result (Some 0) c))]> ch) ac
              (out ++ [control_pdu (ConfigureRequest (next_id n) d 0 (mtu_options s.(spec_mtu)))]) info ir (next_id n)).
Proof.
  intros Hc Hst Hsp. cbn [process_control].
  set (c1 := set_state Configuring (set_destination_cid d (set_connection_result (Some 0) c))).
  assert (connection_answered d 0 c = (Ok true, c1)) as Hans by (unfold connection_answered; run; by rewrite Hst).
  unfold on_connection_response, on_channel, mbind, stm_bind. cbn [channels]. rewrite Hc, Hans.
  by apply (queue_configure_runs cid c1 s); [apply lookup_insert_eq|].
Qed.

(** Whether a channel configured by both sides opens. *)
Definition opened (cid : Z) (c : ClassicChannel) (ac : list Z) : ClassicChannel * list Z :=
  if c.(peer_configuration_received) && c.(configuration_response_received) && bool_decide (c.(state) = Configuring)
  then if c.(incoming) && negb c.(open_announced)
       then (set_open_announced true (set_state Open c), ac ++ [cid])
       else (set_state Open c, ac)
  else (c, ac).

Lemma maybe_open_runs cid c sv ch ac out info ir n : ch !! cid = Some c ->
  maybe_open cid (mkManager sv ch ac out info ir n) =
    (Ok tt, mkManager sv (<[cid := (opened cid c ac).1]> ch) (opened cid c ac).2 out info ir n).
Proof.
  intros Hc. unfold maybe_open, put_channel, opened. run. cbn [channels]. rewrite Hc.
  destruct (_ && _ && _); [|by cbn; rewrite insert_id].
  destruct (_ && _); [|done]. cbn. by rewrite insert_insert_eq.
Qed.

Lemma channel_configured_basic c mtu s : c.(spec) = BasicSpec s -> 48 <= mtu <= 65535 ->
  channel_configured 0 [mkOption 1 false [mtu mod 256; mtu / 256 mod 256]] c =
    (Ok (c.(destination_cid), 0, [mkOption 1 false [mtu mod 256; mtu / 256 mod 256]]),
     set_peer_configuration_received true (set_ch_peer_mtu mtu c)).
Proof.
  intros Hsp Hm. unfold channel_configured.
  assert (scan_options [mkOption 1 false [mtu mod 256; mtu / 256 mod 256]] (mkScan CONFIGURATION_SUCCESS [] c None None) =
    mkScan 0 [mkOption 1 false [mtu mod 256; mtu / 256 mod 256]] (set_ch_peer_mtu mtu c) None None) as Hscan.
  { unfold scan_options, scan_option. cbn [option_type option_value].
    change (1 =? CONFIGURATION_OPTION_MTU) with true. cbn match. rewrite u16_le_roundtrip by lia.
    unfold L2CAP_MIN_BR_EDR_MTU. by rewrite (proj2 (Z.ltb_ge _ _)) by lia. }
  unfold mbind, stm_bind, get, put. rewrite Hscan. cbn [scan_result scan_channel].
  change ((0 =? CONFIGURATION_SUCCESS) && (Z.land 0 1 =? 0)) with true. cbn match.
  unfold conclude_configuration. run. cbn [spec set_ch_peer_mtu]. by rewrite Hsp.
Qed.

(** A basic-mode configuration request is accepted. *)
Lemma configure_runs id cid c mtu s sv ch ac out info ir n : ch !! cid = Some c -> c.(spec) = BasicSpec s ->
  48 <= mtu <= 65535 ->
  let c1 := set_peer_configuration_received true (set_ch_peer_mtu mtu c) in
  process_control (ConfigureRequest id cid 0 (mtu_options mtu)) (mkManager sv ch ac out info ir n) =
    (Ok tt, mkManager sv (<[cid := (opened cid c1 ac).1]> ch) (opened cid c1 ac).2
              (out ++ [control_pdu (ConfigureResponse id c.(destination_cid) 0 0 (mtu_options mtu))]) info ir n).
Proof.
  intros Hc Hsp Hm c1. cbn [process_control].
  pose proof (channel_configured_basic c mtu s Hsp Hm) as Hcfg. fold c1 in Hcfg.
  unfold on_configure_request, on_channel, mbind, stm_bind, lift. rewrite mtu_options_decode by lia.
  cbn [channels]. rewrite Hc, Hcfg.
  etrans; [apply (maybe_open_runs cid c1 sv (<[cid := c1]> ch) ac
    (out ++ [control_pdu (ConfigureResponse id c.(destination_cid) 0 0 (mtu_options mtu))]) info ir n), lookup_insert_eq|].
  by rewrite insert_insert_eq.
Qed.

Lemma configured_runs id cid c sv ch ac out info ir n flags opts : ch !! cid = Some c ->
  let c1 := set_configuration_response_received true c in
  process_control (ConfigureResponse id cid flags 0 opts) (mkManager sv ch ac out info ir n) =
    (Ok tt, mkManager sv (<[cid := (opened cid c1 ac).1]> ch) (opened cid c1 ac).2 out info ir n).
Proof.
  intros Hc c1. cbn [process_control]. unfold on_configure_response, on_channel. run. cbn [channels]. rewrite Hc.
  etrans; [apply (maybe_open_runs cid c1 sv (<[cid := c1]> ch) ac out info ir n), lookup_insert_eq|].
  by rewrite insert_insert_eq.
Qed.

Lemma exchange_runs sv ch ac pdus info ir n b r b' : for_each process_pdu pdus b = (r, b') ->
  exchange (mkManager sv ch ac pdus info ir n) b = (r, mkManager sv ch ac [] info ir n, b').
Proof. intros Hr. unfold exchange. cbn. by rewrite Hr. Qed.

Lemma deliver_one f b b' : ControlFrame_fields_ok f -> len (ControlFrame_payload f) <= 65535 ->
  process_control f b = (Ok tt, b') -> for_each process_pdu [control_pdu f] b = (Ok tt, b').
Proof. intros Hf Hl Hr. cbn [for_each]. unfold mbind, stm_bind. by rewrite process_control_pdu, Hr. Qed.

Lemma deliver_two f g b b' b'' : ControlFrame_fields_ok f -> len (ControlFrame_payload f) <= 65535 ->
  ControlFrame_fields_ok g -> len (ControlFrame_payload g) <= 65535 ->
  process_control f b = (Ok tt, b') -> process_control g b' = (Ok tt, b'') ->
  for_each process_pdu [control_pdu f; control_pdu g] b = (Ok tt, b'').
Proof.
  intros Hf Hl Hg Hlg Hr Hr'. cbn [for_each]. unfold mbind, stm_bind.
  by rewrite process_control_pdu, Hr, process_control_pdu, Hr'.
Qed.

(** Connect, then deliver everything back and forth four times. *)
Definition establish (p : Z) (sa : ClassicChannelSpec) (a b : ChannelManager)
    : list (res L2capError unit) * ChannelManager * ChannelManager :=
  let a0 := (connect p sa a).2 in
  let '(r1, a1, b1) := exchange a0 b in
  let '(r2, b2, a2) := exchange b1 a1 in
  let '(r3, a3, b3) := exchange a2 b2 in
  let '(r4, b4, a4) := exchange b3 a3 in
  ([r1; r2; r3; r4], a4, b4).

(** The channels the handshake leaves behind. *)
Definition open_channel (p cid remote : Z) (incoming : bool) (s : ClassicChannelSpec) (peer_mtu : Z) : ClassicChannel :=
  mkChannel p cid remote s.(spec_mtu) peer_mtu L2CAP_DEFAULT_MPS Basic false Open (Some 0) incoming true true incoming
    (BasicSpec s) None [].
End handshake.

Section handshake_theorem.
Context `{Profile}.

(** C4. Two managers with nothing in flight establish a channel: [connect] on
    one and a basic-mode server on the other, and after four rounds of
    delivery nothing is in flight again, both ends are open, each knows the
    other's CID and MTU, the server's user is told of the channel once, and
    every other channel is as it was. *)
Theorem handshake_opens_channel a b p sa sb cid_a cid_b : mgr_ok a -> mgr_ok b ->
  a.(mgr_outbound) = [] -> b.(mgr_outbound) = [] ->
  0 <= p < 65536 -> validate_psm p = Ok tt -> u16 sa.(spec_mtu) -> validate_spec sa = Ok tt ->
  b.(servers) !! p = Some (BasicSpec sb) ->
  allocate_cid a = (Ok cid_a, a) -> allocate_cid b = (Ok cid_b, b) ->
  exists a' b', establish p sa a b = ([Ok tt; Ok tt; Ok tt; Ok tt], a', b') /\
    a'.(mgr_outbound) = [] /\ b'.(mgr_outbound) = [] /\
    a'.(channels) = <[cid_a := open_channel p cid_a cid_b false sa sb.(spec_mtu)]> a.(channels) /\
    b'.(channels) = <[cid_b := open_channel p cid_b cid_a true sb sa.(spec_mtu)]> b.(channels) /\
    a'.(accepted_channels) = a.(accepted_channels) /\
    b'.(accepted_channels) = b.(accepted_channels) ++ [cid_b].
Proof.
  intros Ha Hb Hao Hbo Hp Hv Hsa Hvs Hsrv Hca Hcb.
  destruct (ok_servers _ Hb p _ Hsrv) as [Hsb _]. cbn in Hsb. pose proof (basic_spec_ok sa Hsa Hvs) as Hsa'. cbn in Hsa'.
  destruct (allocate_cid_spec _ _ _ Hca) as (_ & Hra & _). destruct (allocate_cid_spec _ _ _ Hcb) as (_ & Hrb & _).
  apply validate_psm_iff in Hv as Hodd; [|lia]. destruct Hodd as (_ & Hodd & _).
  destruct a as [sva cha aca outa infa ira ida]. destruct b as [svb chb acb outb infb irb idb].
  cbn [mgr_outbound servers channels accepted_channels] in *. subst outa outb.
  unfold establish. rewrite (connect_runs _ _ cid_a) by done. cbn [snd].
  erewrite exchange_runs; [|eapply deliver_one; [| |by eapply accept_runs]].
  2:{ split; [lia|]. split; [by apply small_psm_extension|lia]. }
  2:{ cbn [ControlFrame_payload]. unfold push_u16. rewrite serialize_psm_cases, (proj2 (Z.ltb_lt _ _)), app_nil_r by lia.
      by rewrite to_le_bytes_2. }
  assert (forall m, len (mtu_options m) = 4) as Hlen by done.
  erewrite exchange_runs; [|eapply deliver_two; [| | | |eapply answered_runs; [apply lookup_insert_eq|done|done]|
    eapply configure_runs; [apply lookup_insert_eq|done|done]]]; [|cbn; lia|done|cbn; lia|done].
  cbn [app]. erewrite exchange_runs; [|eapply deliver_two; [| | | |eapply configure_runs; [apply lookup_insert_eq|done|done]|
    eapply configured_runs; apply lookup_insert_eq]]; [|cbn; lia|done|cbn; lia|done].
  cbn [app]. erewrite exchange_runs; [|eapply deliver_one; [| |eapply configured_runs; apply lookup_insert_eq]]; [|cbn; lia|done].
  do 2 eexists. split; [reflexivity|]. cbn [mgr_outbound channels accepted_channels]. rewrite !insert_insert_eq. done.
Qed.
End handshake_theorem.

(** ** Data transfer, ticking and server registration *)

Section transfer.
Context `{Profile}.

Lemma pdu_wire cid payload : u16 cid -> bytes payload -> len payload <= 65535 ->
  L2capPdu_from_bytes (L2capPdu_to_bytes (mkPdu cid payload) false) = Ok (mkPdu cid payload).
Proof.
  intros Hc Hb Hl. unfold L2capPdu_to_bytes, L2capPdu_from_bytes. cbn [pdu_cid pdu_payload]. pose proof (len_nonneg payload).
  rewrite Z.mod_small, !to_le_bytes_2 by lia. cbn [app]. rewrite (proj2 (Z.ltb_ge _ _)) by len_lia. read_prefix.
  rewrite !u16_le_roundtrip by lia. unfold slice. rewrite get_range_Some by len_lia.
  cbn [expect mbind res_bind drop]. rewrite drop_0, take_ge by len_lia. done.
Qed.

(** One end sends, the other receives. *)
Lemma basic_send a cid_a ca sdu : a.(channels) !! cid_a = Some ca -> ca.(state) = Open -> ca.(ertm) = None ->
  len sdu <= ca.(ch_peer_mtu) ->
  ChannelManager_send cid_a sdu a
  = (Ok tt, set_mgr_outbound (a.(mgr_outbound) ++ [mkPdu ca.(destination_cid) sdu]) a).
Proof.
  intros Hca Hoa Hea Hl.
  assert (set_channels (<[cid_a := ca]> a.(channels)) a = a) as Hself by (rewrite insert_id by done; by destruct a).
  unfold ChannelManager_send, on_channel, channel_send, push_pdu. run. rewrite Hca, Hoa, Hea. cbn -[set_channels].
  rewrite (proj2 (Z.ltb_ge _ _)), bool_decide_eq_true_2 by done. cbn -[set_channels]. by rewrite Hself.
Qed.

Lemma basic_receive b cid_b cb sdu : mgr_ok b -> b.(channels) !! cid_b = Some cb -> cb.(state) = Open ->
  cb.(ertm) = None -> len sdu <= cb.(ch_mtu) ->
  process_pdu (mkPdu cid_b sdu) b
  = (Ok tt, set_channels (<[cid_b := set_ch_received (cb.(ch_received) ++ [sdu]) cb]> b.(channels)) b).
Proof.
  intros Hb Hcb Hob Heb Hl. pose proof (ok_range _ _ (ok_channels _ Hb _ _ Hcb)).
  unfold process_pdu. cbn [pdu_cid pdu_payload].
  rewrite (proj2 (Z.eqb_neq _ _)) by (unfold L2CAP_SIGNALING_CID; lia).
  unfold on_channel, channel_receive. run. rewrite Hcb, Hob, Heb. cbn. by rewrite (proj2 (Z.ltb_ge _ _)) by lia.
Qed.

(** What a receiver's MTU can be. *)
Lemma channel_mtu_range b cid c : mgr_ok b -> b.(channels) !! cid = Some c -> ch_mtu c <= 65535 /\ u16 cid.
Proof.
  intros Hb Hc. pose proof (ok_channels _ Hb _ _ Hc) as Hok. pose proof (ok_range _ _ Hok).
  pose proof (ok_mtu _ _ Hok) as Hmtu. pose proof (ok_spec _ _ Hok) as Hsp.
  rewrite Hmtu. destruct (spec c); cbn in Hsp |- *; lia.
Qed.

(** On a pair of open basic-mode ends that know each other's MTU, an SDU of
    at most the peer's MTU leaves as one PDU, crosses the wire and is queued
    unchanged and last at the other end; a longer one is refused and nothing
    changes. *)
Theorem basic_transfer a b cid_a cid_b ca cb sdu : mgr_ok b -> bytes sdu ->
  a.(channels) !! cid_a = Some ca -> b.(channels) !! cid_b = Some cb ->
  ca.(state) = Open -> cb.(state) = Open -> ca.(ertm) = None -> cb.(ertm) = None ->
  ca.(destination_cid) = cid_b -> ca.(ch_peer_mtu) = cb.(ch_mtu) ->
  (len sdu <= ca.(ch_peer_mtu) ->
   exists pdu, ChannelManager_send cid_a sdu a = (Ok tt, set_mgr_outbound (a.(mgr_outbound) ++ [pdu]) a) /\
     process_bytes (L2capPdu_to_bytes pdu false) b =
       (Ok tt, set_channels (<[cid_b := set_ch_received (cb.(ch_received) ++ [sdu]) cb]> b.(channels)) b)) /\
  (ca.(ch_peer_mtu) < len sdu ->
   exists x, ChannelManager_send cid_a sdu a = (Err x, a)).
Proof.
  intros Hb Hsdu Hca Hcb Hoa Hob Hea Heb Hd Hm. destruct (channel_mtu_range b cid_b cb Hb Hcb) as [Hmtu Hcid].
  split; intros Hl.
  - exists (mkPdu cid_b sdu). split; [by rewrite (basic_send a cid_a ca), Hd|].
    unfold process_bytes. run. rewrite pdu_wire by (lia || done). apply basic_receive; try done. lia.
  - assert (set_channels (<[cid_a := ca]> a.(channels)) a = a) as Hself by (rewrite insert_id by done; by destruct a).
    unfold ChannelManager_send, on_channel, channel_send. run. rewrite Hca, Hoa, Hea. cbn -[set_channels].
    rewrite (proj2 (Z.ltb_lt _ _)), bool_decide_eq_true_2 by done. cbn -[set_channels]. rewrite Hself. by eexists.
Qed.

(** Which channels a method leaves alone. *)
Lemma on_channel_other {A} cid missing (m : channel_op A) self k : k <> cid ->
  (on_channel cid missing m self).2.(channels) !! k = self.(channels) !! k.
Proof.
  intros Hk. unfold on_channel. destruct (channels self !! cid) as [c|]; [|done]. destruct (m c) as [r c']. cbn.
  by rewrite lookup_insert_ne.
Qed.

Lemma push_frames_channels d fcs frames self k :
  ((for_each (fun frame => payload ← lift (if (fcs : bool) then append_fcs d frame else Ok frame);
      push_pdu (mkPdu d payload)) frames) self).2.(channels) !! k = self.(channels) !! k.
Proof.
  revert self. induction frames as [|f frames IH]; intros self; [done|]. cbn [for_each].
  unfold mbind, stm_bind, lift. destruct (if fcs then _ else _) as [p|x|]; try done. cbn. by rewrite IH.
Qed.

Lemma flush_other cid self k : k <> cid -> (flush_ertm cid self).2.(channels) !! k = self.(channels) !! k.
Proof.
  intros Hk. unfold flush_ertm. unfold mbind at 1, stm_bind at 1.
  pose proof (on_channel_other cid (no_channel cid) drain_engine self k Hk) as Ho.
  destruct (on_channel _ _ _ self) as [[[[d f] frames]|x|] self']; cbn in *; try done. by rewrite push_frames_channels.
Qed.

(** The body of [ChannelManager::tick] for one channel. *)
Definition tick_channel (t cid : Z) : manager unit :=
  on_channel cid Panic (on_ertm Panic (tick t));; flush_ertm cid.

Lemma tick_channel_other t cid self k : k <> cid -> (tick_channel t cid self).2.(channels) !! k = self.(channels) !! k.
Proof.
  intros Hk. unfold tick_channel, mbind, stm_bind.
  pose proof (on_channel_other cid Panic (on_ertm Panic (tick t)) self k Hk) as Ho.
  destruct (on_channel _ _ _ self) as [[[]|x|] self']; cbn in *; try done. by rewrite flush_other.
Qed.

Lemma tick_channels_other t cids : forall self k, k ∉ cids ->
  (for_each (tick_channel t) cids self).2.(channels) !! k = self.(channels) !! k.
Proof.
  induction cids as [|cid cids IH]; intros self k Hk; [done|]. apply not_elem_of_cons in Hk as [Hne Hk].
  cbn [for_each]. unfold mbind, stm_bind. pose proof (tick_channel_other t cid self k Hne) as Ho.
  destruct (tick_channel t cid self) as [[[]|x|] self']; cbn in *; try done. by rewrite IH.
Qed.

Lemma for_each_app {S E A} (body : A -> stm S E unit) xs ys s :
  for_each body (xs ++ ys) s =
    match for_each body xs s with (Ok _, s') => for_each body ys s' | (Err x, s') => (Err x, s') | (Panic, s') => (Panic, s') end.
Proof.
  revert s. induction xs as [|x xs IH]; intros s; [done|]. cbn [for_each app]. unfold mbind, stm_bind.
  by destruct (body x s) as [[[]|e|] s'].
Qed.

Lemma sorted_keys_split {V} (m : gmap Z V) k : is_Some (m !! k) ->
  exists before after, sorted_keys m = before ++ k :: after /\ Forall (fun j => j < k) before /\ Forall (fun j => k < j) after.
Proof.
  intros Hk. apply sorted_keys_spec, list_elem_of_split in Hk as (before & after & Hs). exists before, after.
  split; [done|]. pose proof (sorted_keys_sorted m) as Hsort. apply Sorted_StronglySorted in Hsort; [|intros ? ? ?; lia].
  assert (NoDup (sorted_keys m)) as Hnd.
  { unfold sorted_keys. rewrite (merge_sort_Permutation Z.le). apply NoDup_fst_map_to_list. }
  rewrite Hs in Hsort, Hnd. apply NoDup_app in Hnd as (_ & Hd & [Hna _]%NoDup_cons).
  apply StronglySorted_app in Hsort as (Hle & _ & Hsa). apply StronglySorted_inv in Hsa as [_ Hge].
  split; rewrite Forall_forall.
  - intros j Hj. specialize (Hd j Hj). specialize (Hle j k Hj (list_elem_of_here _ _)).
    destruct (decide (j = k)) as [->|]; [|lia]. exfalso. apply Hd. apply list_elem_of_here.
  - intros j Hj. rewrite Forall_forall in Hge. specialize (Hge j Hj). destruct (decide (j = k)) as [->|]; [done|lia].
Qed.

(** A connection response that says the answer is pending is taken as a refusal:
    it closes the channel, and whatever response the peer sends for it
    afterwards, the successful one included, is an error. *)
Theorem pending_answer_closes_channel m cid c d : m.(channels) !! cid = Some c -> c.(state) = WaitConnectResponse ->
  exists m', on_connection_response d cid CONNECTION_PENDING m = (Ok tt, m')
    /\ (state <$> m'.(channels) !! cid) = Some Classic.Closed
    /\ forall d' result, exists x, (on_connection_response d' cid result m').1 = Err x.
Proof.
  intros Hc Hs. unfold on_connection_response, on_channel, connection_answered, mbind, stm_bind, get, modify, mret, stm_ret. rewrite Hc, Hs. cbn.
  eexists. split; [done|]. cbn. rewrite lookup_insert_eq. split; [done|]. intros d' result. by eexists.
Qed.

(** One failed ERTM engine stops the clock of the channels behind it: with a
    failed engine at some CID, a tick of the manager does not succeed and
    leaves every channel with a greater CID untouched, however many are
    waiting to retransmit. *)
Theorem failed_engine_blocks_tick m t cid c e : m.(channels) !! cid = Some c -> c.(ertm) = Some e ->
  e.(failed) = true ->
  (ChannelManager_tick t m).1 <> Ok tt /\
  forall cid', cid < cid' -> (ChannelManager_tick t m).2.(channels) !! cid' = m.(channels) !! cid'.
Proof.
  intros Hc He Hf. change (ChannelManager_tick t m) with (for_each (tick_channel t)
    (filter (fun cid => uses_ertm m cid = true) (sorted_keys m.(channels))) m).
  destruct (sorted_keys_split m.(channels) cid) as (before & after & -> & Hb & Ha); [by eexists|].
  rewrite filter_app, filter_cons_True by (unfold uses_ertm; by rewrite Hc, He, bool_decide_eq_true_2 by eauto).
  set (p := filter _ before). set (q := filter _ after). rewrite for_each_app.
  assert (forall k, cid <= k -> k ∉ p) as Hp.
  { intros k Hk [_ Hin]%list_elem_of_filter. rewrite Forall_forall in Hb. apply Hb in Hin. lia. }
  pose proof (tick_channels_other t p m) as Hother.
  destruct (for_each (tick_channel t) p m) as [[[]|x|] m1]; cbn [fst snd] in *; [|by split; [|intros; apply Hother, Hp; lia]..].
  cbn [for_each]. unfold mbind, stm_bind.
  assert (channels m1 !! cid = Some c) as Hc1 by (rewrite Hother; [done|apply Hp; lia]).
  assert (exists x, tick_channel t cid m1 = (Err x, set_channels (<[cid := set_ertm (Some e) c]> m1.(channels)) m1)) as [x ->].
  { unfold tick_channel, on_channel, on_ertm, tick, ensure_active. run. rewrite Hc1, He, Hf. by eexists. }
  split; [done|]. intros k Hk. cbn. rewrite lookup_insert_ne by lia. apply Hother, Hp. lia.
Qed.

(** Registering a server without a PSM gives the least valid dynamic PSM that
    is free, and adds that server and nothing else. *)
Theorem dynamic_psm_least m s p : validate_spec s = Ok tt ->
  register_server None s m = (Ok p, set_servers (<[p := BasicSpec s]> m.(servers)) m) <->
  0x1001 <= p <= 0xffff /\ validate_psm p = Ok tt /\ m.(servers) !! p = None /\
  forall q, 0x1001 <= q < p -> validate_psm q = Ok tt -> is_Some (m.(servers) !! q).
Proof.
  intros Hs. unfold register_server, register_server_with_spec. run. rewrite Hs.
  set (test := fun candidate => is_ok (validate_psm candidate) && bool_decide (servers m !! candidate = None)).
  assert (forall q, test q = true <-> validate_psm q = Ok tt /\ m.(servers) !! q = None) as Htest.
  { intros q. unfold test. rewrite andb_true_iff, bool_decide_eq_true. destruct (validate_psm q) as [[]| |]; cbn; intuition congruence. }
  split.
  - intros Hr. destruct (find_dynamic_psm test) as [q|] eqn:Hf; [|discriminate].
    apply find_dynamic_psm_Some in Hf as (Hq & Hr1 & Ho & Hmin). cbn in Hr. case_bool_decide; [done|].
    injection Hr as -> . apply Htest in Hq as [Hv Hn]. split; [done|]. split; [done|]. split; [done|]. intros q Hq Hvq.
    destruct (servers m !! q) eqn:Hlook; [by eexists|]. exfalso.
    assert (test q = false) as Hfalse by (apply Hmin; [done|]; apply validate_psm_iff in Hvq as [? _]; [done|lia]).
    assert (test q = true) by (by apply Htest). congruence.
  - intros (Hr & Hv & Hn & Hmin). assert (test p = true) as Hp by (by apply Htest).
    assert (find_dynamic_psm test = Some p) as ->; [|cbn; rewrite bool_decide_eq_false_2; [done|by rewrite Hn; intros [? ?]]].
    destruct (find_dynamic_psm test) as [q|] eqn:Hf.
    + apply find_dynamic_psm_Some in Hf as (Hq & Hrq & Ho & Hminq). f_equal.
      apply Htest in Hq as [Hvq Hnq]. destruct (Z.lt_trichotomy p q) as [Hlt|[->|Hlt]]; [|done|].
      * rewrite Hminq in Hp; [done|lia|]. apply validate_psm_iff in Hv as [? _]; [done|lia].
      * destruct (Hmin q) as [? Hx]; [lia|done|]. congruence.
    + exfalso. eapply find_dynamic_psm_None in Hf; [|exact Hr|by apply validate_psm_iff in Hv as [? _]; [|lia]]. congruence.
Qed.
End transfer.

(** ** Witnesses *)

Definition server_side : ChannelManager := run_mgr_call (H:=true) (CallRegister (Some 0x11) (mkClassicSpec 100)) ChannelManager_new.

Lemma server_side_ok : mgr_ok server_side.
Proof. apply mgr_call_good; [by_compute|apply (new_manager_ok InformationCapabilities_default)]. Qed.

Lemma first_cid (m : ChannelManager) : m.(channels) = ∅ -> allocate_cid m = (Ok 0x40, m).
Proof.
  intros Hm. unfold allocate_cid. run. rewrite Hm. unfold L2CAP_ACL_U_DYNAMIC_CID_RANGE_START, L2CAP_ACL_U_DYNAMIC_CID_RANGE_END.
  set (n := Z.to_nat _). assert (Z.of_nat n = 65472) as Hn by (apply Z2Nat.id; done). clearbody n. by destruct n.
Qed.

Lemma handshake_opens_channel_witness :
  exists a b, establish (H:=true) 0x11 (mkClassicSpec 672) ChannelManager_new server_side = ([Ok tt; Ok tt; Ok tt; Ok tt], a, b) /\
    a.(channels) !! 0x40 = Some (open_channel 0x11 0x40 0x40 false (mkClassicSpec 672) 100).
Proof.
  destruct (handshake_opens_channel (H:=true) ChannelManager_new server_side 0x11 (mkClassicSpec 672) (mkClassicSpec 100) 0x40 0x40)
    as (a & b & Hrun & _ & _ & Ha & _).
  - apply (new_manager_ok InformationCapabilities_default).
  - apply server_side_ok.
  - done.
  - done.
  - lia.
  - done.
  - cbn. lia.
  - done.
  - done.
  - by apply first_cid.
  - by apply first_cid.
  - exists a, b. split; [exact Hrun|]. rewrite Ha. apply lookup_insert_eq.
Defined.

(** An open end, alone in its manager. *)
Definition open_end (incoming : bool) (s : ClassicChannelSpec) (peer_mtu : Z) : ChannelManager :=
  mkManager ∅ {[ 0x40 := open_channel 0x11 0x40 0x40 incoming s peer_mtu ]} [] [] InformationCapabilities_default [] 1.

Lemma open_end_ok incoming s peer_mtu : spec_ok (BasicSpec s) -> 48 <= peer_mtu <= 65535 -> mgr_ok (open_end incoming s peer_mtu).
Proof.
  intros Hs Hp. constructor; cbn; try done.
  - intros cid c [<- <-]%lookup_singleton_Some. constructor; cbn; try done.
  - by intros cid ?%not_elem_of_nil.
Qed.

Lemma basic_transfer_witness :
  exists pdu, process_bytes (H:=true) (L2capPdu_to_bytes pdu false) (open_end true (mkClassicSpec 100) 672) =
    (Ok tt, set_channels (<[0x40 := set_ch_received [[1; 2; 3]] (open_channel 0x11 0x40 0x40 true (mkClassicSpec 100) 672)]>
              (open_end true (mkClassicSpec 100) 672).(channels)) (open_end true (mkClassicSpec 100) 672)).
Proof.
  destruct (basic_transfer (H:=true) (open_end false (mkClassicSpec 672) 100) (open_end true (mkClassicSpec 100) 672) 0x40 0x40
    (open_channel 0x11 0x40 0x40 false (mkClassicSpec 672) 100) (open_channel 0x11 0x40 0x40 true (mkClassicSpec 100) 672) [1; 2; 3])
    as [(pdu & _ & Hp) _]; try done.
  - apply open_end_ok; [cbn; lia|lia].
  - by_compute.
  - exists pdu. exact Hp.
Defined.

Definition failed_engine : ErtmEngine := set_failed true small_engine.
Definition blocked : ChannelManager :=
  mkManager ∅ {[ 0x40 := set_ertm (Some failed_engine) (ClassicChannel_outgoing 0x11 0x40 (ErtmSpecOf ErtmChannelSpec_default)) ]}
    [] [] InformationCapabilities_default [] 1.

Lemma failed_engine_blocks_tick_witness : (ChannelManager_tick (H:=true) 10 blocked).1 <> Ok tt.
Proof.
  apply (failed_engine_blocks_tick (H:=true) blocked 10 0x40
    (set_ertm (Some failed_engine) (ClassicChannel_outgoing 0x11 0x40 (ErtmSpecOf ErtmChannelSpec_default))) failed_engine); done.
Defined.

Lemma dynamic_psm_least_witness :
  register_server None (mkClassicSpec 100) ChannelManager_new
  = (Ok 0x1001, set_servers (<[0x1001 := BasicSpec (mkClassicSpec 100)]> ∅) ChannelManager_new).
Proof.
  apply (dynamic_psm_least ChannelManager_new (mkClassicSpec 100) 0x1001); [done|]. split; [lia|]. split; [done|].
  split; [done|]. intros q Hq. lia.
Defined.
