(* ===== verification/Hidp.v ===== *)
(** * HIDP codec and dispatch ([src/src/hidp.rs])

    The HIDP message codec, the device side dispatcher, generic in its
    delegate, and the host side dispatcher. The delegate is an interface: its
    operations are the class [DeviceDelegate], what a client may rely on is
    [DelegateLaws], and the theorems on the dispatcher are proved against
    them. *)
From S2P Require Import Prelude.

(** ** Open enumerations

    The [open_u8!] types are one-byte wrappers: any byte is a value, the
    constants name some of them. *)
Definition HIDP_CONTROL_PSM : Z := 0x0011.
Definition HIDP_INTERRUPT_PSM : Z := 0x0013.

Module ReportType.
Definition OTHER_REPORT : Z := 0x00.
Definition INPUT_REPORT : Z := 0x01.
Definition OUTPUT_REPORT : Z := 0x02.
Definition FEATURE_REPORT : Z := 0x03.
End ReportType.

Module Handshake.
Definition SUCCESSFUL : Z := 0x00.
Definition NOT_READY : Z := 0x01.
Definition HANDSHAKE_INVALID_REPORT_ID : Z := 0x02.
Definition HANDSHAKE_UNSUPPORTED_REQUEST : Z := 0x03.
Definition HANDSHAKE_INVALID_PARAMETER : Z := 0x04.
Definition HANDSHAKE_UNKNOWN : Z := 0x0E.
Definition HANDSHAKE_FATAL : Z := 0x0F.
End Handshake.

Module MessageType.
Definition HANDSHAKE : Z := 0x00.
Definition CONTROL : Z := 0x01.
Definition GET_REPORT : Z := 0x04.
Definition SET_REPORT : Z := 0x05.
Definition GET_PROTOCOL : Z := 0x06.
Definition SET_PROTOCOL : Z := 0x07.
Definition DATA : Z := 0x0A.
End MessageType.

Module ProtocolMode.
Definition BOOT_PROTOCOL : Z := 0x00.
Definition REPORT_PROTOCOL : Z := 0x01.
End ProtocolMode.

Module ControlCommand.
Definition SUSPEND : Z := 0x03.
Definition EXIT_SUSPEND : Z := 0x04.
Definition VIRTUAL_CABLE_UNPLUG : Z := 0x05.
End ControlCommand.

Module GetSetReturn.
Definition FAILURE : Z := 0x00.
Definition REPORT_ID_NOT_FOUND : Z := 0x01.
Definition RETURN_UNSUPPORTED_REQUEST : Z := 0x02.
Definition RETURN_UNKNOWN : Z := 0x03.
Definition RETURN_INVALID_PARAMETER : Z := 0x04.
Definition SUCCESS : Z := 0xFF.
End GetSetReturn.

Import ReportType Handshake MessageType ControlCommand GetSetReturn.

(** ** Messages *)

Inductive HidpError : Type :=
| HidpTruncated (field : string)
| HidpInvalid (field : string)
| HidpTrailingBytes (count : Z).

Inductive Message : Type :=
| MHandshake (result : Z)
| MControl (command : Z)
| MGetReport (report_type report_id : Z) (buffer_size : option Z)
| MSetReport (report_type : Z) (data : list Z)
| MGetProtocol
| MSetProtocol (mode : Z)
| MData (report_type : Z) (data : list Z)
| MUnknown (message_type parameter : Z) (data : list Z).

#[global] Instance HidpError_eq_dec : EqDecision HidpError.
Proof. solve_decision. Defined.
#[global] Instance Message_eq_dec : EqDecision Message.
Proof. solve_decision. Defined.

Definition Message_message_type (self : Message) : Z :=
  match self with
  | MHandshake _ => HANDSHAKE
  | MControl _ => CONTROL
  | MGetReport _ _ _ => GET_REPORT
  | MSetReport _ _ => SET_REPORT
  | MGetProtocol => GET_PROTOCOL
  | MSetProtocol _ => SET_PROTOCOL
  | MData _ _ => DATA
  | MUnknown message_type _ _ => message_type
  end.

(** The header parameter and the bytes after the header. *)
Definition Message_fields (self : Message) : Z * list Z :=
  match self with
  | MHandshake result => (result, [])
  | MControl command => (command, [])
  | MGetReport report_type report_id buffer_size =>
      match buffer_size with
      | Some size => (Z.lor 0x08 report_type, report_id :: to_le_bytes 2 size)
      | None => (report_type, [report_id])
      end
  | MSetReport report_type data | MData report_type data => (report_type, data)
  | MGetProtocol => (0, [])
  | MSetProtocol mode => (mode, [])
  | MUnknown _ parameter data => (parameter, data)
  end.

Definition Message_to_bytes (self : Message) : res HidpError (list Z) :=
  let '(parameter, data) := Message_fields self in
  if (0x0F <? Message_message_type self) || (0x0F <? parameter)
  then Err (HidpInvalid "HIDP header field")
  else Ok (Z.lor (Z.shiftl (Message_message_type self) 4 mod 256) parameter :: data).

Definition exact_empty (data : list Z) : res HidpError unit :=
  match data with [] => Ok tt | _ => Err (HidpTrailingBytes (len data)) end.

Definition decode_get_report (parameter : Z) (data : list Z) : res HidpError Message :=
  report_id ← ok_or (head data) (HidpTruncated "HIDP report ID");
  buffer_size ←
    (if negb (Z.land parameter 0x08 =? 0) then
       size ← ok_or (get_range data 1 3) (HidpTruncated "HIDP report buffer size");
       if negb (len data =? 3) then Err (HidpTrailingBytes (saturating_sub (len data) 3)) else
       size0 ← idx size 0;
       size1 ← idx size 1;
       Ok (Some (from_le_bytes [size0; size1]))
     else if negb (len data =? 1) then Err (HidpTrailingBytes (saturating_sub (len data) 1))
     else Ok None);
  Ok (MGetReport (Z.land parameter 3) report_id buffer_size).

Definition Message_from_bytes (bs : list Z) : res HidpError Message :=
  match bs with
  | [] => Err (HidpTruncated "HIDP header")
  | header :: data =>
      let message_type := Z.shiftr header 4 in
      let parameter := Z.land header 0x0F in
      if message_type =? HANDSHAKE then _ ← exact_empty data; Ok (MHandshake parameter)
      else if message_type =? CONTROL then _ ← exact_empty data; Ok (MControl parameter)
      else if message_type =? GET_REPORT then decode_get_report parameter data
      else if message_type =? SET_REPORT then Ok (MSetReport (Z.land parameter 3) data)
      else if message_type =? GET_PROTOCOL then _ ← exact_empty data; Ok MGetProtocol
      else if message_type =? SET_PROTOCOL then
        _ ← exact_empty data; Ok (MSetProtocol (Z.land parameter 1))
      else if message_type =? DATA then Ok (MData (Z.land parameter 3) data)
      else Ok (MUnknown message_type parameter data)
  end.

(** ** The delegate *)

Record GetSetStatus : Type := mkStatus { status_data : list Z; status : Z }.

Definition status_success (data : list Z) : GetSetStatus :=
  {| status_data := data; status := SUCCESS |}.
Definition status_unsupported : GetSetStatus :=
  {| status_data := []; status := RETURN_UNSUPPORTED_REQUEST |}.

(** The trait: each method may change the delegate. *)
Class DeviceDelegate (D : Type) : Type := {
  get_report : Z -> Z -> option Z -> D -> GetSetStatus * D;
  set_report : Z -> Z -> Z -> list Z -> D -> GetSetStatus * D;
  get_protocol : D -> GetSetStatus * D;
  set_protocol : Z -> D -> GetSetStatus * D
}.

(** The trait's default methods. *)
Definition default_delegate (D : Type) : DeviceDelegate D := {|
  get_report _ _ _ d := (status_unsupported, d);
  set_report _ _ _ _ d := (status_unsupported, d);
  get_protocol d := (status_unsupported, d);
  set_protocol _ d := (status_unsupported, d)
|}.

(** What the types of the trait promise: the data handed over are bytes. *)
Class DelegateLaws (D : Type) `{DeviceDelegate D} : Prop := {
  get_report_bytes id ty size d : bytes (status_data (get_report id ty size d).1);
  get_protocol_bytes d : bytes (status_data (get_protocol d).1)
}.

(** ** The device side *)

Inductive DeviceEvent : Type :=
| SendControl (message : Message)
| DevControlData (report_type : Z) (data : list Z)
| DevInterruptData (report_type : Z) (data : list Z)
| Suspend
| ExitSuspend
| DevVirtualCableUnplug
| DevUnsupported (message : Message).

#[global] Instance DeviceEvent_eq_dec : EqDecision DeviceEvent.
Proof. solve_decision. Defined.

Record DeviceRuntime (D : Type) : Type := mkRuntime {
  delegate : D;
  control_peer_mtu : Z
}.
Arguments mkRuntime {D} delegate control_peer_mtu.
Arguments delegate {D} d.
Arguments control_peer_mtu {D} d.

Section device.
Context {D : Type} `{DeviceDelegate D}.

(** A call of the delegate. *)
Definition call_delegate {A} (f : D -> A * D) : stm (DeviceRuntime D) HidpError A := fun s =>
  let '(a, d) := f (delegate s) in
  (Ok a, {| delegate := d; control_peer_mtu := control_peer_mtu s |}).

Definition report_response (mtu report_type report_id : Z) (result : GetSetStatus) : Message :=
  if status result =? SUCCESS then
    let data := report_id :: status_data result in
    if len data <? mtu then MData report_type data else MHandshake HANDSHAKE_INVALID_PARAMETER
  else if status result =? REPORT_ID_NOT_FOUND then MHandshake HANDSHAKE_INVALID_REPORT_ID
  else if status result =? RETURN_INVALID_PARAMETER then MHandshake HANDSHAKE_INVALID_PARAMETER
  else if status result =? RETURN_UNSUPPORTED_REQUEST then MHandshake HANDSHAKE_UNSUPPORTED_REQUEST
  else MHandshake HANDSHAKE_UNKNOWN.

Definition set_report_handshake (result : GetSetStatus) : Z :=
  if status result =? SUCCESS then SUCCESSFUL
  else if status result =? RETURN_INVALID_PARAMETER then HANDSHAKE_INVALID_PARAMETER
  else if status result =? REPORT_ID_NOT_FOUND then HANDSHAKE_INVALID_REPORT_ID
  else HANDSHAKE_UNSUPPORTED_REQUEST.

Definition device_handle_control (bs : list Z) : stm (DeviceRuntime D) HidpError (list DeviceEvent) :=
  message ← lift (Message_from_bytes bs);
  match message with
  | MGetReport report_type report_id buffer_size =>
      result ← call_delegate (get_report report_id report_type buffer_size);
      self ← get;
      mret [SendControl (report_response (control_peer_mtu self) report_type report_id result)]
  | MSetReport report_type data =>
      match data with
      | [] => throw (HidpTruncated "HIDP set-report ID")
      | report_id :: report_data =>
          result ← call_delegate (set_report report_id report_type (len report_data + 1) report_data);
          mret [SendControl (MHandshake (set_report_handshake result))]
      end
  | MGetProtocol =>
      result ← call_delegate get_protocol;
      mret [SendControl (if status result =? SUCCESS
                         then MData OTHER_REPORT (status_data result)
                         else MHandshake HANDSHAKE_UNSUPPORTED_REQUEST)]
  | MSetProtocol mode =>
      result ← call_delegate (set_protocol mode);
      mret [SendControl (MHandshake (if status result =? SUCCESS then SUCCESSFUL
                                     else HANDSHAKE_UNSUPPORTED_REQUEST))]
  | MData report_type data => mret [DevControlData report_type data]
  | MControl command =>
      mret [if command =? SUSPEND then Suspend
            else if command =? EXIT_SUSPEND then ExitSuspend
            else if command =? VIRTUAL_CABLE_UNPLUG then DevVirtualCableUnplug
            else DevUnsupported message]
  | MHandshake _ | MUnknown _ _ _ =>
      mret [DevUnsupported message; SendControl (MHandshake HANDSHAKE_UNSUPPORTED_REQUEST)]
  end.

Definition device_handle_interrupt (bs : list Z) : stm (DeviceRuntime D) HidpError DeviceEvent :=
  message ← lift (Message_from_bytes bs);
  mret match message with
       | MData report_type data => DevInterruptData report_type data
       | _ => DevUnsupported message
       end.
End device.

(** ** The host side *)

Inductive HostEvent : Type :=
| HostHandshake (result : Z)
| HostControlData (report_type : Z) (data : list Z)
| HostInterruptData (report_type : Z) (data : list Z)
| HostVirtualCableUnplug
| HostUnsupported (message : Message).

#[global] Instance HostEvent_eq_dec : EqDecision HostEvent.
Proof. solve_decision. Defined.

Definition host_get_report (report_type report_id : Z) (buffer_size : option Z) : Message :=
  MGetReport report_type report_id buffer_size.
Definition host_set_report (report_type : Z) (data : list Z) : Message := MSetReport report_type data.
Definition host_get_protocol : Message := MGetProtocol.
Definition host_set_protocol (mode : Z) : Message := MSetProtocol mode.
Definition host_suspend : Message := MControl SUSPEND.
Definition host_exit_suspend : Message := MControl EXIT_SUSPEND.
Definition host_virtual_cable_unplug : Message := MControl VIRTUAL_CABLE_UNPLUG.
Definition host_send_data (data : list Z) : Message := MData OUTPUT_REPORT data.
Definition device_data (data : list Z) : Message := MData INPUT_REPORT data.

Definition host_handle_control (bs : list Z) : res HidpError HostEvent :=
  message ← Message_from_bytes bs;
  Ok match message with
     | MHandshake result => HostHandshake result
     | MData report_type data => HostControlData report_type data
     | MControl command =>
         if command =? VIRTUAL_CABLE_UNPLUG then HostVirtualCableUnplug else HostUnsupported message
     | _ => HostUnsupported message
     end.

Definition host_handle_interrupt (bs : list Z) : res HidpError HostEvent :=
  message ← Message_from_bytes bs;
  Ok match message with
     | MData report_type data => HostInterruptData report_type data
     | _ => HostUnsupported message
     end.

(** ** The codec *)

(** Messages whose fields fit the header, with the value the decoder gives
    them: an [Unknown] message has none of the known types. *)
Definition message_wf (m : Message) : Prop :=
  match m with
  | MHandshake p | MControl p => 0 <= p < 16
  | MGetReport ty id size =>
      0 <= ty < 4 /\ u8 id /\ match size with Some n => u16 n | None => True end
  | MSetReport ty data | MData ty data => 0 <= ty < 4 /\ bytes data
  | MGetProtocol => True
  | MSetProtocol mode => 0 <= mode < 2
  | MUnknown ty p data =>
      0 <= ty < 16 /\ (ty ∉ [HANDSHAKE; CONTROL; GET_REPORT; SET_REPORT; GET_PROTOCOL; SET_PROTOCOL; DATA])
      /\ 0 <= p < 16 /\ bytes data
  end.

#[global] Instance message_wf_dec m : Decision (message_wf m).
Proof. destruct m as [| |? ? []| | | | |]; simpl; apply _. Defined.

(** The header bits that carry information, per message type; the decoder
    ignores the reserved others. *)
Definition defined_bits (message_type : Z) : Z :=
  if message_type =? GET_REPORT then 0xFB
  else if (message_type =? SET_REPORT) || (message_type =? DATA) then 0xF3
  else if message_type =? GET_PROTOCOL then 0xF0
  else if message_type =? SET_PROTOCOL then 0xF1
  else 0xFF.

Definition canonical_header (h : Z) : Z := Z.land h (defined_bits (Z.shiftr h 4)).

Lemma header_fields ty p : 0 <= ty < 16 -> 0 <= p < 16 ->
  let h := Z.lor (Z.shiftl ty 4 mod 256) p in
  u8 h /\ Z.shiftr h 4 = ty /\ Z.land h 15 = p.
Proof.
  intros Ht Hp. cbn zeta. rewrite Z.mod_small by (rewrite Z.shiftl_mul_pow2; lia).
  rewrite Z.lor_comm, lor_shiftl_add by lia. repeat split; try lia.
  - rewrite Z.shiftr_div_pow2 by lia. apply field_high; lia.
  - change 15 with (2 ^ 4 - 1). rewrite land_low_mod by lia. apply field_low; lia.
Qed.

(** The parameter as the decoder uses it, from the canonical header. *)
Lemma canonical_header_facts h : u8 h ->
  u8 (canonical_header h) /\ Z.shiftr (canonical_header h) 4 = Z.shiftr h 4
  /\ 0 <= Z.shiftr h 4 < 16 /\ 0 <= Z.land h 15 < 16
  /\ canonical_header h = Z.lor (Z.shiftl (Z.shiftr h 4) 4 mod 256) (Z.land (canonical_header h) 15)
  /\ Z.land (canonical_header h) 15 = Z.land (Z.land h 15) (defined_bits (Z.shiftr h 4)).
Proof. revert h. apply (forall_below _). vm_compute. reflexivity. Qed.

(** The masks of the decoder keep the defined bits of the parameter. *)
Lemma parameter_masks p : 0 <= p < 16 ->
  Z.land (Z.land p 0xFB) 3 = Z.land p 3
  /\ Z.land (Z.land p 0xFB) 8 = Z.land p 8
  /\ Z.land (Z.land p 0xF3) 3 = Z.land p 3 /\ Z.land p 0xF3 = Z.land p 3
  /\ Z.land (Z.land p 0xF1) 1 = Z.land p 1 /\ Z.land p 0xF1 = Z.land p 1
  /\ Z.land p 0xF0 = 0 /\ Z.land p 0xFF = p
  /\ Z.land p 0xFB = (if Z.land p 8 =? 0 then Z.land p 3 else Z.lor 8 (Z.land p 3))
  /\ 0 <= Z.land p 3 < 4 /\ 0 <= Z.land p 1 < 2.
Proof. revert p. apply (forall_below _). vm_compute. reflexivity. Qed.

(** Case analysis on the message type [t]. *)
Ltac type_cases t :=
  destruct (Z.eqb_spec t HANDSHAKE) as [->|];
  [|destruct (Z.eqb_spec t CONTROL) as [->|];
  [|destruct (Z.eqb_spec t GET_REPORT) as [->|];
  [|destruct (Z.eqb_spec t SET_REPORT) as [->|];
  [|destruct (Z.eqb_spec t GET_PROTOCOL) as [->|];
  [|destruct (Z.eqb_spec t SET_PROTOCOL) as [->|];
  [|destruct (Z.eqb_spec t DATA) as [->|]]]]]]].

Lemma defined_bits_unknown t : t <> GET_REPORT -> t <> SET_REPORT -> t <> DATA ->
  t <> GET_PROTOCOL -> t <> SET_PROTOCOL -> defined_bits t = 0xFF.
Proof.
  intros. unfold defined_bits.
  repeat match goal with H : _ <> _ |- _ => apply Z.eqb_neq in H; rewrite ?H; clear H end. done.
Qed.

Lemma from_bytes_canonical h d : u8 h ->
  Message_from_bytes (h :: d) = Message_from_bytes (canonical_header h :: d).
Proof.
  intros Hh. destruct (canonical_header_facts h Hh) as (_ & Ht & Hr & Hp & _ & Hl).
  unfold Message_from_bytes. rewrite Ht, Hl. clear Ht Hl.
  destruct (parameter_masks _ Hp) as (M1 & M2 & M3 & M4 & M5 & M6 & M7 & M8 & _).
  generalize dependent (Z.land h 15). generalize dependent (Z.shiftr h 4). intros t Ht p **.
  type_cases t; cbn [Z.eqb]; unfold decode_get_report, defined_bits; cbn; rewrite ?M1, ?M2, ?M3, ?M5, ?M8; try done.
  fold (defined_bits t). by rewrite defined_bits_unknown, M8.
Qed.

(** The encoding of a message whose header fields fit. *)
Lemma to_bytes_ok m : Message_message_type m < 16 -> (Message_fields m).1 < 16 ->
  Message_to_bytes m
  = Ok (Z.lor (Z.shiftl (Message_message_type m) 4 mod 256) (Message_fields m).1 :: (Message_fields m).2).
Proof.
  intros Ht Hp. unfold Message_to_bytes. destruct (Message_fields m) as [p d]. simpl in *.
  by rewrite !(proj2 (Z.ltb_ge _ _)) by lia.
Qed.

Lemma report_type_masks ty : 0 <= ty < 4 ->
  Z.land (Z.lor 8 ty) 3 = ty /\ Z.land ty 3 = ty /\ Z.land ty 8 = 0 /\ Z.land (Z.lor 8 ty) 8 <> 0
  /\ 0 <= Z.lor 8 ty < 16.
Proof. revert ty. apply (forall_below _). vm_compute. reflexivity. Qed.

Lemma wf_fields m : message_wf m ->
  0 <= Message_message_type m < 16 /\ 0 <= (Message_fields m).1 < 16 /\ bytes (Message_fields m).2.
Proof.
  destruct m as [p|p|ty id [n|]|ty data| |mode|ty data|ty p data]; simpl;
    cbv [HANDSHAKE CONTROL GET_REPORT SET_REPORT GET_PROTOCOL SET_PROTOCOL DATA].
  - auto with lia bytes_db.
  - auto with lia bytes_db.
  - intros (Hty & Hid & Hn). pose proof (report_type_masks _ Hty) as (_ & _ & _ & _ & ?).
    rewrite bytes_cons. auto with lia bytes_db.
  - intros (Hty & Hid & _). rewrite bytes_cons. auto with lia bytes_db.
  - intros [Hty Hd]. auto with lia.
  - auto with lia bytes_db.
  - auto with lia bytes_db.
  - intros [Hty Hd]. auto with lia.
  - intros (Hty & _ & Hp & Hd). auto.
Qed.

Lemma mode_mask mode : 0 <= mode < 2 -> Z.land mode 1 = mode.
Proof. revert mode. apply (forall_below _). vm_compute. reflexivity. Qed.

Lemma decode_fields m : message_wf m ->
  let '(p, d) := Message_fields m in
  forall h, Z.shiftr h 4 = Message_message_type m -> Z.land h 15 = p -> Message_from_bytes (h :: d) = Ok m.
Proof.
  destruct m as [| |ty id [n|]|ty data| |mode|ty data|ty p data]; simpl; intros Hwf h Ht Hp;
    unfold Message_from_bytes; rewrite Ht, ?Hp; try done;
    repeat match goal with H : _ /\ _ |- _ => destruct H end;
    try (destruct (report_type_masks ty) as (M1 & M2 & M3 & M4 & _); [done|]); cbn; try by rewrite M2.
  - unfold decode_get_report. apply Z.eqb_neq in M4. rewrite M4, M1, to_le_bytes_2.
    cbn [head ok_or mbind res_bind negb get_range].
    rewrite get_range_Some by (simpl; lia). cbn. by rewrite u16_le_roundtrip.
  - unfold decode_get_report. by rewrite M3, M2.
  - by rewrite mode_mask.
  - set_unfold. unfold decode_get_report. type_cases ty; intuition.
Qed.

Lemma message_roundtrip m : message_wf m ->
  exists h d, Message_to_bytes m = Ok (h :: d) /\ u8 h /\ bytes d /\ Message_from_bytes (h :: d) = Ok m.
Proof.
  intros Hwf. destruct (wf_fields m Hwf) as (Ht & Hp & Hd). pose proof (decode_fields m Hwf) as Hdec.
  rewrite to_bytes_ok by lia. destruct (Message_fields m) as [p d]. simpl in *.
  destruct (header_fields _ _ Ht Hp) as (? & ? & ?). eauto 10.
Qed.

Lemma exact_empty_Ok d : exact_empty d = Ok tt <-> d = [].
Proof. by destruct d. Qed.

Lemma decode_get_report_Ok p d m : 0 <= p < 16 -> bytes d -> decode_get_report p d = Ok m ->
  message_wf m /\ Message_message_type m = GET_REPORT /\ Message_fields m = (Z.land p 0xFB, d).
Proof.
  intros Hp Hd. destruct (parameter_masks p Hp) as (_ & _ & _ & _ & _ & _ & _ & _ & Hm & Hr & _).
  unfold decode_get_report. destruct d as [|id d]; [done|]. apply bytes_cons in Hd as [Hid Hd].
  rewrite Hm. cbn [head ok_or mbind res_bind].
  destruct (Z.eqb_spec (Z.land p 8) 0) as [E|E]; cbn [negb].
  - destruct (Z.eqb_spec (len (id :: d)) 1) as [El|]; cbn; intros; simplify_eq.
    destruct d; [|rewrite !len_cons in El; pose proof (len_nonneg d); lia]. by simpl.
  - destruct d as [|a [|b [|c d]]]; try done.
    + change (get_range [id; a; b] 1 3) with (Some [a; b]). change (len [id; a; b] =? 3) with true.
      cbn. intros; simplify_eq. rewrite !bytes_cons in Hd. destruct Hd as (? & ? & _). cbn.
      rewrite u16_le_inverse by done. pose proof (u16_le_range a b). auto.
    + change (get_range (id :: a :: b :: c :: d) 1 3) with (Some [a; b]).
      rewrite !len_cons. pose proof (len_nonneg d). cbn [ok_or mbind res_bind]. rewrite (proj2 (Z.eqb_neq _ _)) by lia. done.
Qed.

Lemma from_bytes_Ok h d m : u8 h -> bytes d -> Message_from_bytes (h :: d) = Ok m ->
  message_wf m /\ Message_message_type m = Z.shiftr h 4
  /\ Message_fields m = (Z.land (Z.land h 15) (defined_bits (Z.shiftr h 4)), d).
Proof.
  intros Hh Hd. destruct (canonical_header_facts h Hh) as (_ & _ & Ht & Hp & _).
  destruct (parameter_masks _ Hp) as (_ & _ & _ & M4 & _ & M6 & M7 & M8 & _ & R3 & R1).
  unfold Message_from_bytes. generalize dependent (Z.land h 15). generalize dependent (Z.shiftr h 4).
  intros t Ht p Hp **. type_cases t; cbn in *;
    try (destruct (exact_empty d) as [[]| |] eqn:E; simpl in *; simplify_eq; apply exact_empty_Ok in E as ->);
    simplify_eq; cbn; rewrite ?M4, ?M6, ?M7, ?M8; try done.
  - by apply decode_get_report_Ok.
  - rewrite defined_bits_unknown, M8 by done. set_unfold. intuition.
Qed.

Lemma message_decode_no_panic bs : Message_from_bytes bs <> Panic.
Proof.
  destruct bs as [|h d]; [done|]. unfold Message_from_bytes.
  generalize (Z.shiftr h 4). intros t.
  type_cases t; cbn [Z.eqb]; try by destruct d. simpl.
  unfold decode_get_report. destruct d as [|id [|a [|b [|c d]]]]; simpl; try (by repeat case_match).
Qed.

(** C37. The HIDP codec is exact up to the reserved header bits: a byte string
    decodes to a message if and only if the message is well formed and encodes
    to the same bytes with the reserved bits of the header cleared. *)
Theorem hidp_codec_exact bs m : bytes bs ->
  Message_from_bytes bs = Ok m <->
  message_wf m /\ exists h d, bs = h :: d /\ Message_to_bytes m = Ok (canonical_header h :: d).
Proof.
  intros Hbs. split.
  - destruct bs as [|h d]; [done|]. apply bytes_cons in Hbs as [Hh Hd]. intros Hm.
    destruct (from_bytes_Ok h d m Hh Hd Hm) as (Hwf & Ht & Hf).
    destruct (wf_fields m Hwf) as (? & ? & ?). split; [done|]. exists h, d. split; [done|].
    destruct (canonical_header_facts h Hh) as (_ & _ & _ & _ & Hc & Hl).
    rewrite to_bytes_ok by lia. rewrite Ht, Hf. simpl. by rewrite <- Hl, <- Hc.
  - intros (Hwf & h & d & -> & Hto). apply bytes_cons in Hbs as [Hh Hd].
    rewrite from_bytes_canonical by done.
    destruct (message_roundtrip m Hwf) as (h' & d' & Hto' & _ & _ & Hfrom).
    rewrite Hto in Hto'. injection Hto' as -> ->. done.
Qed.

Lemma hidp_codec_exact_witness :
  Message_from_bytes [0x4F; 7; 0x34; 0x12] = Ok (MGetReport FEATURE_REPORT 7 (Some 0x1234)).
Proof.
  apply hidp_codec_exact; [by_compute|]. split; [by_compute|].
  exists 0x4F, [7; 0x34; 0x12]. split; reflexivity.
Defined.

(** ** The dispatchers *)

Section dispatch.
Context {D : Type} `{DelegateLaws D}.
Implicit Types rt : DeviceRuntime D.

(** The delegate call a request stands for. *)
Definition delegate_call (req : Message) (d : D) : GetSetStatus * D :=
  match req with
  | MGetReport ty id size => get_report id ty size d
  | MSetReport ty (id :: data) => set_report id ty (len data + 1) data d
  | MGetProtocol => get_protocol d
  | MSetProtocol mode => set_protocol mode d
  | _ => (status_unsupported, d)
  end.

Definition is_request (m : Message) : bool :=
  match m with
  | MGetReport _ _ _ | MGetProtocol | MSetProtocol _ => true
  | MSetReport _ data => match data with [] => false | _ => true end
  | _ => false
  end.

(** The answer to a request, from the delegate's verdict. *)
Definition answer (mtu : Z) (req : Message) (result : GetSetStatus) : Message :=
  match req with
  | MGetReport ty id _ => report_response mtu ty id result
  | MSetReport _ _ => MHandshake (set_report_handshake result)
  | MGetProtocol => if status result =? SUCCESS then MData OTHER_REPORT (status_data result)
                    else MHandshake HANDSHAKE_UNSUPPORTED_REQUEST
  | _ => MHandshake (if status result =? SUCCESS then SUCCESSFUL else HANDSHAKE_UNSUPPORTED_REQUEST)
  end.

(** What the host learns from an answer. *)
Definition host_view (m : Message) : HostEvent :=
  match m with
  | MHandshake r => HostHandshake r
  | MData ty data => HostControlData ty data
  | _ => HostUnsupported m
  end.

Lemma handle_delegated rt bs req : Message_from_bytes bs = Ok req -> is_request req = true ->
  device_handle_control bs rt
  = (Ok [SendControl (answer (control_peer_mtu rt) req (delegate_call req (delegate rt)).1)],
     {| delegate := (delegate_call req (delegate rt)).2; control_peer_mtu := control_peer_mtu rt |}).
Proof.
  intros Hm Hr. unfold device_handle_control, lift, mbind, stm_bind, call_delegate, get, mret, stm_ret.
  rewrite Hm. destruct req as [| |ty id size|ty [|id data]| |mode| |]; try done; simpl.
  - by destruct (get_report id ty size (delegate rt)).
  - by destruct (set_report id ty (len data + 1) data (delegate rt)).
  - by destruct (get_protocol (delegate rt)).
  - by destruct (set_protocol mode (delegate rt)).
Qed.

(** Split the status tests of an answer. *)
Ltac status_cases :=
  repeat match goal with |- context [if ?b then _ else _] => destruct b eqn:? end; simpl; try lia.

Lemma answer_wf mtu req d : is_request req = true -> message_wf req ->
  let reply := answer mtu req (delegate_call req d).1 in
  message_wf reply /\ match reply with MHandshake _ | MData _ _ => True | _ => False end.
Proof.
  intros Hr Hwf. destruct req as [| |ty id size|ty [|id data]| |mode| |]; try done; simpl.
  - unfold report_response. destruct Hwf as (Hty & Hid & _).
    pose proof (get_report_bytes id ty size d). status_cases; rewrite ?bytes_cons; auto;
      split; try done; split; done.
  - unfold set_report_handshake. status_cases; split; try done; split; done.
  - pose proof (get_protocol_bytes d). status_cases; split; try done; split; done.
  - status_cases; split; try done; split; done.
Qed.

(** Messages that make the device answer without asking the delegate. *)
Definition is_refused (m : Message) : bool :=
  match m with MHandshake _ | MUnknown _ _ _ => true | _ => false end.

Definition replies (events : list DeviceEvent) : list Message :=
  omap (fun e => match e with SendControl m => Some m | _ => None end) events.

Lemma handle_other rt bs m : Message_from_bytes bs = Ok m -> is_request m = false ->
  (device_handle_control bs rt).2 = rt
  /\ match (device_handle_control bs rt).1 with
     | Ok events =>
         events <> []
         /\ replies events = (if is_refused m then [MHandshake HANDSHAKE_UNSUPPORTED_REQUEST] else [])
     | Err _ => exists ty, m = MSetReport ty []
     | Panic => False
     end.
Proof.
  intros Hm Hr. unfold device_handle_control, lift, mbind, stm_bind, mret, stm_ret, throw.
  rewrite Hm. destruct m as [|c|ty id size|ty [|id data]| |mode| |]; try done; simpl; eauto.
  split; [done|]. by repeat case_match; simplify_eq.
Qed.
End dispatch.

(** What a delegate's result comes to, on the wire and at the host: the table of
    result codes (0xFF success, 1 no such report, 2 unsupported, 4 invalid
    parameter) and handshake codes (0 successful, 2 no such report, 3
    unsupported, 4 invalid parameter, 14 unknown). Data messages have header
    0xA0 plus the report type; a report that does not fit the MTU with its
    header and identifier is an invalid parameter. *)
Inductive verdict (mtu : Z) : Message -> GetSetStatus -> list Z -> HostEvent -> Prop :=
| get_report_told ty id size data : len data + 2 <= mtu ->
    verdict mtu (MGetReport ty id size) (mkStatus data 0xFF) ((0xA0 + ty) :: id :: data) (HostControlData ty (id :: data))
| get_report_too_long ty id size data : mtu < len data + 2 ->
    verdict mtu (MGetReport ty id size) (mkStatus data 0xFF) [4] (HostHandshake 4)
| get_report_refused ty id size data code shake : (code, shake) ∈ [(1, 2); (2, 3); (4, 4)] ->
    verdict mtu (MGetReport ty id size) (mkStatus data code) [shake] (HostHandshake shake)
| get_report_failed ty id size data code : code ∉ [0xFF; 1; 2; 4] ->
    verdict mtu (MGetReport ty id size) (mkStatus data code) [14] (HostHandshake 14)
| set_report_told ty report data code shake : (code, shake) ∈ [(0xFF, 0); (1, 2); (4, 4)] ->
    verdict mtu (MSetReport ty report) (mkStatus data code) [shake] (HostHandshake shake)
| set_report_failed ty report data code : code ∉ [0xFF; 1; 4] ->
    verdict mtu (MSetReport ty report) (mkStatus data code) [3] (HostHandshake 3)
| get_protocol_told data : verdict mtu MGetProtocol (mkStatus data 0xFF) (0xA0 :: data) (HostControlData 0 data)
| get_protocol_failed data code : code <> 0xFF -> verdict mtu MGetProtocol (mkStatus data code) [3] (HostHandshake 3)
| set_protocol_told mode data : verdict mtu (MSetProtocol mode) (mkStatus data 0xFF) [0] (HostHandshake 0)
| set_protocol_failed mode data code : code <> 0xFF -> verdict mtu (MSetProtocol mode) (mkStatus data code) [3] (HostHandshake 3).

Lemma data_wire ty data : 0 <= ty < 4 -> Message_to_bytes (MData ty data) = Ok ((0xA0 + ty) :: data).
Proof. intros Hty. assert (ty = 0 \/ ty = 1 \/ ty = 2 \/ ty = 3) as [-> | [-> | [-> | ->]]] by lia; reflexivity. Qed.

(** Splits on the result code and gives the handshake of the table. *)
Ltac handshakes :=
  repeat match goal with |- context [?c =? ?k] => destruct (Z.eqb_spec c k) as [->|?] end;
  eexists; (split; [reflexivity|]);
  unfold SUCCESS, REPORT_ID_NOT_FOUND, RETURN_INVALID_PARAMETER, RETURN_UNSUPPORTED_REQUEST in *;
  first [ apply get_report_refused; by_compute | apply set_report_told; by_compute | apply set_protocol_told | apply get_protocol_told
        | apply get_report_failed | apply set_report_failed | apply get_protocol_failed | apply set_protocol_failed ];
  rewrite ?elem_of_cons, ?elem_of_nil; lia.

(** The answer tells the verdict. *)
Lemma answer_tells mtu req result : is_request req = true -> message_wf req ->
  exists wire, Message_to_bytes (answer mtu req result) = Ok wire /\ verdict mtu req result wire (host_view (answer mtu req result)).
Proof.
  intros Hr Hwf. destruct result as [data code]. destruct req as [| |ty id size|ty [|id report]| |mode| |]; try done; cbn [answer status status_data].
  - unfold report_response. cbn [status status_data]. destruct Hwf as (Hty & _). destruct (Z.eqb_spec code SUCCESS) as [->|]; [|handshakes].
    destruct (Z.ltb_spec (len (id :: data)) mtu) as [Hl|Hl]; rewrite len_cons in Hl; eexists.
    + split; [by apply data_wire|]. constructor. lia.
    + split; [done|]. constructor. lia.
  - unfold set_report_handshake. cbn [status]. handshakes.
  - handshakes.
  - handshakes.
Qed.

(** C13. End-to-end control conversation, for every delegate that keeps the
    trait's contract: a host request reaches the device as sent, calls the
    delegate exactly once with the request's fields, and is answered by exactly
    one message, whose bytes and whose meaning to the host are those the table of
    [verdict] has for the delegate's result; report answers, header included,
    fit the peer's MTU. *)
Theorem control_conversation {D} `{DelegateLaws D} (rt : DeviceRuntime D) req :
  message_wf req -> is_request req = true ->
  let '(result, d') := delegate_call req (delegate rt) in
  exists request_wire reply reply_wire event,
    Message_to_bytes req = Ok request_wire
    /\ device_handle_control request_wire rt
       = (Ok [SendControl reply], {| delegate := d'; control_peer_mtu := control_peer_mtu rt |})
    /\ Message_to_bytes reply = Ok reply_wire
    /\ host_handle_control reply_wire = Ok event
    /\ verdict (control_peer_mtu rt) req result reply_wire event
    /\ (1 <= control_peer_mtu rt -> req <> MGetProtocol -> len reply_wire <= control_peer_mtu rt).
Proof.
  intros Hwf Hr. destruct (message_roundtrip req Hwf) as (h & d & Hto & _ & _ & Hfrom).
  pose proof (handle_delegated rt _ _ Hfrom Hr) as Hdev.
  destruct (answer_wf (control_peer_mtu rt) req (delegate rt) Hr Hwf) as [Hawf Hkind].
  destruct (delegate_call req (delegate rt)) as [result d']. cbn [fst snd] in *.
  destruct (message_roundtrip _ Hawf) as (h' & dd & Hto' & _ & _ & Hfrom').
  destruct (answer_tells (control_peer_mtu rt) req result Hr Hwf) as (wire & Hwire & Hv). rewrite Hto' in Hwire. injection Hwire as <-.
  exists (h :: d), (answer (control_peer_mtu rt) req result), (h' :: dd), (host_view (answer (control_peer_mtu rt) req result)). split_and!; try done.
  - unfold host_handle_control. rewrite Hfrom'. cbn. by destruct (answer _ _ _).
  - intros Hmtu Hnp. inversion Hv; subst; rewrite ?len_cons; unfold len in *; cbn; try done; lia.
Qed.

(** The device dispatcher is total and safe on arbitrary bytes: it never
    panics, an error leaves the runtime unchanged, and a decoded message is
    answered by one encodable reply exactly when it is a request or a message
    the device has to refuse; only requests reach the delegate. *)
Theorem device_control_safe {D} `{DelegateLaws D} (rt : DeviceRuntime D) bs : bytes bs ->
  let '(r, rt') := device_handle_control bs rt in
  r <> Panic
  /\ (forall e, r = Err e -> rt' = rt)
  /\ (forall events, r = Ok events -> exists m,
        Message_from_bytes bs = Ok m
        /\ length (replies events) = (if is_request m || is_refused m then 1 else 0)%nat
        /\ Forall (fun reply => is_ok (Message_to_bytes reply) = true) (replies events)
        /\ (is_request m = false -> rt' = rt)).
Proof.
  intros Hbs. destruct (Message_from_bytes bs) as [m|e|] eqn:Hm.
  2,3: unfold device_handle_control, lift, mbind, stm_bind; rewrite Hm; split_and!; try done.
  2: by destruct (message_decode_no_panic bs).
  destruct (is_request m) eqn:Hr.
  - rewrite (handle_delegated rt bs m Hm Hr). split_and!; [done|done|].
    intros events [= <-]. exists m. rewrite Hr. split_and!; try done. constructor; [|done].
    destruct bs as [|h d]; [done|]. apply bytes_cons in Hbs as [Hh Hd].
    destruct (from_bytes_Ok h d m Hh Hd Hm) as (Hwf & _).
    destruct (answer_wf (control_peer_mtu rt) m (delegate rt) Hr Hwf) as [Hawf _].
    by destruct (message_roundtrip _ Hawf) as (? & ? & -> & _).
  - destruct (handle_other rt bs m Hm Hr) as [Hs Hres].
    destruct (device_handle_control bs rt) as [r rt']. simpl in *. subst rt'.
    destruct r as [events|e|]; [|split_and!; done|done].
    split_and!; [done|done|]. intros ? [= <-]. exists m. destruct Hres as [_ ->]. rewrite Hr. simpl.
    destruct (is_refused m); split_and!; try done. by constructor.
Qed.

(** ** A delegate with one stored report *)

Definition stored_report : DeviceDelegate (list Z) := {|
  get_report id _ _ d := if id =? 7 then (status_success d, d)
                         else ({| status_data := []; status := REPORT_ID_NOT_FOUND |}, d);
  set_report id _ _ data d := if id =? 7 then (status_success [], data) else (status_unsupported, d);
  get_protocol d := (status_unsupported, d);
  set_protocol _ d := (status_unsupported, d)
|}.

(** The store with its contents restricted to bytes, as the trait's types do. *)
Definition byte_store : DeviceDelegate (list Z) := {|
  get_report id ty n d := let '(r, d') := @get_report _ stored_report id ty n d in
    ({| status_data := (fun b => b mod 256) <$> status_data r; status := status r |}, d');
  set_report := @set_report _ stored_report;
  get_protocol := @get_protocol _ stored_report;
  set_protocol := @set_protocol _ stored_report
|}.

Lemma byte_store_laws : @DelegateLaws (list Z) byte_store.
Proof.
  split; [|intros; apply bytes_nil]. intros id ty n d. simpl.
  assert (forall l, bytes ((fun b => b mod 256) <$> l)) as Hb.
  { intros l. induction l as [|b l IH]; [apply bytes_nil|]. apply bytes_cons.
    split; [apply Z.mod_pos_bound; lia|done]. }
  destruct (id =? 7); apply Hb.
Qed.

Lemma control_conversation_witness :
  exists request_wire reply reply_wire event,
    Message_to_bytes (host_get_report FEATURE_REPORT 7 None) = Ok request_wire
    /\ @device_handle_control _ byte_store request_wire {| delegate := [1; 2]; control_peer_mtu := 48 |}
       = (Ok [SendControl reply], {| delegate := [1; 2]; control_peer_mtu := 48 |})
    /\ Message_to_bytes reply = Ok reply_wire /\ host_handle_control reply_wire = Ok event
    /\ verdict 48 (host_get_report FEATURE_REPORT 7 None) (status_success [1; 2]) reply_wire event.
Proof.
  destruct (@control_conversation _ byte_store byte_store_laws
    {| delegate := [1; 2]; control_peer_mtu := 48 |} (host_get_report FEATURE_REPORT 7 None))
    as (w & reply & w' & event & Hw & Hdev & Hr & Hhost & Hv & _); [by_compute|reflexivity|].
  exists w, reply, w', event. split_and!; [exact Hw|exact Hdev|exact Hr|exact Hhost|exact Hv].
Defined.

Lemma device_control_safe_witness :
  (@device_handle_control _ byte_store [0x53; 9; 1] {| delegate := []; control_peer_mtu := 48 |}).1
  <> Panic.
Proof.
  pose proof (@device_control_safe _ byte_store byte_store_laws
    {| delegate := []; control_peer_mtu := 48 |} [0x53; 9; 1]) as H.
  destruct (device_handle_control _ _) as [r rt]. simpl. apply H. by_compute.
Defined.
