(* ===== verification/Values.v ===== *)
(** * Backend values ([src/src/values.rs])

    Bluetooth addresses with their textual form, UUIDs of three widths with
    the equality of their 128-bit expansions, and Classic bonds. Rust strings
    are their UTF-8 bytes. *)
From S2P Require Import Prelude.

(** ** UTF-8 ([core::str::from_utf8]) *)

Definition in_range (lo hi x : Z) : bool := (lo <=? x) && (x <=? hi).
Definition continuation_byte : Z -> bool := in_range 0x80 0xBF.

(** The well-formed byte sequences of the Unicode standard. *)
Fixpoint utf8_valid (l : list Z) : bool :=
  match l with
  | [] => true
  | b :: r =>
      if in_range 0x00 0x7F b then utf8_valid r else
      match r with
      | [] => false
      | b1 :: r1 =>
          if in_range 0xC2 0xDF b then continuation_byte b1 && utf8_valid r1 else
          match r1 with
          | [] => false
          | b2 :: r2 =>
              if in_range 0xE0 0xEF b then
                in_range (if b =? 0xE0 then 0xA0 else 0x80) (if b =? 0xED then 0x9F else 0xBF) b1
                && continuation_byte b2 && utf8_valid r2
              else
              match r2 with
              | [] => false
              | b3 :: r3 =>
                  in_range 0xF0 0xF4 b
                  && in_range (if b =? 0xF0 then 0x90 else 0x80) (if b =? 0xF4 then 0x8F else 0xBF) b1
                  && continuation_byte b2 && continuation_byte b3 && utf8_valid r3
              end
          end
      end
  end.

(** ** Errors and addresses *)

(** Messages are the source's literals, followed by the bytes of the octet or
    the length they quote. *)
Inductive ValueError : Type :=
| InvalidAddress (message : string) (octet : list Z)
| InvalidUuid (message : string) (actual : Z)
| InvalidLinkKeyLength (actual : Z).

Inductive AddressKind : Type := AKPublic | AKRandom.

Record BluetoothAddress : Type := mkAddress {
  address_le : list Z;
  address_kind : AddressKind
}.

#[global] Instance ValueError_eq_dec : EqDecision ValueError.
Proof. solve_decision. Defined.
#[global] Instance AddressKind_eq_dec : EqDecision AddressKind.
Proof. solve_decision. Defined.
#[global] Instance BluetoothAddress_eq_dec : EqDecision BluetoothAddress.
Proof. solve_decision. Defined.

Definition COLON : Z := 58.
Definition PLUS : Z := 43.
Definition SLASH : Z := 47.
Definition PUBLIC_SUFFIX : list Z := [SLASH; 80].

(** [value.strip_suffix("/P")] *)
Definition strip_public (value : list Z) : option (list Z) :=
  let n := (length value - 2)%nat in
  if decide (drop n value = PUBLIC_SUFFIX) then Some (take n value) else None.

(** [value.split(':')] *)
Fixpoint split_colon (value : list Z) : list (list Z) :=
  match value with
  | [] => [[]]
  | c :: rest =>
      if c =? COLON then [] :: split_colon rest
      else match split_colon rest with
           | [] => [[c]]
           | first :: others => (c :: first) :: others
           end
  end.

(** [char::to_digit(16)] *)
Definition hex_digit (c : Z) : option Z :=
  if in_range 48 57 c then Some (c - 48)
  else if in_range 65 70 c then Some (c - 55)
  else if in_range 97 102 c then Some (c - 87)
  else None.

(** [u8::from_str_radix(octet, 16)] on a two-byte string: a leading plus sign
    is accepted. *)
Definition octet_from_radix (octet : list Z) : option Z :=
  match octet with
  | [a; b] =>
      low ← hex_digit b;
      if a =? PLUS then Some low else
      high ← hex_digit a;
      Some (16 * high + low)
  | _ => None
  end.

Fixpoint parse_octets (index : nat) (octets : list (list Z)) (bytes_le : list Z)
  : res ValueError (list Z) :=
  match octets with
  | [] => Ok bytes_le
  | octet :: rest =>
      if negb (utf8_valid octet) then Err (InvalidAddress "address is not UTF-8" []) else
      match octet_from_radix octet with
      | None => Err (InvalidAddress "invalid octet" octet)
      | Some parsed =>
          if (5 <? index)%nat then Panic
          else parse_octets (S index) rest (<[(5 - index)%nat := parsed]> bytes_le)
      end
  end.

Definition compact_address (value : list Z) : res ValueError (list Z) :=
  if (len value =? 12) && negb (bool_decide (COLON ∈ value)) then Ok value
  else if len value =? 17 then
    let octets := split_colon value in
    if negb (len octets =? 6) || existsb (fun octet => negb (len octet =? 2)) octets
    then Err (InvalidAddress "expected six two-digit octets" [])
    else Ok (concat octets)
  else Err (InvalidAddress "expected 12 hexadecimal digits" []).

Definition BluetoothAddress_parse (value : list Z) (kind : AddressKind) : res ValueError BluetoothAddress :=
  let '(value, kind) := match strip_public value with
                        | Some value => (value, AKPublic)
                        | None => (value, kind)
                        end in
  compact ← compact_address value;
  bytes_le ← parse_octets 0 (chunks_exact 2 compact) (replicate 6 0);
  Ok {| address_le := bytes_le; address_kind := kind |}.

(** [{byte:02X}] *)
Definition hex_char (d : Z) : Z := if d <? 10 then 48 + d else 55 + d.
Definition format_octet (b : Z) : list Z := [hex_char (b / 16); hex_char (b mod 16)].

Fixpoint join_octets (octets : list (list Z)) : list Z :=
  match octets with
  | [] => []
  | [o] => o
  | o :: rest => o ++ COLON :: join_octets rest
  end.

Definition BluetoothAddress_display (self : BluetoothAddress) : list Z :=
  join_octets (format_octet <$> rev (address_le self))
  ++ match address_kind self with AKPublic => PUBLIC_SUFFIX | AKRandom => [] end.

(** ** UUIDs *)

Definition BASE_UUID_LE : list Z :=
  [0xFB; 0x34; 0x9B; 0x5F; 0x80; 0x00; 0x00; 0x80; 0x00; 0x10; 0x00; 0x00].

Definition uuid_width (bs : list Z) : bool :=
  (len bs =? 2) || (len bs =? 4) || (len bs =? 16).

(** The field is private and every constructor checks the width, so the width
    is part of the type. *)
Record BluetoothUuid : Type := mkUuid {
  uuid_le : list Z;
  uuid_width_ok : Is_true (uuid_width uuid_le)
}.

Definition uuid_from_u16 (value : Z) : BluetoothUuid := mkUuid (to_le_bytes 2 value) I.

Definition uuid_from_le_bytes (bs : list Z) : res ValueError BluetoothUuid :=
  match decide (Is_true (uuid_width bs)) with
  | left ok => Ok (mkUuid bs ok)
  | right _ => Err (InvalidUuid "expected 2, 4, or 16 bytes" (len bs))
  end.

(** The remaining arm of the source, [unreachable!], has no inhabitant here. *)
Definition expanded_le_bytes (self : BluetoothUuid) : list Z :=
  if len (uuid_le self) =? 2 then BASE_UUID_LE ++ uuid_le self ++ [0; 0]
  else if len (uuid_le self) =? 4 then BASE_UUID_LE ++ uuid_le self
  else uuid_le self.

Definition uuid_to_bytes (self : BluetoothUuid) (force_128 : bool) : list Z :=
  if force_128 then expanded_le_bytes self else uuid_le self.

(** [PartialEq::eq] *)
Definition uuid_eq (self other : BluetoothUuid) : bool :=
  bool_decide (expanded_le_bytes self = expanded_le_bytes other).

(** ** Bonds *)

Record ClassicBond : Type := mkBond {
  link_key : list Z;
  link_key_type : Z;
  authenticated : bool
}.

#[global] Instance ClassicBond_eq_dec : EqDecision ClassicBond.
Proof. solve_decision. Defined.

Definition ClassicBond_from_slice (key : list Z) (key_type : Z) (auth : bool) : res ValueError ClassicBond :=
  if len key =? 16 then Ok {| link_key := key; link_key_type := key_type; authenticated := auth |}
  else Err (InvalidLinkKeyLength (len key)).

(** ** UUIDs up to expansion *)

Lemma uuid_ext u v : uuid_le u = uuid_le v -> u = v.
Proof. destruct u as [a Ha], v as [b Hb]. simpl. intros ->. f_equal. apply proof_irrel. Qed.

#[global] Instance BluetoothUuid_eq_dec : EqDecision BluetoothUuid.
Proof.
  intros u v. destruct (decide (uuid_le u = uuid_le v)) as [H|H].
  - left. by apply uuid_ext.
  - right. by intros ->.
Defined.

(** The source's equality on UUIDs: coarser than equality of representations. *)
#[global] Instance uuid_equiv : Equiv BluetoothUuid := fun u v => uuid_eq u v = true.

Lemma uuid_equiv_expanded u v : u ≡ v <-> expanded_le_bytes u = expanded_le_bytes v.
Proof. unfold equiv, uuid_equiv, uuid_eq. apply bool_decide_eq_true. Qed.

#[global] Instance uuid_equivalence : Equivalence (≡@{BluetoothUuid}).
Proof.
  split.
  - intros u. by apply uuid_equiv_expanded.
  - intros u v. rewrite !uuid_equiv_expanded. done.
  - intros u v w. rewrite !uuid_equiv_expanded. congruence.
Qed.

#[global] Instance uuid_eq_proper : Proper ((≡) ==> (≡) ==> (=)) uuid_eq.
Proof.
  intros u u' Hu v v' Hv. apply uuid_equiv_expanded in Hu, Hv. unfold uuid_eq. by rewrite Hu, Hv.
Qed.

Lemma uuid_width_cases u : len (uuid_le u) = 2 \/ len (uuid_le u) = 4 \/ len (uuid_le u) = 16.
Proof.
  destruct u as [bs H]. simpl. unfold uuid_width in H.
  apply Is_true_true in H. rewrite !orb_true_iff, !Z.eqb_eq in H. tauto.
Qed.

Lemma expanded_length u : len (expanded_le_bytes u) = 16.
Proof.
  unfold expanded_le_bytes. destruct (uuid_width_cases u) as [E|[E|E]]; rewrite E; cbn [Z.eqb Pos.eqb];
    rewrite ?len_app, ?E; reflexivity.
Qed.

(** The value a short UUID stands for. *)
Definition short_value (u : BluetoothUuid) : option Z :=
  if len (uuid_le u) =? 16 then None else Some (from_le_bytes (uuid_le u)).

Lemma from_le_bytes_zeros l : from_le_bytes (l ++ [0; 0]) = from_le_bytes l.
Proof.
  induction l as [|b l IH]; [done|]. rewrite <- app_comm_cons.
  change (from_le_bytes (b :: l ++ [0; 0])) with (b + 256 * from_le_bytes (l ++ [0; 0])). by rewrite IH.
Qed.

Lemma short_expansion u x : short_value u = Some x -> bytes (uuid_le u) ->
  expanded_le_bytes u = BASE_UUID_LE ++ to_le_bytes 4 x.
Proof.
  unfold short_value, expanded_le_bytes. intros Hx Hb.
  destruct (uuid_width_cases u) as [E|[E|E]]; rewrite E in *; simplify_eq/=; repeat f_equal.
  - assert (length (uuid_le u ++ [0; 0]) = 4%nat) as <- by len_lia.
    rewrite <- from_le_bytes_zeros, to_from_le_bytes; [done|].
    apply bytes_app. split; [done|]. by_compute.
  - assert (length (uuid_le u) = 4%nat) as <- by len_lia. by rewrite to_from_le_bytes.
Qed.

(** UUIDs are compared by value: two short forms (16 or 32 bits) are equal
    exactly when they stand for the same number, whatever their widths; a
    short form equals the 128-bit form that is its expansion over the
    Bluetooth base UUID and no other; two 128-bit forms are equal only when
    identical. *)
Theorem uuid_equality u v : bytes (uuid_le u) -> bytes (uuid_le v) ->
  match short_value u, short_value v with
  | Some x, Some y => u ≡ v <-> x = y
  | Some x, None => u ≡ v <-> uuid_le v = BASE_UUID_LE ++ to_le_bytes 4 x
  | None, Some y => u ≡ v <-> uuid_le u = BASE_UUID_LE ++ to_le_bytes 4 y
  | None, None => u ≡ v <-> u = v
  end.
Proof.
  intros Hu Hv.
  assert (forall w, short_value w = None -> expanded_le_bytes w = uuid_le w) as Hlong.
  { intros w. unfold short_value, expanded_le_bytes.
    destruct (uuid_width_cases w) as [E|[E|E]]; by rewrite E. }
  assert (forall w x, short_value w = Some x -> bytes (uuid_le w) -> u32 x) as Hrange.
  { intros w x. unfold short_value. intros Hx Hb. pose proof (from_le_bytes_range _ Hb) as Hr.
    destruct (uuid_width_cases w) as [E|[E|E]]; rewrite E in *; simplify_eq/=; lia. }
  destruct (short_value u) as [x|] eqn:Ex, (short_value v) as [y|] eqn:Ey; rewrite uuid_equiv_expanded.
  - rewrite (short_expansion u x), (short_expansion v y) by done. split; [|by intros ->].
    intros E. apply app_inv_head in E.
    rewrite <- (from_to_le_bytes 4 x), <- (from_to_le_bytes 4 y) by (by eapply Hrange). by rewrite E.
  - rewrite (short_expansion u x), (Hlong v) by done. split; by intros.
  - rewrite (short_expansion v y), (Hlong u) by done. done.
  - rewrite !Hlong by done. split; [apply uuid_ext|by intros ->].
Qed.

Lemma uuid_equality_witness : uuid_from_u16 0x1124 ≡ mkUuid [0x24; 0x11; 0; 0] I.
Proof.
  apply (uuid_equality (uuid_from_u16 0x1124) (mkUuid [0x24; 0x11; 0; 0] I)); by_compute.
Defined.

(** ** Addresses *)

Lemma in_range_spec lo hi x : in_range lo hi x = true <-> lo <= x <= hi.
Proof. unfold in_range. rewrite andb_true_iff, !Z.leb_le. done. Qed.

Lemma hex_digit_Some c d : hex_digit c = Some d ->
  0 <= d < 16 /\ (48 <= c <= 57 \/ 65 <= c <= 70 \/ 97 <= c <= 102).
Proof.
  unfold hex_digit. repeat case_match; intros; simplify_eq;
    repeat match goal with E : in_range _ _ _ = true |- _ => apply in_range_spec in E end; lia.
Qed.

(** A piece of text without separators. *)
Definition plain (o : list Z) : Prop := Forall (fun c => c <> COLON /\ c <> SLASH) o.

(** An octet the parser accepts: two ASCII characters, none of which is a
    separator. *)
Lemma octet_Some o b : octet_from_radix o = Some b ->
  u8 b /\ length o = 2%nat /\ utf8_valid o = true /\ plain o.
Proof.
  destruct o as [|c [|d [|]]]; try done. simpl. destruct (hex_digit d) as [low|] eqn:Hd; [|done]. simpl.
  apply hex_digit_Some in Hd as [? Hd].
  assert (forall e, 0 <= e < 128 -> in_range 0 127 e = true) as Hascii.
  { intros. apply in_range_spec. lia. }
  destruct (Z.eqb_spec c PLUS) as [->|Hc].
  - intros; simplify_eq. rewrite (Hascii d) by lia.
    split_and!; try done; [lia|lia|]. repeat constructor; unfold COLON, PLUS, SLASH; lia.
  - destruct (hex_digit c) as [high|] eqn:Hh; [|done]. apply hex_digit_Some in Hh as [? Hh].
    simpl. intros; simplify_eq. rewrite !Hascii by lia.
    split_and!; try done; [lia|lia|]. repeat constructor; unfold COLON, SLASH; lia.
Qed.

Lemma split_colon_nonempty v : split_colon v <> [].
Proof. destruct v as [|c v]; simpl; [done|]. repeat case_match; done. Qed.

Lemma join_split v : join_octets (split_colon v) = v.
Proof.
  induction v as [|c v IH]; [done|]. simpl. pose proof (split_colon_nonempty v) as Hn.
  destruct (split_colon v) as [|o os]; [done|]. destruct (Z.eqb_spec c COLON) as [->|].
  - change (join_octets ([] :: o :: os)) with (COLON :: join_octets (o :: os)). by rewrite IH.
  - rewrite <- IH. by destruct os.
Qed.

Lemma split_colon_app o rest : plain o ->
  split_colon (o ++ COLON :: rest) = o :: split_colon rest /\ split_colon o = [o].
Proof.
  induction 1 as [|c o [Hc _] Ho [IH1 IH2]]; [done|].
  apply Z.eqb_neq in Hc. simpl. by rewrite Hc, IH1, IH2.
Qed.

Lemma split_join octets : octets <> [] -> Forall plain octets -> split_colon (join_octets octets) = octets.
Proof.
  intros Hne. induction 1 as [|o os Ho Hos IH]; [done|].
  destruct os as [|o' os]; [by apply (split_colon_app o [])|].
  change (join_octets (o :: o' :: os)) with (o ++ COLON :: join_octets (o' :: os)).
  rewrite (proj1 (split_colon_app o _ Ho)). f_equal. by apply IH.
Qed.

Lemma chunks_concat {A} (n : nat) (ls : list (list A)) : (0 < n)%nat ->
  Forall (fun l => length l = n) ls -> chunks_exact n (concat ls) = ls.
Proof.
  intros Hn. unfold chunks_exact. induction 1 as [|l ls Hl Hls IH]; [done|]. simpl.
  assert (l ++ concat ls <> []) as Hne by (destruct l; simpl in Hl; [lia|done]).
  rewrite chunks_step by done. subst n. rewrite take_app_length, drop_app_length, filter_cons_True by done. by f_equal.
Qed.

Lemma accepted_octets octets bs : mapM octet_from_radix octets = Some bs ->
  Forall plain octets /\ Forall (fun o => length o = 2%nat) octets
  /\ Forall (fun o => utf8_valid o = true) octets.
Proof.
  intros Hm. apply mapM_Some in Hm.
  induction Hm as [|o b os bs Ho Hos (IH1 & IH2 & IH3)]; [done|].
  apply octet_Some in Ho as (_ & ? & ? & ?). auto.
Qed.

(** The parser on six octets: it succeeds exactly when each is accepted. *)
Lemma parse_octets_six octets r : length octets = 6%nat -> Forall (fun o => length o = 2%nat) octets ->
  parse_octets 0 octets (replicate 6 0) = Ok r <-> mapM octet_from_radix octets = Some (rev r).
Proof.
  intros Hlen _. do 7 (destruct octets as [|? octets]; try done). clear Hlen. split.
  - cbn [parse_octets]. intros Hp.
    repeat (case_match; try done). simplify_eq. cbn [replicate insert list_insert Nat.sub].
    cbn. repeat match goal with H : octet_from_radix _ = Some _ |- _ => rewrite H; clear H; cbn end. done.
  - intros Hm. destruct (accepted_octets _ _ Hm) as (_ & _ & Hu).
    rewrite !Forall_cons in Hu. destruct_and!. apply mapM_Some in Hm.
    assert (length (rev r) = 6%nat) as Hr by (by rewrite <- (Forall2_length _ _ _ Hm)).
    rewrite length_rev in Hr. do 7 (destruct r as [|? r]; try done).
    cbn in Hm. rewrite !Forall2_cons in Hm. destruct_and!.
    cbn [parse_octets]. by repeat match goal with H : _ = ?x |- context [?y] => rewrite H; cbn end.
Qed.

Lemma plain_concat octets : Forall plain octets -> plain (concat octets).
Proof. induction 1; simpl; [constructor|]. by apply Forall_app. Qed.

Lemma plain_not_in o c : plain o -> c = COLON \/ c = SLASH -> c ∉ o.
Proof.
  intros Hp Hc Hin. eapply List.Forall_forall in Hp; [|by apply list_elem_of_In]. intuition.
Qed.

(** The texts of an address: six octets, with or without colons. *)
Definition address_text (octets : list (list Z)) (body : list Z) : Prop :=
  length octets = 6%nat /\ (body = concat octets \/ body = join_octets octets).

Lemma join_length (octets : list (list Z)) : Forall (fun o => length o = 2%nat) octets -> octets <> [] ->
  len (join_octets octets) = 3 * len octets - 1.
Proof.
  induction 1 as [|o os Ho Hos IH]; [done|]. intros _. destruct os as [|o' os].
  - unfold len. simpl. lia.
  - change (join_octets (o :: o' :: os)) with (o ++ COLON :: join_octets (o' :: os)).
    rewrite len_app, !len_cons, IH by done. unfold len. rewrite Ho. simpl. lia.
Qed.

Lemma concat_length (octets : list (list Z)) : Forall (fun o => length o = 2%nat) octets ->
  len (concat octets) = 2 * len octets.
Proof.
  induction 1 as [|o os Ho Hos IH]; [done|]. simpl. rewrite len_app, len_cons, IH.
  unfold len. rewrite Ho. lia.
Qed.

Lemma pieces_two (octets : list (list Z)) : existsb (fun octet : list Z => negb (len octet =? 2)) octets = false <->
  Forall (fun o => length o = 2%nat) octets.
Proof.
  induction octets as [|o os IH]; [done|]. simpl. rewrite orb_false_iff, negb_false_iff, Z.eqb_eq, IH.
  rewrite Forall_cons. unfold len. split; intros [? ?]; split; (done || lia).
Qed.

Lemma compact_address_Ok body compact : compact_address body = Ok compact ->
  exists octets, address_text octets body /\ compact = concat octets
    /\ Forall (fun o => length o = 2%nat) octets.
Proof.
  unfold compact_address. destruct (_ && _) eqn:E12.
  - intros [= <-]. apply andb_prop in E12 as [E12 _]. apply Z.eqb_eq in E12.
    assert (length body = 12%nat) as Hl by (unfold len in E12; lia).
    do 13 (destruct body as [|? body]; try done).
    exists [[z; z0]; [z1; z2]; [z3; z4]; [z5; z6]; [z7; z8]; [z9; z10]].
    split_and!; try done; [split; [done|by left]|by repeat constructor].
  - destruct (Z.eqb_spec (len body) 17) as [E|]; [|done].
    destruct (_ || _) eqn:Eo; [done|]. intros [= <-]. bool_to_prop. apply pieces_two in H0.
    exists (split_colon body). split_and!; try done. split; [unfold len in H; lia|].
    right. by rewrite join_split.
Qed.

Lemma compact_address_text octets body bs : mapM octet_from_radix octets = Some bs ->
  address_text octets body -> compact_address body = Ok (concat octets).
Proof.
  intros Hm [Hl Hb]. destruct (accepted_octets _ _ Hm) as (Hp & H2 & _).
  assert (octets <> []) as Hne by (by intros ->). assert (len octets = 6) as Hl' by (unfold len; lia).
  unfold compact_address. destruct Hb as [-> | ->].
  - rewrite concat_length by done. rewrite Hl'. rewrite bool_decide_false; [done|].
    apply plain_not_in; [by apply plain_concat|by left].
  - rewrite join_length, split_join by done. rewrite Hl'. simpl.
    by rewrite (proj2 (pieces_two octets) H2).
Qed.

Lemma strip_public_app body : strip_public (body ++ PUBLIC_SUFFIX) = Some body.
Proof.
  unfold strip_public. replace (length (body ++ PUBLIC_SUFFIX) - 2)%nat with (length body)
    by (rewrite length_app; simpl; lia).
  by rewrite drop_app_length, take_app_length, decide_True.
Qed.

Lemma strip_public_Some value body : strip_public value = Some body -> value = body ++ PUBLIC_SUFFIX.
Proof.
  unfold strip_public. case_decide as E; [|done]. intros [= <-]. rewrite <- E. by rewrite take_drop.
Qed.

(** No text of accepted octets ends with the public suffix. *)
Lemma strip_public_text octets body bs : mapM octet_from_radix octets = Some bs ->
  address_text octets body -> strip_public body = None.
Proof.
  intros Hm Ht. destruct (accepted_octets _ _ Hm) as (Hp & _ & _).
  assert (SLASH ∉ body) as Hs.
  { destruct Ht as [_ [-> | ->]].
    - apply plain_not_in; [by apply plain_concat|by right].
    - clear Hm. induction Hp as [|o os Ho Hos IH]; [by apply not_elem_of_nil|].
      assert (SLASH ∉ o) as Hso by (apply plain_not_in; auto).
      destruct os as [|o' os]; [done|].
      change (join_octets (o :: o' :: os)) with (o ++ COLON :: join_octets (o' :: os)).
      set_solver. }
  destruct (strip_public body) as [b|] eqn:E; [|done]. apply strip_public_Some in E as ->.
  destruct Hs. set_solver.
Qed.

(** Address parsing is exact: a text parses to an address if and only if
    it is six octets, with colons between all or none of them, optionally
    followed by the public suffix, which overrides the requested kind; the
    octets are in display order, most significant first. An octet is two
    hexadecimal digits or, as [u8::from_str_radix] reads it, a plus sign and
    one digit. *)
Theorem address_parse_exact value kind a :
  BluetoothAddress_parse value kind = Ok a <->
  exists octets body,
    address_text octets body
    /\ mapM octet_from_radix octets = Some (rev (address_le a))
    /\ ((value = body ++ PUBLIC_SUFFIX /\ address_kind a = AKPublic)
        \/ (value = body /\ address_kind a = kind)).
Proof.
  unfold BluetoothAddress_parse. split.
  - intros Hp.
    assert (exists body k, (value = body ++ PUBLIC_SUFFIX /\ k = AKPublic \/ value = body /\ k = kind)
      /\ (compact ← compact_address body;
          bytes_le ← parse_octets 0 (chunks_exact 2 compact) (replicate 6 0);
          Ok {| address_le := bytes_le; address_kind := k |}) = Ok a) as (body & k & Hv & Hp').
    { destruct (strip_public value) as [body|] eqn:Es.
      - apply strip_public_Some in Es. eauto 10.
      - eauto 10. }
    clear Hp. destruct (compact_address body) as [c|e|] eqn:Ec; try done. simpl in Hp'.
    destruct (compact_address_Ok _ _ Ec) as (octets & Ht & -> & H2).
    rewrite chunks_concat in Hp' by (done || lia).
    destruct (parse_octets 0 octets _) as [r|e|] eqn:Er; simpl in Hp'; simplify_eq.
    exists octets, body. split; [done|]. split; [|naive_solver].
    apply parse_octets_six; [apply Ht|done|done].
  - intros (octets & body & Ht & Hm & Hv).
    assert (match strip_public value with Some v => (v, AKPublic) | None => (value, kind) end
            = (body, address_kind a)) as ->.
    { destruct Hv as [[-> ->]|[-> ->]]; [by rewrite strip_public_app|].
      by rewrite (strip_public_text octets body _ Hm Ht). }
    rewrite (compact_address_text octets body _ Hm Ht). cbn [mbind res_bind].
    destruct (accepted_octets _ _ Hm) as (_ & H2 & _).
    rewrite chunks_concat by (done || lia).
    rewrite (proj2 (parse_octets_six octets (address_le a) (proj1 Ht) H2) Hm). by destruct a.
Qed.

Lemma format_octet_parses b : u8 b -> octet_from_radix (format_octet b) = Some b.
Proof. revert b. apply (forall_below _). vm_compute. reflexivity. Qed.

(** Printing an address and parsing the text gives the address back; a
    random address takes the kind asked for, since only the public kind is
    written. *)
Theorem address_display_roundtrip a kind : bytes (address_le a) -> length (address_le a) = 6%nat ->
  BluetoothAddress_parse (BluetoothAddress_display a) kind
  = Ok {| address_le := address_le a;
          address_kind := match address_kind a with AKPublic => AKPublic | AKRandom => kind end |}.
Proof.
  intros Hb Hl. apply bytes_rev in Hb. rewrite <- length_rev in Hl.
  assert (mapM octet_from_radix (format_octet <$> rev (address_le a)) = Some (rev (address_le a))) as Hm.
  { apply mapM_Some. clear Hl. induction Hb; constructor; [by apply format_octet_parses|done]. }
  assert (address_text (format_octet <$> rev (address_le a)) (join_octets (format_octet <$> rev (address_le a)))) as Ht.
  { split; [by rewrite length_fmap|by right]. }
  unfold BluetoothAddress_parse, BluetoothAddress_display.
  destruct (accepted_octets _ _ Hm) as (_ & H2 & _).
  destruct (address_kind a); rewrite ?app_nil_r, ?strip_public_app, ?(strip_public_text _ _ _ Hm Ht),
    (compact_address_text _ _ _ Hm Ht); cbn [mbind res_bind]; rewrite chunks_concat by (done || lia);
    by rewrite (proj2 (parse_octets_six _ _ (proj1 Ht) H2) Hm).
Qed.

Lemma address_display_roundtrip_witness :
  let a := {| address_le := [1; 2; 3; 4; 5; 0xAB]; address_kind := AKPublic |} in
  BluetoothAddress_parse (BluetoothAddress_display a) AKRandom = Ok a.
Proof. intros a. apply (address_display_roundtrip a AKRandom); by_compute. Defined.

(** The text ["+1+2+3+4+5+6"] is an address. *)
Example plus_sign_octets :
  BluetoothAddress_parse (concat ((fun d => [PLUS; 48 + d]) <$> [1; 2; 3; 4; 5; 6])) AKPublic
  = Ok {| address_le := [6; 5; 4; 3; 2; 1]; address_kind := AKPublic |}.
Proof. reflexivity. Qed.
