(* ===== verification/Sdp.v ===== *)
(** * SDP data elements and attributes ([src/src/sdp/mod.rs])

    The recursive type-length-value format of service records: the encoder,
    the recursive-descent parser with its nesting limit, and the attribute
    lists built from elements. *)
From S2P Require Import Prelude Values.

(** ** Constants *)

Definition SDP_PSM : Z := 0x0001.
Definition MAX_NESTING : nat := 32.

Module type_code.
Definition NIL : Z := 0.
Definition UNSIGNED_INTEGER : Z := 1.
Definition SIGNED_INTEGER : Z := 2.
Definition UUID : Z := 3.
Definition TEXT_STRING : Z := 4.
Definition BOOLEAN : Z := 5.
Definition SEQUENCE : Z := 6.
Definition ALTERNATIVE : Z := 7.
Definition URL : Z := 8.
End type_code.
Import type_code.

(** ** Data *)

(** Messages are the source's literals with the numbers they quote. *)
Inductive SdpError : Type :=
| SdpInvalidPacket (message : string) (args : list Z)
| SdpInvalidArgument (message : string) (args : list Z).

#[global] Instance SdpError_eq_dec : EqDecision SdpError.
Proof. solve_decision. Defined.

Definition truncated {A} (what : string) : res SdpError A :=
  Err (SdpInvalidPacket ("truncated: expected more bytes for " ++ what) []).

(** Text and URLs are byte strings. *)
Inductive DataElement : Type :=
| Nil
| UnsignedInteger (value size : Z)
| SignedInteger (value size : Z)
| Uuid (uuid : BluetoothUuid)
| TextString (text : list Z)
| Boolean (value : bool)
| Sequence (elements : list DataElement)
| Alternative (elements : list DataElement)
| Url (url : list Z).

Definition unsigned_integer_8 (value : Z) : DataElement := UnsignedInteger value 1.
Definition unsigned_integer_16 (value : Z) : DataElement := UnsignedInteger value 2.
Definition unsigned_integer_32 (value : Z) : DataElement := UnsignedInteger value 4.
Definition public_browse_root : BluetoothUuid := uuid_from_u16 0x1002.

(** ** Serialization *)

Definition DataElement_type_code (self : DataElement) : Z :=
  match self with
  | Nil => NIL
  | UnsignedInteger _ _ => UNSIGNED_INTEGER
  | SignedInteger _ _ => SIGNED_INTEGER
  | Uuid _ => UUID
  | TextString _ => TEXT_STRING
  | Boolean _ => BOOLEAN
  | Sequence _ => SEQUENCE
  | Alternative _ => ALTERNATIVE
  | Url _ => URL
  end.

Definition fixed_size_index (size : Z) : res SdpError Z :=
  if (size =? 0) || (size =? 1) then Ok 0
  else if size =? 2 then Ok 1
  else if size =? 4 then Ok 2
  else if size =? 8 then Ok 3
  else if size =? 16 then Ok 4
  else Err (SdpInvalidArgument "invalid data size" [size]).

Definition variable_size_header (size : Z) : res SdpError (Z * list Z) :=
  if size <=? 0xFF then Ok (5, [size mod 256])
  else if size <=? 0xFFFF then Ok (6, to_be_bytes 2 (size mod 65536))
  else if size <=? 0xFFFFFFFF then Ok (7, to_be_bytes 4 (size mod 4294967296))
  else Err (SdpInvalidArgument "invalid data size" [size]).

Definition integer_size (size : Z) : bool :=
  (size =? 1) || (size =? 2) || (size =? 4) || (size =? 8) || (size =? 16).

Definition unsigned_to_bytes (value size : Z) : res SdpError (list Z) :=
  if negb (integer_size size) then Err (SdpInvalidArgument "invalid value_size" [size]) else
  let all := to_be_bytes 16 value in
  let start := (16 - Z.to_nat size)%nat in
  if existsb (fun b => negb (b =? 0)) (take start all)
  then Err (SdpInvalidArgument "value does not fit" [value; size])
  else Ok (drop start all).

(** The bytes of an [i128] are those of its representative modulo 2^128. *)
Definition signed_to_bytes (value size : Z) : res SdpError (list Z) :=
  if negb (integer_size size) then Err (SdpInvalidArgument "invalid value_size" [size]) else
  let bits := size * 8 in
  let min := - 2 ^ (bits - 1) in
  let max := 2 ^ (bits - 1) - 1 in
  if (bits <? 128) && ((value <? min) || (max <? value))
  then Err (SdpInvalidArgument "value does not fit" [value; size])
  else Ok (drop (16 - Z.to_nat size) (to_be_bytes 16 (value mod 2 ^ 128))).

(** The loop over the elements of a container. *)
Definition children_bytes (to_bytes : DataElement -> res SdpError (list Z))
  : list DataElement -> res SdpError (list Z) :=
  fix go elements := match elements with
  | [] => Ok []
  | element :: rest => b ← to_bytes element; bs ← go rest; Ok (b ++ bs)
  end.

Definition value_bytes (to_bytes : DataElement -> res SdpError (list Z)) (self : DataElement)
  : res SdpError (list Z) :=
  match self with
  | Nil => Ok []
  | UnsignedInteger value size => unsigned_to_bytes value size
  | SignedInteger value size => signed_to_bytes value size
  | Uuid uuid => Ok (rev (uuid_to_bytes uuid false))
  | TextString text => Ok text
  | Boolean b => Ok [if b then 1 else 0]
  | Sequence elements | Alternative elements => children_bytes to_bytes elements
  | Url url => Ok url
  end.

Fixpoint DataElement_to_bytes (self : DataElement) : res SdpError (list Z) :=
  data ← value_bytes DataElement_to_bytes self;
  '(size_index, size_bytes) ←
    match self with
    | Nil | Boolean _ => Ok (0, [])
    | UnsignedInteger _ _ | SignedInteger _ _ | Uuid _ =>
        i ← fixed_size_index (len data); Ok (i, [])
    | TextString _ | Sequence _ | Alternative _ | Url _ => variable_size_header (len data)
    end;
  Ok (Z.lor (Z.shiftl (DataElement_type_code self) 3) size_index :: size_bytes ++ data).

(** ** Parsing *)

(** [acc << 8 | b] on a [u128]: the bits shifted out are lost. *)
Definition be_fold (bs : list Z) (acc : Z) : Z :=
  fold_left (fun acc b => Z.lor (Z.shiftl acc 8 mod 2 ^ 128) b) bs acc.

Definition be_to_u128 (bs : list Z) : Z := be_fold bs 0.

(** [x as i128] *)
Definition as_i128 (x : Z) : Z := if x <? 2 ^ 127 then x else x - 2 ^ 128.

Definition be_to_i128 (bs : list Z) : Z :=
  match bs with
  | [] => 0
  | b :: _ =>
      let negative := negb (Z.land b 0x80 =? 0) in
      as_i128 (be_fold bs (if negative then 2 ^ 128 - 1 else 0))
  end.

Definition read_be_u16 (data : list Z) (offset : nat) : res SdpError Z :=
  match get_range data offset (offset + 2) with
  | Some s => Ok (from_be_bytes s)
  | None => Err (SdpInvalidPacket "truncated 2-byte size" [])
  end.

Definition read_be_u32 (data : list Z) (offset : nat) : res SdpError Z :=
  match get_range data offset (offset + 4) with
  | Some s => Ok (from_be_bytes s)
  | None => Err (SdpInvalidPacket "truncated 4-byte size" [])
  end.

(** The value size and where the value starts. *)
Definition element_extent (data : list Z) (pos : nat) (element_type size_index : Z)
  : res SdpError (Z * nat) :=
  if size_index =? 0 then Ok (if element_type =? NIL then 0 else 1, pos)
  else if size_index =? 1 then Ok (2, pos)
  else if size_index =? 2 then Ok (4, pos)
  else if size_index =? 3 then Ok (8, pos)
  else if size_index =? 4 then Ok (16, pos)
  else if size_index =? 5 then
    s ← ok_or (data !! pos) (SdpInvalidPacket "truncated 1-byte size" []); Ok (s, (pos + 1)%nat)
  else if size_index =? 6 then s ← read_be_u16 data pos; Ok (s, (pos + 2)%nat)
  else if size_index =? 7 then s ← read_be_u32 data pos; Ok (s, (pos + 4)%nat)
  else Panic.

(** [while inner < value_end]: one unit of fuel per element; running out is
    reported as [Panic], which the theorems exclude. *)
Fixpoint parse_children (parse : nat -> res SdpError (nat * DataElement)) (fuel inner value_end : nat)
  : res SdpError (nat * list DataElement) :=
  if (inner <? value_end)%nat then
    match fuel with
    | O => Panic
    | S fuel' =>
        '(next, child) ← parse inner;
        '(last, rest) ← parse_children parse fuel' next value_end;
        Ok (last, child :: rest)
    end
  else Ok (inner, []).

(** The elements of a container, which must end where its value ends. *)
Definition parse_container (parse : nat -> res SdpError (nat * DataElement)) (fuel value_start value_end : nat)
  : res SdpError (list DataElement) :=
  '(inner, elements) ← parse_children parse fuel value_start value_end;
  if negb (inner =? value_end)%nat
  then Err (SdpInvalidPacket "container elements overran their length" [])
  else Ok elements.

(** The element of a given type and value; [container] is what parsing the
    value as a container gives. *)
Definition element_value (container : res SdpError (list DataElement)) (element_type value_size : Z)
  (value : list Z) : res SdpError DataElement :=
  if element_type =? NIL then Ok Nil
  else if element_type =? UNSIGNED_INTEGER then
    Ok (UnsignedInteger (be_to_u128 value) (value_size mod 256))
  else if element_type =? SIGNED_INTEGER then
    Ok (SignedInteger (be_to_i128 value) (value_size mod 256))
  else if element_type =? UUID then
    uuid ← map_err (fun _ => SdpInvalidPacket "bad UUID" [value_size]) (uuid_from_le_bytes (rev value));
    Ok (Uuid uuid)
  else if element_type =? TEXT_STRING then Ok (TextString value)
  else if element_type =? BOOLEAN then Ok (Boolean (bool_decide (head value = Some 1)))
  else if (element_type =? SEQUENCE) || (element_type =? ALTERNATIVE) then
    elements ← container;
    Ok (if element_type =? SEQUENCE then Sequence elements else Alternative elements)
  else if element_type =? URL then
    if utf8_valid value then Ok (Url value) else Err (SdpInvalidPacket "bad URL utf-8" [])
  else Err (SdpInvalidPacket "unsupported data element type" [element_type]).

Definition nesting_error : SdpError := SdpInvalidPacket "nesting exceeds max depth" [Z.of_nat MAX_NESTING].

(** [levels] is [MAX_NESTING - depth]: the depth check is the end of the
    recursion. *)
Fixpoint parse_at (data : list Z) (levels : nat) (offset : nat) {struct levels}
  : res SdpError (nat * DataElement) :=
  if (length data <=? offset)%nat
  then Err (SdpInvalidPacket "offset exceeds len" [Z.of_nat offset; len data]) else
  header ← idx data offset;
  let element_type := Z.shiftr header 3 in
  let size_index := Z.land header 7 in
  '(value_size, value_start) ← element_extent data (offset + 1) element_type size_index;
  if len data <? Z.of_nat value_start + value_size
  then Err (SdpInvalidPacket "element value runs past end" [value_size; Z.of_nat value_start]) else
  let value_end := (value_start + Z.to_nat value_size)%nat in
  value ← slice data value_start value_end;
  element ← element_value
    (match levels with
     | O => Err nesting_error
     | S levels' => parse_container (parse_at data levels') (length data) value_start value_end
     end) element_type value_size value;
  Ok (value_end, element).

Definition parse_from_bytes (data : list Z) (offset : nat) : res SdpError (nat * DataElement) :=
  parse_at data MAX_NESTING offset.

Definition DataElement_from_bytes (data : list Z) : res SdpError DataElement :=
  '(_, element) ← parse_from_bytes data 0; Ok element.

(** ** Attributes *)

Record ServiceAttribute : Type := mkAttribute {
  attribute_id : Z;
  attribute_value : DataElement
}.

Definition list_to_data_element (attributes : list ServiceAttribute) : DataElement :=
  Sequence (concat ((fun a => [unsigned_integer_16 (attribute_id a); attribute_value a]) <$> attributes)).

Fixpoint list_from_data_elements (elements : list DataElement) : list ServiceAttribute :=
  match elements with
  | id :: value :: rest =>
      match id with
      | UnsignedInteger v _ =>
          {| attribute_id := v mod 65536; attribute_value := value |} :: list_from_data_elements rest
      | _ => list_from_data_elements rest
      end
  | _ => []
  end.

Definition find_attribute (attributes : list ServiceAttribute) (id : Z) : option DataElement :=
  attribute_value <$> List.find (fun a => attribute_id a =? id) attributes.

Fixpoint is_uuid_in_value (uuid : BluetoothUuid) (value : DataElement) : bool :=
  match value with
  | Uuid candidate => uuid_eq candidate uuid
  | Sequence elements => existsb (is_uuid_in_value uuid) elements
  | _ => false
  end.

(** ** Induction on elements *)

Section element_induction.
Context (P : DataElement -> Prop)
  (HNil : P Nil)
  (HUnsigned : forall v n, P (UnsignedInteger v n))
  (HSigned : forall v n, P (SignedInteger v n))
  (HUuid : forall u, P (Uuid u))
  (HText : forall t, P (TextString t))
  (HBool : forall b, P (Boolean b))
  (HSequence : forall es, Forall P es -> P (Sequence es))
  (HAlternative : forall es, Forall P es -> P (Alternative es))
  (HUrl : forall u, P (Url u)).

Fixpoint element_ind (e : DataElement) : P e :=
  let children := fix go es : Forall P es :=
    match es with
    | [] => List.Forall_nil P
    | e :: es => List.Forall_cons P e es (element_ind e) (go es)
    end in
  match e with
  | Nil => HNil
  | UnsignedInteger v n => HUnsigned v n
  | SignedInteger v n => HSigned v n
  | Uuid u => HUuid u
  | TextString t => HText t
  | Boolean b => HBool b
  | Sequence es => HSequence es (children es)
  | Alternative es => HAlternative es (children es)
  | Url u => HUrl u
  end.
End element_induction.

(** ** Well-formed elements *)

(** The values of the source's types that its constructors are meant for:
    integers of a wire size that fit it, UUIDs and texts of bytes, URLs that
    are strings. *)
Fixpoint element_ok (e : DataElement) : bool :=
  match e with
  | Nil | Boolean _ => true
  | UnsignedInteger v n => integer_size n && (0 <=? v) && (v <? 2 ^ (8 * n))
  | SignedInteger v n => integer_size n && (- 2 ^ (8 * n - 1) <=? v) && (v <? 2 ^ (8 * n - 1))
  | Uuid u => bool_decide (bytes (uuid_le u))
  | TextString t => bool_decide (bytes t)
  | Sequence es | Alternative es => forallb element_ok es
  | Url u => bool_decide (bytes u) && utf8_valid u
  end.

Fixpoint nesting (e : DataElement) : nat :=
  match e with
  | Sequence es | Alternative es => S (foldr Nat.max 0%nat (nesting <$> es))
  | _ => 0%nat
  end.

(** ** Big-endian integers *)

Lemma from_le_bytes_app l1 l2 :
  from_le_bytes (l1 ++ l2) = from_le_bytes l1 + 256 ^ len l1 * from_le_bytes l2.
Proof.
  induction l1 as [|b l1 IH]; [unfold len; simpl; unfold from_le_bytes at 2; lia|].
  rewrite <- app_comm_cons. change (from_le_bytes (b :: ?l)) with (b + 256 * from_le_bytes l).
  rewrite IH, len_cons, Z.pow_add_r by (pose proof (len_nonneg l1); lia). lia.
Qed.

Lemma from_be_bytes_cons b l : from_be_bytes (b :: l) = b * 256 ^ len l + from_be_bytes l.
Proof.
  unfold from_be_bytes. simpl rev. rewrite from_le_bytes_app. unfold len. rewrite length_rev.
  change (from_le_bytes [b]) with (b + 256 * 0). lia.
Qed.

Lemma to_le_bytes_split n m x :
  to_le_bytes (n + m) x = to_le_bytes n x ++ to_le_bytes m (x / 256 ^ Z.of_nat n).
Proof.
  revert x. induction n as [|n IH]; intros x.
  - simpl. by rewrite Z.div_1_r.
  - change (to_le_bytes (S n + m) x) with (x mod 256 :: to_le_bytes (n + m) (x / 256)).
    change (to_le_bytes (S n) x) with (x mod 256 :: to_le_bytes n (x / 256)).
    rewrite IH, <- app_comm_cons. do 3 f_equal.
    rewrite Z.div_div, Nat2Z.inj_succ, Z.pow_succ_r by lia. done.
Qed.

Lemma to_be_bytes_split n m x : to_be_bytes (n + m) x = to_be_bytes m (x / 256 ^ Z.of_nat n) ++ to_be_bytes n x.
Proof. unfold to_be_bytes. by rewrite to_le_bytes_split, rev_app_distr. Qed.

Lemma be_fold_value bs : bytes bs -> forall acc, 0 <= acc < 2 ^ 128 ->
  be_fold bs acc = (acc * 256 ^ len bs + from_be_bytes bs) mod 2 ^ 128.
Proof.
  induction 1 as [|b bs Hb Hbs IH]; intros acc Hacc.
  - change (be_fold [] acc) with acc. change (from_be_bytes []) with 0. change (256 ^ len []) with 1.
    rewrite Z.mod_small by lia. lia.
  - change (be_fold (b :: bs) acc) with (be_fold bs (Z.lor (Z.shiftl acc 8 mod 2 ^ 128) b)).
    assert (Z.lor (Z.shiftl acc 8 mod 2 ^ 128) b = (acc * 256 + b) mod 2 ^ 128) as ->.
    { rewrite Z.shiftl_mul_pow2 by lia. change (2 ^ 8) with 256. change (2 ^ 128) with (2 ^ 120 * 256).
      rewrite Zmult_mod_distr_r. rewrite <- (Z.shiftl_mul_pow2 _ 8) by lia.
      rewrite Z.lor_comm, lor_shiftl_add by lia. change (2 ^ 8) with 256.
      pose proof (Z.mod_pos_bound acc (2 ^ 120)). pose proof (Z.div_mod acc (2 ^ 120)).
      apply Z.mod_unique with (q := acc / 2 ^ 120); lia. }
    rewrite IH by (apply Z.mod_pos_bound; lia).
    rewrite from_be_bytes_cons, len_cons, Z.pow_add_r by (pose proof (len_nonneg bs); lia).
    rewrite <- Zplus_mod_idemp_l, Zmult_mod_idemp_l, Zplus_mod_idemp_l. f_equal. lia.
Qed.

Lemma integer_size_cases n : integer_size n = true -> n = 1 \/ n = 2 \/ n = 4 \/ n = 8 \/ n = 16.
Proof. unfold integer_size. rewrite !orb_true_iff, !Z.eqb_eq. tauto. Qed.

Lemma to_be_tail n x : 0 < n <= 16 -> drop (16 - Z.to_nat n) (to_be_bytes 16 x) = to_be_bytes (Z.to_nat n) x.
Proof.
  intros Hn. replace 16%nat with (Z.to_nat n + (16 - Z.to_nat n))%nat at 2 by lia.
  rewrite to_be_bytes_split. rewrite <- (length_to_be_bytes (16 - Z.to_nat n) (x / 256 ^ Z.of_nat (Z.to_nat n))) at 1.
  apply drop_app_length.
Qed.

Lemma to_be_zeros n : existsb (fun b => negb (b =? 0)) (to_be_bytes n 0) = false.
Proof.
  unfold to_be_bytes.
  assert (forall l, Forall (fun b => b = 0) l -> existsb (fun b => negb (b =? 0)) l = false) as Hz.
  { induction 1 as [|b l -> Hl IH]; [done|]. simpl. done. }
  apply Hz. apply Forall_rev. induction n as [|n IH]; constructor; [done|exact IH].
Qed.

Lemma unsigned_to_bytes_ok v n : integer_size n = true -> 0 <= v < 2 ^ (8 * n) ->
  unsigned_to_bytes v n = Ok (to_be_bytes (Z.to_nat n) v).
Proof.
  intros Hn Hv. unfold unsigned_to_bytes. rewrite Hn. simpl negb. cbv iota.
  apply integer_size_cases in Hn. rewrite to_be_tail by lia.
  replace (take (16 - Z.to_nat n) (to_be_bytes 16 v)) with (to_be_bytes (16 - Z.to_nat n) 0); [by rewrite to_be_zeros|].
  replace 16%nat with (Z.to_nat n + (16 - Z.to_nat n))%nat at 3 by lia.
  rewrite to_be_bytes_split, Z2Nat.id, Z.div_small by (try lia; replace 256 with (2 ^ 8) by done; rewrite <- Z.pow_mul_r; lia).
  rewrite <- (length_to_be_bytes (16 - Z.to_nat n) 0) at 2. by rewrite take_app_length.
Qed.

Lemma be_to_u128_roundtrip v n : integer_size n = true -> 0 <= v < 2 ^ (8 * n) ->
  be_to_u128 (to_be_bytes (Z.to_nat n) v) = v.
Proof.
  intros Hn Hv. apply integer_size_cases in Hn.
  unfold be_to_u128. rewrite be_fold_value by (try apply bytes_to_be; lia).
  replace (2 ^ (8 * n)) with (256 ^ n) in Hv by (replace 256 with (2 ^ 8) by done; by rewrite <- Z.pow_mul_r by lia).
  rewrite from_to_be_bytes by (rewrite Z2Nat.id; lia).
  rewrite Z.mul_0_l, Z.add_0_l, Z.mod_small; [done|].
  split; [lia|]. eapply Z.lt_le_trans; [apply Hv|].
  change (2 ^ 128) with (256 ^ 16). apply Z.pow_le_mono_r; lia.
Qed.

Lemma to_be_bytes_mod n x : to_be_bytes n (x mod 256 ^ Z.of_nat n) = to_be_bytes n x.
Proof.
  unfold to_be_bytes. f_equal. revert x. induction n as [|n IH]; intros x; [done|].
  change (to_le_bytes (S n) ?y) with (y mod 256 :: to_le_bytes n (y / 256)).
  rewrite Nat2Z.inj_succ, Z.pow_succ_r by lia.
  assert (0 < 256 ^ Z.of_nat n) by lia. f_equal.
  - rewrite Z.rem_mul_r, Z.mul_comm, Z.mod_add, Z.mod_mod by lia. done.
  - rewrite Z.rem_mul_r, (Z.mul_comm 256), Z.div_add by lia.
    rewrite (Z.div_small (x mod 256)) by (apply Z.mod_pos_bound; lia). rewrite Z.add_0_l. apply IH.
Qed.

(** The sign bit of a two's complement encoding. *)
Lemma sign_byte m x : 0 <= x < 256 ^ Z.of_nat (S m) ->
  exists b l, to_be_bytes (S m) x = b :: l /\ (Z.land b 0x80 =? 0) = (x <? 128 * 256 ^ Z.of_nat m).
Proof.
  intros Hx. replace (S m) with (m + 1)%nat in * by lia. rewrite to_be_bytes_split.
  set (b := x / 256 ^ Z.of_nat m). exists (b mod 256), (to_be_bytes m x). split; [done|].
  rewrite Nat2Z.inj_add, Z.pow_add_r in Hx by lia. change (256 ^ Z.of_nat 1) with 256 in Hx.
  assert (0 <= b < 256) as Hb.
  { split; [apply Z.div_pos; lia|]. apply Z.div_lt_upper_bound; lia. }
  rewrite Z.mod_small by lia.
  assert ((Z.land b 0x80 =? 0) = (b <? 128)) as ->.
  { clearbody b. clear Hx. revert b Hb. apply (forall_below _). vm_compute. reflexivity. }
  unfold b. destruct (Z.ltb_spec (x / 256 ^ Z.of_nat m) 128); destruct (Z.ltb_spec x (128 * 256 ^ Z.of_nat m)); try done.
  - assert (128 <= x / 256 ^ Z.of_nat m); [|lia]. apply Z.div_le_lower_bound; lia.
  - assert (x / 256 ^ Z.of_nat m < 128); [|lia]. apply Z.div_lt_upper_bound; lia.
Qed.

Lemma pow_256 n : 0 <= n -> 2 ^ (8 * n) = 256 ^ n.
Proof. intros. replace 256 with (2 ^ 8) by done. by rewrite <- Z.pow_mul_r by lia. Qed.

Lemma be_to_i128_roundtrip v m : (m < 16)%nat -> - 2 ^ (8 * Z.of_nat (S m) - 1) <= v < 2 ^ (8 * Z.of_nat (S m) - 1) ->
  be_to_i128 (to_be_bytes (S m) v) = v.
Proof.
  intros Hm Hv. replace (2 ^ (8 * Z.of_nat (S m) - 1)) with (128 * 256 ^ Z.of_nat m) in Hv.
  2:{ rewrite Nat2Z.inj_succ, <- pow_256 by lia. change 128 with (2 ^ 7). rewrite <- Z.pow_add_r by lia. f_equal. lia. }
  set (x := v mod 256 ^ Z.of_nat (S m)).
  assert (256 ^ Z.of_nat (S m) = 256 * 256 ^ Z.of_nat m) as Hp by (by rewrite Nat2Z.inj_succ, Z.pow_succ_r by lia).
  assert (0 < 256 ^ Z.of_nat m) as Hpos by lia.
  assert (256 ^ Z.of_nat m <= 256 ^ 15) as Hle by (apply Z.pow_le_mono_r; lia).
  change (256 ^ 15) with (2 ^ 120) in Hle.
  assert (x = if v <? 0 then v + 256 ^ Z.of_nat (S m) else v) as Hx.
  { unfold x. destruct (Z.ltb_spec v 0).
    - symmetry. apply Z.mod_unique with (q := -1); lia.
    - apply Z.mod_small. lia. }
  rewrite <- to_be_bytes_mod. fold x.
  destruct (sign_byte m x) as (b & l & Hb & Hsign).
  { rewrite Hx. destruct (Z.ltb_spec v 0); lia. }
  unfold be_to_i128. rewrite Hb, Hsign, <- Hb.
  assert (forall b : bool, 0 <= (if b then 2 ^ 128 - 1 else 0) < 2 ^ 128) as Hinit by (by intros []).
  rewrite be_fold_value by (try apply bytes_to_be; apply Hinit).
  rewrite from_to_be_bytes by (rewrite Hx; destruct (Z.ltb_spec v 0); lia).
  unfold len. rewrite length_to_be_bytes, Hp. rewrite Hp in Hx. rewrite Hx. unfold as_i128.
  destruct (Z.ltb_spec v 0).
  - destruct (Z.ltb_spec (v + 256 * 256 ^ Z.of_nat m) (128 * 256 ^ Z.of_nat m)); [lia|]. simpl negb. cbv iota.
    replace (((2 ^ 128 - 1) * (256 * 256 ^ Z.of_nat m) + (v + 256 * 256 ^ Z.of_nat m)) mod 2 ^ 128) with (v + 2 ^ 128).
    + destruct (Z.ltb_spec (v + 2 ^ 128) (2 ^ 127)); lia.
    + apply Z.mod_unique with (q := 256 * 256 ^ Z.of_nat m - 1); lia.
  - destruct (Z.ltb_spec v (128 * 256 ^ Z.of_nat m)); [|lia]. simpl negb. cbv iota.
    rewrite Z.mul_0_l, Z.add_0_l, Z.mod_small by lia. destruct (Z.ltb_spec v (2 ^ 127)); lia.
Qed.

Lemma signed_to_bytes_ok v n : integer_size n = true -> - 2 ^ (8 * n - 1) <= v < 2 ^ (8 * n - 1) ->
  signed_to_bytes v n = Ok (to_be_bytes (Z.to_nat n) v).
Proof.
  intros Hn Hv. unfold signed_to_bytes. rewrite Hn. simpl negb. cbv iota.
  apply integer_size_cases in Hn. rewrite (Z.mul_comm n 8).
  rewrite (proj2 (Z.ltb_ge v _)), (proj2 (Z.ltb_ge _ v)) by lia. rewrite andb_false_r.
  rewrite to_be_tail by lia. f_equal.
  rewrite <- to_be_bytes_mod, <- (to_be_bytes_mod _ v). f_equal. rewrite Z2Nat.id by lia.
  change (2 ^ 128) with (256 ^ 16). replace 16 with (n + (16 - n)) by lia.
  rewrite Z.pow_add_r by lia. rewrite Z.rem_mul_r by lia.
  rewrite (Z.mul_comm (256 ^ n)), Z.mod_add by lia. apply Z.mod_mod. lia.
Qed.

(** ** Framing *)

Lemma header_parts t i : 0 <= t < 32 -> 0 <= i < 8 ->
  Z.shiftr (Z.lor (Z.shiftl t 3) i) 3 = t /\ Z.land (Z.lor (Z.shiftl t 3) i) 7 = i
  /\ u8 (Z.lor (Z.shiftl t 3) i).
Proof.
  intros Ht Hi. rewrite Z.lor_comm, lor_shiftl_add by lia. split_and!.
  - rewrite Z.shiftr_div_pow2 by lia. apply field_high; lia.
  - change 7 with (2 ^ 3 - 1). rewrite land_low_mod by lia. apply field_low; lia.
  - change (2 ^ 3) with 8. lia.
  - change (2 ^ 3) with 8. lia.
Qed.

(** A header and its size field announce a value of [n] bytes. *)
Definition announces (t i : Z) (sb : list Z) (n : Z) : Prop :=
  forall pre post, element_extent (pre ++ sb ++ post) (length pre) t i = Ok (n, (length pre + length sb)%nat).

Lemma announces_fixed t i n : t <> NIL -> n <> 0 -> fixed_size_index n = Ok i -> announces t i [] n.
Proof.
  intros Ht Hn Hi pre post. unfold fixed_size_index in Hi. unfold element_extent.
  rewrite app_nil_l, Nat.add_0_r. apply Z.eqb_neq in Ht. rewrite Ht.
  destruct (Z.eqb_spec n 0); [done|]. simpl orb in Hi.
  repeat case_match; simplify_eq; bool_to_prop; subst; try done.
Qed.

Lemma announces_variable t i sb n : 0 <= n -> variable_size_header n = Ok (i, sb) -> announces t i sb n.
Proof.
  intros Hn Hi pre post. unfold variable_size_header in Hi.
  destruct (Z.leb_spec n 0xFF); [|destruct (Z.leb_spec n 0xFFFF); [|destruct (Z.leb_spec n 0xFFFFFFFF); [|done]]];
    injection Hi as <- <-; unfold element_extent; cbn [Z.eqb Pos.eqb].
  - simpl app. rewrite list_lookup_middle by done. simpl. rewrite Z.mod_small by lia. done.
  - unfold read_be_u16. rewrite Z.mod_small by lia.
    replace (length pre + 2)%nat with (length pre + length (to_be_bytes 2 n))%nat
      by (by rewrite length_to_be_bytes).
    rewrite get_range_app. cbn [mbind res_bind]. by rewrite from_to_be_bytes by (simpl; lia).
  - unfold read_be_u32. rewrite Z.mod_small by lia.
    replace (length pre + 4)%nat with (length pre + length (to_be_bytes 4 n))%nat
      by (by rewrite length_to_be_bytes).
    rewrite get_range_app. cbn [mbind res_bind]. by rewrite from_to_be_bytes by (simpl; lia).
Qed.

(** What the parser does on an element that is framed correctly. *)
Lemma parse_framed pre post t i sb val levels : 0 <= t < 32 -> 0 <= i < 8 -> announces t i sb (len val) ->
  let bs := Z.lor (Z.shiftl t 3) i :: sb ++ val in
  let data := pre ++ bs ++ post in
  let value_start := (length pre + 1 + length sb)%nat in
  let value_end := (length pre + length bs)%nat in
  parse_at data levels (length pre)
  = element ← element_value
      (match levels with
       | O => Err nesting_error
       | S levels' => parse_container (parse_at data levels') (length data) value_start value_end
       end) t (len val) val;
    Ok (value_end, element).
Proof.
  intros Ht Hi Ha. cbn zeta.
  set (bs := Z.lor (Z.shiftl t 3) i :: sb ++ val). set (data := pre ++ bs ++ post).
  destruct (header_parts t i Ht Hi) as (Ht' & Hi' & _).
  assert (data = (pre ++ [Z.lor (Z.shiftl t 3) i]) ++ sb ++ val ++ post) as Hd.
  { unfold data, bs. by rewrite <- !app_assoc, <- app_comm_cons, <- !app_assoc. }
  assert (length data = length pre + 1 + length sb + length val + length post)%nat as Hl.
  { rewrite Hd, !length_app. simpl. lia. }
  assert (length bs = 1 + length sb + length val)%nat as Hlb.
  { unfold bs. simpl. rewrite length_app. lia. }
  assert (slice (E:=SdpError) data (length pre + 1 + length sb) (length pre + length bs) = Ok val) as Hslice.
  { unfold slice. replace data with (((pre ++ [Z.lor (Z.shiftl t 3) i]) ++ sb) ++ val ++ post)
      by (by rewrite Hd, <- !app_assoc).
    replace (length pre + 1 + length sb)%nat with (length ((pre ++ [Z.lor (Z.shiftl t 3) i]) ++ sb))
      by (rewrite !length_app; done).
    replace (length pre + length bs)%nat with (length ((pre ++ [Z.lor (Z.shiftl t 3) i]) ++ sb) + length val)%nat
      by (rewrite Hlb, !length_app; cbn [length]; lia).
    by rewrite get_range_app. }
  assert (length pre + 1 + length sb + Z.to_nat (len val) = length pre + length bs)%nat as Hend
    by (unfold len; lia).
  specialize (Ha (pre ++ [Z.lor (Z.shiftl t 3) i]) (val ++ post)). rewrite <- Hd, length_app in Ha.
  cbn [length] in Ha.
  destruct levels as [|levels']; cbn [parse_at].
  all: rewrite (proj2 (Nat.leb_gt _ _)) by lia.
  all: unfold idx at 1; replace (data !! length pre) with (Some (Z.lor (Z.shiftl t 3) i))
    by (unfold data, bs; rewrite <- app_comm_cons; by rewrite list_lookup_middle).
  all: cbn [expect mbind res_bind]; rewrite Ht', Hi', Ha; cbn [mbind res_bind length].
  all: rewrite (proj2 (Z.ltb_ge _ _)) by (unfold len; lia).
  all: by rewrite Hend, Hslice.
Qed.

(** ** Round trip *)

Definition size_header (e : DataElement) (n : Z) : res SdpError (Z * list Z) :=
  match e with
  | Nil | Boolean _ => Ok (0, [])
  | UnsignedInteger _ _ | SignedInteger _ _ | Uuid _ => i ← fixed_size_index n; Ok (i, [])
  | TextString _ | Sequence _ | Alternative _ | Url _ => variable_size_header n
  end.

Lemma to_bytes_unfold e : DataElement_to_bytes e =
  (val ← value_bytes DataElement_to_bytes e;
   '(i, sb) ← size_header e (len val);
   Ok (Z.lor (Z.shiftl (DataElement_type_code e) 3) i :: sb ++ val)).
Proof. by destruct e. Qed.

(** The value bytes of leaves, and what the parser makes of them. *)
Lemma leaf_value e val container : element_ok e = true ->
  match e with Sequence _ | Alternative _ => False | _ => True end ->
  value_bytes DataElement_to_bytes e = Ok val ->
  bytes val
  /\ match e with
     | Nil => len val = 0
     | UnsignedInteger _ _ | SignedInteger _ _ | Uuid _ => len val <> 0
     | Boolean _ => len val = 1
     | _ => True
     end
  /\ element_value container (DataElement_type_code e) (len val) val = Ok e.
Proof.
  intros Hok Hleaf Hv. destruct e as [|v n|v n|u|t|b|es|es|u]; try done; cbn [value_bytes] in Hv;
    cbn [element_ok] in Hok; bool_to_prop; unfold element_value; cbn [DataElement_type_code].
  - injection Hv as <-. split_and!; try done. apply bytes_nil.
  - rewrite unsigned_to_bytes_ok in Hv by done. injection Hv as <-.
    pose proof (integer_size_cases n ltac:(done)). unfold len. rewrite length_to_be_bytes.
    split_and!; [apply bytes_to_be|lia|]. simpl.
    rewrite be_to_u128_roundtrip, Z2Nat.id, Z.mod_small by (done || lia). done.
  - rewrite signed_to_bytes_ok in Hv by done. injection Hv as <-.
    pose proof (integer_size_cases n ltac:(done)). unfold len. rewrite length_to_be_bytes.
    split_and!; [apply bytes_to_be|lia|]. simpl. rewrite Z2Nat.id, Z.mod_small by lia.
    destruct (Z.to_nat n) as [|m] eqn:Hm; [lia|]. rewrite be_to_i128_roundtrip; [done|lia|].
    replace (Z.of_nat (S m)) with n by lia. done.
  - injection Hv as <-. unfold uuid_to_bytes. apply bool_decide_eq_true in Hok.
    pose proof (uuid_width_cases u). unfold len in *. rewrite length_rev.
    split_and!; [by apply bytes_rev|lia|]. simpl. rewrite rev_involutive.
    unfold uuid_from_le_bytes. case_decide as Hw; [|by destruct u]. simpl. by rewrite (uuid_ext (mkUuid _ Hw) u).
  - injection Hv as <-. by apply bool_decide_eq_true in Hok.
  - injection Hv as <-. destruct b; split_and!; try done; by_compute.
  - injection Hv as <-. apply bool_decide_eq_true in H. simpl. by rewrite H0.
Qed.

(** An encoding is a header, a size field that announces the value, and the
    value. *)
Lemma encoding_framed e bs : element_ok e = true -> DataElement_to_bytes e = Ok bs ->
  exists i sb val, value_bytes DataElement_to_bytes e = Ok val
    /\ bs = Z.lor (Z.shiftl (DataElement_type_code e) 3) i :: sb ++ val
    /\ 0 <= DataElement_type_code e < 9 /\ 0 <= i < 8 /\ bytes sb
    /\ announces (DataElement_type_code e) i sb (len val).
Proof.
  intros Hok Hto. rewrite to_bytes_unfold in Hto.
  destruct (value_bytes DataElement_to_bytes e) as [val| |] eqn:Hv; try done. cbn [mbind res_bind] in Hto.
  destruct (size_header e (len val)) as [[i sb]| |] eqn:Hs; try done. injection Hto as <-.
  exists i, sb, val. split; [done|]. split; [done|].
  assert (forall i' (sb' : list Z), fixed_size_index (len val) ≫= (fun i => Ok (i, [])) = Ok (i', sb') ->
    fixed_size_index (len val) = Ok i' /\ 0 <= i' < 8 /\ sb' = []) as Hfix.
  { intros i' sb'. unfold fixed_size_index. by repeat case_match; intros; simplify_eq/=. }
  assert (variable_size_header (len val) = Ok (i, sb) -> 0 <= i < 8 /\ bytes sb) as Hvar.
  { unfold variable_size_header.
    repeat case_match; intros; simplify_eq; split; try lia; try apply bytes_to_be.
    apply bytes_cons. split; [apply Z.mod_pos_bound; lia|apply bytes_nil]. }
  pose proof (fun H => leaf_value e val (Ok []) Hok H Hv) as Hleaf.
  pose proof bytes_nil as Hnil. pose proof (len_nonneg val) as Hlen.
  destruct e; cbn [size_header DataElement_type_code] in *; (split; [done|]).
  1,6: destruct (Hleaf I) as (_ & Hn & _); injection Hs as <- <-; split_and!; try done; rewrite Hn;
    intros ??; by rewrite Nat.add_0_r.
  1,2,3: destruct (Hleaf I) as (_ & Hn & _); destruct (Hfix _ _ Hs) as (Hf & ? & ->); split_and!; try lia; try done;
    by apply announces_fixed.
  all: destruct (Hvar Hs); split_and!; try lia; try done; by apply announces_variable.
Qed.

(** The parser's answer on the encoding of an element, wherever it stands. *)
Definition parses (e : DataElement) (bs : list Z) : Prop :=
  forall levels pre post, parse_at (pre ++ bs ++ post) levels (length pre)
    = if (nesting e <=? levels)%nat then Ok ((length pre + length bs)%nat, e) else Err nesting_error.

Definition encodes_well (e : DataElement) : Prop :=
  forall bs, DataElement_to_bytes e = Ok bs -> bytes bs /\ bs <> [] /\ parses e bs.

Lemma children_encode es val : Forall encodes_well es -> children_bytes DataElement_to_bytes es = Ok val ->
  bytes val /\ forall levels pre post fuel, (length val <= fuel)%nat ->
    parse_children (parse_at (pre ++ val ++ post) levels) fuel (length pre) (length pre + length val)
    = if forallb (fun e => (nesting e <=? levels)%nat) es
      then Ok ((length pre + length val)%nat, es) else Err nesting_error.
Proof.
  intros Hes. revert val. induction Hes as [|e es He Hes IH]; intros val Hv; cbn [children_bytes] in Hv.
  - injection Hv as <-. split; [apply bytes_nil|]. intros levels pre post fuel _.
    rewrite Nat.add_0_r. destruct fuel; simpl; by rewrite Nat.ltb_irrefl.
  - destruct (DataElement_to_bytes e) as [b| |] eqn:Hb; try done. cbn [mbind res_bind] in Hv.
    destruct (He b Hb) as (Hbb & Hne & Hp).
    destruct (children_bytes DataElement_to_bytes es) as [bs| |] eqn:Hbs; try done. injection Hv as <-.
    destruct (IH bs eq_refl) as [Hbytes IHp]. split; [by apply bytes_app|].
    intros levels pre post fuel Hf. rewrite length_app in Hf |- *.
    assert (0 < length b)%nat by (destruct b; [done|simpl; lia]).
    destruct fuel as [|fuel]; [lia|]. cbn [parse_children].
    rewrite (proj2 (Nat.ltb_lt _ _)) by lia. rewrite <- !app_assoc, Hp. cbn [forallb].
    destruct (nesting e <=? levels)%nat; [|done]. cbn [mbind res_bind andb].
    specialize (IHp levels (pre ++ b) post fuel). rewrite length_app, <- app_assoc in IHp.
    replace (length pre + (length b + length bs))%nat with (length pre + length b + length bs)%nat by lia.
    rewrite IHp by lia. by destruct (forallb _ es).
Qed.

Lemma forallb_nesting es levels :
  forallb (fun e => (nesting e <=? levels)%nat) es = (foldr Nat.max 0 (nesting <$> es) <=? levels)%nat.
Proof.
  induction es as [|e es IH]; [done|]. rewrite fmap_cons. cbn [forallb foldr]. rewrite IH.
  apply eq_true_iff_eq. rewrite andb_true_iff, !Nat.leb_le. symmetry. apply Nat.max_lub_iff.
Qed.

Lemma container_encodes e es bs : element_ok e = true ->
  (e = Sequence es \/ e = Alternative es) -> Forall encodes_well es ->
  DataElement_to_bytes e = Ok bs -> bytes bs /\ bs <> [] /\ parses e bs.
Proof.
  intros Hok He Hes Hto.
  destruct (encoding_framed e bs Hok Hto) as (i & sb & val & Hv & -> & Ht & Hi & Hsb & Ha).
  assert (children_bytes DataElement_to_bytes es = Ok val) as Hc by (destruct He as [-> | ->]; exact Hv).
  destruct (children_encode es val Hes Hc) as [Hval Hp].
  destruct (header_parts (DataElement_type_code e) i) as (_ & _ & Hh); [lia|lia|].
  split_and!; [by rewrite bytes_cons, bytes_app|done|]. intros levels pre post.
  rewrite parse_framed by (done || lia).
  set (h := Z.lor _ _) in *.
  assert (match levels with
          | O => Err nesting_error
          | S l => parse_container (parse_at (pre ++ (h :: sb ++ val) ++ post) l)
              (length (pre ++ (h :: sb ++ val) ++ post)) (length pre + 1 + length sb)
              (length pre + length (h :: sb ++ val))
          end = if (nesting e <=? levels)%nat then Ok es else Err nesting_error) as ->.
  { assert (nesting e = S (foldr Nat.max 0%nat (nesting <$> es))) as -> by (by destruct He as [-> | ->]).
    destruct levels as [|l]; [done|]. unfold parse_container.
    specialize (Hp l (pre ++ h :: sb) post (length (pre ++ (h :: sb ++ val) ++ post))).
    replace ((pre ++ h :: sb) ++ val ++ post) with (pre ++ (h :: sb ++ val) ++ post) in Hp
      by (by rewrite <- !app_assoc, <- !app_comm_cons, <- app_assoc).
    rewrite (length_app pre (h :: sb)) in Hp. cbn [length] in Hp.
    replace (length pre + 1 + length sb)%nat with (length pre + S (length sb))%nat by lia.
    replace (length pre + length (h :: sb ++ val))%nat with (length pre + S (length sb) + length val)%nat
      by (cbn [length]; rewrite length_app; lia).
    rewrite Hp by (rewrite !length_app; cbn [length]; rewrite !length_app; lia).
    rewrite forallb_nesting. cbn [Nat.leb]. destruct (foldr _ _ _ <=? l)%nat; [|done].
    cbn [mbind res_bind]. by rewrite Nat.eqb_refl. }
  destruct (nesting e <=? levels)%nat; destruct He as [-> | ->]; reflexivity.
Qed.

Lemma leaf_encodes e bs : element_ok e = true ->
  match e with Sequence _ | Alternative _ => False | _ => True end ->
  DataElement_to_bytes e = Ok bs -> bytes bs /\ bs <> [] /\ parses e bs.
Proof.
  intros Hok Hleaf Hto.
  destruct (encoding_framed e bs Hok Hto) as (i & sb & val & Hv & -> & Ht & Hi & Hsb & Ha).
  destruct (header_parts (DataElement_type_code e) i) as (_ & _ & Hh); [lia|lia|].
  destruct (leaf_value e val (Ok []) Hok Hleaf Hv) as (Hval & _).
  split_and!; [by rewrite bytes_cons, bytes_app|done|]. intros levels pre post.
  rewrite parse_framed by (done || lia).
  destruct (leaf_value e val (match levels with
     | O => Err nesting_error
     | S levels' => parse_container (parse_at (pre ++ (Z.lor (Z.shiftl (DataElement_type_code e) 3) i :: sb ++ val) ++ post) levels')
         (length (pre ++ (Z.lor (Z.shiftl (DataElement_type_code e) 3) i :: sb ++ val) ++ post))
         (length pre + 1 + length sb) (length pre + length (Z.lor (Z.shiftl (DataElement_type_code e) 3) i :: sb ++ val))
     end) Hok Hleaf Hv) as (_ & _ & ->).
  assert (nesting e = 0%nat) as -> by (by destruct e). done.
Qed.

Lemma element_encodes e : element_ok e = true -> encodes_well e.
Proof.
  induction e as [| | | | | |es IH|es IH|] using element_ind; intros Hok bs Hto.
  7,8: assert (Forall encodes_well es) as Hes
    by (cbn in Hok; rewrite forallb_forall in Hok; rewrite List.Forall_forall in *; auto).
  7,8: eapply container_encodes; eauto.
  all: by apply leaf_encodes.
Qed.

Lemma from_bytes_encoding e bs : element_ok e = true -> (nesting e <= MAX_NESTING)%nat ->
  DataElement_to_bytes e = Ok bs -> bs <> [] /\ DataElement_from_bytes bs = Ok e.
Proof.
  intros Hok Hn Hto. destruct (element_encodes e Hok bs Hto) as (_ & Hne & Hp). split; [done|].
  specialize (Hp MAX_NESTING [] []). rewrite app_nil_r, (proj2 (Nat.leb_le _ _) Hn) in Hp.
  unfold DataElement_from_bytes, parse_from_bytes. rewrite app_nil_l in Hp.
  change (length (@nil Z)) with 0%nat in Hp. by rewrite Hp.
Qed.

(** The encoder's only failure on well-formed elements is a value longer than
    a 32-bit size field can say. *)
Definition too_long (r : res SdpError (list Z)) : Prop :=
  match r with
  | Ok _ => True
  | Err err => exists n, 0xFFFFFFFF < n /\ err = SdpInvalidArgument "invalid data size" [n]
  | Panic => False
  end.

Lemma variable_header_result n :
  match variable_size_header n with
  | Ok _ => True
  | Err err => exists m, 0xFFFFFFFF < m /\ err = SdpInvalidArgument "invalid data size" [m]
  | Panic => False
  end.
Proof. unfold variable_size_header. repeat case_match; bool_to_prop; simplify_eq; eauto. Qed.

Lemma children_too_long es : Forall (fun e => too_long (DataElement_to_bytes e)) es ->
  too_long (children_bytes DataElement_to_bytes es).
Proof.
  induction 1 as [|e es He Hes IH]; [done|]. cbn [children_bytes].
  destruct (DataElement_to_bytes e); try done. cbn [mbind res_bind].
  by destruct (children_bytes DataElement_to_bytes es).
Qed.

Lemma fixed_header_ok n : integer_size n = true -> is_ok (fixed_size_index n) = true.
Proof. intros Hn. apply integer_size_cases in Hn as [->|[->|[->|[->| ->]]]]; done. Qed.

Lemma encode_result e : element_ok e = true -> too_long (DataElement_to_bytes e).
Proof.
  induction e as [|v n|v n|u|t|b|es IH|es IH|u] using element_ind; intros Hok; rewrite to_bytes_unfold;
    cbn [element_ok value_bytes size_header] in *; bool_to_prop; try done.
  - rewrite unsigned_to_bytes_ok by done. cbn [mbind res_bind]. unfold len. rewrite length_to_be_bytes, Z2Nat.id
      by (pose proof (integer_size_cases n ltac:(done)); lia).
    pose proof (fixed_header_ok n ltac:(done)). by destruct (fixed_size_index n).
  - rewrite signed_to_bytes_ok by done. cbn [mbind res_bind]. unfold len. rewrite length_to_be_bytes, Z2Nat.id
      by (pose proof (integer_size_cases n ltac:(done)); lia).
    pose proof (fixed_header_ok n ltac:(done)). by destruct (fixed_size_index n).
  - cbn [mbind res_bind]. unfold uuid_to_bytes, len. rewrite length_rev.
    pose proof (uuid_width_cases u) as Hw. unfold len in Hw. by destruct Hw as [->|[->| ->]].
  - pose proof (variable_header_result (len t)). cbn [mbind res_bind]. by destruct (variable_size_header _) as [[]| |].
  - assert (too_long (children_bytes DataElement_to_bytes es)) as Hc.
    { apply children_too_long. rewrite forallb_forall in Hok. rewrite List.Forall_forall in *. auto. }
    destruct (children_bytes _ es) as [val| |]; try done. cbn [mbind res_bind].
    pose proof (variable_header_result (len val)). by destruct (variable_size_header _) as [[]| |].
  - assert (too_long (children_bytes DataElement_to_bytes es)) as Hc.
    { apply children_too_long. rewrite forallb_forall in Hok. rewrite List.Forall_forall in *. auto. }
    destruct (children_bytes _ es) as [val| |]; try done. cbn [mbind res_bind].
    pose proof (variable_header_result (len val)). by destruct (variable_size_header _) as [[]| |].
  - pose proof (variable_header_result (len u)). cbn [mbind res_bind]. by destruct (variable_size_header _) as [[]| |].
Qed.

(** C14. Data elements round trip: a well-formed element is encoded (unless it
    is longer than a 32-bit size field), and the parser, wherever the encoding
    stands in a buffer, gives the element and the offset just past it when its
    containers nest at most 32 deep, and the nesting error otherwise. *)
Theorem element_roundtrip e : element_ok e = true ->
  match DataElement_to_bytes e with
  | Ok bs =>
      bytes bs /\ forall pre post, parse_from_bytes (pre ++ bs ++ post) (length pre)
        = if (nesting e <=? MAX_NESTING)%nat then Ok ((length pre + length bs)%nat, e)
          else Err nesting_error
  | Err err => exists n, 0xFFFFFFFF < n /\ err = SdpInvalidArgument "invalid data size" [n]
  | Panic => False
  end.
Proof.
  intros Hok. pose proof (encode_result e Hok) as Hr.
  destruct (DataElement_to_bytes e) as [bs| |] eqn:Hto; [|done..].
  destruct (element_encodes e Hok bs Hto) as (Hb & _ & Hp). split; [done|].
  intros pre post. apply Hp.
Qed.

(** A service record with one element of every kind. *)
Definition sample_element : DataElement :=
  Sequence [unsigned_integer_16 0x0001; Sequence [Uuid (uuid_from_u16 0x1124)]; SignedInteger (-2) 4; Nil;
            TextString [72; 105]; Boolean true; Alternative [unsigned_integer_8 7]; Url [104; 116]].

Lemma element_roundtrip_witness :
  exists bs, DataElement_to_bytes sample_element = Ok bs
    /\ parse_from_bytes ([0; 1] ++ bs ++ [9]) 2 = Ok ((2 + length bs)%nat, sample_element).
Proof.
  pose proof (element_roundtrip sample_element eq_refl) as H.
  destruct (DataElement_to_bytes sample_element) as [bs| |] eqn:E; [|discriminate E..].
  exists bs. split; [reflexivity|]. exact (proj2 H [0; 1] [9]).
Defined.

(** ** Parsing arbitrary bytes *)

(** A parser that never panics, advances, stays in the buffer and nests at
    most [levels] deep. *)
Definition sound_parser (bound levels : nat) (parse : nat -> res SdpError (nat * DataElement)) : Prop :=
  forall offset, match parse offset with
    | Ok (next, e) => (offset < next <= bound)%nat /\ (nesting e <= levels)%nat
    | Err _ => True
    | Panic => False
    end.

Lemma parse_children_sound bound levels parse fuel inner value_end :
  sound_parser bound levels parse -> (value_end - inner <= fuel)%nat ->
  match parse_children parse fuel inner value_end with
  | Ok (_, es) => Forall (fun e => nesting e <= levels)%nat es
  | Err _ => True
  | Panic => False
  end.
Proof.
  intros Hp. revert inner. induction fuel as [|fuel IH]; intros inner Hf; cbn [parse_children];
    destruct (Nat.ltb_spec inner value_end); try lia; [by constructor| |by constructor].
  specialize (Hp inner). destruct (parse inner) as [[next e]| |]; try done. cbn [mbind res_bind].
  specialize (IH next). destruct (parse_children parse fuel next value_end) as [[last es]| |]; cbn.
  - constructor; [apply Hp|]. apply IH. lia.
  - done.
  - apply IH. lia.
Qed.

Lemma element_extent_sound data pos t h : bytes data ->
  match element_extent data pos t (Z.land h 7) with
  | Ok (n, start) => 0 <= n /\ (pos <= start)%nat
  | Err _ => True
  | Panic => False
  end.
Proof.
  intros Hd. change 7 with (2 ^ 3 - 1). rewrite land_low_mod by lia.
  pose proof (Z.mod_pos_bound h (2 ^ 3) ltac:(lia)) as Hi. generalize dependent (h mod 2 ^ 3).
  change (2 ^ 3) with 8. intros i Hi. unfold element_extent, read_be_u16, read_be_u32.
  assert (forall a b s, get_range data a b = Some s -> 0 <= from_be_bytes s) as Hrange.
  { intros a b s Hs. unfold get_range in Hs. case_decide; simplify_eq.
    apply from_le_bytes_range. auto with bytes_db. }
  destruct (Z.eqb_spec i 0); [split; [case_match; lia|lia]|].
  destruct (Z.eqb_spec i 1); [split; lia|]. destruct (Z.eqb_spec i 2); [split; lia|].
  destruct (Z.eqb_spec i 3); [split; lia|]. destruct (Z.eqb_spec i 4); [split; lia|].
  destruct (Z.eqb_spec i 5).
  { destruct (data !! pos) as [b|] eqn:E; [|done]. cbn. eapply Forall_lookup_1 in Hd; [|done].
    simpl in Hd. split; lia. }
  destruct (Z.eqb_spec i 6).
  { destruct (get_range data _ _) eqn:E; [|done]. cbn. split; [by eapply Hrange|lia]. }
  destruct (Z.eqb_spec i 7); [|lia].
  destruct (get_range data _ _) eqn:E; [|done]. cbn. split; [by eapply Hrange|lia].
Qed.

Lemma element_value_sound container t n value levels :
  match container with
  | Ok es => exists l, levels = S l /\ Forall (fun e => nesting e <= l)%nat es
  | Err _ => True
  | Panic => False
  end ->
  match element_value container t n value with
  | Ok e => (nesting e <= levels)%nat
  | Err _ => True
  | Panic => False
  end.
Proof.
  intros Hc. unfold element_value, uuid_from_le_bytes.
  assert (forall es : list DataElement, (exists l, levels = S l /\ Forall (fun e => nesting e <= l)%nat es) ->
    (S (foldr Nat.max 0%nat (nesting <$> es)) <= levels)%nat) as Hn.
  { intros es (l & -> & Hes). apply le_n_S. induction Hes; [simpl; lia|]. by apply Nat.max_lub. }
  repeat (case_match; simplify_eq/=; try done; try lia); by apply Hn.
Qed.

Lemma parse_at_sound data levels : bytes data -> sound_parser (length data) levels (parse_at data levels).
Proof.
  intros Hd. induction levels as [|levels IH]; intros offset; cbn [parse_at].
  all: destruct (Nat.leb_spec (length data) offset) as [|Hoff]; [done|].
  all: destruct (idx_lt (E:=SdpError) data offset) as (h & -> & _); [done|]; cbn [mbind res_bind].
  all: pose proof (element_extent_sound data (offset + 1) (Z.shiftr h 3) h Hd) as He.
  all: destruct (element_extent _ _ _ _) as [[n start]| |]; try done; cbn [mbind res_bind].
  all: destruct (Z.ltb_spec (len data) (Z.of_nat start + n)) as [|Hn]; [done|].
  all: unfold len in Hn; unfold slice; rewrite get_range_Some by lia; cbn [expect mbind res_bind].
  - pose proof (element_value_sound (Err nesting_error) (Z.shiftr h 3) n
      (take (start + Z.to_nat n - start) (drop start data)) 0 I) as Hv.
    destruct (element_value _ _ _ _); try done. cbn. split; lia.
  - set (container := parse_container _ _ _ _).
    pose proof (element_value_sound container (Z.shiftr h 3) n
      (take (start + Z.to_nat n - start) (drop start data)) (S levels)) as Hv.
    assert (match container with
            | Ok es => exists l, S levels = S l /\ Forall (fun e => nesting e <= l)%nat es
            | Err _ => True
            | Panic => False
            end) as Hc.
    { unfold container, parse_container.
      pose proof (parse_children_sound (length data) levels _ (length data) start (start + Z.to_nat n) IH
        ltac:(lia)) as Hch.
      destruct (parse_children _ _ _ _) as [[inner es]| |]; try done. cbn [mbind res_bind].
      destruct (negb _); [done|]. by exists levels. }
    specialize (Hv Hc). destruct (element_value _ _ _ _); try done. cbn. split; [lia|done].
Qed.

(** C39. The parser is total on arbitrary bytes: it never panics (no index or
    slice out of range, and its loop over the elements of a container always
    ends), and what it accepts lies inside the buffer, is not empty and nests
    at most 32 containers. *)
Theorem element_parse_safe data offset : bytes data ->
  match parse_from_bytes data offset with
  | Ok (next, e) => (offset < next <= length data)%nat /\ (nesting e <= MAX_NESTING)%nat
  | Err _ => True
  | Panic => False
  end.
Proof. intros Hd. apply parse_at_sound. exact Hd. Qed.

Lemma element_parse_safe_witness :
  parse_from_bytes [0x35; 3; 0x09; 0; 1; 0xFF] 0 = Ok (5%nat, Sequence [unsigned_integer_16 1])
  /\ (0 < 5 <= 6)%nat.
Proof.
  split; [reflexivity|].
  pose proof (element_parse_safe [0x35; 3; 0x09; 0; 1; 0xFF] 0 ltac:(by_compute)) as H.
  exact (proj1 H).
Defined.

(** An integer of a width the encoder does not know is accepted, and cannot be
    encoded again. *)
Example odd_width_integer :
  DataElement_from_bytes [0x0D; 3; 1; 2; 3] = Ok (UnsignedInteger 0x010203 3)
  /\ DataElement_to_bytes (UnsignedInteger 0x010203 3) = Err (SdpInvalidArgument "invalid value_size" [3]).
Proof. split; reflexivity. Qed.

(** ** Attribute lists *)

Definition attribute_elements (attributes : list ServiceAttribute) : list DataElement :=
  concat ((fun a => [unsigned_integer_16 (attribute_id a); attribute_value a]) <$> attributes).

Lemma list_from_to attributes : Forall (fun a => u16 (attribute_id a)) attributes ->
  list_from_data_elements (attribute_elements attributes) = attributes.
Proof.
  unfold attribute_elements. induction 1 as [|[id v] attributes Hid _ IH]; [done|].
  rewrite fmap_cons. cbn. rewrite IH. by rewrite Z.mod_small.
Qed.

(** The UUIDs an element contains through sequences only. *)
Inductive uuid_occurs : BluetoothUuid -> DataElement -> Prop :=
| occurs_here u : uuid_occurs u (Uuid u)
| occurs_in u e es : e ∈ es -> uuid_occurs u e -> uuid_occurs u (Sequence es).

Lemma is_uuid_in_value_spec uuid e :
  is_uuid_in_value uuid e = true <-> exists u, uuid_occurs u e /\ u ≡ uuid.
Proof.
  induction e as [|v n|v n|u|t|b|es IH|es IH|u] using element_ind; cbn [is_uuid_in_value];
    try (split; [done|intros (w & Hw & _); inversion Hw]).
  - split; [intros Hu; exists u; split; [constructor|exact Hu]|].
    intros (w & Hw & Heq). inversion Hw; subst. exact Heq.
  - rewrite existsb_exists. split.
    + intros (e & Hin & He). rewrite List.Forall_forall in IH. apply IH in He as (u & Hu & Heq); [|done].
      exists u. split; [|done]. eapply occurs_in; [by apply list_elem_of_In|done].
    + intros (u & Hu & Heq). inversion Hu as [|? e ? Hin Hocc]; subst. exists e. rewrite list_elem_of_In in Hin.
      split; [done|]. rewrite List.Forall_forall in IH. apply IH; eauto.
Qed.

(** The search respects the equality of UUIDs. *)
#[global] Instance is_uuid_in_value_proper : Proper ((≡) ==> (=) ==> (=)) is_uuid_in_value.
Proof.
  intros u u' Hu e e' <-. apply eq_true_iff_eq. rewrite !is_uuid_in_value_spec.
  split; intros (w & ? & Hw); exists w; split; try done; by rewrite Hw.
Qed.
