(* ===== verification/SdpPdu.v ===== *)
(** * SDP protocol data units ([src/src/sdp/pdu.rs])

    The seven PDUs with their common framing, and the forward-only cursor
    their parameters are read with. *)
From S2P Require Import Prelude Values Sdp.

Module pdu_id.
Definition SDP_ERROR_RESPONSE : Z := 0x01.
Definition SDP_SERVICE_SEARCH_REQUEST : Z := 0x02.
Definition SDP_SERVICE_SEARCH_RESPONSE : Z := 0x03.
Definition SDP_SERVICE_ATTRIBUTE_REQUEST : Z := 0x04.
Definition SDP_SERVICE_ATTRIBUTE_RESPONSE : Z := 0x05.
Definition SDP_SERVICE_SEARCH_ATTRIBUTE_REQUEST : Z := 0x06.
Definition SDP_SERVICE_SEARCH_ATTRIBUTE_RESPONSE : Z := 0x07.
End pdu_id.
Import pdu_id.

Module error_code.
Definition INVALID_SDP_VERSION : Z := 0x0001.
Definition INVALID_SERVICE_RECORD_HANDLE : Z := 0x0002.
Definition INVALID_REQUEST_SYNTAX : Z := 0x0003.
Definition INVALID_PDU_SIZE : Z := 0x0004.
Definition INVALID_CONTINUATION_STATE : Z := 0x0005.
Definition INSUFFICIENT_RESOURCES_TO_SATISFY_REQUEST : Z := 0x0006.
End error_code.

Inductive SdpPdu : Type :=
| ErrorResponse (transaction_id code : Z)
| ServiceSearchRequest (transaction_id : Z) (service_search_pattern : DataElement)
    (maximum_service_record_count : Z) (continuation_state : list Z)
| ServiceSearchResponse (transaction_id total_service_record_count : Z)
    (service_record_handle_list continuation_state : list Z)
| ServiceAttributeRequest (transaction_id service_record_handle maximum_attribute_byte_count : Z)
    (attribute_id_list : DataElement) (continuation_state : list Z)
| ServiceAttributeResponse (transaction_id : Z) (attribute_list continuation_state : list Z)
| ServiceSearchAttributeRequest (transaction_id : Z) (service_search_pattern : DataElement)
    (maximum_attribute_byte_count : Z) (attribute_id_list : DataElement) (continuation_state : list Z)
| ServiceSearchAttributeResponse (transaction_id : Z) (attribute_lists continuation_state : list Z).

(** ** Encoding *)

Definition SdpPdu_id (self : SdpPdu) : Z :=
  match self with
  | ErrorResponse _ _ => SDP_ERROR_RESPONSE
  | ServiceSearchRequest _ _ _ _ => SDP_SERVICE_SEARCH_REQUEST
  | ServiceSearchResponse _ _ _ _ => SDP_SERVICE_SEARCH_RESPONSE
  | ServiceAttributeRequest _ _ _ _ _ => SDP_SERVICE_ATTRIBUTE_REQUEST
  | ServiceAttributeResponse _ _ _ => SDP_SERVICE_ATTRIBUTE_RESPONSE
  | ServiceSearchAttributeRequest _ _ _ _ _ => SDP_SERVICE_SEARCH_ATTRIBUTE_REQUEST
  | ServiceSearchAttributeResponse _ _ _ => SDP_SERVICE_SEARCH_ATTRIBUTE_RESPONSE
  end.

Definition SdpPdu_transaction_id (self : SdpPdu) : Z :=
  match self with
  | ErrorResponse t _ | ServiceSearchRequest t _ _ _ | ServiceSearchResponse t _ _ _
  | ServiceAttributeRequest t _ _ _ _ | ServiceAttributeResponse t _ _
  | ServiceSearchAttributeRequest t _ _ _ _ | ServiceSearchAttributeResponse t _ _ => t
  end.

(** The error code is little-endian, every other integer big-endian. *)
Definition SdpPdu_parameters (self : SdpPdu) : res SdpError (list Z) :=
  match self with
  | ErrorResponse _ code => Ok (to_le_bytes 2 code)
  | ServiceSearchRequest _ pattern count cs =>
      p ← DataElement_to_bytes pattern; Ok (p ++ to_be_bytes 2 count ++ cs)
  | ServiceSearchResponse _ total handles cs =>
      Ok (to_be_bytes 2 total ++ to_be_bytes 2 (len handles mod 65536)
          ++ concat (to_be_bytes 4 <$> handles) ++ cs)
  | ServiceAttributeRequest _ handle count ids cs =>
      i ← DataElement_to_bytes ids; Ok (to_be_bytes 4 handle ++ to_be_bytes 2 count ++ i ++ cs)
  | ServiceAttributeResponse _ attributes cs | ServiceSearchAttributeResponse _ attributes cs =>
      Ok (to_be_bytes 2 (len attributes mod 65536) ++ attributes ++ cs)
  | ServiceSearchAttributeRequest _ pattern count ids cs =>
      p ← DataElement_to_bytes pattern;
      i ← DataElement_to_bytes ids;
      Ok (p ++ to_be_bytes 2 count ++ i ++ cs)
  end.

Definition SdpPdu_to_bytes (self : SdpPdu) : res SdpError (list Z) :=
  parameters ← SdpPdu_parameters self;
  Ok (SdpPdu_id self :: to_be_bytes 2 (SdpPdu_transaction_id self)
      ++ to_be_bytes 2 (len parameters mod 65536) ++ parameters).

(** ** The cursor

    [Cursor] keeps the data and the position; here the data is an argument and
    the position the state. *)
Section cursor.
Context (data : list Z).

Definition cursor_take (n : nat) (what : string) : stm nat SdpError (list Z) := fun pos =>
  match get_range data pos (pos + n) with
  | Some s => (Ok s, (pos + n)%nat)
  | None => (truncated what, pos)
  end.

Definition cursor_u16 : stm nat SdpError Z := s ← cursor_take 2 "u16"; mret (from_be_bytes s).
Definition cursor_u16_le : stm nat SdpError Z := s ← cursor_take 2 "u16"; mret (from_le_bytes s).
Definition cursor_u32 : stm nat SdpError Z := s ← cursor_take 4 "u32"; mret (from_be_bytes s).

Definition cursor_data_element : stm nat SdpError DataElement := fun pos =>
  match parse_from_bytes data pos with
  | Ok (next, element) => (Ok element, next)
  | Err e => (Err e, pos)
  | Panic => (Panic, pos)
  end.

Definition cursor_length_prefixed_bytes : stm nat SdpError (list Z) :=
  length ← cursor_u16;
  cursor_take (Z.to_nat length) "length-prefixed bytes".

Definition cursor_rest : stm nat SdpError (list Z) :=
  pos ← get;
  out ← lift (slice_from data pos);
  put (length data) ;; mret out.

Fixpoint cursor_handles (count : nat) : stm nat SdpError (list Z) :=
  match count with
  | O => mret []
  | S count' => h ← cursor_u32; rest ← cursor_handles count'; mret (h :: rest)
  end.

Definition read_parameters (id transaction_id : Z) : stm nat SdpError SdpPdu :=
  if id =? SDP_ERROR_RESPONSE then
    code ← cursor_u16_le; mret (ErrorResponse transaction_id code)
  else if id =? SDP_SERVICE_SEARCH_REQUEST then
    pattern ← cursor_data_element; count ← cursor_u16; cs ← cursor_rest;
    mret (ServiceSearchRequest transaction_id pattern count cs)
  else if id =? SDP_SERVICE_SEARCH_RESPONSE then
    total ← cursor_u16; count ← cursor_u16; handles ← cursor_handles (Z.to_nat count); cs ← cursor_rest;
    mret (ServiceSearchResponse transaction_id total handles cs)
  else if id =? SDP_SERVICE_ATTRIBUTE_REQUEST then
    handle ← cursor_u32; count ← cursor_u16; ids ← cursor_data_element; cs ← cursor_rest;
    mret (ServiceAttributeRequest transaction_id handle count ids cs)
  else if id =? SDP_SERVICE_ATTRIBUTE_RESPONSE then
    attributes ← cursor_length_prefixed_bytes; cs ← cursor_rest;
    mret (ServiceAttributeResponse transaction_id attributes cs)
  else if id =? SDP_SERVICE_SEARCH_ATTRIBUTE_REQUEST then
    pattern ← cursor_data_element; count ← cursor_u16; ids ← cursor_data_element; cs ← cursor_rest;
    mret (ServiceSearchAttributeRequest transaction_id pattern count ids cs)
  else if id =? SDP_SERVICE_SEARCH_ATTRIBUTE_RESPONSE then
    attributes ← cursor_length_prefixed_bytes; cs ← cursor_rest;
    mret (ServiceSearchAttributeResponse transaction_id attributes cs)
  else throw (SdpInvalidPacket "unknown SDP PDU id" [id]).
End cursor.

Definition SdpPdu_from_bytes (pdu : list Z) : res SdpError SdpPdu :=
  if len pdu <? 5 then truncated "SDP PDU header" else
  id ← idx pdu 0;
  b1 ← idx pdu 1;
  b2 ← idx pdu 2;
  b3 ← idx pdu 3;
  b4 ← idx pdu 4;
  let parameter_length := Z.to_nat (from_be_bytes [b3; b4]) in
  match get_range pdu 5 (5 + parameter_length) with
  | None => truncated "SDP PDU parameters"
  | Some params => (read_parameters params id (from_be_bytes [b1; b2]) 0%nat).1
  end.

(** ** Reading back what was written *)

(** [reads data m n x]: on [data] from position [p], [m] gives [x] and
    advances by [n]. *)
Definition reads_at {A} (m : list Z -> stm nat SdpError A) (bs : list Z) (x : A) : Prop :=
  forall pre post, m (pre ++ bs ++ post) (length pre) = (Ok x, (length pre + length bs)%nat).

Lemma reads_take n what bs : length bs = n -> reads_at (fun data => cursor_take data n what) bs bs.
Proof. intros <- pre post. unfold cursor_take. by rewrite get_range_app. Qed.

Lemma reads_bind {A B} (m : list Z -> stm nat SdpError A) (k : list Z -> A -> stm nat SdpError B) bs1 bs2 x y :
  reads_at m bs1 x -> reads_at (fun data => k data x) bs2 y ->
  reads_at (fun data => m data ≫= k data) (bs1 ++ bs2) y.
Proof.
  intros Hm Hk pre post. unfold mbind, stm_bind. rewrite <- app_assoc, Hm.
  specialize (Hk (pre ++ bs1) post). rewrite length_app, <- app_assoc in Hk. rewrite Hk.
  by rewrite length_app, Nat.add_assoc.
Qed.

Lemma reads_ret {A} (x : A) : reads_at (fun _ => mret x) [] x.
Proof. intros pre post. simpl. by rewrite Nat.add_0_r. Qed.

Lemma reads_map {A B} (m : list Z -> stm nat SdpError A) (f : A -> B) bs x :
  reads_at m bs x -> reads_at (fun data => m data ≫= fun a => mret (f a)) bs (f x).
Proof.
  intros Hm. rewrite <- (app_nil_r bs). eapply (reads_bind m (fun _ a => mret (f a))); [done|apply reads_ret].
Qed.

Lemma reads_u16 x : u16 x -> reads_at cursor_u16 (to_be_bytes 2 x) x.
Proof.
  intros Hx. rewrite <- (from_to_be_bytes 2 x) at 2 by (simpl; lia).
  apply (reads_map (fun data => cursor_take data 2 "u16") from_be_bytes). apply reads_take, length_to_be_bytes.
Qed.

Lemma reads_u16_le x : u16 x -> reads_at cursor_u16_le (to_le_bytes 2 x) x.
Proof.
  intros Hx. rewrite <- (from_to_le_bytes 2 x) at 2 by (simpl; lia).
  apply (reads_map (fun data => cursor_take data 2 "u16") from_le_bytes). apply reads_take, length_to_le_bytes.
Qed.

Lemma reads_u32 x : u32 x -> reads_at cursor_u32 (to_be_bytes 4 x) x.
Proof.
  intros Hx. rewrite <- (from_to_be_bytes 4 x) at 2 by (simpl; lia).
  apply (reads_map (fun data => cursor_take data 4 "u32") from_be_bytes). apply reads_take, length_to_be_bytes.
Qed.

Lemma reads_data_element e bs : element_ok e = true -> (nesting e <= MAX_NESTING)%nat ->
  DataElement_to_bytes e = Ok bs -> reads_at cursor_data_element bs e.
Proof.
  intros Hok Hn Hto pre post. destruct (element_encodes e Hok bs Hto) as (_ & _ & Hp).
  unfold cursor_data_element, parse_from_bytes. rewrite Hp.
  by rewrite (proj2 (Nat.leb_le _ _) Hn).
Qed.

Lemma reads_prefixed bs : len bs < 65536 ->
  reads_at cursor_length_prefixed_bytes (to_be_bytes 2 (len bs mod 65536) ++ bs) bs.
Proof.
  intros Hl. pose proof (len_nonneg bs). rewrite Z.mod_small by lia.
  apply (reads_bind cursor_u16 (fun data n => cursor_take data (Z.to_nat n) "length-prefixed bytes") _ _ (len bs)).
  - apply reads_u16. lia.
  - apply reads_take. unfold len. lia.
Qed.

Lemma reads_handles hs : Forall (fun h => u32 h) hs ->
  reads_at (fun data => cursor_handles data (length hs)) (concat (to_be_bytes 4 <$> hs)) hs.
Proof.
  induction 1 as [|h hs Hh Hhs IH]; [apply (reads_ret [])|]. cbn [fmap list_fmap concat length cursor_handles].
  apply (reads_bind cursor_u32 (fun data h => rest ← cursor_handles data (length hs); mret (h :: rest)) _ _ h);
    [by apply reads_u32|].
  by apply (reads_map (fun data => cursor_handles data (length hs)) (cons h)).
Qed.

(** The continuation state is whatever is left. *)
Lemma reads_rest_end (pre cs : list Z) : cursor_rest (pre ++ cs) (length pre) = (Ok cs, length (pre ++ cs)).
Proof.
  unfold cursor_rest, mbind, stm_bind, get, lift, put, mret, stm_ret.
  rewrite slice_from_ok by (rewrite length_app; lia). by rewrite drop_app_length.
Qed.

(** One read of a sequence: [pre] is what was read before. *)
Lemma run_bind {A B} (m : list Z -> stm nat SdpError A) (k : A -> stm nat SdpError B) data pre bs post x :
  reads_at m bs x -> data = pre ++ bs ++ post ->
  (m data ≫= k) (length pre) = k x (length (pre ++ bs)).
Proof. intros Hm ->. unfold mbind, stm_bind. by rewrite Hm, length_app. Qed.

Lemma run_rest {B} (f : list Z -> B) data pre cs : data = pre ++ cs ->
  (cursor_rest data ≫= fun cs => mret (f cs)) (length pre) = (Ok (f cs), length data).
Proof. intros ->. unfold mbind, stm_bind. by rewrite reads_rest_end. Qed.

(** PDUs whose fields fit the wire. *)
Definition element_fits (e : DataElement) : Prop := element_ok e = true /\ (nesting e <= MAX_NESTING)%nat.

Definition pdu_ok (p : SdpPdu) : Prop :=
  u16 (SdpPdu_transaction_id p)
  /\ match p with
     | ErrorResponse _ code => u16 code
     | ServiceSearchRequest _ pattern count cs => element_fits pattern /\ u16 count /\ bytes cs
     | ServiceSearchResponse _ total handles cs =>
         u16 total /\ len handles < 65536 /\ Forall (fun h => u32 h) handles /\ bytes cs
     | ServiceAttributeRequest _ handle count ids cs =>
         u32 handle /\ u16 count /\ element_fits ids /\ bytes cs
     | ServiceAttributeResponse _ attributes cs | ServiceSearchAttributeResponse _ attributes cs =>
         len attributes < 65536 /\ bytes attributes /\ bytes cs
     | ServiceSearchAttributeRequest _ pattern count ids cs =>
         element_fits pattern /\ u16 count /\ element_fits ids /\ bytes cs
     end.

#[global] Instance pdu_ok_dec p : Decision (pdu_ok p).
Proof. unfold pdu_ok, element_fits. destruct p; apply _. Defined.

Lemma reads_count (hs : list Z) : len hs < 65536 -> reads_at cursor_u16 (to_be_bytes 2 (len hs mod 65536)) (len hs).
Proof. intros Hl. pose proof (len_nonneg hs). rewrite Z.mod_small by lia. apply reads_u16. lia. Qed.

(** The branch of the reader a PDU's identifier selects. *)
Ltac pick_branch :=
  cbv beta iota delta [read_parameters SdpPdu_id SdpPdu_transaction_id Z.eqb Pos.eqb
    SDP_ERROR_RESPONSE SDP_SERVICE_SEARCH_REQUEST SDP_SERVICE_SEARCH_RESPONSE
    SDP_SERVICE_ATTRIBUTE_REQUEST SDP_SERVICE_ATTRIBUTE_RESPONSE
    SDP_SERVICE_SEARCH_ATTRIBUTE_REQUEST SDP_SERVICE_SEARCH_ATTRIBUTE_RESPONSE].

(** One step of the cursor by the given reading lemma. *)
Ltac read_field H :=
  erewrite run_bind; [| apply H; first [lia | eassumption] | rewrite <- ?app_assoc; simpl; reflexivity ].
Ltac read_end := by erewrite run_rest by (by rewrite <- ?app_assoc).

Lemma parameters_read p params : pdu_ok p -> SdpPdu_parameters p = Ok params ->
  (read_parameters params (SdpPdu_id p) (SdpPdu_transaction_id p) 0%nat).1 = Ok p.
Proof.
  intros [_ Hok] Hp. change 0%nat with (length (@nil Z)).
  destruct p as [t code|t pat count cs|t total hs cs|t h count ids cs|t attrs cs|t pat count ids cs|t attrs cs];
    cbn in Hp; unfold element_fits in Hok; destruct_and?.
  - injection Hp as <-. pick_branch.
    erewrite (run_bind _ _ _ [] _ []); [|by apply reads_u16_le|by rewrite app_nil_r]. done.
  - destruct (DataElement_to_bytes pat) as [pb| |] eqn:Hpb; try done. injection Hp as <-.
    pick_branch.
    read_field (reads_data_element pat pb). read_field (reads_u16 count). read_end.
  - injection Hp as <-. pick_branch.
    read_field (reads_u16 total). read_field (reads_count hs).
    replace (Z.to_nat (len hs)) with (length hs) by (unfold len; lia).
    erewrite (run_bind (fun data => cursor_handles data (length hs)));
      [|by apply reads_handles|by rewrite <- ?app_assoc]. read_end.
  - destruct (DataElement_to_bytes ids) as [ib| |] eqn:Hib; try done. injection Hp as <-.
    pick_branch.
    read_field (reads_u32 h). read_field (reads_u16 count). read_field (reads_data_element ids ib). read_end.
  - injection Hp as <-. pick_branch.
    read_field (reads_prefixed attrs). read_end.
  - destruct (DataElement_to_bytes pat) as [pb| |] eqn:Hpb; try done. cbn [mbind res_bind] in Hp.
    destruct (DataElement_to_bytes ids) as [ib| |] eqn:Hib; try done. injection Hp as <-.
    pick_branch.
    read_field (reads_data_element pat pb). read_field (reads_u16 count).
    read_field (reads_data_element ids ib). read_end.
  - injection Hp as <-. pick_branch.
    read_field (reads_prefixed attrs). read_end.
Qed.

Lemma pdu_decodes p bs trailing : pdu_ok p -> SdpPdu_to_bytes p = Ok bs -> len bs <= 5 + 65535 ->
  SdpPdu_from_bytes (bs ++ trailing) = Ok p.
Proof.
  intros Hok Hto Hlen. unfold SdpPdu_to_bytes in Hto.
  destruct (SdpPdu_parameters p) as [params| |] eqn:Hp; try done. injection Hto as <-.
  pose proof (parameters_read p params Hok Hp) as Hread. destruct Hok as [Ht _].
  pose proof (len_nonneg params) as Hn.
  assert (len params < 65536) as Hl by (rewrite !len_cons in Hlen; lia).
  rewrite (Z.mod_small (len params)) by lia.
  unfold SdpPdu_from_bytes. cbn [app].
  rewrite (proj2 (Z.ltb_ge _ _)) by (rewrite !len_cons; pose proof (len_nonneg (params ++ trailing)); lia).
  cbn [idx expect lookup list_lookup mbind res_bind].
  rewrite (u16_be_roundtrip (len params)), (u16_be_roundtrip (SdpPdu_transaction_id p)) by lia.
  match goal with |- context [get_range (?a :: ?b :: ?c :: ?d :: ?e :: ?l) _ _] =>
    change (a :: b :: c :: d :: e :: l) with ([a; b; c; d; e] ++ l);
    change 5%nat with (length [a; b; c; d; e]) end.
  replace (Z.to_nat (len params)) with (length params) by (unfold len; lia).
  by rewrite get_range_app.
Qed.

(** SDP PDUs round trip: every PDU whose fields fit, of all seven kinds,
    decodes back from its encoding, whatever bytes follow it, as long as its
    parameters fit the 16-bit parameter length. *)
Theorem sdp_pdu_roundtrip p bs trailing : pdu_ok p -> SdpPdu_to_bytes p = Ok bs -> len bs <= 5 + 65535 ->
  SdpPdu_from_bytes (bs ++ trailing) = Ok p.
Proof. apply pdu_decodes. Qed.

Lemma sdp_pdu_roundtrip_witness :
  let p := ServiceSearchAttributeRequest 7 (Sequence [Uuid (uuid_from_u16 0x1124)]) 0xFFFF
             (Sequence [unsigned_integer_32 0xFFFF]) [0] in
  exists bs, SdpPdu_to_bytes p = Ok bs /\ SdpPdu_from_bytes (bs ++ [1; 2]) = Ok p.
Proof.
  intros p. eexists. split; [vm_compute; reflexivity|].
  apply sdp_pdu_roundtrip; [by_compute|reflexivity|vm_compute; discriminate].
Defined.

(** ** Arbitrary input *)

Section cursor_safety.
Context (data : list Z) (Hdata : bytes data).

(** Never panics and keeps the position inside the data. *)
Definition cursor_safe {A} (m : stm nat SdpError A) : Prop :=
  forall pos, (pos <= length data)%nat -> (m pos).1 <> Panic /\ ((m pos).2 <= length data)%nat.

Lemma safe_bind {A B} (m : stm nat SdpError A) (k : A -> stm nat SdpError B) :
  cursor_safe m -> (forall a, cursor_safe (k a)) -> cursor_safe (m ≫= k).
Proof.
  intros Hm Hk pos Hpos. specialize (Hm pos Hpos) as [H1 H2]. unfold mbind, stm_bind.
  destruct (m pos) as [[a| |] pos']; simpl in *; try done. by apply Hk.
Qed.

Lemma safe_ret {A} (a : A) : cursor_safe (mret a).
Proof. intros pos Hpos. done. Qed.

Lemma safe_throw {A} e : cursor_safe (throw (A:=A) e).
Proof. intros pos Hpos. done. Qed.

Lemma safe_take n what : cursor_safe (cursor_take data n what).
Proof.
  intros pos Hpos. unfold cursor_take, get_range. case_decide; [|done]. split; [done|]. simpl. lia.
Qed.

Lemma safe_element : cursor_safe (cursor_data_element data).
Proof.
  intros pos Hpos. unfold cursor_data_element.
  pose proof (parse_at_sound data MAX_NESTING Hdata pos) as Hs. fold (parse_from_bytes data pos) in Hs.
  destruct (parse_from_bytes data pos) as [[next e]| |]; [|done..]. split; [done|]. simpl. lia.
Qed.

Lemma safe_rest : cursor_safe (cursor_rest data).
Proof.
  intros pos Hpos. unfold cursor_rest, mbind, stm_bind, get, lift, put, mret, stm_ret.
  by rewrite slice_from_ok.
Qed.

Lemma safe_u16 : cursor_safe (cursor_u16 data).
Proof. apply safe_bind; [apply safe_take|intros; apply safe_ret]. Qed.
Lemma safe_u16_le : cursor_safe (cursor_u16_le data).
Proof. apply safe_bind; [apply safe_take|intros; apply safe_ret]. Qed.
Lemma safe_u32 : cursor_safe (cursor_u32 data).
Proof. apply safe_bind; [apply safe_take|intros; apply safe_ret]. Qed.
Lemma safe_prefixed : cursor_safe (cursor_length_prefixed_bytes data).
Proof. apply safe_bind; [apply safe_u16|intros; apply safe_take]. Qed.

#[local] Hint Resolve safe_ret safe_throw safe_element safe_rest safe_u16 safe_u16_le safe_u32 safe_prefixed : core.

Lemma safe_handles n : cursor_safe (cursor_handles data n).
Proof.
  induction n; cbn [cursor_handles]; [apply safe_ret|]. repeat (apply safe_bind; [auto|intros]). auto.
Qed.

Lemma safe_parameters id t : cursor_safe (read_parameters data id t).
Proof.
  unfold read_parameters.
  repeat (match goal with |- cursor_safe (if ?b then _ else _) => destruct b end);
    repeat (apply safe_bind; [auto using safe_handles|intros]); auto.
Qed.
End cursor_safety.

(** The PDU decoder never panics, on any byte string. *)
Lemma pdu_decode_no_panic pdu : bytes pdu -> no_panic (SdpPdu_from_bytes pdu).
Proof.
  intros Hb. unfold no_panic, SdpPdu_from_bytes. destruct (Z.ltb_spec (len pdu) 5); [done|].
  do 5 (destruct pdu as [|? pdu]; [unfold len in *; simpl in *; lia|]). cbn [idx expect lookup list_lookup mbind res_bind].
  destruct (get_range _ _ _) as [params|] eqn:Hg; [|done].
  apply (safe_parameters params); [|lia]. unfold get_range in Hg. case_decide; simplify_eq.
  by apply bytes_take, bytes_drop.
Qed.

(** ** Which bytes are a PDU *)

(** [bs] stands in [ps] at [pos]. *)
Definition found (ps : list Z) (pos : nat) (bs : list Z) : Prop := take (length bs) (drop pos ps) = bs.

(** The parameters of a PDU, kind by kind: where each field stands, and that the
    continuation state is what is left. Data elements are what the element
    parser finds in their place. *)
Inductive pdu_layout (t : Z) (ps : list Z) : Z -> SdpPdu -> Prop :=
| lay_error code : u16 code -> found ps 0 (to_le_bytes 2 code) -> pdu_layout t ps 1 (ErrorResponse t code)
| lay_search pattern n count : parse_from_bytes ps 0 = Ok (n, pattern) -> u16 count -> found ps n (to_be_bytes 2 count) ->
    pdu_layout t ps 2 (ServiceSearchRequest t pattern count (drop (n + 2) ps))
| lay_search_response total hs : u16 total -> len hs < 65536 -> Forall (fun h => u32 h) hs ->
    found ps 0 (to_be_bytes 2 total ++ to_be_bytes 2 (len hs) ++ concat (to_be_bytes 4 <$> hs)) ->
    pdu_layout t ps 3 (ServiceSearchResponse t total hs (drop (4 + 4 * length hs) ps))
| lay_attribute handle count ids n : u32 handle -> u16 count -> found ps 0 (to_be_bytes 4 handle ++ to_be_bytes 2 count) ->
    parse_from_bytes ps 6 = Ok (n, ids) -> pdu_layout t ps 4 (ServiceAttributeRequest t handle count ids (drop n ps))
| lay_attribute_response l : len l < 65536 -> found ps 0 (to_be_bytes 2 (len l) ++ l) ->
    pdu_layout t ps 5 (ServiceAttributeResponse t l (drop (2 + length l) ps))
| lay_search_attribute pattern n count ids m : parse_from_bytes ps 0 = Ok (n, pattern) -> u16 count ->
    found ps n (to_be_bytes 2 count) -> parse_from_bytes ps (n + 2) = Ok (m, ids) ->
    pdu_layout t ps 6 (ServiceSearchAttributeRequest t pattern count ids (drop m ps))
| lay_search_attribute_response l : len l < 65536 -> found ps 0 (to_be_bytes 2 (len l) ++ l) ->
    pdu_layout t ps 7 (ServiceSearchAttributeResponse t l (drop (2 + length l) ps)).

(** A byte string that is exactly one PDU. *)
Inductive one_pdu : list Z -> SdpPdu -> Prop :=
| one_pdu_intro id t ps p : u16 t -> len ps < 65536 -> pdu_layout t ps id p ->
    one_pdu ([id] ++ to_be_bytes 2 t ++ to_be_bytes 2 (len ps) ++ ps) p.

Section layout.
Context (ps : list Z) (Hps : bytes ps).

Lemma found_app pos b1 b2 : found ps pos (b1 ++ b2) <-> found ps pos b1 /\ found ps (pos + length b1) b2.
Proof.
  unfold found. rewrite length_app, <- drop_drop, <- take_take_drop.
  split; [|by intros [-> ->]]. intros Heq. apply app_inj_1; [|done].
  apply (f_equal length) in Heq. rewrite !length_app, !length_take in Heq. rewrite length_take. lia.
Qed.

Lemma take_reads n what pos s pos' : (pos <= length ps)%nat ->
  cursor_take ps n what pos = (Ok s, pos') <-> length s = n /\ pos' = (pos + n)%nat /\ found ps pos s.
Proof.
  intros Hpos. unfold cursor_take, get_range, found. case_decide as Hd.
  - replace (pos + n - pos)%nat with n by lia. split.
    + intros [= <- <-]. rewrite length_take, length_drop. replace (n `min` _)%nat with n by lia. done.
    + intros (<- & -> & ->). done.
  - split; [done|]. intros (Hl & -> & Hs). apply (f_equal length) in Hs. rewrite length_take, length_drop in Hs. lia.
Qed.

Lemma found_end pos bs : found ps pos bs -> bs <> [] -> (pos + length bs <= length ps)%nat.
Proof.
  unfold found. intros Hf Hne. apply (f_equal length) in Hf. rewrite length_take, length_drop in Hf.
  assert (length bs <> 0)%nat by (by destruct bs). lia.
Qed.

Lemma found_bytes pos bs : found ps pos bs -> bytes bs.
Proof. intros <-. auto with bytes_db. Qed.

(** A number of [n] bytes, read by [read] and written by [write]. *)
Lemma number_reads (read : list Z -> Z) (write : Z -> list Z) n what pos x pos' :
  (forall x, length (write x) = n) -> (forall bs, length bs = n -> bytes bs -> write (read bs) = bs) ->
  (forall x, 0 <= x < 256 ^ Z.of_nat n -> read (write x) = x) ->
  (forall bs, length bs = n -> bytes bs -> 0 <= read bs < 256 ^ Z.of_nat n) -> (0 < n)%nat ->
  (s ← cursor_take ps n what; mret (read s)) pos = (Ok x, pos')
  <-> 0 <= x < 256 ^ Z.of_nat n /\ pos' = (pos + n)%nat /\ found ps pos (write x).
Proof.
  intros Hl Hwr Hrw Hr Hn. split.
  - intros (s & p1 & Ht & [= <- <-])%stm_bind_ok. assert (pos <= length ps)%nat as Hpos
      by (unfold cursor_take, get_range in Ht; case_decide; [lia|done]).
    apply take_reads in Ht as (Hs & -> & Hf); [|done]. pose proof (found_bytes _ _ Hf). rewrite Hwr by done. auto.
  - intros (Hx & -> & Hf). assert (write x <> []) as Hne by (intros Hw; specialize (Hl x); rewrite Hw in Hl; cbn in Hl; lia).
    pose proof (found_end _ _ Hf Hne) as He. rewrite Hl in He.
    rewrite (stm_bind_run _ _ _ (write x) (pos + n)%nat); [by rewrite (Hrw x Hx)|]. apply take_reads; [lia|]. by rewrite Hl.
Qed.

Lemma be_reads n what pos x pos' : (0 < n)%nat ->
  (s ← cursor_take ps n what; mret (from_be_bytes s)) pos = (Ok x, pos')
  <-> 0 <= x < 256 ^ Z.of_nat n /\ pos' = (pos + n)%nat /\ found ps pos (to_be_bytes n x).
Proof.
  intros Hn. apply number_reads; [apply length_to_be_bytes| | | |done].
  - intros bs <- Hb. by apply to_from_be_bytes.
  - intros y Hy. by apply from_to_be_bytes.
  - intros bs <- Hb. unfold from_be_bytes. rewrite <- length_rev. apply from_le_bytes_range. auto with bytes_db.
Qed.

Lemma u16_reads pos x pos' : cursor_u16 ps pos = (Ok x, pos') <-> u16 x /\ pos' = (pos + 2)%nat /\ found ps pos (to_be_bytes 2 x).
Proof. apply be_reads. lia. Qed.

Lemma u32_reads pos x pos' : cursor_u32 ps pos = (Ok x, pos') <-> u32 x /\ pos' = (pos + 4)%nat /\ found ps pos (to_be_bytes 4 x).
Proof. apply be_reads. lia. Qed.

Lemma u16_le_reads pos x pos' : cursor_u16_le ps pos = (Ok x, pos') <-> u16 x /\ pos' = (pos + 2)%nat /\ found ps pos (to_le_bytes 2 x).
Proof.
  apply number_reads; [done| | | |lia].
  - intros bs <- Hb. by apply to_from_le_bytes.
  - intros y Hy. by apply from_to_le_bytes.
  - intros bs <- Hb. by apply from_le_bytes_range.
Qed.

Lemma element_reads pos e pos' : cursor_data_element ps pos = (Ok e, pos') <-> parse_from_bytes ps pos = Ok (pos', e).
Proof.
  unfold cursor_data_element. destruct (parse_from_bytes ps pos) as [[next x]| |]; [|by split..]. split; by intros [= -> ->].
Qed.

Lemma prefixed_reads pos l pos' : cursor_length_prefixed_bytes ps pos = (Ok l, pos')
  <-> len l < 65536 /\ pos' = (pos + 2 + length l)%nat /\ found ps pos (to_be_bytes 2 (len l) ++ l).
Proof.
  unfold cursor_length_prefixed_bytes. rewrite found_app, length_to_be_bytes. pose proof (len_nonneg l). split.
  - intros (n & p1 & (Hn & -> & Hf)%u16_reads & Ht)%stm_bind_ok. apply found_end in Hf as He; [|done]. rewrite length_to_be_bytes in He.
    apply take_reads in Ht as (Hl & -> & Hf2); [|done]. assert (n = len l) as -> by (unfold len; lia). split_and!; [lia|unfold len; lia|done|done].
  - intros (Hl & -> & Hf & Hf2). apply found_end in Hf as He; [|done]. rewrite length_to_be_bytes in He.
    rewrite (stm_bind_run _ _ _ (len l) (pos + 2)%nat) by (apply u16_reads; split_and!; [lia|lia|done|done]).
    apply take_reads; [done|]. unfold len. split_and!; [lia|lia|done].
Qed.

Lemma length_handles hs : length (concat (to_be_bytes 4 <$> hs)) = (4 * length hs)%nat.
Proof. induction hs as [|h hs IH]; [done|]. cbn [fmap list_fmap concat]. rewrite length_app, IH, length_to_be_bytes. cbn. lia. Qed.

Lemma handles_reads n : forall pos hs pos', (pos <= length ps)%nat -> cursor_handles ps n pos = (Ok hs, pos')
  <-> length hs = n /\ Forall (fun h => u32 h) hs /\ pos' = (pos + 4 * n)%nat /\ found ps pos (concat (to_be_bytes 4 <$> hs)).
Proof.
  induction n as [|n IH]; intros pos hs pos' Hpos; cbn [cursor_handles].
  - split; [intros [= <- <-]; split_and!; [done|done|lia|done]|]. intros (Hl & _ & -> & _). destruct hs; [|done]. by rewrite Nat.add_0_r.
  - split.
    + intros (h & p1 & (Hh & -> & Hf)%u32_reads & (rest & p2 & Hr & [= <- <-])%stm_bind_ok)%stm_bind_ok.
      apply found_end in Hf as He; [|done]. rewrite length_to_be_bytes in He. apply IH in Hr as (<- & Hall & -> & Hf2); [|done].
      split_and!; [done|by constructor|lia|]. cbn [fmap list_fmap concat]. apply found_app. by rewrite length_to_be_bytes.
    + intros (Hl & Hall & -> & Hf). destruct hs as [|h hs]; [done|]. apply Forall_cons in Hall as [Hh Hall].
      cbn [fmap list_fmap concat] in Hf. apply found_app in Hf as [Hf Hf2]. rewrite length_to_be_bytes in Hf2.
      apply found_end in Hf as He; [|done]. rewrite length_to_be_bytes in He.
      rewrite (stm_bind_run _ _ _ h (pos + 4)%nat) by (by apply u32_reads).
      rewrite (stm_bind_run _ _ _ hs (pos + 4 * S n)%nat); [done|]. apply IH; [done|]. split_and!; [by injection Hl|done|lia|done].
Qed.

Lemma rest_run {B} (f : list Z -> B) pos : (pos <= length ps)%nat ->
  (cs ← cursor_rest ps; mret (f cs)) pos = (Ok (f (drop pos ps)), length ps).
Proof. intros Hpos. unfold cursor_rest, mbind, stm_bind, get, lift, put. by rewrite slice_from_ok. Qed.

Lemma element_end pos n e : parse_from_bytes ps pos = Ok (n, e) -> (n <= length ps)%nat.
Proof. intros He. pose proof (parse_at_sound ps MAX_NESTING Hps pos) as Hs. fold (parse_from_bytes ps pos) in Hs. rewrite He in Hs. lia. Qed.

(** What the reader accepts has the layout. *)
Lemma reader_layout id t p pos : read_parameters ps id t 0%nat = (Ok p, pos) -> pdu_layout t ps id p.
Proof.
  unfold read_parameters. intros Hr.
  repeat match type of Hr with (if id =? ?c then _ else _) _ = _ => destruct (Z.eqb_spec id c) as [->|?] end; [..|done].
  - apply stm_bind_ok in Hr as (code & p1 & (? & -> & ?)%u16_le_reads & [= <- <-]). by constructor.
  - apply stm_bind_ok in Hr as (pat & k & Hp%element_reads & Hr). apply stm_bind_ok in Hr as (count & p1 & (? & -> & Hf)%u16_reads & Hr).
    apply found_end in Hf as He; [|done]. rewrite rest_run in Hr by done. injection Hr as <- <-. by constructor.
  - apply stm_bind_ok in Hr as (total & p0 & (? & -> & Hf)%u16_reads & Hr). apply stm_bind_ok in Hr as (count & p1 & (Hc & -> & Hf1)%u16_reads & Hr).
    apply found_end in Hf1 as He1; [|done]. rewrite length_to_be_bytes in He1.
    apply stm_bind_ok in Hr as (hs & p2 & Hr1 & Hr). apply handles_reads in Hr1 as (Hl & Hall & -> & Hf2); [|done].
    assert (count = len hs) as -> by (unfold len; lia).
    assert (found ps 0 (to_be_bytes 2 total ++ to_be_bytes 2 (len hs) ++ concat (to_be_bytes 4 <$> hs))) as Hfound
      by (rewrite !found_app, !length_to_be_bytes; done).
    apply found_end in Hfound as He2; [|done]. rewrite !length_app, !length_to_be_bytes, length_handles in He2.
    rewrite <- Hl, rest_run in Hr by lia. injection Hr as <- <-. constructor; [done|lia|done|done].
  - apply stm_bind_ok in Hr as (handle & p0 & (? & -> & Hf)%u32_reads & Hr). apply stm_bind_ok in Hr as (count & p1 & (Hc & -> & Hf1)%u16_reads & Hr).
    apply stm_bind_ok in Hr as (ids & k & Hp%element_reads & Hr). rewrite rest_run in Hr by (by eapply element_end).
    injection Hr as <- <-. constructor; try done. rewrite found_app, length_to_be_bytes. done.
  - apply stm_bind_ok in Hr as (l & p0 & (? & -> & Hf)%prefixed_reads & Hr). apply found_end in Hf as He; [|done].
    rewrite length_app, length_to_be_bytes in He. rewrite rest_run in Hr by lia. injection Hr as <- <-. by constructor.
  - apply stm_bind_ok in Hr as (pat & k & Hp%element_reads & Hr). apply stm_bind_ok in Hr as (count & p1 & (? & -> & Hf)%u16_reads & Hr).
    apply stm_bind_ok in Hr as (ids & m & Hp2%element_reads & Hr). rewrite rest_run in Hr by (by eapply element_end).
    injection Hr as <- <-. by econstructor.
  - apply stm_bind_ok in Hr as (l & p0 & (? & -> & Hf)%prefixed_reads & Hr). apply found_end in Hf as He; [|done].
    rewrite length_app, length_to_be_bytes in He. rewrite rest_run in Hr by lia. injection Hr as <- <-. by constructor.
Qed.

(** What has the layout is read. *)
Lemma layout_reader id t p : pdu_layout t ps id p -> read_parameters ps id t 0%nat = (Ok p, (read_parameters ps id t 0%nat).2).
Proof.
  assert (forall m : stm nat SdpError SdpPdu, (exists pos, m 0%nat = (Ok p, pos)) -> m 0%nat = (Ok p, (m 0%nat).2)) as Hok by (by intros m [pos ->]).
  intros Hl. apply Hok. destruct Hl as [code Hc Hf|pat n count Hp Hc Hf|total hs Ht Hn Hall Hf|handle count ids n Hh Hc Hf Hp|l Hl Hf
    |pat n count ids m Hp Hc Hf Hp2|l Hl Hf]; pick_branch.
  - erewrite stm_bind_run by (by apply u16_le_reads). by eexists.
  - erewrite stm_bind_run by (by apply element_reads). erewrite stm_bind_run by (by apply u16_reads).
    apply found_end in Hf as He; [|done]. rewrite rest_run by done. by eexists.
  - pose proof (len_nonneg hs). apply found_end in Hf as He2; [|done]. rewrite !length_app, !length_to_be_bytes, length_handles in He2.
    rewrite !found_app, !length_to_be_bytes in Hf. destruct Hf as (Hf & Hf1 & Hf2).
    erewrite stm_bind_run by (by apply u16_reads). assert (u16 (len hs)) as Hu by lia.
    erewrite stm_bind_run by (by apply u16_reads).
    replace (Z.to_nat (len hs)) with (length hs) by (unfold len; lia).
    erewrite stm_bind_run by (apply handles_reads; [lia|]; by split_and!). rewrite rest_run by lia. by eexists.
  - rewrite found_app, length_to_be_bytes in Hf. destruct Hf as (Hf & Hf1).
    erewrite stm_bind_run by (by apply u32_reads). erewrite stm_bind_run by (by apply u16_reads).
    erewrite stm_bind_run by (by apply element_reads). rewrite rest_run by (by eapply element_end). by eexists.
  - apply found_end in Hf as He; [|done]. rewrite length_app, length_to_be_bytes in He.
    erewrite stm_bind_run by (by apply prefixed_reads). rewrite rest_run by done. by eexists.
  - erewrite stm_bind_run by (by apply element_reads). erewrite stm_bind_run by (by apply u16_reads).
    erewrite stm_bind_run by (by apply element_reads). rewrite rest_run by (by eapply element_end). by eexists.
  - apply found_end in Hf as He; [|done]. rewrite length_app, length_to_be_bytes in He.
    erewrite stm_bind_run by (by apply prefixed_reads). rewrite rest_run by done. by eexists.
Qed.

Lemma layout_exact id t p : (read_parameters ps id t 0%nat).1 = Ok p <-> pdu_layout t ps id p.
Proof.
  split; [|by intros ->%layout_reader]. destruct (read_parameters ps id t 0%nat) as [r pos] eqn:Hr. cbn. intros ->. by eapply reader_layout.
Qed.
End layout.
