(* ===== verification/SdpService.v ===== *)
(** * SDP server and client ([src/src/sdp/service.rs])

    The server with its record database and continuation state, the client
    with its continuation loop, and the transport interface between them. *)
From S2P Require Import Prelude Values Sdp SdpPdu.
Import error_code.

(** ** Requests *)

Definition SERVER_CONTINUATION_STATE : list Z := [0x01; 0x00].
Definition CONTINUATION_WATCHDOG : nat := 64.

Inductive AttributeId : Type :=
| AttrId (id : Z)
| AttrRange (start last : Z).

Definition AttributeId_to_data_element (self : AttributeId) : DataElement :=
  match self with
  | AttrId id => unsigned_integer_16 id
  | AttrRange start last => unsigned_integer_32 (Z.lor (Z.shiftl start 16) last)
  end.

Definition search_pattern (uuids : list BluetoothUuid) : DataElement := Sequence (Uuid <$> uuids).

Definition attribute_id_list (ids : list AttributeId) : DataElement :=
  Sequence (AttributeId_to_data_element <$> ids).

(** ** Server *)

Record ServiceRecord : Type := mkRecord {
  record_handle : Z;
  record_attributes : list ServiceAttribute
}.

Inductive CurrentResponse : Type :=
| ResponseBytes (buffer : list Z)
| ResponseHandles (total : Z) (remaining : list Z).

Inductive Continuation : Type :=
| ContinuationError (code : Z)
| Continue
| Fresh.

Record SdpServer : Type := mkServer {
  records : list ServiceRecord;
  current_response : option CurrentResponse;
  server_mtu : Z
}.

#[global] Instance SdpServer_settable : Settable SdpServer :=
  fun s => mkServer (records s) (current_response s) (server_mtu s).
Definition set_records v (s : SdpServer) : SdpServer := ltac:(set_field records v s).
Definition set_current_response v (s : SdpServer) : SdpServer := ltac:(set_field current_response v s).

Definition SdpServer_new (mtu : Z) : SdpServer := mkServer [] None mtu.

Definition add_service (handle : Z) (attributes : list ServiceAttribute) (self : SdpServer) : SdpServer :=
  set_records (records self ++ [{| record_handle := handle; record_attributes := attributes |}]) self.

Definition sequence_elements (element : DataElement) : list DataElement :=
  match element with Sequence elements => elements | _ => [] end.

(** The UUIDs of a search pattern. *)
Definition pattern_uuids (pattern : DataElement) : list BluetoothUuid :=
  omap (fun e => match e with Uuid u => Some u | _ => None end) (sequence_elements pattern).

Definition record_matches (uuids : list BluetoothUuid) (record : ServiceRecord) : bool :=
  existsb (fun uuid => existsb (fun a => is_uuid_in_value uuid (attribute_value a)) (record_attributes record)) uuids.

Definition match_services (self : SdpServer) (pattern : DataElement) : list ServiceRecord :=
  List.filter (record_matches (pattern_uuids pattern)) (records self).

(** [selected.sort_by_key(|a| a.id)]: a stable sort. *)
Fixpoint insert_by_id (a : ServiceAttribute) (l : list ServiceAttribute) : list ServiceAttribute :=
  match l with
  | [] => [a]
  | b :: rest => if attribute_id a <=? attribute_id b then a :: l else b :: insert_by_id a rest
  end.
Definition sort_by_id (l : list ServiceAttribute) : list ServiceAttribute := foldr insert_by_id [] l.

(** The attributes one selector chooses. *)
Definition select_attributes (service : list ServiceAttribute) (selector : DataElement) : list ServiceAttribute :=
  match selector with
  | UnsignedInteger value size =>
      let '(start, last) := if size =? 4 then (Z.shiftr value 16 mod 65536, Z.land value 0xFFFF)
                            else (value mod 65536, value mod 65536) in
      List.filter (fun a => (start <=? attribute_id a) && (attribute_id a <=? last)) service
  | _ => []
  end.

Definition get_service_attributes (service : list ServiceAttribute) (attribute_ids : list DataElement)
  : DataElement :=
  list_to_data_element (sort_by_id (concat (select_attributes service <$> attribute_ids))).

Definition check_continuation (continuation_state : list Z) (self : SdpServer) : Continuation * SdpServer :=
  if 1 <? len continuation_state then
    if bool_decide (current_response self = None)
       || negb (bool_decide (continuation_state = SERVER_CONTINUATION_STATE))
    then (ContinuationError INVALID_CONTINUATION_STATE, self)
    else (Continue, self)
  else (Fresh, set_current_response None self).

Definition next_byte_payload (maximum_size : nat) (self : SdpServer) : list Z * list Z * SdpServer :=
  match current_response self with
  | Some (ResponseBytes buffer) =>
      if (maximum_size <? length buffer)%nat then
        (take maximum_size buffer, SERVER_CONTINUATION_STATE,
         set_current_response (Some (ResponseBytes (drop maximum_size buffer))) self)
      else (buffer, [0], set_current_response None self)
  | _ => ([], [0], self)
  end.

Definition attribute_byte_cap (self : SdpServer) (requested : Z) : nat :=
  Z.to_nat (Z.min (saturating_sub (server_mtu self) 9) requested).

(** [.to_bytes().unwrap_or_default()] *)
Definition bytes_or_default (e : DataElement) : list Z :=
  match DataElement_to_bytes e with Ok bs => bs | _ => [] end.

Definition search_attribute_lists (self : SdpServer) (pattern : DataElement) (ids : list DataElement)
  : list DataElement :=
  List.filter (fun list => match list with Sequence (_ :: _) => true | _ => false end)
    ((fun r => get_service_attributes (record_attributes r) ids) <$> match_services self pattern).

Definition on_service_search_attribute (transaction_id : Z) (pattern : DataElement)
  (maximum_attribute_byte_count : Z) (attribute_ids : DataElement) (continuation_state : list Z)
  (self : SdpServer) : SdpPdu * SdpServer :=
  let finish self :=
    let cap := attribute_byte_cap self maximum_attribute_byte_count in
    let '(attribute_lists, continuation, self) := next_byte_payload cap self in
    (ServiceSearchAttributeResponse transaction_id attribute_lists continuation, self) in
  match check_continuation continuation_state self with
  | (ContinuationError code, self) => (ErrorResponse transaction_id code, self)
  | (Fresh, self) =>
      let serialized := bytes_or_default
        (Sequence (search_attribute_lists self pattern (sequence_elements attribute_ids))) in
      finish (set_current_response (Some (ResponseBytes serialized)) self)
  | (Continue, self) => finish self
  end.

Definition on_service_attribute (transaction_id service_record_handle maximum_attribute_byte_count : Z)
  (attribute_ids : DataElement) (continuation_state : list Z) (self : SdpServer) : SdpPdu * SdpServer :=
  let finish self :=
    let cap := attribute_byte_cap self maximum_attribute_byte_count in
    let '(attribute_list, continuation, self) := next_byte_payload cap self in
    (ServiceAttributeResponse transaction_id attribute_list continuation, self) in
  match check_continuation continuation_state self with
  | (ContinuationError code, self) => (ErrorResponse transaction_id code, self)
  | (Fresh, self) =>
      match List.find (fun r => record_handle r =? service_record_handle) (records self) with
      | Some record =>
          finish (set_current_response (Some (ResponseBytes (bytes_or_default
            (get_service_attributes (record_attributes record) (sequence_elements attribute_ids))))) self)
      | None => (ErrorResponse transaction_id INVALID_SERVICE_RECORD_HANDLE, self)
      end
  | (Continue, self) => finish self
  end.

Definition search_chunk (transaction_id : Z) (self : SdpServer) : SdpPdu * SdpServer :=
  match current_response self with
  | Some (ResponseHandles total remaining) =>
      let max_count := Z.to_nat (saturating_sub (server_mtu self) 11 / 4) in
      let this_chunk := take max_count remaining in
      let remaining_after := drop max_count remaining in
      let continuation := match remaining_after with [] => [0] | _ => SERVER_CONTINUATION_STATE end in
      (ServiceSearchResponse transaction_id total this_chunk continuation,
       set_current_response (Some (ResponseHandles total remaining_after)) self)
  | _ => (ErrorResponse transaction_id INVALID_CONTINUATION_STATE, self)
  end.

Definition on_service_search (transaction_id : Z) (pattern : DataElement) (maximum_service_record_count : Z)
  (continuation_state : list Z) (self : SdpServer) : SdpPdu * SdpServer :=
  match check_continuation continuation_state self with
  | (ContinuationError code, self) => (ErrorResponse transaction_id code, self)
  | (Fresh, self) =>
      let handles := record_handle <$> match_services self pattern in
      let total := len handles mod 65536 in
      let subset := take (Z.to_nat maximum_service_record_count) handles in
      search_chunk transaction_id (set_current_response (Some (ResponseHandles total subset)) self)
  | (Continue, self) => search_chunk transaction_id self
  end.

Definition handle_request (request : SdpPdu) (self : SdpServer) : SdpPdu * SdpServer :=
  match request with
  | ServiceSearchAttributeRequest t pattern count ids cs =>
      on_service_search_attribute t pattern count ids cs self
  | ServiceAttributeRequest t handle count ids cs => on_service_attribute t handle count ids cs self
  | ServiceSearchRequest t pattern count cs => on_service_search t pattern count cs self
  | other => (ErrorResponse (SdpPdu_transaction_id other) INVALID_REQUEST_SYNTAX, self)
  end.

(** ** Transport *)

Class SdpTransport (T : Type) : Type := request : SdpPdu -> stm T string SdpPdu.

(** Every request handler is a transport. *)
#[global] Instance server_transport : SdpTransport SdpServer := fun req s =>
  let '(response, s') := handle_request req s in (Ok response, s').

(** ** Client *)

Inductive ClientError : Type :=
| Protocol (code : Z)
| Unexpected
| Parse (e : SdpError)
| TransportFailed (message : string).

#[global] Instance ClientError_eq_dec : EqDecision ClientError.
Proof. solve_decision. Defined.

Record SdpClient (T : Type) : Type := mkClient { transport : T; next_transaction_id : Z }.
Arguments mkClient {T} transport next_transaction_id.
Arguments transport {T} s.
Arguments next_transaction_id {T} s.

Definition is_terminal (continuation_state : list Z) : bool :=
  bool_decide (continuation_state = [0]).

Definition parse_attribute_lists (bs : list Z) : res SdpError (list (list ServiceAttribute)) :=
  match bs with
  | [] => Ok []
  | _ =>
      outer ← DataElement_from_bytes bs;
      Ok match outer with
         | Sequence services =>
             omap (fun service => match service with
                   | Sequence elements => Some (list_from_data_elements elements)
                   | _ => None
                   end) services
         | _ => []
         end
  end.

Definition parse_attribute_list (bs : list Z) : res SdpError (list ServiceAttribute) :=
  match bs with
  | [] => Ok []
  | _ =>
      element ← DataElement_from_bytes bs;
      Ok match element with Sequence elements => list_from_data_elements elements | _ => [] end
  end.

Section client.
Context {T : Type} `{SdpTransport T}.

Definition client_request (req : SdpPdu) : stm (SdpClient T) ClientError SdpPdu := fun c =>
  let '(r, t) := request req (transport c) in
  (map_err TransportFailed r, {| transport := t; next_transaction_id := next_transaction_id c |}).

Definition make_transaction_id : stm (SdpClient T) ClientError Z := fun c =>
  (Ok (next_transaction_id c),
   {| transport := transport c; next_transaction_id := wrapping_add 16 (next_transaction_id c) 1 |}).

Definition SdpClient_new (t : T) : SdpClient T := {| transport := t; next_transaction_id := 0 |}.

(** The continuation loop of [service_search_attribute]. *)
Fixpoint search_attribute_loop (watchdog : nat) (pattern ids : DataElement) (accumulator cs : list Z)
  : stm (SdpClient T) ClientError (list (list ServiceAttribute)) :=
  match watchdog with
  | O => lift (map_err Parse (parse_attribute_lists accumulator))
  | S watchdog' =>
      t ← make_transaction_id;
      response ← client_request (ServiceSearchAttributeRequest t pattern 0xFFFF ids cs);
      match response with
      | ServiceSearchAttributeResponse _ attribute_lists cs' =>
          if is_terminal cs'
          then lift (map_err Parse (parse_attribute_lists (accumulator ++ attribute_lists)))
          else search_attribute_loop watchdog' pattern ids (accumulator ++ attribute_lists) cs'
      | ErrorResponse _ code => throw (Protocol code)
      | _ => throw Unexpected
      end
  end.

Definition service_search_attribute (uuids : list BluetoothUuid) (attribute_ids : list AttributeId)
  : stm (SdpClient T) ClientError (list (list ServiceAttribute)) :=
  search_attribute_loop CONTINUATION_WATCHDOG (search_pattern uuids) (attribute_id_list attribute_ids) [] [0].

Fixpoint get_attributes_loop (watchdog : nat) (handle : Z) (ids : DataElement) (accumulator cs : list Z)
  : stm (SdpClient T) ClientError (list ServiceAttribute) :=
  match watchdog with
  | O => lift (map_err Parse (parse_attribute_list accumulator))
  | S watchdog' =>
      t ← make_transaction_id;
      response ← client_request (ServiceAttributeRequest t handle 0xFFFF ids cs);
      match response with
      | ServiceAttributeResponse _ attribute_list cs' =>
          if is_terminal cs'
          then lift (map_err Parse (parse_attribute_list (accumulator ++ attribute_list)))
          else get_attributes_loop watchdog' handle ids (accumulator ++ attribute_list) cs'
      | ErrorResponse _ code => throw (Protocol code)
      | _ => throw Unexpected
      end
  end.

Definition get_attributes (handle : Z) (attribute_ids : list AttributeId)
  : stm (SdpClient T) ClientError (list ServiceAttribute) :=
  get_attributes_loop CONTINUATION_WATCHDOG handle (attribute_id_list attribute_ids) [] [0].

Fixpoint search_services_loop (watchdog : nat) (pattern : DataElement) (handles cs : list Z)
  : stm (SdpClient T) ClientError (list Z) :=
  match watchdog with
  | O => mret handles
  | S watchdog' =>
      t ← make_transaction_id;
      response ← client_request (ServiceSearchRequest t pattern 0xFFFF cs);
      match response with
      | ServiceSearchResponse _ _ handle_list cs' =>
          if is_terminal cs' then mret (handles ++ handle_list)
          else search_services_loop watchdog' pattern (handles ++ handle_list) cs'
      | ErrorResponse _ code => throw (Protocol code)
      | _ => throw Unexpected
      end
  end.

Definition search_services (uuids : list BluetoothUuid) : stm (SdpClient T) ClientError (list Z) :=
  search_services_loop CONTINUATION_WATCHDOG (search_pattern uuids) [] [0].
End client.

(** ** Selection of attributes *)

(** What a selector of the client means. *)
Definition selects (sel : AttributeId) (a : ServiceAttribute) : bool :=
  match sel with
  | AttrId id => attribute_id a =? id
  | AttrRange start last => (start <=? attribute_id a) && (attribute_id a <=? last)
  end.

Definition selector_ok (sel : AttributeId) : Prop :=
  match sel with AttrId id => u16 id | AttrRange start last => u16 start /\ u16 last end.

#[global] Instance selector_ok_dec sel : Decision (selector_ok sel).
Proof. destruct sel; apply _. Defined.

Lemma range_fields start last : u16 start -> u16 last ->
  let v := Z.lor (Z.shiftl start 16) last in
  Z.shiftr v 16 mod 65536 = start /\ Z.land v 0xFFFF = last /\ u32 v.
Proof.
  intros Hs Hl. cbn zeta. rewrite Z.lor_comm, lor_shiftl_add by lia. split_and!.
  - rewrite Z.shiftr_div_pow2, field_high by lia. by apply Z.mod_small.
  - change 65535 with (2 ^ 16 - 1). rewrite land_low_mod by lia. apply field_low; lia.
  - lia.
  - lia.
Qed.

(** A selector means the same on the wire. *)
Lemma select_selector service sel : selector_ok sel ->
  select_attributes service (AttributeId_to_data_element sel) = List.filter (selects sel) service.
Proof.
  destruct sel as [id|start last]; intros Hok;
    unfold select_attributes, AttributeId_to_data_element, unsigned_integer_16, unsigned_integer_32, selects;
    cbn [selector_ok Z.eqb Pos.eqb] in *.
  - rewrite Z.mod_small by lia. apply List.filter_ext. intros a.
    apply eq_true_iff_eq. rewrite andb_true_iff, !Z.leb_le, Z.eqb_eq. lia.
  - destruct Hok as [Hs Hl]. by destruct (range_fields start last Hs Hl) as (-> & -> & _).
Qed.

Lemma insert_by_id_filter k a l :
  List.filter (fun b => attribute_id b =? k) (insert_by_id a l)
  = List.filter (fun b => attribute_id b =? k) (a :: l).
Proof.
  induction l as [|b l IH]; [done|]. cbn [insert_by_id].
  destruct (Z.leb_spec (attribute_id a) (attribute_id b)); [done|].
  simpl in *. rewrite IH. destruct (Z.eqb_spec (attribute_id a) k), (Z.eqb_spec (attribute_id b) k); done || lia.
Qed.

Definition id_le (a b : ServiceAttribute) : Prop := attribute_id a <= attribute_id b.

Lemma insert_by_id_sorted a l : Sorted id_le l -> Sorted id_le (insert_by_id a l).
Proof.
  induction 1 as [|b l Hl IH Hb]; cbn [insert_by_id]; [by repeat constructor|].
  destruct (Z.leb_spec (attribute_id a) (attribute_id b)).
  - repeat constructor; done.
  - constructor; [done|]. destruct l as [|c l]; cbn [insert_by_id]; [constructor; unfold id_le; lia|].
    inversion Hb; subst. destruct (Z.leb_spec (attribute_id a) (attribute_id c)); constructor; unfold id_le in *; lia.
Qed.

(** Attribute selection: the list a response carries is sorted by
    attribute id, and for each id holds exactly the attributes the selectors
    chose, in selector and record order (so the sort is stable and nothing is
    lost or added). *)
Theorem selection_sorted_stable service sels : Forall selector_ok sels ->
  exists chosen,
    get_service_attributes service (AttributeId_to_data_element <$> sels) = list_to_data_element chosen
    /\ Sorted id_le chosen
    /\ forall k, List.filter (fun a => attribute_id a =? k) chosen
         = List.filter (fun a => attribute_id a =? k) (concat ((fun sel => List.filter (selects sel) service) <$> sels)).
Proof.
  intros Hok. exists (sort_by_id (concat ((fun sel => List.filter (selects sel) service) <$> sels))).
  split_and!.
  - unfold get_service_attributes. do 3 f_equal. induction Hok; [done|].
    rewrite !fmap_cons, select_selector by done. by f_equal.
  - unfold sort_by_id. induction (concat _); simpl; [constructor|by apply insert_by_id_sorted].
  - intros k. unfold sort_by_id. induction (concat _) as [|a l IH]; [done|].
    cbn [foldr]. rewrite insert_by_id_filter. simpl. by rewrite IH.
Qed.

Lemma selection_sorted_stable_witness :
  exists chosen,
    get_service_attributes [mkAttribute 9 Nil; mkAttribute 4 (Boolean true)]
      (AttributeId_to_data_element <$> [AttrRange 0 0xFFFF]) = list_to_data_element chosen
    /\ Sorted id_le chosen.
Proof.
  destruct (selection_sorted_stable [mkAttribute 9 Nil; mkAttribute 4 (Boolean true)] [AttrRange 0 0xFFFF])
    as (chosen & H1 & H2 & _); [by_compute|]. exists chosen. split; [exact H1|exact H2].
Defined.

(** ** Conversations *)

(** A database whose records can be put on the wire inside a response. *)
Definition attribute_ok (a : ServiceAttribute) : Prop :=
  u16 (attribute_id a) /\ element_ok (attribute_value a) = true /\ (nesting (attribute_value a) <= 30)%nat.

Definition records_ok (rs : list ServiceRecord) : Prop :=
  Forall (fun r => Forall attribute_ok (record_attributes r)) rs.

#[global] Instance records_ok_dec rs : Decision (records_ok rs).
Proof. unfold records_ok, attribute_ok. apply _. Defined.

(** The reference answer to a search: for every record that contains one of
    the UUIDs, its selected attributes sorted by id; records without any are
    left out. *)
Definition selected (sels : list AttributeId) (r : ServiceRecord) : list ServiceAttribute :=
  sort_by_id (concat ((fun sel => List.filter (selects sel) (record_attributes r)) <$> sels)).

Definition reference_answer (rs : list ServiceRecord) (uuids : list BluetoothUuid) (sels : list AttributeId)
  : list (list ServiceAttribute) :=
  List.filter (fun l => match l with [] => false | _ => true end)
    (selected sels <$> List.filter (record_matches uuids) rs).

Lemma pattern_uuids_search uuids : pattern_uuids (search_pattern uuids) = uuids.
Proof. unfold pattern_uuids. simpl. induction uuids; [done|]. simpl. by f_equal. Qed.

Lemma get_selected r sels : Forall selector_ok sels ->
  get_service_attributes (record_attributes r) (AttributeId_to_data_element <$> sels)
  = list_to_data_element (selected sels r).
Proof.
  intros Hok. unfold get_service_attributes, selected. do 3 f_equal. induction Hok; [done|].
  rewrite !fmap_cons, select_selector by done. by f_equal.
Qed.

Lemma search_lists s uuids sels : Forall selector_ok sels ->
  search_attribute_lists s (search_pattern uuids) (AttributeId_to_data_element <$> sels)
  = list_to_data_element <$> reference_answer (records s) uuids sels.
Proof.
  intros Hok. unfold search_attribute_lists, match_services, reference_answer.
  rewrite pattern_uuids_search.
  induction (List.filter (record_matches uuids) (records s)) as [|r rs IH]; [done|].
  rewrite !fmap_cons, get_selected by done. simpl.
  destruct (selected sels r) as [|a l] eqn:E; simpl; by rewrite IH.
Qed.

Lemma insert_by_id_elem a l x : In x (insert_by_id a l) <-> x = a \/ In x l.
Proof.
  induction l as [|b l IH]; simpl; [intuition|].
  destruct (_ <=? _); simpl; rewrite ?IH; intuition.
Qed.

Lemma sort_by_id_elem l x : In x (sort_by_id l) <-> In x l.
Proof. induction l as [|a l IH]; [done|]. simpl. rewrite insert_by_id_elem, IH. intuition. Qed.

Lemma selected_ok sels r : Forall attribute_ok (record_attributes r) -> Forall attribute_ok (selected sels r).
Proof.
  rewrite !List.Forall_forall. intros H x Hx. apply (proj1 (sort_by_id_elem _ _)) in Hx.
  apply in_concat in Hx as (l & Hl & Hx). apply list_elem_of_In, list_elem_of_fmap in Hl as (sel & -> & _).
  apply List.filter_In in Hx as [Hx _]. auto.
Qed.

Lemma reference_answer_ok rs uuids sels : records_ok rs ->
  Forall (Forall attribute_ok) (reference_answer rs uuids sels).
Proof.
  intros Hrs. rewrite List.Forall_forall. intros l Hl. unfold reference_answer in Hl.
  apply List.filter_In in Hl as [Hl _]. apply list_elem_of_In, list_elem_of_fmap in Hl as (r & -> & Hr).
  apply list_elem_of_In, List.filter_In in Hr as [Hr _].
  apply selected_ok. unfold records_ok in Hrs. rewrite List.Forall_forall in Hrs. auto.
Qed.

Lemma nesting_list es n : Forall (fun e => nesting e <= n)%nat es -> (foldr Nat.max 0 (nesting <$> es) <= n)%nat.
Proof. induction 1; [simpl; lia|]. by apply Nat.max_lub. Qed.

Lemma attribute_list_ok l : Forall attribute_ok l ->
  element_ok (list_to_data_element l) = true /\ (nesting (list_to_data_element l) <= 31)%nat.
Proof.
  intros Hl.
  assert (Forall (fun e => element_ok e = true /\ (nesting e <= 30)%nat) (attribute_elements l)) as He.
  { unfold attribute_elements. induction Hl as [|a l (Hid & Hv & Hn) Hl IH]; [constructor|].
    rewrite fmap_cons. cbn [concat app]. constructor; [split|constructor; [by split|exact IH]].
    - cbn [element_ok unsigned_integer_16]. change (2 ^ (8 * 2)) with 65536.
      by rewrite (proj2 (Z.leb_le _ _)), (proj2 (Z.ltb_lt _ _)) by lia.
    - simpl. lia. }
  apply List.Forall_and_inv in He as [Hok Hn]. unfold list_to_data_element.
  fold (attribute_elements l). simpl. split.
  - apply forallb_forall. by apply List.Forall_forall.
  - apply le_n_S, nesting_list. exact Hn.
Qed.

(** The client's reading of an encoded answer. *)
Lemma parse_answer ls bs : Forall (Forall attribute_ok) ls ->
  DataElement_to_bytes (Sequence (list_to_data_element <$> ls)) = Ok bs -> parse_attribute_lists bs = Ok ls.
Proof.
  intros Hls Hto.
  assert (element_ok (Sequence (list_to_data_element <$> ls)) = true) as Hok.
  { simpl. apply forallb_forall. intros e He. apply list_elem_of_In, list_elem_of_fmap in He as (l & -> & Hl).
    apply attribute_list_ok. rewrite List.Forall_forall in Hls. apply Hls. by apply list_elem_of_In. }
  assert (nesting (Sequence (list_to_data_element <$> ls)) <= MAX_NESTING)%nat as Hn.
  { cbn [nesting]. apply le_n_S, nesting_list. rewrite Forall_fmap. eapply List.Forall_impl; [|exact Hls].
    intros l Hl. by apply attribute_list_ok. }
  destruct (from_bytes_encoding _ bs Hok Hn Hto) as [Hne Hp].
  unfold parse_attribute_lists. rewrite Hp. destruct bs; [done|]. cbn [mbind res_bind]. f_equal. clear -Hls.
  induction Hls as [|l ls Hl Hls IH]; [done|]. simpl. fold (attribute_elements l).
  rewrite list_from_to by (eapply List.Forall_impl; [|exact Hl]; by intros a []). by f_equal.
Qed.

(** The chunk of a byte answer that a request is given. *)
Definition byte_chunk (make : list Z -> list Z -> SdpPdu) (s : SdpServer) : SdpPdu * SdpServer :=
  let '(payload, continuation, s') := next_byte_payload (attribute_byte_cap s 0xFFFF) s in
  (make payload continuation, s').

Lemma byte_chunk_cases make s buf : current_response s = Some (ResponseBytes buf) ->
  let cap := attribute_byte_cap s 0xFFFF in
  byte_chunk make s =
  if (cap <? length buf)%nat
  then (make (take cap buf) SERVER_CONTINUATION_STATE,
        set_current_response (Some (ResponseBytes (drop cap buf))) s)
  else (make buf [0], set_current_response None s).
Proof. intros Hb. cbn zeta. unfold byte_chunk, next_byte_payload. rewrite Hb. by destruct (_ <? _)%nat. Qed.

(** A continuation request goes on with the answer in flight. *)
Lemma search_attribute_continues t pattern ids s buf : current_response s = Some (ResponseBytes buf) ->
  handle_request (ServiceSearchAttributeRequest t pattern 0xFFFF ids SERVER_CONTINUATION_STATE) s
  = byte_chunk (ServiceSearchAttributeResponse t) s.
Proof.
  intros Hb. cbn [handle_request]. unfold on_service_search_attribute, check_continuation, byte_chunk.
  rewrite Hb. simpl. by destruct (next_byte_payload _ s) as [[]].
Qed.

Lemma attribute_continues t handle ids s buf : current_response s = Some (ResponseBytes buf) ->
  handle_request (ServiceAttributeRequest t handle 0xFFFF ids SERVER_CONTINUATION_STATE) s
  = byte_chunk (ServiceAttributeResponse t) s.
Proof.
  intros Hb. cbn [handle_request]. unfold on_service_attribute, check_continuation, byte_chunk.
  rewrite Hb. simpl. by destruct (next_byte_payload _ s) as [[]].
Qed.

(** One request of a client that wraps a server. *)
Lemma sdp_exchange {A} (mk : Z -> SdpPdu) (k : SdpPdu -> stm (SdpClient SdpServer) ClientError A) s tid :
  (t ← make_transaction_id; response ← client_request (mk t); k response) (mkClient s tid)
  = let '(response, s') := handle_request (mk tid) s in k response (mkClient s' (wrapping_add 16 tid 1)).
Proof.
  unfold make_transaction_id, client_request, request, server_transport, mbind, stm_bind.
  cbn [transport next_transaction_id]. by destruct (handle_request (mk tid) s).
Qed.

(** What a client relies on from its transport: it carries requests of some
    class to a server it stands for, and brings back the server's answers. *)
Class SdpLink (T : Type) `{SdpTransport T} : Type := {
  link_server : T -> SdpServer;
  link_ok : T -> Prop;
  link_carries : SdpPdu -> Prop;
  link_request t req : link_ok t -> link_carries req ->
    exists t', request req t = (Ok (handle_request req (link_server t)).1, t')
      /\ link_server t' = (handle_request req (link_server t)).2 /\ link_ok t'
}.

Lemma server_carries (s : SdpServer) req : True -> True ->
  exists s', request req s = (Ok (handle_request req s).1, s') /\ s' = (handle_request req s).2 /\ True.
Proof. intros _ _. unfold request, server_transport. destruct (handle_request req s) as [r s']. by exists s'. Qed.

#[global] Instance server_link : SdpLink SdpServer := {
  link_server s := s;
  link_ok _ := True;
  link_carries _ := True;
  link_request := server_carries
}.

Section links.
Context {T : Type} `{L : SdpLink T}.

Lemma link_exchange A (mk : Z -> SdpPdu) t tid : link_ok t -> link_carries (mk tid) ->
  exists t', (forall k : SdpPdu -> stm (SdpClient T) ClientError A,
      (tr ← make_transaction_id; response ← client_request (mk tr); k response) (mkClient t tid)
      = k (handle_request (mk tid) (link_server t)).1 (mkClient t' (wrapping_add 16 tid 1)))
    /\ link_server t' = (handle_request (mk tid) (link_server t)).2 /\ link_ok t'.
Proof.
  intros Hok Hc. destruct (link_request t (mk tid) Hok Hc) as (t' & Heq & Hs & Hok'). exists t'. split; [|done]. intros k.
  unfold make_transaction_id, client_request, mbind, stm_bind. cbn [transport next_transaction_id]. by rewrite Heq.
Qed.

Lemma next_tid tid : u16 (wrapping_add 16 tid 1).
Proof. unfold wrapping_add. apply Z.mod_pos_bound. lia. Qed.

(** The client's loop on an answer in flight: it ends with the whole of it. *)
Lemma search_attribute_run pattern ids w : (forall tr cs, u16 tr -> cs = [0] \/ cs = SERVER_CONTINUATION_STATE ->
    link_carries (ServiceSearchAttributeRequest tr pattern 0xFFFF ids cs)) -> forall acc cs t s1 buf tid,
  link_ok t -> u16 tid -> cs = [0] \/ cs = SERVER_CONTINUATION_STATE ->
  (forall tr, handle_request (ServiceSearchAttributeRequest tr pattern 0xFFFF ids cs) (link_server t)
             = byte_chunk (ServiceSearchAttributeResponse tr) s1) ->
  current_response s1 = Some (ResponseBytes buf) -> (0 < attribute_byte_cap s1 0xFFFF)%nat ->
  (length buf <= S w * attribute_byte_cap s1 0xFFFF)%nat ->
  exists t' tid', search_attribute_loop (S w) pattern ids acc cs (mkClient t tid)
    = (map_err Parse (parse_attribute_lists (acc ++ buf)), mkClient t' tid')
    /\ link_server t' = set_current_response None s1 /\ link_ok t'.
Proof.
  intros Hcarry. induction w as [|w IH]; intros acc cs t s1 buf tid Hok Htid Hcs Hreq Hb Hcap Hlen.
  all: cbn [search_attribute_loop].
  all: destruct (link_exchange (list (list ServiceAttribute)) (fun tr => ServiceSearchAttributeRequest tr pattern 0xFFFF ids cs) t tid Hok
    (Hcarry tid cs Htid Hcs)) as (t' & Hk & Hs & Hok'); rewrite Hk; clear Hk.
  all: rewrite Hreq, (byte_chunk_cases _ _ _ Hb) in Hs |- *.
  all: destruct (Nat.ltb_spec (attribute_byte_cap s1 0xFFFF) (length buf)) as [Hlt|Hge]; cbn [fst snd] in Hs |- *.
  1: lia.
  1,3: change (is_terminal [0]) with true; cbv iota; unfold lift; eauto.
  change (is_terminal SERVER_CONTINUATION_STATE) with false. cbv iota.
  set (s2 := set_current_response (Some (ResponseBytes (drop (attribute_byte_cap s1 0xFFFF) buf))) s1) in *.
  destruct (IH (acc ++ take (attribute_byte_cap s1 0xFFFF) buf) SERVER_CONTINUATION_STATE t' s2
    (drop (attribute_byte_cap s1 0xFFFF) buf) (wrapping_add 16 tid 1)) as (t2 & tid' & Heq & Hs2 & Hok2);
    [done|apply next_tid|by right| |done|done| |].
  - intros tr. rewrite Hs. by eapply search_attribute_continues.
  - rewrite length_drop. change (attribute_byte_cap s2 0xFFFF) with (attribute_byte_cap s1 0xFFFF). lia.
  - exists t2, tid'. rewrite <- app_assoc, take_drop in Heq. split; [exact Heq|done].
Qed.

(** A client on any link gets the reference answer of the server behind it. *)
Lemma link_search_attribute t tid uuids sels bs : let s := link_server t in
  (forall tr cs, u16 tr -> cs = [0] \/ cs = SERVER_CONTINUATION_STATE ->
    link_carries (ServiceSearchAttributeRequest tr (search_pattern uuids) 0xFFFF (attribute_id_list sels) cs)) ->
  link_ok t -> u16 tid -> records_ok (records s) -> Forall selector_ok sels ->
  DataElement_to_bytes (Sequence (list_to_data_element <$> reference_answer (records s) uuids sels)) = Ok bs ->
  9 < server_mtu s -> len bs <= 64 * Z.min (server_mtu s - 9) 0xFFFF ->
  exists t' tid', service_search_attribute uuids sels (mkClient t tid)
    = (Ok (reference_answer (records s) uuids sels), mkClient t' tid')
    /\ link_server t' = set_current_response None s /\ link_ok t'.
Proof.
  intros s Hcarry Hok Htid Hrs Hsels Hto Hmtu Hlen. unfold service_search_attribute.
  set (s1 := set_current_response (Some (ResponseBytes bs)) s).
  assert (Z.of_nat (attribute_byte_cap s1 0xFFFF) = Z.min (server_mtu s - 9) 0xFFFF) as Hcap.
  { unfold attribute_byte_cap, saturating_sub. change (server_mtu s1) with (server_mtu s). lia. }
  destruct (search_attribute_run (search_pattern uuids) (attribute_id_list sels) 63 Hcarry [] [0] t s1 bs tid)
    as (t' & tid' & Heq & Hs & Hok'); [done|done|by left| |done|lia|unfold len in Hlen; lia|].
  - intros tr. fold s. cbn [handle_request]. unfold on_service_search_attribute, check_continuation.
    change (1 <? len [0]) with false. cbv iota. unfold attribute_id_list. cbn [sequence_elements].
    rewrite (search_lists (set_current_response None s)) by done.
    unfold bytes_or_default. change (records (set_current_response None s)) with (records s). rewrite Hto.
    change (set_current_response (Some (ResponseBytes bs)) (set_current_response None s)) with s1.
    unfold byte_chunk. by destruct (next_byte_payload _ s1) as [[]].
  - exists t', tid'. change CONTINUATION_WATCHDOG with 64%nat. rewrite Heq, app_nil_l.
    rewrite (parse_answer (reference_answer (records s) uuids sels) bs); [done| |done].
    by apply reference_answer_ok.
Qed.
End links.

(** C10. End-to-end search: a client asking a server for the attributes of the
    services that contain given UUIDs gets exactly the reference answer (each
    matching record in database order, its selected attributes sorted by id,
    records with none left out), however many continuation rounds the MTU
    forces, as long as the encoded answer needs at most 64 rounds. The server
    is left with no answer in flight. *)
Theorem client_search_attribute s tid uuids sels bs : u16 tid ->
  records_ok (records s) -> Forall selector_ok sels ->
  DataElement_to_bytes (Sequence (list_to_data_element <$> reference_answer (records s) uuids sels)) = Ok bs ->
  9 < server_mtu s -> len bs <= 64 * Z.min (server_mtu s - 9) 0xFFFF ->
  exists tid', service_search_attribute uuids sels (mkClient s tid)
    = (Ok (reference_answer (records s) uuids sels), mkClient (set_current_response None s) tid').
Proof.
  intros Htid Hrs Hsels Hto Hmtu Hlen.
  destruct (link_search_attribute s tid uuids sels bs) as (s' & tid' & Heq & Hs & _); try done.
  exists tid'. cbn [link_server server_link] in Hs. by rewrite Heq, Hs.
Qed.

(** A database with two services, one of which is a HID service. *)
Definition sample_server (mtu : Z) : SdpServer :=
  add_service 0x10001 [mkAttribute 9 (TextString [72; 73]);
                       mkAttribute 1 (Sequence [Uuid (uuid_from_u16 0x1124)])]
    (add_service 0x10000 [mkAttribute 1 (Sequence [Uuid (uuid_from_u16 0x1000)])] (SdpServer_new mtu)).

Lemma sample_encoding :
  DataElement_to_bytes (Sequence (list_to_data_element <$> reference_answer (records (sample_server 16))
    [mkUuid [0x24; 0x11; 0; 0] I] [AttrRange 0 0xFFFF]))
  = Ok [53; 17; 53; 15; 9; 0; 1; 53; 3; 25; 17; 36; 9; 0; 9; 37; 2; 72; 73].
Proof. vm_compute. reflexivity. Qed.

Lemma client_search_attribute_witness :
  exists tid', service_search_attribute [mkUuid [0x24; 0x11; 0; 0] I] [AttrRange 0 0xFFFF]
      (mkClient (sample_server 16) 0xFFFF)
    = (Ok [[mkAttribute 1 (Sequence [Uuid (uuid_from_u16 0x1124)]); mkAttribute 9 (TextString [72; 73])]],
       mkClient (sample_server 16) tid').
Proof.
  exact (client_search_attribute (sample_server 16) 0xFFFF [mkUuid [0x24; 0x11; 0; 0] I] [AttrRange 0 0xFFFF] _
    ltac:(lia) ltac:(by_compute) ltac:(by_compute) sample_encoding eq_refl ltac:(vm_compute; discriminate)).
Defined.

(** ** Service search *)

Lemma service_search_continues t pattern s total remaining :
  current_response s = Some (ResponseHandles total remaining) ->
  handle_request (ServiceSearchRequest t pattern 0xFFFF SERVER_CONTINUATION_STATE) s = search_chunk t s.
Proof.
  intros Hb. cbn [handle_request]. unfold on_service_search, check_continuation. by rewrite Hb.
Qed.

Definition handle_cap (s : SdpServer) : nat := Z.to_nat (saturating_sub (server_mtu s) 11 / 4).

Lemma search_services_run pattern w : forall acc cs s s1 total remaining tid,
  (forall t, handle_request (ServiceSearchRequest t pattern 0xFFFF cs) s = search_chunk t s1) ->
  current_response s1 = Some (ResponseHandles total remaining) -> (0 < handle_cap s1)%nat ->
  (length remaining <= S w * handle_cap s1)%nat ->
  exists tid', search_services_loop (S w) pattern acc cs (mkClient s tid)
    = (Ok (acc ++ remaining), mkClient (set_current_response (Some (ResponseHandles total [])) s1) tid').
Proof.
  induction w as [|w IH]; intros acc cs s s1 total remaining tid Hreq Hb Hcap Hlen.
  all: cbn [search_services_loop]; rewrite (sdp_exchange (fun t => ServiceSearchRequest t pattern 0xFFFF cs)).
  all: rewrite Hreq; unfold search_chunk; rewrite Hb; fold (handle_cap s1).
  all: destruct (drop (handle_cap s1) remaining) as [|h rest] eqn:Hd.
  1,3: change (is_terminal [0]) with true; cbv iota; apply (f_equal length) in Hd as Hl;
    rewrite length_drop in Hl; rewrite take_ge by (simpl in Hl; lia); eexists; reflexivity.
  - apply (f_equal length) in Hd. rewrite length_drop in Hd. simpl in Hd. lia.
  - change (is_terminal SERVER_CONTINUATION_STATE) with false. cbv iota. rewrite <- Hd.
    set (s2 := set_current_response (Some (ResponseHandles total (drop (handle_cap s1) remaining))) s1).
    destruct (IH (acc ++ take (handle_cap s1) remaining) SERVER_CONTINUATION_STATE s2 s2 total
      (drop (handle_cap s1) remaining) (wrapping_add 16 tid 1)) as (tid' & Heq).
    + intros t. by eapply service_search_continues.
    + done.
    + done.
    + rewrite length_drop. change (handle_cap s2) with (handle_cap s1). lia.
    + exists tid'. rewrite <- app_assoc, take_drop in Heq. exact Heq.
Qed.

(** Service search: the client gets the handles of exactly the records
    that contain one of the UUIDs, in database order, across as many
    continuation rounds as the MTU forces (at most 64). *)
Theorem client_search_services s tid uuids :
  let matching := record_handle <$> List.filter (record_matches uuids) (records s) in
  15 <= server_mtu s -> len matching <= 0xFFFF -> len matching <= 64 * ((server_mtu s - 11) / 4) ->
  exists tid', search_services uuids (mkClient s tid)
    = (Ok matching, mkClient (set_current_response (Some (ResponseHandles (len matching) [])) s) tid').
Proof.
  intros matching Hmtu H16 Hlen. unfold search_services.
  set (s1 := set_current_response (Some (ResponseHandles (len matching) matching)) s).
  assert (Z.of_nat (handle_cap s1) = (server_mtu s - 11) / 4) as Hcap.
  { unfold handle_cap, saturating_sub. change (server_mtu s1) with (server_mtu s).
    rewrite Z.max_r by lia. rewrite Z2Nat.id; [done|]. apply Z.div_pos; lia. }
  assert (1 <= (server_mtu s - 11) / 4) as Hpos by (apply Z.div_le_lower_bound; lia).
  destruct (search_services_run (search_pattern uuids) 63 [] [0] s s1 (len matching) matching tid) as (tid' & Heq).
  - intros t. cbn [handle_request]. unfold on_service_search, check_continuation.
    change (1 <? len [0]) with false. cbv iota. unfold match_services.
    rewrite pattern_uuids_search. change (records (set_current_response None s)) with (records s).
    fold matching. pose proof (len_nonneg matching). rewrite Z.mod_small by lia.
    rewrite take_ge by (unfold len in H16; lia). done.
  - done.
  - lia.
  - unfold len in Hlen. lia.
  - exists tid'. exact Heq.
Qed.

Lemma client_search_services_witness :
  exists tid', search_services [uuid_from_u16 0x1124; uuid_from_u16 0x1000] (mkClient (sample_server 15) 0)
    = (Ok [0x10000; 0x10001],
       mkClient (set_current_response (Some (ResponseHandles 2 [])) (sample_server 15)) tid').
Proof.
  exact (client_search_services (sample_server 15) 0 [uuid_from_u16 0x1124; uuid_from_u16 0x1000]
    ltac:(vm_compute; discriminate) ltac:(vm_compute; discriminate) ltac:(vm_compute; discriminate)).
Defined.

(** ** Responses on the wire *)

Definition wire_size (p : SdpPdu) : option Z :=
  match SdpPdu_to_bytes p with Ok bs => Some (len bs) | _ => None end.

Lemma handles_size (hs : list Z) : len (concat (to_be_bytes 4 <$> hs)) = 4 * len hs.
Proof.
  induction hs as [|h hs IH]; [done|]. rewrite fmap_cons. cbn [concat].
  rewrite len_app, len_cons, IH. unfold len at 1. rewrite length_to_be_bytes. lia.
Qed.

Lemma response_sizes t :
  (forall code, wire_size (ErrorResponse t code) = Some 7)
  /\ (forall l cs, wire_size (ServiceAttributeResponse t l cs) = Some (7 + len l + len cs))
  /\ (forall l cs, wire_size (ServiceSearchAttributeResponse t l cs) = Some (7 + len l + len cs))
  /\ (forall total hs cs, wire_size (ServiceSearchResponse t total hs cs) = Some (9 + 4 * len hs + len cs)).
Proof.
  split_and!; intros; unfold wire_size, SdpPdu_to_bytes; cbn [SdpPdu_parameters mbind res_bind];
    rewrite !len_cons, !len_app, ?handles_size; unfold len at 1 2; rewrite ?length_to_be_bytes; f_equal;
    rewrite ?len_app, ?handles_size; unfold len; rewrite ?length_to_be_bytes, ?length_to_le_bytes; simpl length; lia.
Qed.

Lemma next_payload_size cap s :
  let '(payload, cs, s') := next_byte_payload cap s in
  len payload <= Z.of_nat cap /\ len cs <= 2 /\ records s' = records s /\ server_mtu s' = server_mtu s.
Proof.
  unfold next_byte_payload. destruct (current_response s) as [[buf|total hs]|]; simpl; try (unfold len; simpl; lia).
  - destruct (Nat.ltb_spec cap (length buf)); split_and!; try done; unfold len in *; simpl; rewrite ?length_take; lia.
  - unfold len. simpl. split_and!; try done; lia.
  - unfold len. simpl. split_and!; try done; lia.
Qed.

Lemma byte_cap_le s requested : 9 <= server_mtu s -> Z.of_nat (attribute_byte_cap s requested) <= server_mtu s - 9.
Proof. intros. unfold attribute_byte_cap, saturating_sub. lia. Qed.

Lemma check_continuation_keeps cs s : let s' := (check_continuation cs s).2 in
  records s' = records s /\ server_mtu s' = server_mtu s.
Proof. unfold check_continuation. by repeat case_match. Qed.

(** What every answer of the server satisfies. *)
Definition good_answer (t : Z) (s : SdpServer) (answer : SdpPdu * SdpServer) : Prop :=
  SdpPdu_transaction_id answer.1 = t
  /\ (exists n, wire_size answer.1 = Some n /\ n <= server_mtu s)
  /\ records answer.2 = records s /\ server_mtu answer.2 = server_mtu s.

Lemma error_answer t code s : 11 <= server_mtu s -> good_answer t s (ErrorResponse t code, s).
Proof.
  intros. split; [done|]. split; [|done]. exists 7. destruct (response_sizes t) as (Hw & _). split; [apply Hw|lia].
Qed.

Lemma byte_answer t s requested (make : Z -> list Z -> list Z -> SdpPdu) : 11 <= server_mtu s ->
  (forall l cs, SdpPdu_transaction_id (make t l cs) = t /\ wire_size (make t l cs) = Some (7 + len l + len cs)) ->
  good_answer t s
    (let '(payload, cs, s') := next_byte_payload (attribute_byte_cap s requested) s in (make t payload cs, s')).
Proof.
  intros Hmtu Hmake. pose proof (next_payload_size (attribute_byte_cap s requested) s) as Hp.
  pose proof (byte_cap_le s requested ltac:(lia)).
  destruct (next_byte_payload _ s) as [[payload cs] s']. destruct Hp as (? & ? & ? & ?).
  destruct (Hmake payload cs) as [Ht Hw].
  split; [exact Ht|]. split; [|done]. eexists. split; [exact Hw|]. lia.
Qed.

Lemma handles_answer t s : 11 <= server_mtu s -> good_answer t s (search_chunk t s).
Proof.
  intros Hmtu. unfold search_chunk.
  destruct (current_response s) as [[buf|total remaining]|];
    [by apply error_answer| |by apply error_answer].
  split; [reflexivity|]. split; [|split; reflexivity]. destruct (response_sizes t) as (_ & _ & _ & Hw).
  eexists. split; [apply Hw|]. unfold saturating_sub. rewrite Z.max_r by lia.
  pose proof (Z.div_mod (server_mtu s - 11) 4). pose proof (Z.mod_pos_bound (server_mtu s - 11) 4).
  assert (forall l : list Z, len (take (Z.to_nat ((server_mtu s - 11) / 4)) l) <= (server_mtu s - 11) / 4) as Htake.
  { intros l. unfold len. rewrite length_take.
    assert (0 <= (server_mtu s - 11) / 4) by (apply Z.div_pos; lia). lia. }
  specialize (Htake remaining).
  destruct (drop _ remaining); unfold len in *; simpl length; lia.
Qed.

Lemma answers_fit req s : 11 <= server_mtu s ->
  good_answer (SdpPdu_transaction_id req) s (handle_request req s).
Proof.
  intros Hmtu.
  assert (forall s1 a t, records s1 = records s /\ server_mtu s1 = server_mtu s ->
    (11 <= server_mtu s1 -> good_answer t s1 a) -> good_answer t s a) as Hfrom.
  { intros s1 a t [Hr Hm] Hg. unfold good_answer in *. rewrite <- Hr, <- Hm. apply Hg. lia. }
  destruct (response_sizes (SdpPdu_transaction_id req)) as (_ & Hsa & Hssa & _).
  pose proof (fun cs => check_continuation_keeps cs s) as Hk.
  destruct req as [t code|t pat count cs|t total hs cs|t h count ids cs|t l cs|t pat count ids cs|t l cs];
    cbn [handle_request SdpPdu_transaction_id] in *; try by apply error_answer.
  - unfold on_service_search. specialize (Hk cs). destruct (check_continuation cs s) as [[code| |] s1].
    + apply (Hfrom s1); [done|]. intros. by apply error_answer.
    + apply (Hfrom s1); [done|]. apply handles_answer.
    + eapply Hfrom; [exact Hk|]. intros. eapply (handles_answer t (set_current_response _ s1)). done.
  - unfold on_service_attribute. specialize (Hk cs). destruct (check_continuation cs s) as [[code| |] s1].
    + apply (Hfrom s1); [done|]. intros. by apply error_answer.
    + apply (Hfrom s1); [done|]. intros. by apply (byte_answer t s1 count ServiceAttributeResponse).
    + destruct (List.find _ (records s1)) as [r|]; [|apply (Hfrom s1); [done|]; intros; by apply error_answer].
      eapply Hfrom; [exact Hk|]. intros. by apply (byte_answer t (set_current_response _ s1) count ServiceAttributeResponse).
  - unfold on_service_search_attribute. specialize (Hk cs). destruct (check_continuation cs s) as [[code| |] s1].
    + apply (Hfrom s1); [done|]. intros. by apply error_answer.
    + apply (Hfrom s1); [done|]. intros. by apply (byte_answer t s1 count ServiceSearchAttributeResponse).
    + eapply Hfrom; [exact Hk|]. intros.
      by apply (byte_answer t (set_current_response _ s1) count ServiceSearchAttributeResponse).
Qed.

(** C38. Every answer of the server, to any PDU and from any state (forged
    continuation states included), carries the request's transaction id, is
    encodable and fits the peer's MTU, and leaves the database as it is. *)
Theorem server_answers_fit req s : 11 <= server_mtu s ->
  good_answer (SdpPdu_transaction_id req) s (handle_request req s).
Proof. apply answers_fit. Qed.

Lemma server_answers_fit_witness :
  good_answer 5 (sample_server 48)
    (handle_request (ServiceSearchAttributeRequest 5 (search_pattern [uuid_from_u16 0x1124]) 0xFFFF
       (attribute_id_list [AttrRange 0 0xFFFF]) [0]) (sample_server 48)).
Proof.
  exact (server_answers_fit (ServiceSearchAttributeRequest 5 (search_pattern [uuid_from_u16 0x1124]) 0xFFFF
       (attribute_id_list [AttrRange 0 0xFFFF]) [0]) (sample_server 48) ltac:(vm_compute; discriminate)).
Defined.
