(* ===== verification/Host.v ===== *)
(** * Classic host ([src/src/classic_host.rs])

    One BR/EDR connection: pairing and encryption commands, ACL flow control
    against the controller's buffers, and the channel manager behind the ACL
    reassembler. The bond store is an interface ([BondStore] of
    [src/src/api.rs]). *)
From S2P Require Import Prelude Hci L2cap Ertm Classic Values.

(** ** Constants *)

Definition HCI_ACCEPT_CONNECTION_REQUEST : Z := 0x0409.
Definition HCI_LINK_KEY_REQUEST_REPLY : Z := 0x040B.
Definition HCI_LINK_KEY_REQUEST_NEGATIVE_REPLY : Z := 0x040C.
Definition HCI_AUTHENTICATION_REQUESTED : Z := 0x0411.
Definition HCI_SET_CONNECTION_ENCRYPTION : Z := 0x0413.
Definition HCI_IO_CAPABILITY_REQUEST_REPLY : Z := 0x042B.
Definition HCI_USER_CONFIRMATION_REQUEST_REPLY : Z := 0x042C.
Definition HCI_ROLE_PERIPHERAL : Z := 0x01.
Definition HCI_IO_CAPABILITY_NO_INPUT_NO_OUTPUT : Z := 0x03.
Definition HCI_AUTHENTICATION_REQUIREMENTS_DEDICATED_BONDING_NO_MITM : Z := 0x02.

(** ** Data *)

Inductive ClassicEvent : Type :=
| ConnectionRequested (peer : BluetoothAddress)
| ConnectionComplete (status handle : Z) (peer : BluetoothAddress)
| LinkKeyRequest (peer : BluetoothAddress)
| LinkKeyNotification (peer : BluetoothAddress) (key : list Z) (key_type : Z)
| IoCapabilityRequest (peer : BluetoothAddress)
| UserConfirmationRequest (peer : BluetoothAddress)
| AuthenticationComplete (status handle : Z)
| EncryptionChange (status handle : Z) (enabled : bool)
| NumberOfCompletedPackets (handle completed : Z)
| DisconnectionComplete (handle reason : Z).

Inductive SessionEvent : Type :=
| Connected (peer : BluetoothAddress) (handle : Z)
| BondStored (peer : BluetoothAddress)
| Encrypted (peer : BluetoothAddress)
| ChannelOpened (psm source_cid : Z)
| Disconnected (peer : BluetoothAddress) (reason : Z).

Inductive HostOutput : Type :=
| OutCommand (packet : CommandPacket)
| OutAcl (packet : AclPacket)
| OutEvent (event : SessionEvent).

Inductive BondStoreError : Type := LoadFailed | ListFailed | UpsertFailed.

Inductive HostError : Type :=
| HostBondStore (e : BondStoreError)
| HostCodec (e : CodecError)
| HostL2cap (e : L2capError)
| NoConnection
| ConnectionHandleMismatch (expected actual : Z)
| PeerMismatch (expected actual : BluetoothAddress)
| AclCreditUnderflow (in_flight completed : Z).

#[global] Instance SessionEvent_eq_dec : EqDecision SessionEvent.
Proof. solve_decision. Defined.
#[global] Instance HostOutput_eq_dec : EqDecision HostOutput.
Proof. solve_decision. Defined.

(** The storage boundary for link keys. *)
Class BondStore (S : Type) : Type := {
  select_local_address : BluetoothAddress -> stm S BondStoreError unit;
  bond_load : BluetoothAddress -> S -> res BondStoreError (option ClassicBond);
  bond_load_all : S -> res BondStoreError (list (BluetoothAddress * ClassicBond));
  bond_upsert : BluetoothAddress -> ClassicBond -> stm S BondStoreError unit
}.

(** What the trait documents, as what a store has [persisted]: a load that can
    be read gives it, and may fail; an upsert that succeeds has persisted the
    bond; and an upsert is for one peer, whether it succeeds or not. *)
Class BondStoreLaws (S : Type) `{BondStore S} : Type := {
  persisted : S -> BluetoothAddress -> option ClassicBond;
  load_persisted peer s bond : bond_load peer s = Ok bond -> bond = persisted s peer;
  upsert_persists peer bond s s' : bond_upsert peer bond s = (Ok tt, s') -> persisted s' peer = Some bond;
  upsert_one_peer peer other bond s r s' : bond_upsert peer bond s = (r, s') -> other <> peer -> persisted s' other = persisted s other
}.

Record Connection : Type := mkConnection {
  conn_peer : BluetoothAddress;
  conn_handle : Z;
  conn_encrypted : bool;
  conn_channels : ChannelManager
}.

#[global] Instance Connection_settable : Settable Connection :=
  fun c => mkConnection (conn_peer c) (conn_handle c) (conn_encrypted c) (conn_channels c).
Definition set_conn_encrypted v (c : Connection) : Connection := ltac:(set_field conn_encrypted v c).
Definition set_conn_channels v (c : Connection) : Connection := ltac:(set_field conn_channels v c).

(** ** Flow control *)

Record AclFlow : Type := mkFlow {
  payload_size : Z;
  total_packets : Z;
  in_flight : gmap Z Z;
  queued : list AclPacket
}.

#[global] Instance AclFlow_settable : Settable AclFlow :=
  fun f => mkFlow (payload_size f) (total_packets f) (in_flight f) (queued f).
Definition set_in_flight v (f : AclFlow) : AclFlow := ltac:(set_field in_flight v f).
Definition set_queued v (f : AclFlow) : AclFlow := ltac:(set_field queued v f).

Definition AclFlow_new (payload_size total_packets : Z) : AclFlow := mkFlow payload_size total_packets ∅ [].

Definition sum_values (m : gmap Z Z) : Z := map_fold (fun _ n acc => n + acc) 0 m.

Section flow.
Context `{Profile}.

(** [values().copied().sum()] on [u16] *)
Definition in_flight_total (m : gmap Z Z) : res HostError Z :=
  if sum_values m <? 65536 then Ok (sum_values m)
  else if overflow_checks then Panic
  else Ok (sum_values m mod 65536).

Definition AclFlow_enqueue (packets : list AclPacket) (self : AclFlow) : AclFlow :=
  set_queued (queued self ++ packets) self.

(** [while in_flight_total() < total_packets]: every round pops the queue. *)
Fixpoint flush_queue (total : Z) (waiting : list AclPacket) (in_flight : gmap Z Z) (output : list HostOutput)
  : res HostError (list AclPacket * gmap Z Z * list HostOutput) :=
  used ← in_flight_total in_flight;
  if used <? total then
    match waiting with
    | [] => Ok ([], in_flight, output)
    | packet :: rest =>
        n ← checked_add 16 (default 0 (in_flight !! connection_handle packet)) 1;
        flush_queue total rest (<[connection_handle packet := n]> in_flight) (output ++ [OutAcl packet])
    end
  else Ok (waiting, in_flight, output).

Definition AclFlow_flush (self : AclFlow) (output : list HostOutput) : res HostError (AclFlow * list HostOutput) :=
  '(waiting, m, output) ← flush_queue (total_packets self) (queued self) (in_flight self) output;
  Ok (set_queued waiting (set_in_flight m self), output).
End flow.

Definition AclFlow_complete (handle completed : Z) (self : AclFlow) : res HostError AclFlow :=
  let n := default 0 (in_flight self !! handle) in
  if n <? completed then Err (AclCreditUnderflow n completed) else
  let remaining := n - completed in
  Ok (set_in_flight (if remaining =? 0 then delete handle (in_flight self)
                     else <[handle := remaining]> (in_flight self)) self).

Definition AclFlow_clear_handle (handle : Z) (self : AclFlow) : AclFlow :=
  set_queued (List.filter (fun p => negb (connection_handle p =? handle)) (queued self))
    (set_in_flight (delete handle (in_flight self)) self).

(** ** The host *)

Record ClassicHost (S : Type) : Type := mkHost {
  bonds : S;
  connection : option Connection;
  pending_peer : option BluetoothAddress;
  host_servers : gmap Z ClassicChannelSpec;
  acl_assembler : AclAssembler;
  acl_flow : AclFlow;
  output : list HostOutput
}.
Arguments mkHost {S} bonds connection pending_peer host_servers acl_assembler acl_flow output.
Arguments bonds {S} c.
Arguments connection {S} c.
Arguments pending_peer {S} c.
Arguments host_servers {S} c.
Arguments acl_assembler {S} c.
Arguments acl_flow {S} c.
Arguments output {S} c.

#[global] Instance ClassicHost_settable S : Settable (ClassicHost S) := fun h =>
  mkHost (bonds h) (connection h) (pending_peer h) (host_servers h) (acl_assembler h) (acl_flow h) (output h).

Section setters.
Context {S : Type}.
Definition set_bonds v (h : ClassicHost S) : ClassicHost S := ltac:(set_field (@bonds S) v h).
Definition set_connection v (h : ClassicHost S) : ClassicHost S := ltac:(set_field (@connection S) v h).
Definition set_pending_peer v (h : ClassicHost S) : ClassicHost S := ltac:(set_field (@pending_peer S) v h).
Definition set_host_servers v (h : ClassicHost S) : ClassicHost S := ltac:(set_field (@host_servers S) v h).
Definition set_acl_assembler v (h : ClassicHost S) : ClassicHost S := ltac:(set_field (@acl_assembler S) v h).
Definition set_acl_flow v (h : ClassicHost S) : ClassicHost S := ltac:(set_field (@acl_flow S) v h).
Definition set_output v (h : ClassicHost S) : ClassicHost S := ltac:(set_field (@output S) v h).
End setters.

Definition ClassicHost_new {S} (store : S) (acl_payload_size total_acl_packets : Z) : ClassicHost S :=
  mkHost store None None ∅ ∅ (AclFlow_new acl_payload_size total_acl_packets) [].

Section host.
Context {S : Type} `{BondStore S} `{Profile}.

Abbreviation host := (stm (ClassicHost S) HostError).

Definition push_output (o : HostOutput) : host unit := modify (fun h => set_output (output h ++ [o]) h).

Definition queue_command (opcode : Z) (parameters : list Z) : host unit :=
  packet ← lift (map_err HostCodec (CommandPacket_new opcode parameters));
  push_output (OutCommand packet).

Definition connection_handle_of : host Z :=
  self ← get; lift (ok_or (conn_handle <$> connection self) NoConnection).

Definition ensure_handle (actual : Z) : host unit :=
  expected ← connection_handle_of;
  if actual =? expected then skip else throw (ConnectionHandleMismatch expected actual).

Definition connection_mut (actual : Z) : host Connection :=
  ensure_handle actual ;;
  self ← get;
  lift (ok_or (connection self) NoConnection).

(** A method of the connection's channel manager; [missing] is what the code
    does without a connection. *)
Definition on_channels {A} (missing : res HostError A) (m : stm ChannelManager L2capError A) : host A := fun h =>
  match connection h with
  | None => (missing, h)
  | Some c =>
      let '(r, channels) := m (conn_channels c) in
      (map_err HostL2cap r, set_connection (Some (set_conn_channels channels c)) h)
  end.

Definition flush_flow : host unit := fun h =>
  match AclFlow_flush (acl_flow h) (output h) with
  | Ok (flow, out) => (Ok tt, set_output out (set_acl_flow flow h))
  | Err e => (Err e, h)
  | Panic => (Panic, h)
  end.

(** What [poll_outbound] and [poll_accepted_channel] give until they give
    nothing. *)
Definition drain_manager : stm ChannelManager L2capError (list L2capPdu * list (Z * Z)) := fun m =>
  match collect ((fun cid => match channels m !! cid with
                             | Some channel => Ok (psm channel, cid)
                             | None => Panic
                             end) <$> accepted_channels m) with
  | Ok opened => (Ok (mgr_outbound m, opened), set_accepted_channels [] (set_mgr_outbound [] m))
  | Err e => (Err e, set_mgr_outbound [] m)
  | Panic => (Panic, set_mgr_outbound [] m)
  end.

Definition enqueue_pdu (handle : Z) (pdu : L2capPdu) : host unit :=
  self ← get;
  packets ← lift (map_err HostCodec
    (fragment_l2cap_pdu handle 0 (payload_size (acl_flow self)) (L2capPdu_to_bytes pdu false) false));
  modify (fun h => set_acl_flow (AclFlow_enqueue packets (acl_flow h)) h).

Definition flush_channels : host unit :=
  handle ← connection_handle_of;
  drained ← on_channels Panic drain_manager;
  for_each (enqueue_pdu handle) drained.1 ;;
  flush_flow ;;
  for_each (fun '(psm, cid) => push_output (OutEvent (ChannelOpened psm cid))) drained.2.

Definition host_register_server (psm : Z) (spec : ClassicChannelSpec) : host unit :=
  self ← get;
  (if bool_decide (is_Some (connection self))
   then _ ← on_channels Panic (register_server (Some psm) spec); skip else skip) ;;
  modify (fun h => set_host_servers (<[psm := spec]> (host_servers h)) h).

(** The servers of a new connection, in the order of the map. *)
Definition register_all (servers : gmap Z ClassicChannelSpec) : stm ChannelManager L2capError unit :=
  for_each (fun psm => match servers !! psm with
                       | Some spec => _ ← register_server (Some psm) spec; skip
                       | None => skip
                       end) (sorted_keys servers).

Definition on_connection_complete (handle : Z) (peer : BluetoothAddress) : host unit :=
  self ← get;
  (match pending_peer self with
   | Some expected => if bool_decide (peer = expected) then skip else throw (PeerMismatch expected peer)
   | None => skip
   end) ;;
  match register_all (host_servers self) ChannelManager_new with
  | (Ok _, channels) =>
      modify (set_pending_peer None) ;;
      modify (set_connection (Some (mkConnection peer handle false channels))) ;;
      push_output (OutEvent (Connected peer handle)) ;;
      queue_command HCI_AUTHENTICATION_REQUESTED (to_le_bytes 2 handle)
  | (Err e, _) => throw (HostL2cap e)
  | (Panic, _) => lift Panic
  end.

Definition on_link_key_request (peer : BluetoothAddress) : host unit :=
  self ← get;
  bond ← lift (map_err HostBondStore (bond_load peer (bonds self)));
  match bond with
  | Some bond => queue_command HCI_LINK_KEY_REQUEST_REPLY (address_le peer ++ link_key bond)
  | None => queue_command HCI_LINK_KEY_REQUEST_NEGATIVE_REPLY (address_le peer)
  end.

Definition on_link_key_notification (peer : BluetoothAddress) (key : list Z) (key_type : Z) : host unit :=
  let authenticated := (key_type =? 0x05) || (key_type =? 0x08) in
  (fun h => let '(r, s) := bond_upsert peer (mkBond key key_type authenticated) (bonds h) in
            (map_err HostBondStore r, set_bonds s h)) ;;
  push_output (OutEvent (BondStored peer)).

Definition on_disconnection_complete (handle reason : Z) : host unit :=
  c ← connection_mut handle;
  modify (fun h => set_acl_flow (AclFlow_clear_handle handle (acl_flow h)) h) ;;
  modify (fun h => set_acl_assembler (AclAssembler_clear_handle handle (acl_assembler h)) h) ;;
  modify (fun h => set_output (List.filter (fun o => match o with
                                                     | OutAcl p => negb (connection_handle p =? handle)
                                                     | _ => true
                                                     end) (output h)) h) ;;
  modify (set_connection None) ;;
  push_output (OutEvent (Disconnected (conn_peer c) reason)).

Definition host_handle_event (event : ClassicEvent) : host unit :=
  match event with
  | ConnectionRequested peer =>
      modify (set_pending_peer (Some peer)) ;;
      queue_command HCI_ACCEPT_CONNECTION_REQUEST (address_le peer ++ [HCI_ROLE_PERIPHERAL])
  | ConnectionComplete status handle peer =>
      if status =? 0 then on_connection_complete handle peer else modify (set_pending_peer None)
  | LinkKeyRequest peer => on_link_key_request peer
  | LinkKeyNotification peer key key_type => on_link_key_notification peer key key_type
  | IoCapabilityRequest peer =>
      queue_command HCI_IO_CAPABILITY_REQUEST_REPLY
        (address_le peer ++ [HCI_IO_CAPABILITY_NO_INPUT_NO_OUTPUT; 0;
                             HCI_AUTHENTICATION_REQUIREMENTS_DEDICATED_BONDING_NO_MITM])
  | UserConfirmationRequest peer => queue_command HCI_USER_CONFIRMATION_REQUEST_REPLY (address_le peer)
  | AuthenticationComplete status handle =>
      if status =? 0 then
        ensure_handle handle ;;
        queue_command HCI_SET_CONNECTION_ENCRYPTION (to_le_bytes 2 handle ++ [1])
      else skip
  | EncryptionChange status handle enabled =>
      if (status =? 0) && enabled then
        c ← connection_mut handle;
        modify (set_connection (Some (set_conn_encrypted true c))) ;;
        push_output (OutEvent (Encrypted (conn_peer c)))
      else skip
  | NumberOfCompletedPackets handle completed =>
      self ← get;
      flow ← lift (AclFlow_complete handle completed (acl_flow self));
      modify (set_acl_flow flow) ;;
      flush_flow
  | DisconnectionComplete handle reason => on_disconnection_complete handle reason
  end.

Definition feed_assembler (packet : AclPacket) : host (option (list Z)) := fun h =>
  let '(r, pending) := AclAssembler_feed packet (acl_assembler h) in
  (map_err HostCodec r, set_acl_assembler pending h).

Definition process_acl (packet : AclPacket) : host unit :=
  handle ← connection_handle_of;
  if negb (connection_handle packet =? handle)
  then throw (ConnectionHandleMismatch handle (connection_handle packet)) else
  fed ← feed_assembler packet;
  match fed with
  | None => skip
  | Some bytes =>
      pdu ← lift (map_err HostL2cap (L2capPdu_from_bytes bytes));
      on_channels Panic (process_pdu pdu) ;;
      flush_channels
  end.

Definition send_channel_sdu (source_cid : Z) (sdu : list Z) : host unit :=
  on_channels (Err NoConnection) (ChannelManager_send source_cid sdu) ;;
  flush_channels.

Definition connect_channel (psm : Z) (spec : ClassicChannelSpec) : host Z :=
  source_cid ← on_channels (Err NoConnection) (connect psm spec);
  flush_channels ;;
  mret source_cid.

Definition channel_info (h : ClassicHost S) (source_cid : Z) : option (Z * Z * bool) :=
  c ← connection h;
  channel ← channels (conn_channels c) !! source_cid;
  Some (psm channel, ch_peer_mtu channel, bool_decide (state channel = Open)).

Definition interrupt_send_capacity_available (h : ClassicHost S) : res HostError bool :=
  match queued (acl_flow h) with
  | [] => used ← in_flight_total (in_flight (acl_flow h)); Ok (used <? total_packets (acl_flow h))
  | _ => Ok false
  end.

Definition channel_output_is_flushed (h : ClassicHost S) : bool :=
  match queued (acl_flow h) with [] => true | _ => false end.

Definition take_channel_sdu (source_cid : Z) (h : ClassicHost S) : option (list Z) * ClassicHost S :=
  match connection h with
  | None => (None, h)
  | Some c =>
      match channels (conn_channels c) !! source_cid with
      | None => (None, h)
      | Some channel =>
          let '(sdu, channel) := ClassicChannel_pop_received channel in
          (sdu, set_connection (Some (set_conn_channels
             (set_channels (<[source_cid := channel]> (channels (conn_channels c))) (conn_channels c)) c)) h)
      end
  end.

Definition pop_output (h : ClassicHost S) : option HostOutput * ClassicHost S :=
  match output h with
  | [] => (None, h)
  | o :: rest => (Some o, set_output rest h)
  end.
End host.
