(* ===== verification/HostProps.v ===== *)
(** * Properties of the Classic host ([src/src/classic_host.rs])

    Flow control against the controller's buffers, the invariant of the whole
    host, the path of an SDU between two hosts, link keys and disconnection. *)
From S2P Require Import Prelude Hci L2cap Ertm ErtmSpec Classic ClassicProps Values Host.

(** ** Sums over handles *)

Definition at_handle (m : gmap Z Z) (h : Z) : Z := default 0 (m !! h).

Lemma sum_values_empty : sum_values ∅ = 0.
Proof. apply map_fold_empty. Qed.

Lemma sum_values_insert_new m k v : m !! k = None -> sum_values (<[k := v]> m) = v + sum_values m.
Proof. intros Hk. unfold sum_values. rewrite map_fold_insert_L; [done|intros; lia|done]. Qed.

Lemma sum_values_delete m k : sum_values (delete k m) = sum_values m - at_handle m k.
Proof.
  unfold at_handle. destruct (m !! k) as [v|] eqn:Hk; simpl.
  - rewrite <- (insert_delete_id m k v Hk) at 2. rewrite sum_values_insert_new by apply lookup_delete_eq. lia.
  - rewrite delete_id by done. lia.
Qed.

Lemma sum_values_insert m k v : sum_values (<[k := v]> m) = sum_values m - at_handle m k + v.
Proof.
  rewrite <- insert_delete_eq, sum_values_insert_new by apply lookup_delete_eq. rewrite sum_values_delete. lia.
Qed.

Definition positive (m : gmap Z Z) : Prop := forall k v, m !! k = Some v -> 1 <= v.

Lemma sum_values_at m k : positive m -> 0 <= at_handle m k <= sum_values m /\ 0 <= sum_values m.
Proof.
  assert (forall m, positive m -> 0 <= sum_values m) as Hnn.
  { intros m'. induction m' as [|j v m' Hj IH] using map_ind; [by rewrite sum_values_empty|]. intros Hp.
    rewrite sum_values_insert_new by done. specialize (Hp j v (lookup_insert_eq _ _ _)) as Hv.
    assert (0 <= sum_values m'); [|lia]. apply IH. intros i w Hi. apply (Hp i).
    rewrite lookup_insert_ne; [done|]. by intros ->; congruence. }
  intros Hp. split; [|by apply Hnn].
  assert (0 <= at_handle m k) by (unfold at_handle; destruct (m !! k) eqn:E; simpl; [apply Hp in E|]; lia).
  split; [done|]. pose proof (sum_values_delete m k). pose proof (Hnn (delete k m)) as Hd.
  assert (0 <= sum_values (delete k m)); [|lia]. apply Hd.
  intros i w Hi. apply lookup_delete_Some in Hi as [_ Hi]. by apply (Hp i).
Qed.

Lemma at_handle_insert m k v h : at_handle (<[k := v]> m) h = if decide (h = k) then v else at_handle m h.
Proof.
  unfold at_handle. case_decide; [subst; by rewrite lookup_insert_eq|by rewrite lookup_insert_ne].
Qed.

Lemma at_handle_delete m k h : at_handle (delete k m) h = if decide (h = k) then 0 else at_handle m h.
Proof.
  unfold at_handle. case_decide; [subst; by rewrite lookup_delete_eq|by rewrite lookup_delete_ne].
Qed.

(** ** Flow control *)

(** The controller has [total_packets] buffers; those in use are accounted per
    handle, and a handle without any has no entry. *)
Record flow_ok (f : AclFlow) : Prop := {
  flow_total : u16 (total_packets f);
  flow_positive : positive (in_flight f);
  flow_bound : sum_values (in_flight f) <= total_packets f
}.

Definition count_handle (h : Z) (ps : list AclPacket) : Z :=
  len (List.filter (fun p => connection_handle p =? h) ps).

Lemma count_handle_cons h p ps :
  count_handle h (p :: ps) = (if connection_handle p =? h then 1 else 0) + count_handle h ps.
Proof. unfold count_handle. simpl. destruct (_ =? _); rewrite ?len_cons; lia. Qed.

Lemma count_handle_app h ps qs : count_handle h (ps ++ qs) = count_handle h ps + count_handle h qs.
Proof. unfold count_handle. rewrite List.filter_app. apply len_app. Qed.

Section flow.
Context `{P : Profile}.

Lemma in_flight_total_ok m : sum_values m < 65536 -> in_flight_total m = Ok (sum_values m).
Proof. intros Hm. unfold in_flight_total. by rewrite (proj2 (Z.ltb_lt _ _)). Qed.

(** The outcome of [flush]: a prefix of the queue is sent, in order, as long
    as there are buffers. *)
Definition flushed (total : Z) (waiting : list AclPacket) (m : gmap Z Z) (out : list HostOutput)
  (r : res HostError (list AclPacket * gmap Z Z * list HostOutput)) : Prop :=
  exists sent rest m',
    r = Ok (rest, m', out ++ (OutAcl <$> sent))
    /\ waiting = sent ++ rest /\ positive m' /\ sum_values m' <= total
    /\ (rest = [] \/ sum_values m' = total)
    /\ sum_values m' = sum_values m + len sent
    /\ forall h, at_handle m' h = at_handle m h + count_handle h sent.

Lemma flushed_nothing total waiting m out : positive m -> sum_values m <= total ->
  waiting = [] \/ sum_values m = total -> flushed total waiting m out (Ok (waiting, m, out)).
Proof.
  intros Hp Hs Hend. exists [], waiting, m. rewrite app_nil_r. split_and!; try done.
  - change (len []) with 0. lia.
  - intros h. change (count_handle h []) with 0. lia.
Qed.

Lemma flush_queue_spec total waiting : forall m out, u16 total -> positive m -> sum_values m <= total ->
  flushed total waiting m out (flush_queue total waiting m out).
Proof.
  induction waiting as [|p waiting IH]; intros m out Ht Hp Hs; cbn [flush_queue];
    rewrite in_flight_total_ok by lia; cbn [mbind res_bind];
    destruct (Z.ltb_spec (sum_values m) total) as [Hlt|Hge].
  1,2,4: apply flushed_nothing; auto with lia.
  pose proof (sum_values_at m (connection_handle p) Hp) as [Hat _].
  unfold checked_add. fold (at_handle m (connection_handle p)).
  rewrite (proj2 (Z.ltb_lt _ _)) by (change (2 ^ 16) with 65536; lia). cbn [mbind res_bind].
  set (m1 := <[connection_handle p := at_handle m (connection_handle p) + 1]> m).
  assert (sum_values m1 = sum_values m + 1) as Hsum by (unfold m1; rewrite sum_values_insert; lia).
  destruct (IH m1 (out ++ [OutAcl p]) Ht) as (sent & rest & m' & Heq & -> & Hp' & Hs' & Hend & Hcount & Hat').
  - intros k v Hk. unfold m1 in Hk. apply lookup_insert_Some in Hk as [[_ <-]|[_ Hk]]; [lia|by apply (Hp k)].
  - lia.
  - exists (p :: sent), rest, m'. split_and!; try done.
    + by rewrite Heq, <- app_assoc.
    + rewrite Hcount, Hsum, len_cons. lia.
    + intros h. rewrite Hat', count_handle_cons. unfold m1. rewrite at_handle_insert.
      case_decide as Hd; [subst; rewrite Z.eqb_refl; lia|].
      rewrite (proj2 (Z.eqb_neq (connection_handle p) h)) by congruence. lia.
Qed.

Lemma AclFlow_flush_spec f out : flow_ok f ->
  exists sent f', AclFlow_flush f out = Ok (f', out ++ (OutAcl <$> sent)) /\ flow_ok f'
    /\ queued f = sent ++ queued f' /\ (queued f' = [] \/ sum_values (in_flight f') = total_packets f')
    /\ payload_size f' = payload_size f /\ total_packets f' = total_packets f
    /\ sum_values (in_flight f') = sum_values (in_flight f) + len sent
    /\ forall h, at_handle (in_flight f') h = at_handle (in_flight f) h + count_handle h sent.
Proof.
  intros [Ht Hp Hb]. destruct (flush_queue_spec (total_packets f) (queued f) (in_flight f) out Ht Hp Hb)
    as (sent & rest & m' & Heq & Hq & Hp' & Hs' & Hend & Hcount & Hat).
  exists sent, (set_queued rest (set_in_flight m' f)). unfold AclFlow_flush. rewrite Heq.
  split_and!; try done.
Qed.

Lemma AclFlow_complete_spec h n f : flow_ok f -> 0 <= n ->
  match AclFlow_complete h n f with
  | Ok f' => flow_ok f' /\ n <= at_handle (in_flight f) h /\ queued f' = queued f
      /\ total_packets f' = total_packets f
      /\ forall k, at_handle (in_flight f') k = at_handle (in_flight f) k - (if decide (k = h) then n else 0)
  | Err e => e = AclCreditUnderflow (at_handle (in_flight f) h) n /\ at_handle (in_flight f) h < n
  | Panic => False
  end.
Proof.
  intros [Ht Hp Hb] Hn. unfold AclFlow_complete. fold (at_handle (in_flight f) h).
  destruct (Z.ltb_spec (at_handle (in_flight f) h) n); [done|].
  pose proof (sum_values_at (in_flight f) h Hp) as [Hat _].
  destruct (Z.eqb_spec (at_handle (in_flight f) h - n) 0); split_and!; try done; try lia.
  - split; cbn; try done; [|rewrite sum_values_delete; lia].
    intros k v Hk. apply lookup_delete_Some in Hk as [_ Hk]. by apply (Hp k).
  - intros k. cbn. rewrite at_handle_delete. case_decide; subst; lia.
  - split; cbn; try done; [|rewrite sum_values_insert; lia].
    intros k v Hk. apply lookup_insert_Some in Hk as [[_ <-]|[_ Hk]]; [lia|by apply (Hp k)].
  - intros k. cbn. rewrite at_handle_insert. case_decide; subst; lia.
Qed.

Lemma AclFlow_clear_ok h f : flow_ok f -> flow_ok (AclFlow_clear_handle h f).
Proof.
  intros [Ht Hp Hb]. pose proof (sum_values_at (in_flight f) h Hp) as [Hat _].
  split; cbn; try done; [|rewrite sum_values_delete; lia].
  intros k v Hk. apply lookup_delete_Some in Hk as [_ Hk]. by apply (Hp k).
Qed.
End flow.

(** ** The ledger of a controller's buffers *)

(** Any use of the flow control, with what was submitted, what was sent and
    what the controller acknowledged; clearing a handle forgets it. *)
Inductive flow_op : Type :=
| FEnqueue (packets : list AclPacket)
| FFlush
| FComplete (handle completed : Z)
| FClear (handle : Z).

Record ledger : Type := mkLedger {
  led_flow : AclFlow;
  led_submitted : list AclPacket;
  led_sent : list AclPacket;
  led_acked : list (Z * Z)
}.

Definition others (h : Z) (ps : list AclPacket) : list AclPacket :=
  List.filter (fun p => negb (connection_handle p =? h)) ps.

Definition acked (h : Z) (acks : list (Z * Z)) : Z :=
  foldr (fun '(k, n) acc => (if k =? h then n else 0) + acc) 0 acks.

Definition acl_packets (out : list HostOutput) : list AclPacket :=
  omap (fun o => match o with OutAcl p => Some p | _ => None end) out.

Definition flow_step `{Profile} (op : flow_op) (l : ledger) : res HostError ledger :=
  match op with
  | FEnqueue ps =>
      Ok (mkLedger (AclFlow_enqueue ps (led_flow l)) (led_submitted l ++ ps) (led_sent l) (led_acked l))
  | FFlush =>
      '(f, out) ← AclFlow_flush (led_flow l) [];
      Ok (mkLedger f (led_submitted l) (led_sent l ++ acl_packets out) (led_acked l))
  | FComplete h n =>
      match AclFlow_complete h n (led_flow l) with
      | Ok f => Ok (mkLedger f (led_submitted l) (led_sent l) (led_acked l ++ [(h, n)]))
      | Err _ => Ok l
      | Panic => Panic
      end
  | FClear h =>
      Ok (mkLedger (AclFlow_clear_handle h (led_flow l)) (others h (led_submitted l)) (others h (led_sent l))
            (List.filter (fun '(k, _) => negb (k =? h)) (led_acked l)))
  end.

Fixpoint run_flow `{Profile} (ops : list flow_op) (l : ledger) : res HostError ledger :=
  match ops with
  | [] => Ok l
  | op :: ops => l ← flow_step op l; run_flow ops l
  end.

Record ledger_ok (total : Z) (l : ledger) : Prop := {
  led_flow_ok : flow_ok (led_flow l);
  led_total : total_packets (led_flow l) = total;
  led_fifo : led_sent l ++ queued (led_flow l) = led_submitted l;
  led_account : forall h, at_handle (in_flight (led_flow l)) h = count_handle h (led_sent l) - acked h (led_acked l)
}.

Lemma acl_packets_sent sent : acl_packets (OutAcl <$> sent) = sent.
Proof. induction sent; [done|]. cbn. by f_equal. Qed.

Lemma acked_cons h k n xs : acked h ((k, n) :: xs) = (if k =? h then n else 0) + acked h xs.
Proof. done. Qed.

Lemma acked_app h xs ys : acked h (xs ++ ys) = acked h xs + acked h ys.
Proof. induction xs as [|[k n] xs IH]; [done|]. rewrite <- app_comm_cons, !acked_cons, IH. lia. Qed.

Lemma acked_others h k xs : acked k (List.filter (fun '(k, _) => negb (k =? h)) xs) = if decide (k = h) then 0 else acked k xs.
Proof.
  induction xs as [|[j n] xs IH]; [by case_decide|]. cbn [List.filter].
  destruct (Z.eqb_spec j h); cbn [negb]; rewrite ?acked_cons, IH;
    destruct (decide (k = h)), (Z.eqb_spec j k); congruence || lia.
Qed.

Lemma count_others h k ps : count_handle k (others h ps) = if decide (k = h) then 0 else count_handle k ps.
Proof.
  induction ps as [|p ps IH]; [by case_decide|]. unfold others. cbn [List.filter]. fold (others h ps).
  destruct (Z.eqb_spec (connection_handle p) h); cbn [negb]; rewrite ?count_handle_cons, IH;
    destruct (decide (k = h)), (Z.eqb_spec (connection_handle p) k); congruence || lia.
Qed.

Lemma flow_step_ok `{Profile} total op l : ledger_ok total l ->
  match op with FComplete _ n => 0 <= n | _ => True end ->
  exists l', flow_step op l = Ok l' /\ ledger_ok total l'
    /\ (op = FFlush -> queued (led_flow l') = [] \/ sum_values (in_flight (led_flow l')) = total).
Proof.
  intros [Hf Ht Hq Ha] Hop. destruct op as [ps| |h n|h]; cbn [flow_step].
  - eexists. split; [done|]. split; [|done]. split; cbn [led_flow led_submitted led_sent led_acked]; try done; [by destruct Hf|].
    cbn [AclFlow_enqueue queued set_queued]. by rewrite app_assoc, Hq.
  - destruct (AclFlow_flush_spec (led_flow l) [] Hf)
      as (sent & f' & Heq & Hf' & Hq' & Hend & _ & Ht' & _ & Hat). rewrite Heq. cbn [mbind res_bind].
    eexists. split; [done|]. cbn [app]. rewrite acl_packets_sent. split; [split; cbn [led_flow led_submitted led_sent led_acked]; try done|].
    + congruence.
    + by rewrite <- app_assoc, <- Hq'.
    + intros h. rewrite Hat, Ha, count_handle_app. lia.
    + intros _. cbn. rewrite <- Ht, <- Ht'. exact Hend.
  - pose proof (AclFlow_complete_spec h n (led_flow l) Hf Hop) as Hc.
    destruct (AclFlow_complete h n (led_flow l)) as [f'|e|]; [|exists l; split; [done|]; split; [by split|done]|done].
    destruct Hc as (Hf' & Hle & Hq' & Ht' & Hat). eexists. split; [done|]. split; [|done].
    split; cbn [led_flow led_submitted led_sent led_acked]; try done.
    + congruence.
    + by rewrite Hq'.
    + intros k. rewrite Hat, Ha, acked_app, acked_cons. change (acked k []) with 0. case_decide; subst; rewrite ?Z.eqb_refl; [lia|].
      rewrite (proj2 (Z.eqb_neq h k)) by congruence. lia.
  - eexists. split; [done|]. split; [|done]. split; cbn [led_flow led_submitted led_sent led_acked]; try done.
    + by apply AclFlow_clear_ok.
    + change (queued (AclFlow_clear_handle h (led_flow l))) with (others h (queued (led_flow l))).
      unfold others. by rewrite <- List.filter_app, Hq.
    + intros k. change (in_flight (AclFlow_clear_handle h (led_flow l))) with (delete h (in_flight (led_flow l))).
      rewrite at_handle_delete, acked_others, count_others, Ha. by case_decide.
Qed.

(** C16. Flow control never overruns the controller and loses nothing: however
    submissions, flushes, completion events (also bogus ones) and cleared
    handles interleave, nothing panics, at most [total] packets are in the
    controller, packets leave in the order submitted and those not sent are
    exactly the queue, each handle's count is packets sent minus packets
    acknowledged, and a flush stops only with an empty queue or a full
    controller. *)
Theorem acl_flow_ledger `{Profile} size total ops : u16 total ->
  Forall (fun op => match op with FComplete _ n => 0 <= n | _ => True end) ops ->
  exists l, run_flow ops (mkLedger (AclFlow_new size total) [] [] []) = Ok l
    /\ sum_values (in_flight (led_flow l)) <= total
    /\ led_sent l ++ queued (led_flow l) = led_submitted l
    /\ (forall h, at_handle (in_flight (led_flow l)) h = count_handle h (led_sent l) - acked h (led_acked l))
    /\ exists l', flow_step FFlush l = Ok l'
         /\ (queued (led_flow l') = [] \/ sum_values (in_flight (led_flow l')) = total).
Proof.
  intros Ht Hops.
  assert (forall l, ledger_ok total l -> exists l', run_flow ops l = Ok l' /\ ledger_ok total l') as Hrun.
  { induction Hops as [|op ops Hop Hops IH]; intros l Hl; [by exists l|]. cbn [run_flow].
    destruct (flow_step_ok total op l Hl Hop) as (l1 & -> & Hl1 & _). by apply IH. }
  destruct (Hrun (mkLedger (AclFlow_new size total) [] [] [])) as (l & Heq & Hl).
  { split; [split| | |]; try done. cbn. rewrite sum_values_empty. lia. }
  exists l. destruct (flow_step_ok total FFlush l Hl I) as (l' & Hl' & _ & Hend).
  destruct Hl as [[] Htot ? ?]. rewrite Htot in *. split_and!; try done. exists l'. split; [done|]. by apply Hend.
Qed.

Lemma acl_flow_ledger_witness :
  exists l, run_flow (H:=true) [FEnqueue [mkAcl 1 0 0 [1]; mkAcl 1 1 0 [2]; mkAcl 2 0 0 [3]]; FFlush;
      FComplete 1 1; FComplete 9 1; FFlush; FClear 2]
    (mkLedger (AclFlow_new 27 2) [] [] []) = Ok l /\ sum_values (in_flight (led_flow l)) <= 2.
Proof.
  destruct (acl_flow_ledger (H:=true) 27 2 [FEnqueue [mkAcl 1 0 0 [1]; mkAcl 1 1 0 [2]; mkAcl 2 0 0 [3]]; FFlush;
      FComplete 1 1; FComplete 9 1; FFlush; FClear 2]) as (l & Heq & Hle & _); [lia|repeat constructor; lia|].
  exists l. split; [exact Heq|exact Hle].
Defined.

(** ** The invariant of the host *)

Definition pending_bytes (m : AclAssembler) : Prop := forall k e, m !! k = Some e -> bytes (pa_data e).

Record host_ok {S} (h : ClassicHost S) : Prop := {
  hok_flow : flow_ok (acl_flow h);
  hok_channels : forall c, connection h = Some c -> mgr_ok (conn_channels c);
  hok_pending : pending_bytes (acl_assembler h);
  hok_servers : forall p s, host_servers h !! p = Some s -> u16 (spec_mtu s)
}.

Section invariant.
Context {S : Type} `{B : BondStore S} `{P : Profile}.
Abbreviation hinv := (@host_ok S).

Lemma keep_field {A} (m : stm (ClassicHost S) HostError A) :
  (forall h, acl_flow (m h).2 = acl_flow h /\ connection (m h).2 = connection h
     /\ acl_assembler (m h).2 = acl_assembler h /\ host_servers (m h).2 = host_servers h) ->
  preserves hinv m.
Proof.
  intros Hm h [H1 H2 H3 H4]. destruct (Hm h) as (E1 & E2 & E3 & E4).
  split; rewrite ?E1, ?E2, ?E3, ?E4; done.
Qed.

Lemma keep_push o : preserves hinv (push_output o).
Proof. by apply keep_field. Qed.

Lemma keep_command op ps : preserves hinv (queue_command op ps).
Proof. apply preserves_bind; [apply preserves_lift|intros; apply keep_push]. Qed.

Lemma keep_handle_of : preserves hinv connection_handle_of.
Proof. apply preserves_get. intros h0 _. apply preserves_lift. Qed.

Lemma keep_ensure actual : preserves hinv (ensure_handle actual).
Proof.
  apply preserves_bind; [apply keep_handle_of|]. intros e. destruct (_ =? _); [apply preserves_skip|apply preserves_throw].
Qed.

Lemma keep_channels {A} missing (m : stm ChannelManager L2capError A) : good m -> preserves hinv (on_channels missing m).
Proof.
  intros Hm h [H1 H2 H3 H4]. unfold on_channels. destruct (connection h) as [c|] eqn:Hc;
    [|split; cbn; try done; by rewrite Hc].
  specialize (Hm (conn_channels c) (H2 c eq_refl)) as [Hok _]. destruct (m (conn_channels c)) as [r ch].
  split; try done. cbn. intros ? [= <-]. exact Hok.
Qed.

Lemma good_drain : good drain_manager.
Proof.
  intros m Hm. unfold good_at, drain_manager. pose proof Hm as [H1 H2 H3 H4].
  destruct (collect _); split; try (by intros k c Hc; exists c); constructor; try done.
  cbn. by intros cid ?%not_elem_of_nil.
Qed.

Lemma keep_flush_flow : preserves hinv flush_flow.
Proof.
  intros h [H1 H2 H3 H4]. unfold flush_flow.
  destruct (AclFlow_flush_spec (acl_flow h) (output h) H1) as (sent & f' & -> & Hf' & _). by split.
Qed.

Lemma keep_enqueue handle pdu : preserves hinv (enqueue_pdu handle pdu).
Proof.
  apply preserves_get. intros h0 _. apply preserves_bind; [apply preserves_lift|]. intros ps.
  apply preserves_modify. intros h [[] H2 H3 H4]. split; done.
Qed.

Lemma keep_flush_channels : preserves hinv flush_channels.
Proof.
  apply preserves_bind; [apply keep_handle_of|intros handle].
  apply preserves_bind; [apply keep_channels, good_drain|intros drained].
  apply preserves_bind; [apply preserves_for_each; intros; apply keep_enqueue|intros _].
  apply preserves_bind; [apply keep_flush_flow|intros _].
  apply preserves_for_each. intros [p cid]. apply keep_push.
Qed.

Lemma good_register_server p s : u16 (spec_mtu s) -> good (register_server p s).
Proof. intros Hs. apply (good_guarded (spec_ok (BasicSpec s))); [by apply basic_spec_ok|apply good_register]. Qed.

Lemma good_register_all servers : (forall p s, servers !! p = Some s -> u16 (spec_mtu s)) -> good (register_all servers).
Proof.
  intros Hs. apply good_for_each. intros p. destruct (servers !! p) as [s|] eqn:Hp; [|apply good_skip].
  apply good_bind; [apply good_register_server; by eapply Hs|intros; apply good_skip].
Qed.

Lemma keep_connection_complete handle peer : preserves hinv (on_connection_complete handle peer).
Proof.
  apply preserves_get. intros h0 H0. apply preserves_bind.
  { destruct (pending_peer h0); [case_match; [apply preserves_skip|apply preserves_throw]|apply preserves_skip]. }
  intros _. pose proof (good_register_all (host_servers h0) (hok_servers _ H0) ChannelManager_new) as Hg.
  destruct (register_all (host_servers h0) ChannelManager_new) as [[[]|e|] ch] eqn:Hr;
    [|apply preserves_throw|apply preserves_lift].
  apply preserves_bind; [by apply keep_field|intros _].
  apply preserves_bind; [|intros _; apply preserves_bind; [apply keep_push|intros; apply keep_command]].
  apply preserves_modify. intros h [H1 H2 H3 H4]. split; try done. cbn. intros ? [= <-].
  destruct (Hg (new_manager_ok _)) as [Hok _]. by rewrite Hr in Hok.
Qed.

Lemma keep_disconnection handle reason : preserves hinv (on_disconnection_complete handle reason).
Proof.
  apply preserves_bind.
  { apply preserves_bind; [apply keep_ensure|intros _]. apply preserves_get. intros; apply preserves_lift. }
  intros c. apply preserves_bind.
  { apply preserves_modify. intros h [H1 H2 H3 H4]. split; try done. by apply AclFlow_clear_ok. }
  intros _. apply preserves_bind.
  { apply preserves_modify. intros h [H1 H2 H3 H4]. split; try done. cbn. intros k e Hk.
    unfold AclAssembler_clear_handle in Hk. apply lookup_delete_Some in Hk as [_ Hk]. by eapply H3. }
  intros _. apply preserves_bind; [by apply keep_field|intros _]. apply preserves_bind; [|intros; apply keep_push].
  apply preserves_modify. intros h [H1 H2 H3 H4]. by split.
Qed.

Definition event_in_range (e : ClassicEvent) : Prop :=
  match e with NumberOfCompletedPackets _ n => 0 <= n | _ => True end.

Lemma keep_event e : event_in_range e -> preserves hinv (host_handle_event e).
Proof.
  intros He. destruct e as [peer|status handle peer|peer|peer key kt|peer|peer|status handle|status handle en|handle n|handle reason];
    cbn [host_handle_event].
  - apply preserves_bind; [by apply keep_field|intros; apply keep_command].
  - case_match; [apply keep_connection_complete|by apply keep_field].
  - apply preserves_get. intros h0 _. apply preserves_bind; [apply preserves_lift|]. intros [b|]; apply keep_command.
  - apply preserves_bind; [|intros; apply keep_push]. apply keep_field. intros h.
    by destruct (bond_upsert _ _ (bonds h)).
  - apply keep_command.
  - apply keep_command.
  - case_match; [|apply preserves_skip]. apply preserves_bind; [apply keep_ensure|intros; apply keep_command].
  - case_match; [|apply preserves_skip]. intros h Hh. unfold connection_mut, ensure_handle, connection_handle_of.
    unfold mbind, stm_bind, get, lift. destruct (connection h) as [c|] eqn:Hc; cbn; [|done].
    destruct (handle =? conn_handle c); cbn; [|done]. rewrite Hc. cbn. pose proof Hh as [H1 H2 H3 H4].
    split; try done. cbn. intros ? [= <-]. exact (H2 c Hc).
  - apply preserves_get. intros h0 H0. pose proof (AclFlow_complete_spec handle n (acl_flow h0) (hok_flow _ H0) He) as Hc.
    destruct (AclFlow_complete handle n (acl_flow h0)) as [f|err|]; cbn; [|apply (preserves_throw hinv)|done].
    apply (preserves_bind hinv (modify (set_acl_flow f))); [|intros; apply keep_flush_flow].
    apply preserves_modify. intros h [H1 H2 H3 H4]. split; try done. apply Hc.
  - apply keep_disconnection.
Qed.
End invariant.

Lemma feed_bytes p pending : bytes (acl_data p) -> pending_bytes pending ->
  pending_bytes (AclAssembler_feed p pending).2
  /\ forall b, (AclAssembler_feed p pending).1 = Ok (Some b) -> bytes b.
Proof.
  intros Hb Hp. unfold AclAssembler_feed.
  assert (forall k e m, pending_bytes m -> bytes (pa_data e) -> pending_bytes (<[k := e]> m)) as Hins.
  { intros k e m Hm He k' e' Hk. apply lookup_insert_Some in Hk as [[_ <-]|[_ Hk]]; [done|by eapply Hm]. }
  assert (forall k m, pending_bytes m -> pending_bytes (delete k m)) as Hdel.
  { intros k m Hm k' e' Hk. apply lookup_delete_Some in Hk as [_ Hk]. by eapply Hm. }
  destruct (packet_boundary p =? ACL_CONTINUATION).
  - destruct (pending !! connection_handle p) as [e|] eqn:He; [|by split].
    assert (bytes (pa_data e ++ acl_data p)) as Hd by (apply bytes_app; split; [by eapply Hp|done]).
    rewrite lookup_insert_eq. repeat case_match; split; cbn; try done; auto. intros b. by intros [= <-].
  - repeat case_match; split; cbn; try done; auto. intros b. by intros [= <-].
Qed.

Lemma pdu_payload_bytes data pdu : bytes data -> L2capPdu_from_bytes data = Ok pdu -> bytes (pdu_payload pdu).
Proof.
  intros Hb. unfold L2capPdu_from_bytes. destruct (Z.ltb_spec (len data) 4); [done|].
  do 4 (destruct data as [|? data]; [unfold len in *; simpl in *; lia|]).
  cbn [idx expect lookup list_lookup mbind res_bind]. intros Hd.
  repeat (case_match; try done). unfold slice, get_range in Hd.
  repeat (case_match; simplify_eq/=; try done).
  all: try (apply bytes_take, bytes_drop; rewrite ?bytes_cons in *; tauto).
Qed.

Section calls.
Context {S : Type} `{B : BondStore S} `{P : Profile}.
Abbreviation hinv := (@host_ok S).

Lemma keep_process_acl p : bytes (acl_data p) -> preserves hinv (process_acl p).
Proof.
  intros Hp. apply preserves_bind; [apply keep_handle_of|intros handle].
  destruct (negb _); [apply preserves_throw|].
  assert (triple hinv (feed_assembler p) (fun r h => hinv h /\ forall b, r = Ok (Some b) -> bytes b)) as Hf.
  { intros h [H1 H2 H3 H4]. unfold feed_assembler. pose proof (feed_bytes p (acl_assembler h) Hp H3) as [Hk Hb].
    destruct (AclAssembler_feed p (acl_assembler h)) as [r pending]. split; [by split|].
    intros b Hr. apply Hb. by destruct r; simplify_eq/=. }
  eapply triple_bind; [exact Hf| |by intros ?? []|by intros ? []].
  intros [b|] h [Hh Hb]; [|done]. specialize (Hb b eq_refl). revert h Hh.
  destruct (L2capPdu_from_bytes b) as [pdu|e|] eqn:Hpdu; cbn [map_err].
  - apply (preserves_bind hinv (on_channels Panic (process_pdu pdu)));
      [apply keep_channels, good_process_pdu; by eapply pdu_payload_bytes|intros; apply keep_flush_channels].
  - by intros h Hh.
  - by intros h Hh.
Qed.

Lemma keep_send cid sdu : preserves hinv (send_channel_sdu cid sdu).
Proof. apply preserves_bind; [apply keep_channels, good_send|intros; apply keep_flush_channels]. Qed.

Lemma keep_connect psm spec : u16 (spec_mtu spec) -> preserves hinv (connect_channel psm spec).
Proof.
  intros Hs. apply preserves_bind.
  - apply keep_channels. intros m Hm. exact (mgr_call_good (CallConnect psm spec) m Hs Hm).
  - intros cid. apply preserves_bind; [apply keep_flush_channels|intros; apply preserves_ret].
Qed.

Lemma keep_register psm spec : u16 (spec_mtu spec) -> preserves hinv (host_register_server psm spec).
Proof.
  intros Hs. apply preserves_get. intros h0 _. apply preserves_bind.
  - case_match; [|apply preserves_skip].
    apply preserves_bind; [apply keep_channels; by apply good_register_server|intros; apply preserves_skip].
  - intros _. apply preserves_modify. intros h [H1 H2 H3 H4]. split; try done. cbn. intros p s Hk.
    apply lookup_insert_Some in Hk as [[_ <-]|[_ Hk]]; [done|by eapply H4].
Qed.

Lemma keep_take cid h : hinv h -> hinv (take_channel_sdu cid h).2.
Proof.
  intros Hh. unfold take_channel_sdu. destruct (connection h) as [c|] eqn:Hc; [|done].
  pose proof Hh as [H1 H2 H3 H4].
  destruct (mgr_call_good (CallPopReceived cid) (conn_channels c) I (H2 c Hc)) as [Hok _].
  cbn [run_mgr_call] in Hok. unfold on_channel in Hok.
  destruct (channels (conn_channels c) !! cid) as [ch|]; [|done].
  destruct (ClassicChannel_pop_received ch) as [sdu ch']. split; try done. cbn. intros ? [= <-]. exact Hok.
Qed.

(** The calls of a session on its host. *)
Inductive host_call : Type :=
| HEvent (event : ClassicEvent)
| HAcl (packet : AclPacket)
| HSend (cid : Z) (sdu : list Z)
| HConnect (psm : Z) (spec : ClassicChannelSpec)
| HRegister (psm : Z) (spec : ClassicChannelSpec)
| HTake (cid : Z)
| HPop.

Definition host_call_in_range (c : host_call) : Prop :=
  match c with
  | HEvent e => event_in_range e
  | HAcl p => bytes (acl_data p)
  | HConnect _ s | HRegister _ s => u16 (spec_mtu s)
  | _ => True
  end.

Definition run_host_call (c : host_call) (h : ClassicHost S) : ClassicHost S :=
  match c with
  | HEvent e => (host_handle_event e h).2
  | HAcl p => (process_acl p h).2
  | HSend cid sdu => (send_channel_sdu cid sdu h).2
  | HConnect psm spec => (connect_channel psm spec h).2
  | HRegister psm spec => (host_register_server psm spec h).2
  | HTake cid => (take_channel_sdu cid h).2
  | HPop => (pop_output h).2
  end.

Definition run_host_calls (cs : list host_call) (h : ClassicHost S) : ClassicHost S :=
  fold_left (fun h c => run_host_call c h) cs h.

Lemma host_calls_ok cs : forall h, Forall host_call_in_range cs -> hinv h -> hinv (run_host_calls cs h).
Proof.
  induction cs as [|c cs IH]; intros h Hr Hh; [done|]. apply Forall_cons_iff in Hr as [Hc Hr].
  apply IH; [done|]. destruct c; cbn [run_host_call host_call_in_range] in *.
  - by apply keep_event.
  - by apply keep_process_acl.
  - by apply keep_send.
  - by apply keep_connect.
  - by apply keep_register.
  - by apply keep_take.
  - unfold pop_output. destruct (output h); [done|]. destruct Hh. by split.
Qed.

(** C15. The host's invariant: from a new host, after any sequence of calls on
    any HCI events and ACL packets (whatever the bond store answers, and
    whether or not calls fail), the controller never holds more packets than
    it has buffers for, the connection's channel manager satisfies its own
    invariant, and the reassembly buffers hold bytes. *)
Theorem host_invariant (store : S) size total cs : u16 total -> Forall host_call_in_range cs ->
  hinv (run_host_calls cs (ClassicHost_new store size total)).
Proof.
  intros Ht Hr. apply host_calls_ok; [done|]. split; try done. split; try done.
  cbn. rewrite sum_values_empty. lia.
Qed.
End calls.

(** ** An SDU between two hosts *)

(** The packets of a PDU, and a packet as the peer's controller hands it over,
    under its own handle of the link. *)
Definition fragments (handle size : Z) (pdu : list Z) : list AclPacket :=
  (fun '(i, d) => mkAcl handle (fragment_boundary i false) 0 d) <$> enumerate (chunks (Z.to_nat size) pdu).

Definition carried (handle : Z) (p : AclPacket) : AclPacket :=
  mkAcl handle (packet_boundary p) (broadcast_flag p) (acl_data p).

Lemma carried_fragments h h' size pdu : carried h' <$> fragments h size pdu = fragments h' size pdu.
Proof. unfold fragments. rewrite <- list_fmap_compose. apply list_fmap_ext. by intros ? [i d]. Qed.

Lemma AclPacket_new_ok h i fl d : 0 <= h <= 0xFFF -> len d <= 65535 ->
  AclPacket_new h (fragment_boundary i fl) 0 d = Ok (mkAcl h (fragment_boundary i fl) 0 d).
Proof.
  intros Hh Hd. unfold AclPacket_new, ACL_HANDLE_MASK, ACL_BOUNDARY_MASK, ACL_BROADCAST_MASK.
  rewrite (proj2 (Z.ltb_ge _ h)), (proj2 (Z.ltb_ge _ (len d))) by lia.
  unfold fragment_boundary. by repeat case_match.
Qed.

Lemma fragment_succeeds h size pdu : 0 <= h <= 0xFFF -> 1 <= size <= 65535 -> pdu_complete pdu ->
  fragment_l2cap_pdu h 0 size pdu false = Ok (fragments h size pdu).
Proof.
  intros Hh Hs (b0 & b1 & rest & -> & Hl & H4). unfold fragment_l2cap_pdu.
  rewrite (proj2 (Z.eqb_neq size 0)), (proj2 (Z.ltb_ge _ 4)) by lia. cbn [orb]. read_prefix.
  rewrite (proj2 (Z.eqb_eq _ _)) by lia. cbn [negb]. apply collect_Ok.
  unfold fragments. rewrite <- list_fmap_compose.
  assert (Forall (fun x => len x.2 <= 65535) (enumerate (chunks (Z.to_nat size) (b0 :: b1 :: rest)))) as Hb.
  { pose proof (chunks_bounded (Z.to_nat size) (b0 :: b1 :: rest) ltac:(lia)) as Hb. unfold enumerate.
    apply Forall_lookup_2. intros i [j d] Hi. rewrite list_lookup_imap in Hi.
    apply fmap_Some in Hi as (d' & Hd & [= <- <-]). eapply Forall_lookup_1 in Hb; [|exact Hd]. unfold len. cbn in *. lia. }
  induction Hb as [|[i d] l Hd Hb IH]; [done|]. rewrite !fmap_cons. cbn [compose]. f_equal; [|exact IH].
  cbn in Hd. by apply AclPacket_new_ok.
Qed.

Lemma to_bytes_complete cid payload : len payload <= 65535 -> pdu_complete (L2capPdu_to_bytes (mkPdu cid payload) false).
Proof.
  intros Hl. unfold L2capPdu_to_bytes. cbn [pdu_cid pdu_payload]. pose proof (len_nonneg payload).
  rewrite Z.mod_small, !to_le_bytes_2 by lia. cbn [app]. eexists _, _, _. split; [done|].
  rewrite u16_le_roundtrip, !len_cons by lia. lia.
Qed.

(** A connection with nothing waiting to be sent or announced. *)
Definition quiet {S} (h : ClassicHost S) (c : Connection) : Prop :=
  connection h = Some c /\ mgr_outbound (conn_channels c) = [] /\ accepted_channels (conn_channels c) = []
  /\ queued (acl_flow h) = [] /\ flow_ok (acl_flow h).

Section crossing.
Context {S : Type} `{B : BondStore S} `{P : Profile}.

Lemma flush_flow_empty (h : ClassicHost S) : flow_ok (acl_flow h) -> queued (acl_flow h) = [] ->
  flush_flow h = (Ok tt, h).
Proof.
  intros Hf Hq. unfold flush_flow, AclFlow_flush. rewrite Hq. cbn [flush_queue]. destruct Hf as [Ht Hp Hb].
  rewrite in_flight_total_ok by lia. cbn [mbind res_bind].
  destruct (_ <? _); cbn [mbind res_bind]; destruct h as [? ? ? ? ? [? ? ? ?] ?]; cbn in *; by rewrite Hq.
Qed.

Lemma flush_channels_quiet (h : ClassicHost S) c : quiet h c -> flush_channels h = (Ok tt, h).
Proof.
  intros (Hc & Ho & Ha & Hq & Hf). unfold flush_channels, connection_handle_of.
  unfold mbind, stm_bind, get, lift. rewrite Hc. cbn [fmap option_fmap option_map ok_or].
  unfold on_channels, drain_manager. rewrite Hc, Ho, Ha. cbn [fmap list_fmap collect map_err for_each fst snd].
  unfold skip. rewrite flush_flow_empty; cbn; try done.
  do 2 f_equal. destruct h as [? ? ? ? ? ? ?], c as [? ? ? []]; cbn in *. by subst.
Qed.

Lemma process_acl_partial (h : ClassicHost S) c p pending : connection h = Some c ->
  connection_handle p = conn_handle c -> AclAssembler_feed p (acl_assembler h) = (Ok None, pending) ->
  process_acl p h = (Ok tt, set_acl_assembler pending h).
Proof.
  intros Hc Hp Hf. unfold process_acl, connection_handle_of, mbind, stm_bind, get, lift. rewrite Hc. cbn.
  rewrite Hp, Z.eqb_refl. cbn. unfold feed_assembler. by rewrite Hf.
Qed.

Lemma process_acl_final (h : ClassicHost S) c p pending bs pdu m :
  quiet (set_connection (Some (set_conn_channels m c)) (set_acl_assembler pending h)) (set_conn_channels m c) ->
  connection h = Some c -> connection_handle p = conn_handle c ->
  AclAssembler_feed p (acl_assembler h) = (Ok (Some bs), pending) -> L2capPdu_from_bytes bs = Ok pdu ->
  process_pdu pdu (conn_channels c) = (Ok tt, m) ->
  process_acl p h = (Ok tt, set_connection (Some (set_conn_channels m c)) (set_acl_assembler pending h)).
Proof.
  intros Hq Hc Hp Hf Hb Hm. unfold process_acl, connection_handle_of, mbind, stm_bind, get, lift. rewrite Hc.
  cbn [fmap option_fmap option_map ok_or]. rewrite Hp, Z.eqb_refl. cbn [negb].
  unfold feed_assembler. rewrite Hf. cbn [map_err]. rewrite Hb. cbn [map_err].
  unfold on_channels. change (connection (set_acl_assembler pending h)) with (connection h).
  rewrite Hc, Hm. cbn [map_err]. by apply flush_channels_quiet with (c := set_conn_channels m c).
Qed.

(** The packets of one PDU, the last of which completes it. *)
Lemma process_acls ps : forall (h : ClassicHost S) c pending bs pdu m,
  ps <> [] -> connection h = Some c -> Forall (fun p => connection_handle p = conn_handle c) ps ->
  feed_all ps (acl_assembler h) = (Ok (replicate (length ps - 1) None ++ [Some bs]), pending) ->
  L2capPdu_from_bytes bs = Ok pdu -> process_pdu pdu (conn_channels c) = (Ok tt, m) ->
  mgr_outbound m = [] -> accepted_channels m = [] -> queued (acl_flow h) = [] -> flow_ok (acl_flow h) ->
  for_each process_acl ps h
  = (Ok tt, set_connection (Some (set_conn_channels m c)) (set_acl_assembler pending h)).
Proof.
  induction ps as [|p ps IH]; intros h c pending bs pdu m Hne Hc Hps Hf Hb Hm Ho Ha Hq Hfl; [done|].
  apply Forall_cons_iff in Hps as [Hp Hps]. cbn [for_each feed_all] in *.
  unfold mbind, stm_bind in Hf. destruct (AclAssembler_feed p (acl_assembler h)) as [[r|e|] pend1] eqn:Hfeed; try done.
  destruct (feed_all ps pend1) as [[rs|e|] pend2] eqn:Hrest; try done. cbn in Hf.
  destruct ps as [|q ps].
  - cbn in Hrest. injection Hrest as <- <-. cbn in Hf. injection Hf as -> <-.
    unfold mbind, stm_bind. by rewrite (process_acl_final h c p pend1 bs pdu m).
  - cbn [length Nat.sub replicate app] in Hf. injection Hf as -> Hrs ->.
    unfold mbind, stm_bind. rewrite (process_acl_partial h c p pend1 Hc Hp Hfeed).
    rewrite (IH (set_acl_assembler pend1 h) c pending bs pdu m); try done.
    change (acl_assembler (set_acl_assembler pend1 h)) with pend1. rewrite Hrest.
    cbn [length Nat.sub]. by rewrite Nat.sub_0_r, Hrs.
Qed.

(** Sending an SDU queues its fragments behind what waits and sends what the
    controller has buffers for. *)
Lemma send_sdu_flow (h : ClassicHost S) c cid ch sdu :
  connection h = Some c -> mgr_outbound (conn_channels c) = [] -> accepted_channels (conn_channels c) = [] -> flow_ok (acl_flow h) ->
  channels (conn_channels c) !! cid = Some ch -> state ch = Open -> ertm ch = None ->
  len sdu <= ch_peer_mtu ch -> ch_peer_mtu ch <= 65535 ->
  0 <= conn_handle c <= 0xFFF -> 1 <= payload_size (acl_flow h) <= 65535 ->
  let packets := fragments (conn_handle c) (payload_size (acl_flow h))
                   (L2capPdu_to_bytes (mkPdu (destination_cid ch) sdu) false) in
  exists sent f', send_channel_sdu cid sdu h = (Ok tt, set_output (output h ++ (OutAcl <$> sent)) (set_acl_flow f' h))
    /\ flow_ok f' /\ queued (acl_flow h) ++ packets = sent ++ queued f'
    /\ (queued f' = [] \/ sum_values (in_flight f') = total_packets f') /\ total_packets f' = total_packets (acl_flow h)
    /\ sum_values (in_flight f') = sum_values (in_flight (acl_flow h)) + len sent.
Proof.
  intros Hc Ho Ha Hf Hch Hopen Hertm Hlen Hmtu Hh Hsize packets.
  set (f1 := AclFlow_enqueue packets (acl_flow h)).
  destruct (AclFlow_flush_spec f1 (output h)) as (sent & f' & Hflush & Hf' & Hq' & Hend & _ & Ht & Hsum & _).
  { destruct Hf. by split. }
  exists sent, f'. split; [|by split_and!].
  unfold send_channel_sdu, mbind at 1, stm_bind at 1, on_channels. rewrite Hc.
  rewrite (basic_send _ cid ch) by done. rewrite Ho. cbn [map_err app].
  unfold flush_channels, connection_handle_of, mbind, stm_bind, get, lift.
  cbn [connection set_connection fmap option_fmap option_map ok_or].
  unfold on_channels, drain_manager. cbn -[L2capPdu_to_bytes fragment_l2cap_pdu].
  rewrite Ha. cbn -[L2capPdu_to_bytes fragment_l2cap_pdu].
  unfold enqueue_pdu, mbind, stm_bind, get, lift, modify, skip. cbn -[L2capPdu_to_bytes fragment_l2cap_pdu].
  rewrite fragment_succeeds; [|done|done|by apply to_bytes_complete; lia].
  cbn -[L2capPdu_to_bytes fragments]. unfold flush_flow. cbn -[L2capPdu_to_bytes fragments AclFlow_flush].
  fold packets f1. rewrite Hflush. cbn.
  destruct h as [? ? ? ? ? ? ?], c as [? ? ? []]; cbn in *. by subst.
Qed.

Lemma send_sdu_quiet (h : ClassicHost S) c cid ch sdu :
  quiet h c -> channels (conn_channels c) !! cid = Some ch -> state ch = Open -> ertm ch = None ->
  len sdu <= ch_peer_mtu ch -> ch_peer_mtu ch <= 65535 ->
  0 <= conn_handle c <= 0xFFF -> 1 <= payload_size (acl_flow h) <= 65535 ->
  let packets := fragments (conn_handle c) (payload_size (acl_flow h))
                   (L2capPdu_to_bytes (mkPdu (destination_cid ch) sdu) false) in
  sum_values (in_flight (acl_flow h)) + len packets <= total_packets (acl_flow h) ->
  exists h', send_channel_sdu cid sdu h = (Ok tt, h') /\ quiet h' c
    /\ output h' = output h ++ (OutAcl <$> packets).
Proof.
  intros (Hc & Ho & Ha & Hq & Hf) Hch Hopen Hertm Hlen Hmtu Hh Hsize packets Hroom.
  destruct (send_sdu_flow h c cid ch sdu) as (sent & f' & Hsend & Hf' & Hqq & Hend & Ht & Hsum); try done.
  fold packets in Hqq. rewrite Hq in Hqq. cbn [app] in Hqq. rewrite Hqq, len_app in Hroom.
  assert (queued f' = []) as Hnil by (destruct Hend; [done|]; apply len_zero; pose proof (len_nonneg (queued f')); lia).
  rewrite Hnil, app_nil_r in Hqq. rewrite Hqq. eexists. split; [exact Hsend|]. by split_and!.
Qed.
End crossing.

Lemma fragments_handle h size pdu : Forall (fun p => connection_handle p = h) (fragments h size pdu).
Proof. unfold fragments. apply Forall_fmap, Forall_true. by intros [i d]. Qed.

(** C9. Two hosts end to end: on a basic-mode channel open at both ends, an
    SDU of at most the peer's MTU that the sending host accepts leaves, when
    the controller has buffers for its fragments, as exactly the ACL packets
    of its PDU, and the peer's host, handed these packets under its own
    connection handle, takes every one of them and appends exactly that SDU
    to its channel's received queue, nothing else about it changing but the
    reassembly slot of that link, which is empty. *)
Theorem sdu_crosses_hosts {SA SB} `{BondStore SA} `{BondStore SB} `{Profile} (ha : ClassicHost SA) (hb : ClassicHost SB)
  ca cb cid_a cid_b cha chb sdu :
  quiet ha ca -> quiet hb cb -> mgr_ok (conn_channels cb) -> bytes sdu ->
  channels (conn_channels ca) !! cid_a = Some cha -> state cha = Open -> ertm cha = None ->
  channels (conn_channels cb) !! cid_b = Some chb -> state chb = Open -> ertm chb = None ->
  destination_cid cha = cid_b -> ch_peer_mtu cha = ch_mtu chb -> len sdu <= ch_peer_mtu cha ->
  0 <= conn_handle ca <= 0xFFF -> 0 <= conn_handle cb <= 0xFFF -> 4 <= payload_size (acl_flow ha) <= 65535 ->
  let packets := fragments (conn_handle ca) (payload_size (acl_flow ha))
                   (L2capPdu_to_bytes (mkPdu cid_b sdu) false) in
  sum_values (in_flight (acl_flow ha)) + len packets <= total_packets (acl_flow ha) ->
  (exists ha', send_channel_sdu cid_a sdu ha = (Ok tt, ha') /\ output ha' = output ha ++ (OutAcl <$> packets))
  /\ for_each process_acl (carried (conn_handle cb) <$> packets) hb
     = (Ok tt, set_connection (Some (set_conn_channels (set_channels
          (<[cid_b := set_ch_received (ch_received chb ++ [sdu]) chb]> (channels (conn_channels cb)))
          (conn_channels cb)) cb)) (set_acl_assembler (delete (conn_handle cb) (acl_assembler hb)) hb)).
Proof.
  intros Hqa Hqb Hok Hs Hca Hoa Hea Hcb Hob Heb Hd Hmtu Hl Hha Hhb Hsize packets Hroom.
  destruct (channel_mtu_range _ _ _ Hok Hcb) as [Hmax Hu].
  pose proof (to_bytes_complete cid_b sdu ltac:(lia)) as Hfull. split.
  - subst cid_b. destruct (send_sdu_quiet ha ca cid_a cha sdu Hqa Hca Hoa Hea Hl ltac:(lia) Hha ltac:(lia) Hroom)
      as (ha' & Hsend & _ & Hout). by exists ha'.
  - destruct Hqb as (Hc & Ho & Ha & Hq & Hf). unfold packets. rewrite carried_fragments.
    apply (process_acls _ hb cb _ (L2capPdu_to_bytes (mkPdu cid_b sdu) false) (mkPdu cid_b sdu)); try done.
    + apply fragments_handle.
    + apply fragment_feed_all with (bc := 0) (size := payload_size (acl_flow ha)) (fl := false); [|lia].
      apply fragment_succeeds; [done|lia|done].
    + apply pdu_wire; [done|done|lia].
    + apply basic_receive; [done|done|done|done|lia].
Qed.

(** ** Link keys *)

Section link_keys.
Context {S : Type} `{B : BondStore S} `{P : Profile}.

(** A step that leaves the bond store alone. *)
Abbreviation storeless s := (preserves (S := ClassicHost S) (E := HostError) (fun h => bonds h = s)).

Lemma storeless_modify s (f : ClassicHost S -> ClassicHost S) : (forall h, bonds (f h) = bonds h) -> storeless s (modify f).
Proof. intros Hf h Hh. cbn. by rewrite Hf. Qed.

Lemma storeless_on_channels {A} s missing (m : stm ChannelManager L2capError A) : storeless s (on_channels missing m).
Proof. intros h Hh. unfold on_channels. by destruct (connection h) as [c|]; [destruct (m (conn_channels c))|]. Qed.

Lemma storeless_flush_flow s : storeless s flush_flow.
Proof. intros h Hh. unfold flush_flow. by destruct (AclFlow_flush _ _) as [[]| |]. Qed.

Lemma storeless_feed s p : storeless s (feed_assembler p).
Proof. intros h Hh. unfold feed_assembler. by destruct (AclAssembler_feed _ _). Qed.

Create HintDb store_db.
#[local] Hint Resolve preserves_ret preserves_lift preserves_throw preserves_skip
  storeless_on_channels storeless_flush_flow storeless_feed : store_db.

(** Walks down a computation made of such steps. *)
Ltac storeless :=
  walk_preserves (apply storeless_modify; intros; reflexivity) with (eauto 1 with store_db).

Lemma storeless_flush_channels s : storeless s flush_channels.
Proof. unfold flush_channels, connection_handle_of, enqueue_pdu, push_output. storeless. Qed.

#[local] Hint Resolve storeless_flush_channels : store_db.

Definition notification (c : host_call) : bool :=
  match c with HEvent (LinkKeyNotification _ _ _) => true | _ => false end.

Lemma run_host_call_bonds c (h : ClassicHost S) : notification c = false -> bonds (run_host_call c h) = bonds h.
Proof.
  intros Hn. destruct c as [e|p|cid sdu|psm spec|psm spec|cid|]; cbn [run_host_call].
  - enough (forall s, storeless s (host_handle_event e)) as He by by apply (He (bonds h) h). intros s.
    destruct e; cbn [host_handle_event]; try discriminate Hn;
      unfold on_connection_complete, on_link_key_request, on_disconnection_complete, connection_mut, ensure_handle,
        connection_handle_of, queue_command, push_output; storeless.
  - by apply (ltac:(unfold process_acl, connection_handle_of; storeless) : storeless (bonds h) (process_acl p)).
  - by apply (ltac:(unfold send_channel_sdu; storeless) : storeless (bonds h) (send_channel_sdu cid sdu)).
  - by apply (ltac:(unfold connect_channel; storeless) : storeless (bonds h) (connect_channel psm spec)).
  - by apply (ltac:(unfold host_register_server; storeless) : storeless (bonds h) (host_register_server psm spec)).
  - unfold take_channel_sdu. by repeat case_match.
  - unfold pop_output. by repeat case_match.
Qed.

(** The calls that announce a link key of [peer]. *)
Definition announces_key (peer : BluetoothAddress) (c : host_call) : Prop :=
  match c with HEvent (LinkKeyNotification p _ _) => p = peer | _ => False end.

Lemma notification_inv (peer : BluetoothAddress) key kt (h h' : ClassicHost S) :
  host_handle_event (LinkKeyNotification peer key kt) h = (Ok tt, h') ->
  bond_upsert peer (mkBond key kt ((kt =? 0x05) || (kt =? 0x08))) (bonds h) = (Ok tt, bonds h').
Proof.
  cbn [host_handle_event]. unfold on_link_key_notification, mbind, stm_bind.
  destruct (bond_upsert _ _ (bonds h)) as [[[]|e|] s]; cbn; try done. by intros [= <-].
Qed.

Context `{L : !BondStoreLaws S}.

Lemma call_persisted peer c (h : ClassicHost S) : ~ announces_key peer c ->
  persisted (bonds (run_host_call c h)) peer = persisted (bonds h) peer.
Proof.
  intros Hc. destruct (notification c) eqn:Hn; [|by rewrite run_host_call_bonds].
  destruct c as [[| | |other key kt| | | | | |]| | | | | |]; try done. cbn [run_host_call host_handle_event].
  unfold on_link_key_notification, mbind, stm_bind. destruct (bond_upsert _ _ (bonds h)) as [r s] eqn:Hu.
  assert (persisted s peer = persisted (bonds h) peer) as <- by (by eapply upsert_one_peer; [exact Hu|intros ->]).
  by destruct r.
Qed.

Lemma calls_persisted peer cs : forall h : ClassicHost S, Forall (fun c => ~ announces_key peer c) cs ->
  persisted (bonds (run_host_calls cs h)) peer = persisted (bonds h) peer.
Proof.
  induction cs as [|c cs IH]; intros h Hcs; [done|]. apply Forall_cons in Hcs as [Hc Hcs].
  change (run_host_calls (c :: cs) h) with (run_host_calls cs (run_host_call c h)). by rewrite IH, call_persisted.
Qed.

(** C30. A bond outlives its connection: once the host has accepted a peer's
    link key, then after any events, packets and calls that bring no other key
    of that peer (disconnection and reconnection, failing calls, other peers'
    keys, whether the store takes them or not), a request for the peer's link
    key is answered with exactly that key, unless the store cannot be read, in
    which case its error comes back and nothing is sent. *)
Theorem bond_outlives_connection peer key kt cs (h h1 : ClassicHost S) : len key = 16 -> len (address_le peer) = 6 ->
  host_handle_event (LinkKeyNotification peer key kt) h = (Ok tt, h1) -> Forall (fun c => ~ announces_key peer c) cs ->
  let h2 := run_host_calls cs h1 in
  host_handle_event (LinkKeyRequest peer) h2
  = match bond_load peer (bonds h2) with
    | Ok _ => (Ok tt, set_output (output h2 ++ [OutCommand (mkCommand HCI_LINK_KEY_REQUEST_REPLY (address_le peer ++ key))]) h2)
    | Err e => (Err (HostBondStore e), h2)
    | Panic => (Panic, h2)
    end.
Proof.
  intros Hk Hp Hn Hcs h2. apply notification_inv, upsert_persists in Hn. rewrite <- (calls_persisted peer cs h1 Hcs) in Hn. fold h2 in Hn.
  cbn [host_handle_event]. unfold on_link_key_request, mbind, stm_bind, get, lift.
  destruct (bond_load peer (bonds h2)) as [bond|e|] eqn:Hl; [|done|done]. apply load_persisted in Hl as ->. rewrite Hn. cbn [map_err link_key].
  unfold queue_command, mbind, stm_bind, lift, CommandPacket_new, validate_u8_length.
  rewrite len_app, Hk, Hp. done.
Qed.
End link_keys.

(** ** A store in memory, and the theorems at work on it *)

Definition MemoryBondStore : Type := list (BluetoothAddress * ClassicBond).

Fixpoint memory_load (peer : BluetoothAddress) (s : MemoryBondStore) : option ClassicBond :=
  match s with
  | [] => None
  | (p, b) :: rest => if bool_decide (p = peer) then Some b else memory_load peer rest
  end.

#[global] Instance memory_store : BondStore MemoryBondStore := {
  select_local_address _ := skip;
  bond_load peer s := Ok (memory_load peer s);
  bond_load_all s := Ok s;
  bond_upsert peer bond s := (Ok tt, (peer, bond) :: List.filter (fun e => negb (bool_decide (e.1 = peer))) s)
}.

Lemma memory_load_filter peer other s : other <> peer ->
  memory_load other (List.filter (fun e => negb (bool_decide (e.1 = peer))) s) = memory_load other s.
Proof.
  intros Hne. induction s as [|[p b] s IH]; [done|]. cbn. case_bool_decide; cbn; [|by rewrite IH].
  subst. by rewrite bool_decide_eq_false_2.
Qed.

#[global] Instance memory_store_laws : BondStoreLaws MemoryBondStore.
Proof.
  refine {| persisted s peer := memory_load peer s |}.
  - by intros peer s bond [= <-].
  - intros peer bond s s' [= <-]. cbn. by rewrite bool_decide_eq_true_2.
  - intros peer other bond s r s' [= <- <-] Hne. cbn. by rewrite bool_decide_eq_false_2, memory_load_filter by congruence.
Defined.

Definition peer_a : BluetoothAddress := mkAddress [1; 2; 3; 4; 5; 6] AKPublic.
Definition peer_b : BluetoothAddress := mkAddress [9; 2; 3; 4; 5; 6] AKPublic.

Lemma host_invariant_witness :
  host_ok (run_host_calls (P := true) [HRegister 0x11 (mkClassicSpec 672); HEvent (ConnectionRequested peer_a);
      HEvent (ConnectionComplete 0 0x40 peer_a); HAcl (mkAcl 0x40 2 0 [4; 0; 1]); HSend 0x40 [1; 2];
      HEvent (NumberOfCompletedPackets 0x40 3); HEvent (DisconnectionComplete 0x40 0x13)]
    (ClassicHost_new ([] : MemoryBondStore) 27 4)).
Proof. apply (host_invariant (P := true)); [lia|]. repeat constructor; cbn; try lia. Defined.

Definition linked_host (handle : Z) (side : bool) (own peer : Z) : ClassicHost MemoryBondStore :=
  mkHost [] (Some (mkConnection peer_a handle true (open_end side (mkClassicSpec own) peer))) None ∅ ∅ (AclFlow_new 5 8) [].

Lemma sdu_crosses_hosts_witness :
  (for_each (process_acl (H0 := true)) [mkAcl 0x41 0 0 [5; 0; 0x40; 0; 1]; mkAcl 0x41 1 0 [2; 3; 4; 5]]
    (linked_host 0x41 true 100 672)).1 = Ok tt.
Proof.
  refine (f_equal fst (proj2 (sdu_crosses_hosts (H1 := true) (linked_host 0x40 false 672 100) (linked_host 0x41 true 100 672)
    (mkConnection peer_a 0x40 true (open_end false (mkClassicSpec 672) 100))
    (mkConnection peer_a 0x41 true (open_end true (mkClassicSpec 100) 672)) 0x40 0x40
    (open_channel 0x11 0x40 0x40 false (mkClassicSpec 672) 100) (open_channel 0x11 0x40 0x40 true (mkClassicSpec 100) 672)
    [1; 2; 3; 4; 5] _ _ _ _ _ _ _ _ _ _ _ _ _ _ _ _ _))).
  all: try done; try by_compute; try (by apply open_end_ok; cbn; lia).
  all: split_and!; try done; split; try done; cbn; lia.
Defined.

(** A store for one bond, which takes no other peer's and may be unreadable. *)
Record OneBondStore : Type := mkOneBond { readable : bool; slot : option (BluetoothAddress * ClassicBond) }.

Definition slot_bond (s : OneBondStore) (peer : BluetoothAddress) : option ClassicBond :=
  match slot s with Some (p, b) => if bool_decide (p = peer) then Some b else None | None => None end.

#[global] Instance one_bond_store : BondStore OneBondStore := {
  select_local_address _ := skip;
  bond_load peer s := if readable s then Ok (slot_bond s peer) else Err LoadFailed;
  bond_load_all s := if readable s then Ok (match slot s with Some e => [e] | None => [] end) else Err ListFailed;
  bond_upsert peer bond s :=
    match slot s with
    | Some (p, _) => if bool_decide (p = peer) then (Ok tt, mkOneBond (readable s) (Some (peer, bond))) else (Err UpsertFailed, s)
    | None => (Ok tt, mkOneBond (readable s) (Some (peer, bond)))
    end
}.

#[global] Instance one_bond_laws : BondStoreLaws OneBondStore.
Proof.
  refine {| persisted := slot_bond |}.
  - intros peer s bond. cbn. destruct (readable s); [|done]. by intros [= <-].
  - intros peer bond s s'. cbn. destruct (slot s) as [[p b]|]; [case_bool_decide; [|done]|]; intros [= <-]; unfold slot_bond; cbn;
      by rewrite bool_decide_eq_true_2.
  - intros peer other bond s r s'. cbn. unfold slot_bond. destruct (slot s) as [[p b]|] eqn:Hs; [case_bool_decide|]; intros [= <- <-] Hne; cbn;
      rewrite ?Hs; subst; by rewrite ?bool_decide_eq_false_2 by congruence.
Defined.

Definition key_host (r : bool) : ClassicHost OneBondStore :=
  (host_handle_event (H0 := true) (LinkKeyNotification peer_a (replicate 16 7) 5) (ClassicHost_new (mkOneBond r None) 27 4)).2.

(** The peer connects and leaves, and another one's key is refused. *)
Definition between_keys : list host_call :=
  [HEvent (ConnectionComplete 0 0x40 peer_a); HEvent (DisconnectionComplete 0x40 0x13); HEvent (LinkKeyNotification peer_b (replicate 16 1) 4)].

#[local] Abbreviation after_keys r := (run_host_calls (P := true) between_keys (key_host r)).

Lemma between_no_key : Forall (fun c => ~ announces_key peer_a c) between_keys.
Proof. repeat (apply Forall_cons; split; [first [exact (fun H => H)|intros [=]]|]). apply List.Forall_nil. Qed.

Lemma key_taken r : host_handle_event (H0 := true) (LinkKeyNotification peer_a (replicate 16 7) 5) (ClassicHost_new (mkOneBond r None) 27 4)
  = (Ok tt, key_host r).
Proof. destruct r; vm_compute; reflexivity. Qed.

Lemma key_readable r : bond_load peer_a (bonds (after_keys r)) = if r then Ok (Some (mkBond (replicate 16 7) 5 true)) else Err LoadFailed.
Proof. destruct r; vm_compute; reflexivity. Qed.

Lemma bond_outlives_connection_witness :
  host_handle_event (H0 := true) (LinkKeyRequest peer_a) (after_keys true)
  = (Ok tt, set_output (output (after_keys true)
       ++ [OutCommand (mkCommand HCI_LINK_KEY_REQUEST_REPLY (address_le peer_a ++ replicate 16 7))]) (after_keys true))
  /\ host_handle_event (H0 := true) (LinkKeyRequest peer_a) (after_keys false) = (Err (HostBondStore LoadFailed), after_keys false).
Proof.
  pose proof (fun r => bond_outlives_connection (P := true) peer_a (replicate 16 7) 5 between_keys (ClassicHost_new (mkOneBond r None) 27 4)
    (key_host r) eq_refl eq_refl (key_taken r) between_no_key) as Hw. cbv zeta in Hw.
  split; rewrite Hw, key_readable; reflexivity.
Defined.
