(* ===== verification/HostSecrecy.v ===== *)
(** * Where link keys go ([src/src/classic_host.rs])

    Two hosts that differ only in the link keys they have stored behave alike:
    the keys leave a host in its replies to link key requests and nowhere
    else. *)
From S2P Require Import Prelude Hci L2cap Ertm Classic ClassicProps Hidp Values Host HostProps.

(** ** Alike up to keys *)

Definition bond_alike (b b' : ClassicBond) : Prop :=
  length (link_key b) = length (link_key b') /\ link_key_type b = link_key_type b' /\ authenticated b = authenticated b'.

Inductive output_alike : HostOutput -> HostOutput -> Prop :=
| same_output o : output_alike o o
| alike_reply peer key key' : length key = length key' ->
    output_alike (OutCommand (mkCommand HCI_LINK_KEY_REQUEST_REPLY (address_le peer ++ key)))
                 (OutCommand (mkCommand HCI_LINK_KEY_REQUEST_REPLY (address_le peer ++ key'))).

Inductive event_alike : ClassicEvent -> ClassicEvent -> Prop :=
| same_event e : event_alike e e
| alike_notification peer key key' key_type : length key = length key' ->
    event_alike (LinkKeyNotification peer key key_type) (LinkKeyNotification peer key' key_type).

Inductive call_alike : host_call -> host_call -> Prop :=
| same_call c : call_alike c c
| alike_call e e' : event_alike e e' -> call_alike (HEvent e) (HEvent e').

Definition stored_alike (x y : BluetoothAddress * ClassicBond) : Prop := x.1 = y.1 /\ bond_alike x.2 y.2.

(** A store that does not act on keys, up to [R]. *)
Class KeyBlind (S : Type) `{BondStore S} (R : S -> S -> Prop) : Prop := {
  blind_load peer s s' : R s s' -> res_alike (option_Forall2 bond_alike) (bond_load peer s) (bond_load peer s');
  blind_upsert peer b b' s s' : R s s' -> bond_alike b b' ->
    (bond_upsert peer b s).1 = (bond_upsert peer b' s').1 /\ R (bond_upsert peer b s).2 (bond_upsert peer b' s').2;
  blind_load_all s s' : R s s' -> res_alike (Forall2 stored_alike) (bond_load_all s) (bond_load_all s');
  blind_select address s s' : R s s' ->
    (select_local_address address s).1 = (select_local_address address s').1
    /\ R (select_local_address address s).2 (select_local_address address s').2
}.

(** ** What a host answers *)

Inductive host_result : Type :=
| Done
| Opened (cid : Z)
| Taken (sdu : option (list Z))
| Popped (o : option HostOutput).

Definition answer_alike (r r' : res HostError host_result) : Prop :=
  match r, r' with
  | Ok (Popped (Some o)), Ok (Popped (Some o')) => output_alike o o'
  | _, _ => r = r'
  end.

Section answers.
Context {S : Type} `{BondStore S} `{Profile}.

Definition host_answer (c : host_call) : stm (ClassicHost S) HostError host_result :=
  match c with
  | HEvent e => host_handle_event e ;; mret Done
  | HAcl p => process_acl p ;; mret Done
  | HSend cid sdu => send_channel_sdu cid sdu ;; mret Done
  | HConnect psm spec => cid ← connect_channel psm spec; mret (Opened cid)
  | HRegister psm spec => host_register_server psm spec ;; mret Done
  | HTake cid => fun h => let '(sdu, h) := take_channel_sdu cid h in (Ok (Taken sdu), h)
  | HPop => fun h => let '(o, h) := pop_output h in (Ok (Popped o), h)
  end.

Fixpoint host_answers (cs : list host_call) (h : ClassicHost S) : list (res HostError host_result) :=
  match cs with
  | [] => []
  | c :: cs => (host_answer c h).1 :: host_answers cs (host_answer c h).2
  end.
End answers.

Section secrecy.
Context {S : Type} `{BondStore S} `{Profile} (R : S -> S -> Prop) `{!KeyBlind S R}.

Record alike (h h' : ClassicHost S) : Prop := {
  alike_bonds : R (bonds h) (bonds h');
  alike_connection : connection h = connection h';
  alike_pending : pending_peer h = pending_peer h';
  alike_servers : host_servers h = host_servers h';
  alike_assembler : acl_assembler h = acl_assembler h';
  alike_flow : acl_flow h = acl_flow h';
  alike_output : Forall2 output_alike (output h) (output h')
}.

(** Computations that give the same value on alike hosts, and leave them
    alike. *)
Abbreviation agree := (agrees (E := HostError) alike).

Lemma agree_push o o' : output_alike o o' -> agree (push_output o) (push_output o').
Proof.
  intros Ho. apply agrees_modify. intros h h' []. split; try done. cbn. apply Forall2_app; [done|]. by constructor.
Qed.

Lemma agree_on_channels {A} missing (m : stm ChannelManager L2capError A) : agree (on_channels missing m) (on_channels missing m).
Proof.
  intros h h' Hh. unfold on_channels. rewrite <- (alike_connection _ _ Hh). destruct (connection h) as [c|] eqn:Hc; [|done].
  destruct (m (conn_channels c)) as [r ch]. split; [done|]. destruct Hh. by split.
Qed.

Lemma flush_alike total waiting : forall m out out', Forall2 output_alike out out' ->
  match flush_queue total waiting m out, flush_queue total waiting m out' with
  | Ok (w1, m1, out1), Ok (w2, m2, out2) => w1 = w2 /\ m1 = m2 /\ Forall2 output_alike out1 out2
  | Err e, Err e' => e = e'
  | Panic, Panic => True
  | _, _ => False
  end.
Proof.
  induction waiting as [|p waiting IH]; intros m out out' Ho; cbn [flush_queue]; destruct (in_flight_total m) as [used|e|]; cbn; try done;
    destruct (used <? total); try done. destruct (checked_add _ _ _) as [n|e|]; cbn; try done. apply IH. apply Forall2_app; [done|].
  constructor; [constructor|done].
Qed.

Lemma agree_flush_flow : agree flush_flow flush_flow.
Proof.
  intros h h' Hh. unfold flush_flow, AclFlow_flush. rewrite <- (alike_flow _ _ Hh).
  pose proof (flush_alike (total_packets (acl_flow h)) (queued (acl_flow h)) (in_flight (acl_flow h)) _ _ (alike_output _ _ Hh)) as Hf.
  destruct (flush_queue _ _ _ (output h)) as [[[w1 m1] out1]|e|], (flush_queue _ _ _ (output h')) as [[[w2 m2] out2]|e'|]; cbn; try done; [|by subst].
  destruct Hf as (-> & -> & Ho). split; [done|]. destruct Hh. by split.
Qed.

Lemma agree_feed p : agree (feed_assembler p) (feed_assembler p).
Proof.
  intros h h' Hh. unfold feed_assembler. rewrite <- (alike_assembler _ _ Hh). destruct (AclAssembler_feed p (acl_assembler h)).
  split; [done|]. destruct Hh. by split.
Qed.

Create HintDb alike_db.
#[local] Hint Resolve agrees_lift agrees_ret agrees_skip agrees_throw agree_on_channels agree_flush_flow agree_feed same_output : alike_db.

(** What is read of alike hosts is the same. *)
Ltac read_alike h h' Hh :=
  rewrite <- ?(alike_connection h h' Hh), <- ?(alike_pending h h' Hh), <- ?(alike_servers h h' Hh), <- ?(alike_flow h h' Hh).

Ltac agreeing :=
  repeat (intros; lazymatch goal with
    | |- agrees _ (mbind _ get) _ => apply agrees_get; let h := fresh "h" in let h' := fresh "h" in let Hh
      := fresh "Hh" in intros h h' Hh; read_alike h h' Hh
    | |- agrees _ (mbind _ _) _ => apply agrees_bind
    | |- agrees _ (modify _) _ => apply agrees_modify; let Hh := fresh "Hh" in intros ?h ?h' Hh; solve [destruct Hh; split; cbn;
      first [done|congruence]]
    | |- agrees _ (for_each _ _) _ => apply agrees_for_each
    | |- agrees _ (match _ with _ => _ end) _ => case_match
    | |- agrees _ (push_output _) _ => apply agree_push
    | |- agrees _ _ _ => solve [eauto 2 with alike_db]
    | |- output_alike _ _ => constructor
    end).

Lemma agree_queue op ps : agree (queue_command op ps) (queue_command op ps).
Proof. unfold queue_command. agreeing. Qed.
Lemma agree_handle : agree connection_handle_of connection_handle_of.
Proof. unfold connection_handle_of. agreeing. Qed.
#[local] Hint Resolve agree_queue agree_handle : alike_db.

Lemma agree_ensure handle : agree (ensure_handle handle) (ensure_handle handle).
Proof. unfold ensure_handle. agreeing. Qed.
#[local] Hint Resolve agree_ensure : alike_db.

Lemma agree_mut handle : agree (connection_mut handle) (connection_mut handle).
Proof. unfold connection_mut. agreeing. Qed.

Lemma agree_flush_channels : agree flush_channels flush_channels.
Proof. unfold flush_channels, enqueue_pdu. agreeing. Qed.
#[local] Hint Resolve agree_mut agree_flush_channels : alike_db.

(** ** Calls *)

Lemma agree_request peer : agree (on_link_key_request peer) (on_link_key_request peer).
Proof.
  intros h h' Hh. unfold on_link_key_request, mbind, stm_bind, get, lift. pose proof (blind_load peer _ _ (alike_bonds _ _ Hh)) as Hl.
  destruct (bond_load peer (bonds h)) as [o|e|], (bond_load peer (bonds h')) as [o'|e'|]; cbn in Hl |- *; try done; [|by subst].
  destruct Hl as [b b' (Hk & _ & _)|]; [|by apply agree_queue].
  unfold queue_command, mbind, stm_bind, lift, CommandPacket_new, validate_u8_length.
  assert (len (address_le peer ++ link_key b') = len (address_le peer ++ link_key b)) as -> by (unfold len; rewrite !length_app; lia).
  destruct (_ <=? _); [|done]. by apply agree_push; [constructor|].
Qed.

Lemma agree_notification peer key key' key_type : length key = length key' ->
  agree (on_link_key_notification peer key key_type) (on_link_key_notification peer key' key_type).
Proof.
  intros Hk. unfold on_link_key_notification. apply agrees_bind; [|intros; apply agree_push, same_output]. intros h h' Hh.
  destruct (blind_upsert peer (mkBond key key_type ((key_type =? 5) || (key_type =? 8))) (mkBond key' key_type ((key_type =? 5) || (key_type =? 8)))
    _ _ (alike_bonds _ _ Hh)) as [Hr Hs]; [done|].
  destruct (bond_upsert _ _ (bonds h)) as [r s], (bond_upsert _ _ (bonds h')) as [r' s']. cbn in Hr, Hs. subst r'. split; [done|].
  destruct Hh. by split.
Qed.

Lemma filter_alike handle out out' : Forall2 output_alike out out' ->
  Forall2 output_alike
    (List.filter (fun o => match o with OutAcl p => negb (connection_handle p =? handle) | _ => true end) out)
    (List.filter (fun o => match o with OutAcl p => negb (connection_handle p =? handle) | _ => true end) out').
Proof.
  induction 1 as [|o o' out out' Ho _ IH]; [done|]. cbn. destruct Ho as [o|]; [|by constructor; [constructor|]].
  case_match; [constructor; [constructor|done]|done].
Qed.

Lemma agree_disconnection handle reason : agree (on_disconnection_complete handle reason) (on_disconnection_complete handle reason).
Proof.
  unfold on_disconnection_complete. agreeing; apply agrees_modify; intros ?h ?h' Hh; destruct Hh; split; cbn; try done; by apply filter_alike.
Qed.

Lemma agree_complete handle peer : agree (on_connection_complete handle peer) (on_connection_complete handle peer).
Proof. unfold on_connection_complete. agreeing. Qed.
#[local] Hint Resolve agree_request agree_disconnection agree_complete : alike_db.

Lemma agree_event e e' : event_alike e e' -> agree (host_handle_event e) (host_handle_event e').
Proof.
  destruct 1 as [e|]; [destruct e|]; cbn [host_handle_event]; try (by apply agree_notification); agreeing.
Qed.
#[local] Hint Resolve agree_event same_event : alike_db.

Lemma agree_acl p : agree (process_acl p) (process_acl p).
Proof. unfold process_acl. agreeing. Qed.
Lemma agree_send cid sdu : agree (send_channel_sdu cid sdu) (send_channel_sdu cid sdu).
Proof. unfold send_channel_sdu. agreeing. Qed.
Lemma agree_connect psm spec : agree (connect_channel psm spec) (connect_channel psm spec).
Proof. unfold connect_channel. agreeing. Qed.
Lemma agree_register psm spec : agree (host_register_server psm spec) (host_register_server psm spec).
Proof. unfold host_register_server. agreeing. Qed.
#[local] Hint Resolve agree_acl agree_send agree_connect agree_register : alike_db.

Lemma agree_take cid (h h' : ClassicHost S) : alike h h' -> (take_channel_sdu cid h).1 = (take_channel_sdu cid h').1
  /\ alike (take_channel_sdu cid h).2 (take_channel_sdu cid h').2.
Proof.
  intros Hh. unfold take_channel_sdu. rewrite <- (alike_connection _ _ Hh). destruct (connection h) as [c|] eqn:Hc; [|done].
  destruct (channels (conn_channels c) !! cid) as [ch|]; [|done]. destruct (ClassicChannel_pop_received ch). split; [done|]. destruct Hh. by split.
Qed.

Lemma pop_alike (h h' : ClassicHost S) : alike h h' ->
  option_Forall2 output_alike (pop_output h).1 (pop_output h').1 /\ alike (pop_output h).2 (pop_output h').2.
Proof.
  intros Hh. unfold pop_output. pose proof (alike_output _ _ Hh) as Ho. destruct Ho as [|o o' out out' Ho Hout].
  - split; [constructor|done].
  - split; [by constructor|]. destruct Hh. by split.
Qed.

Lemma answer_same r : answer_alike r r.
Proof. destruct r as [[| | |[o|]]| |]; try done. constructor. Qed.

Lemma agree_answers c c' (h h' : ClassicHost S) : agree (host_answer c) (host_answer c') -> alike h h' ->
  answer_alike (host_answer c h).1 (host_answer c' h').1 /\ alike (host_answer c h).2 (host_answer c' h').2.
Proof. intros Hc Hh. destruct (Hc h h' Hh) as [-> Hs]. split; [apply answer_same|done]. Qed.

Lemma answers_alike c c' (h h' : ClassicHost S) : call_alike c c' -> alike h h' ->
  answer_alike (host_answer c h).1 (host_answer c' h').1 /\ alike (host_answer c h).2 (host_answer c' h').2.
Proof.
  intros Hc Hh. destruct Hc as [c|e e' He]; [|apply agree_answers; [|done]; cbn [host_answer]; agreeing].
  destruct c as [e|p|cid sdu|psm spec|psm spec|cid|].
  1,2,3,4,5: apply agree_answers; [|done]; cbn [host_answer]; agreeing.
  - cbn [host_answer]. destruct (agree_take cid h h' Hh) as [Hr Hs]. destruct (take_channel_sdu cid h), (take_channel_sdu cid h'). cbn in *. by subst.
  - cbn [host_answer]. destruct (pop_alike h h' Hh) as [Ho Hs]. destruct (pop_output h), (pop_output h'). cbn in *. by destruct Ho.
Qed.

(** Link keys leave the host in its replies to link key requests and nowhere
    else: two hosts that differ only in the keys they have stored, and are told
    of different keys of the same length, give the same answer to every call,
    errors and received data included, and the same output, but for the keys in
    those replies. *)
Theorem keys_leave_only_in_replies cs cs' (h h' : ClassicHost S) : alike h h' -> Forall2 call_alike cs cs' ->
  Forall2 answer_alike (host_answers cs h) (host_answers cs' h').
Proof.
  intros Hh Hcs. revert h h' Hh. induction Hcs as [|c c' cs cs' Hc _ IH]; intros h h' Hh; [done|]. cbn [host_answers].
  destruct (answers_alike c c' h h' Hc Hh) as [Ha Hs]. constructor; [done|by apply IH].
Qed.
End secrecy.

(** ** The memory store *)

#[global] Instance memory_blind : KeyBlind MemoryBondStore (Forall2 stored_alike).
Proof.
  split.
  - intros peer s s' Hs. cbn. induction Hs as [|[p b] [p' b'] s s' [Hp Hb] Hs IH]; [constructor|]. cbn in *. subst p'.
    case_bool_decide; [by constructor|exact IH].
  - intros peer b b' s s' Hs Hb. split; [done|]. cbn. constructor; [done|].
    induction Hs as [|[p c] [p' c'] s s' [Hp Hc] Hs IH]; [done|]. cbn in *. subst p'. case_bool_decide; cbn; [done|by constructor].
  - intros s s' Hs. exact Hs.
  - intros address s s' Hs. by split.
Qed.

#[local] Instance checked_profile : Profile := true.

Definition keyed_host (k : Z) : ClassicHost MemoryBondStore :=
  ClassicHost_new [(peer_a, mkBond (replicate 16 k) 4 false)] 27 4.

Definition key_calls (k : Z) : list host_call :=
  [HEvent (LinkKeyRequest peer_a); HPop; HEvent (LinkKeyNotification peer_b (replicate 16 k) 5); HPop; HEvent (LinkKeyRequest peer_b); HPop].

Lemma keys_leave_only_in_replies_witness :
  Forall2 answer_alike (host_answers (key_calls 3) (keyed_host 1)) (host_answers (key_calls 4) (keyed_host 2)).
Proof.
  apply (keys_leave_only_in_replies (Forall2 stored_alike)).
  - split; try reflexivity; repeat constructor.
  - repeat (apply Forall2_cons; split; [first [apply same_call|apply alike_call, alike_notification; reflexivity]|]). constructor.
Defined.

(** The keys do leave. *)
Example keys_replied : (host_answers (key_calls 3) (keyed_host 1)) !! 5%nat
  = Some (Ok (Popped (Some (OutCommand (mkCommand HCI_LINK_KEY_REQUEST_REPLY ([9; 2; 3; 4; 5; 6] ++ replicate 16 3)))))).
Proof. vm_compute. reflexivity. Qed.
