(* ===== verification/Api.v ===== *)
(** * Public vocabulary of the backend ([src/src/api.rs])

    The session's configuration with its constructor, the events and channels
    an application sees, error kinds, capabilities, and what opening a session
    takes. Text is its UTF-8 bytes. The bond store trait is in [Host.v]. *)
From S2P Require Import Prelude Values.

Definition EXTENDED_INQUIRY_RESPONSE_LEN : nat := 240.
Definition COMPLETE_LOCAL_NAME_DATA_TYPE : Z := 0x09.
Definition MAX_COMPLETE_LOCAL_NAME_LEN : nat := EXTENDED_INQUIRY_RESPONSE_LEN - 2.

(** ** Identity and HID service *)

Inductive LocalIdentity : Type :=
| AdapterDefault
| Explicit (address : BluetoothAddress).

Record HidSdpPolicy : Type := mkPolicy {
  service_name : list Z;
  service_description : option (list Z);
  provider_name : option (list Z);
  device_release_number : option Z;
  bluetooth_profile_version : Z;
  parser_version : Z;
  device_subclass : Z;
  country_code : Z;
  virtual_cable : bool;
  reconnect_initiate : bool;
  remote_wake : option bool;
  profile_version : Z;
  supervision_timeout : Z;
  normally_connectable : bool;
  boot_device : bool;
  ssr_host_max_latency : Z;
  ssr_host_min_timeout : Z
}.

Record HidServiceConfig : Type := mkServiceConfig {
  report_descriptor : list Z;
  sdp_policy : HidSdpPolicy
}.

(** ** Errors *)

Inductive ErrorKind : Type :=
| InvalidConfiguration
| OpenFailed
| InvalidControllerIdentity
| IdentityMismatch
| AdapterIdentityRecoveryRequired
| UnsupportedController
| InvalidBondStore
| NoBond
| Closed
| SendRejected
| DrainTimedOut
| EventQueueOverflow
| SourceTerminated
| CloseFailed
| ProtocolViolation.

#[global] Instance ErrorKind_eq_dec : EqDecision ErrorKind.
Proof. solve_decision. Defined.

(** The cause an error wraps has the type [Src]. *)
Record Error (Src : Type) : Type := mkError {
  error_kind : ErrorKind;
  error_source : option Src
}.
Arguments mkError {Src} error_kind error_source.
Arguments error_kind {Src} e.
Arguments error_source {Src} e.

Definition Error_new {Src} (kind : ErrorKind) : Error Src := mkError kind None.
Definition Error_with_source {Src} (kind : ErrorKind) (source : Src) : Error Src := mkError kind (Some source).

(** ** Session configuration *)

Record SessionConfig : Type := mkSessionConfig {
  local_name : list Z;
  class_of_device : Z;
  extended_inquiry_response : list Z;
  complete_local_name_eir_len : nat;
  hid_service : HidServiceConfig
}.

(** [buffer[at..at + data.len()].copy_from_slice(data)] *)
Definition copy_at {E} (at_ : nat) (data buffer : list Z) : res E (list Z) :=
  if (at_ + length data <=? length buffer)%nat
  then Ok (take at_ buffer ++ data ++ drop (at_ + length data) buffer)
  else Panic.

Definition SessionConfig_new {Src} (name : list Z) (class : Z) (service : HidServiceConfig)
  : res (Error Src) SessionConfig :=
  if (length name =? 0)%nat || (MAX_COMPLETE_LOCAL_NAME_LEN <? length name)%nat || (0x00ffffff <? class)
  then Err (Error_new InvalidConfiguration) else
  let eir := replicate EXTENDED_INQUIRY_RESPONSE_LEN 0 in
  eir ← copy_at 0 [(len name + 1) mod 256] eir;
  eir ← copy_at 1 [COMPLETE_LOCAL_NAME_DATA_TYPE] eir;
  eir ← copy_at 2 name eir;
  Ok {| local_name := name; class_of_device := class; extended_inquiry_response := eir;
        complete_local_name_eir_len := length name + 2; hid_service := service |}.

Definition complete_local_name_eir {E} (self : SessionConfig) : res E (list Z) :=
  slice (extended_inquiry_response self) 0 (complete_local_name_eir_len self).

(** ** What an open session reports *)

Record ControllerVersion : Type := mkVersion {
  hci_version : Z;
  hci_subversion : Z;
  lmp_version : Z;
  company_identifier : Z;
  lmp_subversion : Z
}.

Record UsbAdapterMetadata : Type := mkUsbMetadata {
  usb_vendor_id : Z;
  usb_product_id : Z;
  usb_bus : Z;
  usb_device_address : Z;
  usb_ports : list Z
}.

Record Capabilities : Type := mkCapabilities {
  local_address : BluetoothAddress;
  controller_version : ControllerVersion;
  cap_usb : UsbAdapterMetadata
}.

Inductive Channel : Type := Control | Interrupt.

Inductive Event : Type :=
| EvConnected (peer : BluetoothAddress)
| EvChannelOpened (channel : Channel)
| EvHidOutput (channel : Channel) (payload : list Z)
| EvDisconnected (reason : option Z).

#[global] Instance Channel_eq_dec : EqDecision Channel.
Proof. solve_decision. Defined.
#[global] Instance Event_eq_dec : EqDecision Event.
Proof. solve_decision. Defined.

(** The caller's selector text, settings and activity callback. The callback is
    a wake-up of the application; the model keeps none of its effects. *)
Record OpenOptions : Type := mkOpenOptions {
  adapter : list Z;
  options_config : SessionConfig;
  local_identity : LocalIdentity
}.

Definition OpenOptions_new (selector : list Z) (config : SessionConfig) : OpenOptions :=
  mkOpenOptions selector config AdapterDefault.

Definition with_local_identity (identity : LocalIdentity) (self : OpenOptions) : OpenOptions :=
  mkOpenOptions (adapter self) (options_config self) identity.

(** ** The constructor *)

(** A configuration as the constructor builds it. *)
Record session_config_ok (c : SessionConfig) : Prop := {
  cfg_name : (1 <= length (local_name c) <= MAX_COMPLETE_LOCAL_NAME_LEN)%nat;
  cfg_class : class_of_device c <= 0x00ffffff;
  cfg_eir : extended_inquiry_response c
    = [len (local_name c) + 1; COMPLETE_LOCAL_NAME_DATA_TYPE] ++ local_name c
      ++ replicate (MAX_COMPLETE_LOCAL_NAME_LEN - length (local_name c)) 0;
  cfg_len : complete_local_name_eir_len c = (length (local_name c) + 2)%nat
}.

Lemma copy_at_ok {E} k data buffer : (k + length data <= length buffer)%nat ->
  copy_at (E := E) k data buffer = Ok (take k buffer ++ data ++ drop (k + length data) buffer).
Proof. intros Hk. unfold copy_at. by rewrite (proj2 (Nat.leb_le _ _)). Qed.

Lemma eir_layout {E} (name : list Z) : (length name <= MAX_COMPLETE_LOCAL_NAME_LEN)%nat ->
  (eir ← copy_at (E := E) 0 [(len name + 1) mod 256] (replicate EXTENDED_INQUIRY_RESPONSE_LEN 0);
   eir ← copy_at 1 [COMPLETE_LOCAL_NAME_DATA_TYPE] eir; copy_at 2 name eir)
  = Ok ([len name + 1; COMPLETE_LOCAL_NAME_DATA_TYPE] ++ name ++ replicate (MAX_COMPLETE_LOCAL_NAME_LEN - length name) 0).
Proof.
  unfold MAX_COMPLETE_LOCAL_NAME_LEN, EXTENDED_INQUIRY_RESPONSE_LEN. intros Hn.
  rewrite Z.mod_small by len_lia.
  change (replicate 240 0) with ([0; 0] ++ replicate (240 - 2) 0).
  rewrite copy_at_ok by (rewrite length_app, length_replicate; cbn [length]; lia). cbn [mbind res_bind].
  cbn [take app length Nat.add drop].
  rewrite copy_at_ok by (rewrite ?length_cons, length_replicate; cbn [length]; lia). cbn [mbind res_bind take app length Nat.add drop].
  rewrite drop_0, copy_at_ok by (rewrite !length_cons, length_replicate; lia).
  cbn [take app Nat.add drop]. rewrite drop_replicate. done.
Qed.

(** The constructor accepts exactly the names of 1 to 238 bytes with a
    24-bit class, never panics, and what it builds is the given settings with
    the inquiry response whose first field is the complete local name and whose
    rest is zero, 240 bytes in all; the accessor gives back exactly that
    field. *)
Theorem session_config_exact {Src} name class service :
  match SessionConfig_new (Src := Src) name class service with
  | Ok c => session_config_ok c /\ local_name c = name /\ class_of_device c = class /\ hid_service c = service
      /\ length (extended_inquiry_response c) = EXTENDED_INQUIRY_RESPONSE_LEN
      /\ complete_local_name_eir (E := Src) c = Ok ([len name + 1; COMPLETE_LOCAL_NAME_DATA_TYPE] ++ name)
  | Err e => error_kind e = InvalidConfiguration /\ (name = [] \/ 238 < len name \/ 0x00ffffff < class)
  | Panic => False
  end.
Proof.
  unfold SessionConfig_new.
  destruct (Nat.eqb_spec (length name) 0) as [H0|H0]; [split; [done|left; by apply nil_length_inv]|].
  destruct (Nat.ltb_spec MAX_COMPLETE_LOCAL_NAME_LEN (length name)) as [Hn|Hn].
  { split; [done|]. right. left. unfold MAX_COMPLETE_LOCAL_NAME_LEN, EXTENDED_INQUIRY_RESPONSE_LEN in Hn. len_lia. }
  destruct (Z.ltb_spec 0x00ffffff class); [by split; [|auto]|]. cbn [orb].
  pose proof (eir_layout (E := Error Src) name Hn) as He.
  destruct (copy_at 0 _ _) as [e1|e|]; cbn [mbind res_bind] in *; try done.
  destruct (copy_at 1 _ _) as [e2|e|]; cbn [mbind res_bind] in *; try done. rewrite He. cbn [mbind res_bind].
  split; [split; cbn [local_name class_of_device]; try done; lia|]. split_and!; try done; cbn [extended_inquiry_response complete_local_name_eir_len].
  - rewrite !length_app, length_replicate. unfold MAX_COMPLETE_LOCAL_NAME_LEN, EXTENDED_INQUIRY_RESPONSE_LEN in *.
    cbn [length]. lia.
  - unfold complete_local_name_eir, slice, get_range. cbn [extended_inquiry_response complete_local_name_eir_len].
    rewrite decide_True by (rewrite !length_app; cbn [length]; lia). cbn [expect]. rewrite drop_0, Nat.sub_0_r, app_assoc.
    rewrite take_app_le by (rewrite length_app; cbn [length]; lia).
    rewrite take_ge by (rewrite length_app; cbn [length]; lia). done.
Qed.
