(* ===== verification/HidService.v ===== *)
(** * HID service ([src/src/hid_service.rs])

    The service record the backend advertises, the SDP channel that answers
    byte SDUs from it, and the bridge between HIDP channels and the
    application. *)
From S2P Require Import Prelude Values Sdp SdpPdu SdpService Hidp Api.
Import error_code Handshake ReportType.

Definition HID_SDP_PSM : Z := 0x0001.
Definition HID_CONTROL_PSM : Z := 0x0011.
Definition HID_INTERRUPT_PSM : Z := 0x0013.
Definition HID_SERVICE_RECORD_HANDLE : Z := 0x00010001.
Definition HID_SERVICE_CLASS_UUID : Z := 0x1124.
Definition L2CAP_PROTOCOL_UUID : Z := 0x0100.
Definition HIDP_PROTOCOL_UUID : Z := 0x0011.
Definition PUBLIC_BROWSE_ROOT_UUID : Z := 0x1002.

(** ** The service record *)

Definition attribute (id : Z) (value : DataElement) : ServiceAttribute := mkAttribute id value.
Definition uuid16 (value : Z) : BluetoothUuid := uuid_from_u16 value.

(** [if let Some(x) = field { attributes.push(...) }] *)
Definition optional_attribute {A} (field : option A) (id : Z) (value : A -> DataElement) : list ServiceAttribute :=
  match field with Some x => [attribute id (value x)] | None => [] end.

Definition build_hid_service_record (configuration : HidServiceConfig) : list ServiceAttribute :=
  let policy := sdp_policy configuration in
  [attribute 0x0000 (unsigned_integer_32 HID_SERVICE_RECORD_HANDLE);
   attribute 0x0001 (Sequence [Uuid (uuid16 HID_SERVICE_CLASS_UUID)]);
   attribute 0x0004 (Sequence
     [Sequence [Uuid (uuid16 L2CAP_PROTOCOL_UUID); unsigned_integer_16 (HID_CONTROL_PSM mod 65536)];
      Sequence [Uuid (uuid16 HIDP_PROTOCOL_UUID)]]);
   attribute 0x0005 (Sequence [Uuid (uuid16 PUBLIC_BROWSE_ROOT_UUID)]);
   attribute 0x0006 (Sequence [unsigned_integer_16 0x656E; unsigned_integer_16 0x006A; unsigned_integer_16 0x0100]);
   attribute 0x0100 (TextString (service_name policy))]
  ++ optional_attribute (service_description policy) 0x0101 TextString
  ++ optional_attribute (provider_name policy) 0x0102 TextString
  ++ [attribute 0x0009 (Sequence [Sequence
        [Uuid (uuid16 HID_SERVICE_CLASS_UUID); unsigned_integer_16 (bluetooth_profile_version policy)]]);
      attribute 0x000D (Sequence [Sequence
        [Sequence [Uuid (uuid16 L2CAP_PROTOCOL_UUID); unsigned_integer_16 (HID_INTERRUPT_PSM mod 65536)];
         Sequence [Uuid (uuid16 HIDP_PROTOCOL_UUID)]]])]
  ++ optional_attribute (device_release_number policy) 0x0200 unsigned_integer_16
  ++ [attribute 0x0201 (unsigned_integer_16 (parser_version policy));
      attribute 0x0202 (unsigned_integer_8 (device_subclass policy));
      attribute 0x0203 (unsigned_integer_8 (country_code policy));
      attribute 0x0204 (Boolean (virtual_cable policy));
      attribute 0x0205 (Boolean (reconnect_initiate policy));
      attribute 0x0206 (Sequence [Sequence [unsigned_integer_8 0x22; TextString (report_descriptor configuration)]]);
      attribute 0x0207 (Sequence [Sequence [unsigned_integer_16 0x0409; unsigned_integer_16 0x0100]])]
  ++ optional_attribute (remote_wake policy) 0x020A Boolean
  ++ [attribute 0x020B (unsigned_integer_16 (profile_version policy));
      attribute 0x020C (unsigned_integer_16 (supervision_timeout policy));
      attribute 0x020D (Boolean (normally_connectable policy));
      attribute 0x020E (Boolean (boot_device policy));
      attribute 0x020F (unsigned_integer_16 (ssr_host_max_latency policy));
      attribute 0x0210 (unsigned_integer_16 (ssr_host_min_timeout policy))].

(** ** The SDP channel *)

Record HidSdpChannel : Type := mkSdpChannel { server : SdpServer }.

Definition HidSdpChannel_new (configuration : HidServiceConfig) (peer_mtu : Z) : HidSdpChannel :=
  {| server := add_service HID_SERVICE_RECORD_HANDLE (build_hid_service_record configuration) (SdpServer_new peer_mtu) |}.

(** The error type is [()]. *)
Definition parse_complete_pdu (sdu : list Z) : res unit SdpPdu :=
  length_bytes ← ok_or (get_range sdu 3 5) tt;
  l0 ← idx length_bytes 0;
  l1 ← idx length_bytes 1;
  let parameter_length := from_be_bytes [l0; l1] in
  if negb (len sdu =? 5 + parameter_length) then Err tt
  else map_err (fun _ => tt) (SdpPdu_from_bytes sdu).

Definition sdp_answer (sdu : list Z) (transaction_id : Z) : stm HidSdpChannel SdpError SdpPdu := fun self =>
  match parse_complete_pdu sdu with
  | Ok request =>
      let '(response, s) := SdpService.handle_request request (server self) in (Ok response, mkSdpChannel s)
  | Err _ => (Ok (ErrorResponse transaction_id INVALID_REQUEST_SYNTAX), self)
  | Panic => (Panic, self)
  end.

(** [response.to_bytes().ok()]: a response that cannot be serialized is not
    sent. *)
Definition handle_sdu (sdu : list Z) : stm HidSdpChannel SdpError (option (list Z)) :=
  match get_range sdu 1 3 with
  | None => mret None
  | Some bs =>
      b0 ← lift (idx bs 0);
      b1 ← lift (idx bs 1);
      response ← sdp_answer sdu (from_be_bytes [b0; b1]);
      lift match SdpPdu_to_bytes response with Ok bs => Ok (Some bs) | Err _ => Ok None | Panic => Panic end
  end.

(** ** The HIDP bridge *)

Inductive HidpBridgeEvent : Type :=
| BridgeOutput (channel : Channel) (payload : list Z)
| BridgeControlResponse (response : list Z)
| BridgeSuspend
| BridgeResume
| BridgeVirtualCableUnplug
| BridgeUnsupported (channel : Channel).

Inductive HidpBridgeError : Type :=
| BridgeMalformed (channel : Channel)
| BridgeEncodeFailed (channel : Channel)
| BridgePeerMtuExceeded (channel : Channel) (encoded_len peer_mtu : Z).

#[global] Instance HidpBridgeEvent_eq_dec : EqDecision HidpBridgeEvent.
Proof. solve_decision. Defined.
#[global] Instance HidpBridgeError_eq_dec : EqDecision HidpBridgeError.
Proof. solve_decision. Defined.

(** A delegate with the trait's default methods. *)
Inductive UnsupportedDelegate : Type := TheUnsupportedDelegate.
#[global] Instance UnsupportedDelegate_delegate : DeviceDelegate UnsupportedDelegate := default_delegate _.

Record HidpBridge : Type := mkBridge {
  runtime : DeviceRuntime UnsupportedDelegate;
  bridge_control_mtu : Z;
  bridge_interrupt_mtu : Z
}.

Definition HidpBridge_new (control_mtu interrupt_mtu : Z) : HidpBridge :=
  mkBridge (mkRuntime TheUnsupportedDelegate control_mtu) control_mtu interrupt_mtu.

Definition check_peer_mtu (channel : Channel) (encoded : list Z) (peer_mtu : Z) : res HidpBridgeError (list Z) :=
  if peer_mtu <? len encoded then Err (BridgePeerMtuExceeded channel (len encoded) peer_mtu) else Ok encoded.

Definition encode_control (self : HidpBridge) (message : Message) : res HidpBridgeError (list Z) :=
  encoded ← map_err (fun _ => BridgeEncodeFailed Control) (Message_to_bytes message);
  check_peer_mtu Control encoded (bridge_control_mtu self).

Definition encode_input (self : HidpBridge) (payload : list Z) : res HidpBridgeError (list Z) :=
  encoded ← map_err (fun _ => BridgeEncodeFailed Interrupt) (Message_to_bytes (device_data payload));
  check_peer_mtu Interrupt encoded (bridge_interrupt_mtu self).

Definition set_peer_mtu (channel : Channel) (peer_mtu : Z) (self : HidpBridge) : HidpBridge :=
  match channel with
  | Control => mkBridge (runtime self) peer_mtu (bridge_interrupt_mtu self)
  | Interrupt => mkBridge (runtime self) (bridge_control_mtu self) peer_mtu
  end.

Definition invalid_parameter_response (self : HidpBridge) : res HidpBridgeError (list Z) :=
  encode_control self (MHandshake HANDSHAKE_INVALID_PARAMETER).

Definition translate_event (self : HidpBridge) (channel : Channel) (event : DeviceEvent)
  : res HidpBridgeError HidpBridgeEvent :=
  match event with
  | SendControl message => encoded ← encode_control self message; Ok (BridgeControlResponse encoded)
  | DevControlData report_type data | DevInterruptData report_type data =>
      Ok (if report_type =? OUTPUT_REPORT then BridgeOutput channel data else BridgeUnsupported channel)
  | Suspend => Ok BridgeSuspend
  | ExitSuspend => Ok BridgeResume
  | DevVirtualCableUnplug => Ok BridgeVirtualCableUnplug
  | DevUnsupported _ => Ok (BridgeUnsupported channel)
  end.

(** A call of the runtime's dispatcher. *)
Definition on_runtime {A} (channel : Channel) (m : stm (DeviceRuntime UnsupportedDelegate) HidpError A)
  : stm HidpBridge HidpBridgeError A := fun self =>
  let '(r, rt) := m (runtime self) in
  (map_err (fun _ => BridgeMalformed channel) r, mkBridge rt (bridge_control_mtu self) (bridge_interrupt_mtu self)).

Definition bridge_handle (channel : Channel) (bs : list Z) : stm HidpBridge HidpBridgeError (list HidpBridgeEvent) :=
  device_events ← match channel with
                  | Control => on_runtime Control (device_handle_control bs)
                  | Interrupt => event ← on_runtime Interrupt (device_handle_interrupt bs); mret [event]
                  end;
  self ← get;
  lift (collect (translate_event self channel <$> device_events)).

(** ** The SDP channel answers for its server *)

Lemma read_tid data id t pos p : (read_parameters data id t pos).1 = Ok p -> SdpPdu_transaction_id p = t.
Proof.
  unfold read_parameters, mbind, stm_bind, mret, stm_ret, throw.
  repeat case_match; intros; simplify_eq/=; done.
Qed.

Lemma pdu_tid sdu p b1 b2 rest : (exists b0, sdu = b0 :: b1 :: b2 :: rest) -> SdpPdu_from_bytes sdu = Ok p ->
  SdpPdu_transaction_id p = from_be_bytes [b1; b2].
Proof.
  intros [b0 ->]. unfold SdpPdu_from_bytes. destruct (_ <? _); [done|].
  destruct rest as [|b3 [|b4 rest]]; cbn [idx expect lookup list_lookup mbind res_bind]; try done.
  destruct (get_range _ _ _) as [params|]; [|done]. apply read_tid.
Qed.

(** A server whose database and pending answer are made of bytes and 32-bit
    handles, under an MTU that can carry an answer. *)
Record server_good (s : SdpServer) : Prop := {
  sg_mtu : 11 <= server_mtu s <= 65535;
  sg_records : records_ok (records s);
  sg_handles : Forall (fun r => u32 (record_handle r)) (records s);
  sg_response : match current_response s with
                | None => True
                | Some (ResponseBytes b) => bytes b
                | Some (ResponseHandles total hs) => u16 total /\ Forall (fun h => u32 h) hs
                end
}.

Lemma bytes_or_default_good e : element_ok e = true -> bytes (bytes_or_default e).
Proof.
  intros He. unfold bytes_or_default. destruct (DataElement_to_bytes e) as [bs| |] eqn:Hb; try apply bytes_nil.
  by apply (element_encodes e He bs Hb).
Qed.

Lemma get_attributes_good service ids : Forall attribute_ok service ->
  element_ok (get_service_attributes service ids) = true.
Proof.
  intros Hs. apply attribute_list_ok. apply List.Forall_forall. intros a Ha. apply (proj1 (sort_by_id_elem _ _)) in Ha.
  apply in_concat in Ha as (l & Hl & Ha). apply list_elem_of_In, list_elem_of_fmap in Hl as (sel & -> & _).
  unfold select_attributes in Ha. destruct sel; try done. destruct (if _ : bool then _ else _) as [lo hi].
  apply List.filter_In in Ha as [Ha _]. rewrite List.Forall_forall in Hs. auto.
Qed.

Lemma search_lists_good s pattern ids : server_good s ->
  element_ok (Sequence (search_attribute_lists s pattern ids)) = true.
Proof.
  intros Hg. cbn [element_ok]. apply forallb_forall. intros e He. apply List.filter_In in He as [He _].
  apply list_elem_of_In, list_elem_of_fmap in He as (r & -> & Hr). apply list_elem_of_In, List.filter_In in Hr as [Hr _].
  apply get_attributes_good. pose proof (sg_records _ Hg) as Hrs. unfold records_ok in Hrs.
  rewrite List.Forall_forall in Hrs. auto.
Qed.

Lemma set_response_good s r : server_good s ->
  match r with
  | None => True
  | Some (ResponseBytes b) => bytes b
  | Some (ResponseHandles total hs) => u16 total /\ Forall (fun h => u32 h) hs
  end -> server_good (set_current_response r s).
Proof. intros [] Hr. by split. Qed.

Definition answer_good (a : SdpPdu * SdpServer) : Prop := pdu_ok a.1 /\ server_good a.2.

Lemma byte_answer_good t s requested (make : Z -> list Z -> list Z -> SdpPdu) : u16 t -> server_good s ->
  (forall l cs, len l < 65536 -> bytes l -> bytes cs -> pdu_ok (make t l cs)) ->
  answer_good (let '(payload, cs, s') := next_byte_payload (attribute_byte_cap s requested) s in (make t payload cs, s')).
Proof.
  intros Ht Hg Hmake. pose proof (next_payload_size (attribute_byte_cap s requested) s) as Hsize.
  pose proof (byte_cap_le s requested ltac:(destruct Hg; lia)) as Hcap. pose proof (sg_mtu _ Hg) as Hmtu.
  pose proof (sg_response _ Hg) as Hr.
  assert (bytes SERVER_CONTINUATION_STATE /\ bytes [0]) as [Hc1 Hc2] by by_compute.
  unfold next_byte_payload in *. destruct (current_response s) as [[buf|total hs]|] eqn:Hcur.
  2,3: split; [apply Hmake; try done; apply bytes_nil|done].
  destruct (_ <? length buf)%nat; destruct Hsize as (Hl & _); split; cbn [fst snd] in *.
  1,3: apply Hmake; [lia| |done]; by first [apply bytes_take | done].
  - apply set_response_good; [done|by apply bytes_drop].
  - by apply set_response_good.
Qed.

Lemma error_answer_good t code s : u16 t -> u16 code -> server_good s -> answer_good (ErrorResponse t code, s).
Proof. by intros. Qed.

Lemma handles_answer_good t s : u16 t -> server_good s -> answer_good (search_chunk t s).
Proof.
  intros Ht Hg. unfold search_chunk. pose proof (sg_response _ Hg) as Hr. pose proof (sg_mtu _ Hg) as Hmtu.
  destruct (current_response s) as [[buf|total hs]|] eqn:Hcur;
    [by apply error_answer_good| |by apply error_answer_good].
  destruct Hr as [Htot Hhs].
  assert (0 <= saturating_sub (server_mtu s) 11 / 4 < 65536) as Hn.
  { unfold saturating_sub. split; [apply Z.div_pos; lia|]. apply Z.div_lt_upper_bound; lia. }
  split; cbn [fst snd].
  - split; [done|]. split; [done|]. split; [unfold len; rewrite length_take; lia|]. split; [by apply Forall_take|].
    case_match; by_compute.
  - apply set_response_good; [done|]. split; [done|by apply Forall_drop].
Qed.

Lemma handle_request_good req s : server_good s -> u16 (SdpPdu_transaction_id req) -> answer_good (SdpService.handle_request req s).
Proof.
  intros Hg Ht.
  assert (forall cs, server_good (check_continuation cs s).2
    /\ forall code, (check_continuation cs s).1 = ContinuationError code -> u16 code) as Hk.
  { intros cs. unfold check_continuation. repeat case_match; split; try done; try (by apply set_response_good).
    by intros code [= <-]. }
  assert (forall t l cs, u16 t -> len l < 65536 -> bytes l -> bytes cs -> pdu_ok (ServiceAttributeResponse t l cs)
    /\ pdu_ok (ServiceSearchAttributeResponse t l cs)) as Hmk by done.
  destruct req as [t code|t pat count cs|t total hs cs|t h count ids cs|t l cs|t pat count ids cs|t l cs];
    cbn [SdpService.handle_request SdpPdu_transaction_id] in *; try by apply error_answer_good.
  - unfold on_service_search. specialize (Hk cs) as [Hg1 Hc]. destruct (check_continuation cs s) as [[code| |] s1]; cbn [fst snd] in *.
    + apply error_answer_good; auto.
    + by apply handles_answer_good.
    + apply handles_answer_good; [done|]. apply set_response_good; [done|]. split; [apply Z.mod_pos_bound; lia|].
      apply Forall_take, Forall_fmap. unfold match_services. apply List.Forall_forall. intros r Hr.
      apply List.filter_In in Hr as [Hr _]. pose proof (sg_handles _ Hg1) as Hh. rewrite List.Forall_forall in Hh. by apply Hh.
  - unfold on_service_attribute. specialize (Hk cs) as [Hg1 Hc]. destruct (check_continuation cs s) as [[code| |] s1]; cbn [fst snd] in *.
    + apply error_answer_good; auto.
    + apply (byte_answer_good t s1 count ServiceAttributeResponse); try done.
    + destruct (List.find _ (records s1)) as [r|] eqn:Hf; [|by apply error_answer_good].
      apply List.find_some in Hf as [Hf _]. pose proof (sg_records _ Hg1) as Hrs. unfold records_ok in Hrs.
      rewrite List.Forall_forall in Hrs. specialize (Hrs r Hf).
      apply (byte_answer_good t (set_current_response _ s1) count ServiceAttributeResponse); [done| |intros; by apply Hmk].
      apply set_response_good; [done|]. by apply bytes_or_default_good, get_attributes_good.
  - unfold on_service_search_attribute. specialize (Hk cs) as [Hg1 Hc]. destruct (check_continuation cs s) as [[code| |] s1]; cbn [fst snd] in *.
    + apply error_answer_good; auto.
    + apply (byte_answer_good t s1 count ServiceSearchAttributeResponse); try done.
    + apply (byte_answer_good t (set_current_response _ s1) count ServiceSearchAttributeResponse); [done| |intros; by apply Hmk].
      apply set_response_good; [done|]. by apply bytes_or_default_good, search_lists_good.
Qed.

Lemma parse_complete_no_panic sdu : bytes sdu -> parse_complete_pdu sdu <> Panic.
Proof.
  intros Hb. unfold parse_complete_pdu. destruct (get_range sdu 3 5) as [l|] eqn:Hr; [|done].
  unfold get_range in Hr. case_decide as Hd; [|done]. injection Hr as <-.
  do 5 (destruct sdu as [|? sdu]; [cbn in Hd; lia|]). cbn [ok_or mbind res_bind drop take Nat.sub idx expect lookup list_lookup].
  destruct (negb _); [done|]. pose proof (pdu_decode_no_panic _ Hb) as Hn.
  by destruct (SdpPdu_from_bytes _).
Qed.

Lemma parse_complete_encoding p bs : pdu_ok p -> SdpPdu_to_bytes p = Ok bs -> len bs <= 5 + 65535 ->
  parse_complete_pdu bs = Ok p.
Proof.
  intros Hok Hto Hl. pose proof (pdu_decodes p bs [] Hok Hto Hl) as Hd. rewrite app_nil_r in Hd.
  unfold SdpPdu_to_bytes in Hto. destruct (SdpPdu_parameters p) as [params| |]; try done. injection Hto as <-.
  pose proof (len_nonneg params). rewrite !len_cons in Hl.
  unfold parse_complete_pdu. rewrite get_range_Some by (cbn [app length]; lia).
  cbn [app ok_or mbind res_bind drop take Nat.sub idx expect lookup list_lookup].
  cbn [app] in Hd. rewrite (Z.mod_small (len params)) in Hd |- * by lia. rewrite u16_be_roundtrip by lia.
  rewrite (proj2 (Z.eqb_eq _ _)) by (rewrite !len_cons; lia). cbn [negb]. by rewrite Hd.
Qed.

(** What the channel answers, by its own reading of the SDU. *)
Definition read_answer (sdu : list Z) (tid : Z) (s : SdpServer) : SdpPdu * SdpServer :=
  match parse_complete_pdu sdu with
  | Ok req => SdpService.handle_request req s
  | _ => (ErrorResponse tid INVALID_REQUEST_SYNTAX, s)
  end.

Lemma channel_answers sdu ch : bytes sdu -> 11 <= server_mtu (server ch) ->
  match sdu with
  | _ :: t1 :: t2 :: _ =>
      exists answer s' rb, read_answer sdu (from_be_bytes [t1; t2]) (server ch) = (answer, s')
        /\ SdpPdu_transaction_id answer = from_be_bytes [t1; t2] /\ SdpPdu_to_bytes answer = Ok rb
        /\ len rb <= server_mtu (server ch) /\ records s' = records (server ch)
        /\ handle_sdu sdu ch = (Ok (Some rb), mkSdpChannel s')
  | _ => handle_sdu sdu ch = (Ok None, ch)
  end.
Proof.
  intros Hb Hmtu. destruct sdu as [|b0 [|t1 [|t2 rest]]]; try done.
  set (sdu := b0 :: t1 :: t2 :: rest) in *.
  assert (good_answer (from_be_bytes [t1; t2]) (server ch) (read_answer sdu (from_be_bytes [t1; t2]) (server ch))) as Hg.
  { unfold read_answer. destruct (parse_complete_pdu sdu) as [req|e|] eqn:Hp; try by apply error_answer.
    unfold parse_complete_pdu in Hp. destruct (get_range sdu 3 5) as [l|]; [|done]. cbn [ok_or mbind res_bind] in Hp.
    destruct (idx l 0), (idx l 1); cbn [mbind res_bind] in Hp; try done. destruct (negb _); [done|].
    destruct (SdpPdu_from_bytes sdu) as [p|e|] eqn:Hf; try done. injection Hp as ->.
    apply (pdu_tid _ _ t1 t2 rest) in Hf; [|by exists b0]. rewrite <- Hf. by apply answers_fit. }
  destruct (read_answer sdu _ (server ch)) as [answer s'] eqn:Ha. unfold good_answer in Hg; cbn [fst snd] in Hg.
  destruct Hg as (Ht & (n & Hw & Hn) & Hr & _).
  unfold wire_size in Hw. destruct (SdpPdu_to_bytes answer) as [rb| |] eqn:Hto; try done. injection Hw as <-.
  exists answer, s', rb. split_and!; try done.
  unfold handle_sdu. rewrite get_range_Some by (cbn; lia).
  change (take (3 - 1) (drop 1 sdu)) with [t1; t2].
  unfold mbind, stm_bind, lift. cbn [idx expect lookup list_lookup]. unfold sdp_answer.
  pose proof (parse_complete_no_panic sdu Hb) as Hnp. unfold read_answer in Ha. fold sdu.
  destruct (parse_complete_pdu sdu) as [req|e|]; [by rewrite Ha, Hto| |done]. injection Ha as <- <-. rewrite Hto. by destruct ch.
Qed.

(** ** The channel as a machine on PDUs *)

Lemma parse_framed_pdu id t ps : u16 t -> len ps < 65536 ->
  parse_complete_pdu ([id] ++ to_be_bytes 2 t ++ to_be_bytes 2 (len ps) ++ ps) = map_err (fun _ => tt) (read_parameters ps id t 0%nat).1.
Proof.
  intros Ht Hl. pose proof (len_nonneg ps). change (to_be_bytes 2 ?x) with [x / 256 mod 256; x mod 256]. cbn [app].
  unfold parse_complete_pdu. rewrite get_range_Some by (cbn [length]; lia).
  cbn [ok_or mbind res_bind drop take Nat.sub idx expect lookup list_lookup]. rewrite u16_be_roundtrip by lia.
  rewrite (proj2 (Z.eqb_eq _ _)) by (rewrite !len_cons; lia). cbn [negb]. unfold SdpPdu_from_bytes.
  rewrite (proj2 (Z.ltb_ge _ _)) by (rewrite !len_cons; lia). cbn [mbind res_bind idx expect lookup list_lookup].
  rewrite !u16_be_roundtrip by lia. rewrite get_range_Some by (cbn [length]; unfold len; lia). cbn [drop].
  replace (5 + Z.to_nat (len ps) - 5)%nat with (length ps) by (unfold len; lia). by rewrite drop_0, firstn_all.
Qed.

(** The channel reads exactly the SDUs that are one PDU. *)
Lemma one_pdu_exact sdu p : bytes sdu -> parse_complete_pdu sdu = Ok p <-> one_pdu sdu p.
Proof.
  intros Hb. split.
  - intros Hp. assert (exists id t ps, sdu = [id] ++ to_be_bytes 2 t ++ to_be_bytes 2 (len ps) ++ ps /\ u16 t /\ len ps < 65536)
      as (id & t & ps & -> & Ht & Hl).
    { unfold parse_complete_pdu, get_range in Hp. case_decide as Hd; [|done].
      destruct sdu as [|id [|t1 [|t2 [|l1 [|l2 ps]]]]]; try (cbn in Hd; lia).
      cbn [ok_or mbind res_bind drop take Nat.sub idx expect lookup list_lookup] in Hp.
      destruct (Z.eqb_spec (len (id :: t1 :: t2 :: l1 :: l2 :: ps)) (5 + from_be_bytes [l1; l2])) as [Hl|]; [|done].
      rewrite !len_cons in Hl. rewrite !bytes_cons in Hb. destruct Hb as (_ & ? & ? & ? & ? & _).
      exists id, (from_be_bytes [t1; t2]), ps. assert (len ps = from_be_bytes [l1; l2]) as -> by lia.
      rewrite !u16_be_inverse by done. split_and!; try done; by apply u16_le_range. }
    rewrite !bytes_app in Hb. destruct Hb as (_ & _ & _ & Hps).
    rewrite parse_framed_pdu in Hp by done. destruct (read_parameters ps id t 0%nat).1 as [q| |] eqn:Hr; try done. injection Hp as ->.
    constructor; [done|done|]. by apply layout_exact.
  - intros Hone. revert Hb. destruct Hone as [id t ps q Ht Hl Hlay]. intros Hb. rewrite !bytes_app in Hb.
    destruct Hb as (_ & _ & _ & Hps). rewrite parse_framed_pdu by done.
    apply layout_exact in Hlay; [|done]. by rewrite Hlay.
Qed.

(** What a record server behind a byte channel does with an SDU: nothing with
    one too short for a transaction id; with one that is exactly one PDU, it
    sends its answer to that PDU; with any other, an error response (1) with the
    SDU's transaction id and the code for invalid syntax (3), two bytes long. *)
Inductive channel_step (s : SdpServer) : list Z -> option (list Z) -> SdpServer -> Prop :=
| step_short sdu : (length sdu < 3)%nat -> channel_step s sdu None s
| step_pdu sdu p answer rb s' : one_pdu sdu p -> SdpService.handle_request p s = (answer, s') -> SdpPdu_to_bytes answer = Ok rb ->
    channel_step s sdu (Some rb) s'
| step_malformed b0 t1 t2 rest : (forall p, ~ one_pdu (b0 :: t1 :: t2 :: rest) p) ->
    channel_step s (b0 :: t1 :: t2 :: rest) (Some [1; t1; t2; 0; 2; 3; 0]) s.

Inductive server_run : SdpServer -> list (list Z) -> list (option (list Z)) -> SdpServer -> Prop :=
| run_end s : server_run s [] [] s
| run_sdu s sdu out s1 sdus outs s2 : channel_step s sdu out s1 -> server_run s1 sdus outs s2 ->
    server_run s (sdu :: sdus) (out :: outs) s2.

(** The channel, given SDUs one after the other. *)
Fixpoint serve (sdus : list (list Z)) : stm HidSdpChannel SdpError (list (option (list Z))) :=
  match sdus with
  | [] => mret []
  | sdu :: sdus => out ← handle_sdu sdu; outs ← serve sdus; mret (out :: outs)
  end.

(** What the peer gets for an SDU: something exactly when the SDU has a
    transaction id, within the MTU, under that id, and itself one PDU. *)
Definition answered_within (mtu : Z) (sdu : list Z) (out : option (list Z)) : Prop :=
  match out with
  | None => (length sdu < 3)%nat
  | Some rb => (3 <= length sdu)%nat /\ len rb <= mtu /\ take 2 (drop 1 rb) = take 2 (drop 1 sdu) /\ exists answer, one_pdu rb answer
  end.

Lemma one_pdu_length sdu p : one_pdu sdu p -> (3 <= length sdu)%nat.
Proof. intros []. rewrite !length_app, !length_to_be_bytes. cbn. lia. Qed.

Lemma one_pdu_tid sdu p : one_pdu sdu p -> u16 (SdpPdu_transaction_id p).
Proof. intros [id t ps q Ht _ Hlay]. by destruct Hlay. Qed.

Lemma pdu_bytes p bs : pdu_ok p -> SdpPdu_to_bytes p = Ok bs -> bytes bs.
Proof.
  intros [_ Hok] Hto. unfold SdpPdu_to_bytes in Hto. apply bind_ok in Hto as (ps & Hps & <-%(inj Ok)).
  assert (bytes ps) as Hb.
  { destruct p; cbn [SdpPdu_parameters] in Hps; unfold element_fits in Hok; destruct_and?;
      repeat (apply bind_ok in Hps as (? & He & Hps); apply element_encodes in He as (? & _); [|done]); apply (inj Ok) in Hps as <-;
      rewrite ?bytes_app; split_and?; try done; auto using bytes_to_be, bytes_to_le.
    apply bytes_concat, Forall_fmap, Forall_true. intros h. apply bytes_to_be. }
  rewrite bytes_cons. split; [by destruct p|]. rewrite !bytes_app. auto using bytes_to_be.
Qed.

(** The machine has one thing to do with an SDU. *)
Lemma step_unique s sdu out1 s1 out2 s2 : bytes sdu -> channel_step s sdu out1 s1 -> channel_step s sdu out2 s2 -> out1 = out2 /\ s1 = s2.
Proof.
  intros Hb H1 H2. destruct H1 as [sdu Hl|sdu p answer rb s1 Hp Ha Hr|b0 t1 t2 rest Hn];
    inversion H2 as [? Hl2|? p2 answer2 rb2 ? Hp2 Ha2 Hr2|? ? ? ? Hn2]; subst; try done; try (by cbn in *; lia);
    try (by apply one_pdu_length in Hp; lia); try (by apply one_pdu_length in Hp2; lia); try (by destruct (Hn p2)); try (by destruct (Hn2 p)).
  apply one_pdu_exact in Hp, Hp2; [|done..]. simplify_eq. split; congruence.
Qed.

Lemma error_bytes t1 t2 : u8 t1 -> u8 t2 ->
  SdpPdu_to_bytes (ErrorResponse (from_be_bytes [t1; t2]) INVALID_REQUEST_SYNTAX) = Ok [1; t1; t2; 0; 2; 3; 0].
Proof.
  intros H1 H2. change (SdpPdu_to_bytes _) with (Ok (E := SdpError) ([1] ++ to_be_bytes 2 (from_be_bytes [t1; t2]) ++ [0; 2; 3; 0])).
  by rewrite u16_be_inverse.
Qed.

(** One SDU: the channel does what the machine does. *)
Lemma step_exact sdu ch : bytes sdu -> server_good (server ch) ->
  exists out s', handle_sdu sdu ch = (Ok out, mkSdpChannel s') /\ channel_step (server ch) sdu out s'
    /\ server_good s' /\ server_mtu s' = server_mtu (server ch) /\ records s' = records (server ch)
    /\ answered_within (server_mtu (server ch)) sdu out.
Proof.
  intros Hb Hg. pose proof (sg_mtu _ Hg) as Hmtu. pose proof (channel_answers sdu ch Hb ltac:(lia)) as Hc.
  destruct sdu as [|b0 [|t1 [|t2 rest]]]; try (exists None, (server ch); rewrite Hc; destruct ch; split_and!; try done; [constructor|]; cbn; lia).
  destruct Hc as (answer & s' & rb & Ha & Ht & Hr & Hl & Hrec & Hh). exists (Some rb), s'. unfold read_answer in Ha.
  assert (u8 t1 /\ u8 t2) as [Ht1 Ht2] by (rewrite !bytes_cons in Hb; tauto).
  set (sdu := b0 :: t1 :: t2 :: rest) in *.
  assert (channel_step (server ch) sdu (Some rb) s' /\ answer_good (answer, s') /\ server_mtu s' = server_mtu (server ch)) as (Hs & [Hok Hg'] & Hm).
  { destruct (parse_complete_pdu sdu) as [req|e|] eqn:Hp.
    - apply one_pdu_exact in Hp; [|done]. split; [by econstructor|]. rewrite <- Ha. split; [by eapply handle_request_good, one_pdu_tid|].
      destruct (answers_fit req (server ch) ltac:(lia)) as (_ & _ & _ & Hm). by rewrite Ha in Hm.
    - injection Ha as <- <-. split; [|by split; [apply error_answer_good; [by apply u16_le_range| |]|]].
      rewrite error_bytes in Hr by done. injection Hr as <-. constructor. intros p Hp'. apply one_pdu_exact in Hp'; [|done]. subst sdu. congruence.
    - by destruct (parse_complete_no_panic sdu Hb). }
  unfold answered_within. split_and!; try done; [subst sdu; cbn; lia|..].
  - unfold SdpPdu_to_bytes in Hr. apply bind_ok in Hr as (ps & _ & <-%(inj Ok)). rewrite Ht, u16_be_inverse by done. done.
  - exists answer. apply one_pdu_exact; [by eapply pdu_bytes|]. apply parse_complete_encoding; [done|done|lia].
Qed.

Lemma serve_exact sdus : forall ch, Forall bytes sdus -> server_good (server ch) ->
  exists outs ch', serve sdus ch = (Ok outs, ch') /\ server_run (server ch) sdus outs (server ch') /\ records (server ch') = records (server ch)
    /\ (forall outs2 s2, server_run (server ch) sdus outs2 s2 -> outs2 = outs /\ s2 = server ch')
    /\ Forall2 (answered_within (server_mtu (server ch))) sdus outs.
Proof.
  induction sdus as [|sdu sdus IH]; intros ch Hb Hg.
  - exists [], ch. split; [done|]. split; [apply run_end|]. split; [done|]. split; [by inversion 1|constructor].
  - apply Forall_cons in Hb as [Hb1 Hb]. destruct (step_exact sdu ch Hb1 Hg) as (out & s1 & Hh & Hs & Hg1 & Hm & Hr & Ha).
    destruct (IH (mkSdpChannel s1) Hb Hg1) as (outs & ch' & Hs' & Hrun & Hr' & Hu & Ha'). cbn [server] in *. rewrite Hm in Ha'.
    exists (out :: outs), ch'. split_and!.
    + cbn [serve]. rewrite (stm_bind_run _ _ _ _ _ Hh), (stm_bind_run _ _ _ _ _ Hs'). done.
    + by econstructor.
    + congruence.
    + intros outs2 s2 Hrun2. inversion Hrun2 as [|? ? out2 s1' ? rest2 ? Hstep Hrest]; subst.
      destruct (step_unique _ _ _ _ _ _ Hb1 Hs Hstep) as [<- <-]. by destruct (Hu _ _ Hrest) as [-> ->].
    + by constructor.
Qed.

(** C27. The byte-level SDP channel refines the record server: given any SDUs one
    after the other, it sends and becomes exactly what the server with a byte
    channel of [channel_step] does. An SDU that is exactly one PDU, by the layout
    of its kind, gets the encoding of the server's answer; any other with a
    transaction id gets the syntax error under that id and changes nothing; a
    shorter one gets nothing. The channel always answers, within the peer's MTU,
    under the SDU's transaction id, with bytes that are themselves exactly one
    PDU, and its records stay as they are. *)
Theorem sdp_channel_refines_server sdus ch : Forall bytes sdus -> server_good (server ch) ->
  (forall outs ch', serve sdus ch = (Ok outs, ch') <-> server_run (server ch) sdus outs (server ch'))
  /\ exists outs ch', serve sdus ch = (Ok outs, ch') /\ records (server ch') = records (server ch)
       /\ Forall2 (answered_within (server_mtu (server ch))) sdus outs.
Proof.
  intros Hb Hg. destruct (serve_exact sdus ch Hb Hg) as (outs & ch1 & Hs & Hrun & Hr & Hu & Ha). split; [|by exists outs, ch1].
  intros outs2 ch2. rewrite Hs. split; [by intros [= <- <-]|]. intros Hrun2. destruct (Hu _ _ Hrun2) as [-> Heq].
  destruct ch1, ch2. cbn in Heq. by subst.
Qed.

(** ** A client behind the channel *)

(** The two ends of an L2CAP channel: requests and responses as SDUs. *)
#[global] Instance channel_transport : SdpTransport HidSdpChannel := fun req ch =>
  match SdpPdu_to_bytes req with
  | Ok bs =>
      match handle_sdu bs ch with
      | (Ok (Some rb), ch') =>
          (match SdpPdu_from_bytes rb with Ok p => Ok p | _ => Err "malformed response"%string end, ch')
      | (_, ch') => (Err "no response"%string, ch')
      end
  | _ => (Err "unencodable request"%string, ch)
  end.

Lemma channel_carries (ch : HidSdpChannel) req : server_good (server ch) ->
  (pdu_ok req /\ exists bs, SdpPdu_to_bytes req = Ok bs /\ bytes bs /\ len bs <= 5 + 65535) ->
  exists ch', request req ch = (Ok (SdpService.handle_request req (server ch)).1, ch')
    /\ server ch' = (SdpService.handle_request req (server ch)).2 /\ server_good (server ch').
Proof.
  intros Hg (Hok & bs & Hto & Hb & Hl). pose proof (sg_mtu _ Hg) as Hmtu.
  pose proof (channel_answers bs ch Hb ltac:(lia)) as Ha.
  pose proof (parse_complete_encoding req bs Hok Hto Hl) as Hp.
  destruct (handle_request_good req (server ch) Hg) as [Hok' Hg']; [apply Hok|].
  unfold request, channel_transport. rewrite Hto.
  assert (exists b0 t1 t2 rest, bs = b0 :: t1 :: t2 :: rest) as (b0 & t1 & t2 & rest & ->).
  { unfold SdpPdu_to_bytes in Hto. destruct (SdpPdu_parameters req); try done. injection Hto as <-. cbn [app]. eauto. }
  destruct Ha as (answer & s' & rb & Habs & _ & Hrb & Hlen & _ & ->).
  unfold read_answer in Habs. rewrite Hp in Habs. rewrite Habs in *. cbn [fst snd] in *.
  exists (mkSdpChannel s'). split; [|done]. pose proof (pdu_decodes answer rb [] Hok' Hrb ltac:(lia)) as Hd.
  rewrite app_nil_r in Hd. by rewrite Hd.
Qed.

#[global] Instance channel_link : SdpLink HidSdpChannel := {
  link_server := server;
  link_ok ch := server_good (server ch);
  link_carries req := pdu_ok req /\ exists bs, SdpPdu_to_bytes req = Ok bs /\ bytes bs /\ len bs <= 5 + 65535;
  link_request := channel_carries
}.

(** A configuration whose fields are in the range of their types. *)
Definition service_config_ok (c : HidServiceConfig) : Prop :=
  let p := sdp_policy c in
  bytes (report_descriptor c) /\ bytes (service_name p)
  /\ (forall d, service_description p = Some d -> bytes d) /\ (forall d, provider_name p = Some d -> bytes d)
  /\ (forall n, device_release_number p = Some n -> u16 n)
  /\ u16 (bluetooth_profile_version p) /\ u16 (parser_version p) /\ u8 (device_subclass p) /\ u8 (country_code p)
  /\ u16 (profile_version p) /\ u16 (supervision_timeout p) /\ u16 (ssr_host_max_latency p)
  /\ u16 (ssr_host_min_timeout p).

Lemma unsigned_16_ok v : u16 v -> element_ok (unsigned_integer_16 v) = true.
Proof.
  intros Hv. cbn [element_ok unsigned_integer_16]. change (2 ^ (8 * 2)) with 65536.
  by rewrite (proj2 (Z.leb_le _ _)), (proj2 (Z.ltb_lt _ _)) by lia.
Qed.

Lemma unsigned_8_ok v : u8 v -> element_ok (unsigned_integer_8 v) = true.
Proof.
  intros Hv. cbn [element_ok unsigned_integer_8]. change (2 ^ (8 * 1)) with 256.
  by rewrite (proj2 (Z.leb_le _ _)), (proj2 (Z.ltb_lt _ _)) by lia.
Qed.

Lemma text_ok t : bytes t -> element_ok (TextString t) = true.
Proof. intros Ht. by apply bool_decide_eq_true_2. Qed.

Lemma attribute_in_range id v : u16 id -> element_ok v = true -> (nesting v <= 30)%nat -> attribute_ok (attribute id v).
Proof. done. Qed.

Lemma optional_attribute_ok {A} (field : option A) id value (P : A -> Prop) : u16 id ->
  (forall x, field = Some x -> P x) -> (forall x, P x -> element_ok (value x) = true /\ (nesting (value x) <= 30)%nat) ->
  Forall attribute_ok (optional_attribute field id value).
Proof.
  intros Hid Hf Hv. destruct field as [x|]; [|constructor]. constructor; [|constructor].
  destruct (Hv x (Hf x eq_refl)). by apply attribute_in_range.
Qed.

Lemma hid_record_ok c : service_config_ok c -> Forall attribute_ok (build_hid_service_record c).
Proof.
  intros (Hd & Hn & Hsd & Hpn & Hrel & H1 & H2 & H3 & H4 & H5 & H6 & H7 & H8).
  unfold build_hid_service_record. rewrite !Forall_app. split_and!.
  all: try (by eapply optional_attribute_ok; [done|eassumption|]; intros x Hx;
    split; [first [by apply text_ok | by apply unsigned_16_ok]|cbn; lia]).
  all: repeat first [apply Forall_nil; done | apply Forall_cons; split]; try apply attribute_in_range; try lia.
  all: try (by apply text_ok); try (by apply unsigned_16_ok); try (by apply unsigned_8_ok).
  all: try (cbn; lia); try reflexivity.
  - change (element_ok (unsigned_integer_16 (bluetooth_profile_version (sdp_policy c))) && true && true = true).
    by rewrite unsigned_16_ok.
  - apply (optional_attribute_ok _ _ _ (fun n => u16 n)); [done|done|]. intros n Hr.
    split; [by apply unsigned_16_ok|cbn; lia].
  - change (element_ok (TextString (report_descriptor c)) && true && true = true). by rewrite text_ok.
  - apply (optional_attribute_ok _ _ _ (fun _ => True)); try done. intros; split; [done|cbn; lia].
Qed.

Lemma filter_all {A} (f : A -> bool) l : Forall (fun x => f x = true) l -> List.filter f l = l.
Proof. induction 1 as [|x l Hx _ IH]; [done|]. cbn. by rewrite Hx, IH. Qed.

Lemma hid_reference_answer c mtu : service_config_ok c ->
  reference_answer (records (server (HidSdpChannel_new c mtu))) [uuid16 HID_SERVICE_CLASS_UUID] [AttrRange 0 0xFFFF]
  = [sort_by_id (build_hid_service_record c)].
Proof.
  intros Hc. unfold reference_answer.
  change (records (server (HidSdpChannel_new c mtu)))
    with [mkRecord HID_SERVICE_RECORD_HANDLE (build_hid_service_record c)].
  change (List.filter (record_matches [uuid16 HID_SERVICE_CLASS_UUID])
    [mkRecord HID_SERVICE_RECORD_HANDLE (build_hid_service_record c)])
    with [mkRecord HID_SERVICE_RECORD_HANDLE (build_hid_service_record c)].
  rewrite fmap_cons, fmap_nil. unfold selected at 1. cbn [fmap list_fmap concat app record_attributes].
  rewrite app_nil_r, (filter_all (selects (AttrRange 0 0xFFFF))).
  - cbn [List.filter]. destruct (sort_by_id (build_hid_service_record c)) as [|a l] eqn:Hs; [|done].
    assert (In (attribute 0x0000 (unsigned_integer_32 HID_SERVICE_RECORD_HANDLE)) (sort_by_id (build_hid_service_record c))) as Hin
      by (apply sort_by_id_elem; by left).
    rewrite Hs in Hin. destruct Hin.
  - eapply List.Forall_impl; [|by apply hid_record_ok]. intros a [Hid _]. unfold selects.
    by rewrite (proj2 (Z.leb_le _ _)), (proj2 (Z.leb_le _ _)) by lia.
Qed.

Definition hid_query_parameters (cs : list Z) : list Z :=
  [53; 3; 25; 17; 36; 255; 255; 53; 5; 10; 0; 0; 255; 255] ++ cs.

Lemma hid_query_bytes tr cs :
  SdpPdu_to_bytes (ServiceSearchAttributeRequest tr (search_pattern [uuid16 HID_SERVICE_CLASS_UUID]) 0xFFFF
    (attribute_id_list [AttrRange 0 0xFFFF]) cs)
  = Ok (0x06 :: to_be_bytes 2 tr
        ++ to_be_bytes 2 (len (hid_query_parameters cs) mod 65536) ++ hid_query_parameters cs).
Proof. reflexivity. Qed.

Lemma hid_query_carried tr cs : u16 tr -> cs = [0] \/ cs = SERVER_CONTINUATION_STATE ->
  link_carries (T := HidSdpChannel) (ServiceSearchAttributeRequest tr (search_pattern [uuid16 HID_SERVICE_CLASS_UUID]) 0xFFFF
    (attribute_id_list [AttrRange 0 0xFFFF]) cs).
Proof.
  intros Ht Hcs. assert (bytes cs /\ len cs <= 2) as [Hb Hl] by (destruct Hcs as [-> | ->]; split; [by_compute|done|by_compute|done]).
  split.
  - split; [done|]. split_and!; [by_compute|done|done|by_compute|done].
  - eexists. split; [apply hid_query_bytes|]. unfold hid_query_parameters. split.
    + rewrite bytes_cons, !bytes_app. split_and!; try apply bytes_to_be; try done. by_compute.
    + rewrite len_cons, !len_app. unfold len in *. rewrite !length_to_be_bytes. cbn [length]. lia.
Qed.

(** C17. Discovery end to end, over bytes: a host that asks the backend's SDP
    channel for all attributes of HID services gets, over as many SDUs as the
    MTU forces (at most 64), exactly one service: the configured HID record,
    with its attributes sorted by id; the channel is left as it was. *)
Theorem hid_record_discovered c mtu tid bs : service_config_ok c -> 11 <= mtu <= 65535 -> u16 tid ->
  DataElement_to_bytes (Sequence [list_to_data_element (sort_by_id (build_hid_service_record c))]) = Ok bs ->
  len bs <= 64 * (mtu - 9) ->
  exists tid', service_search_attribute [uuid16 HID_SERVICE_CLASS_UUID] [AttrRange 0 0xFFFF]
      (mkClient (HidSdpChannel_new c mtu) tid)
    = (Ok [sort_by_id (build_hid_service_record c)], mkClient (HidSdpChannel_new c mtu) tid').
Proof.
  intros Hc Hmtu Htid Hto Hlen.
  assert (records_ok (records (server (HidSdpChannel_new c mtu)))) as Hrs.
  { apply Forall_cons; split; [by apply hid_record_ok|constructor]. }
  destruct (link_search_attribute (HidSdpChannel_new c mtu) tid [uuid16 HID_SERVICE_CLASS_UUID] [AttrRange 0 0xFFFF] bs)
    as (ch' & tid' & Heq & Hs & _).
  - intros. by apply hid_query_carried.
  - split; try done. apply Forall_cons; split; [by vm_compute|constructor].
  - done.
  - exact Hrs.
  - by_compute.
  - cbn [link_server channel_link]. rewrite hid_reference_answer by done. exact Hto.
  - change (9 < mtu). lia.
  - change (len bs <= 64 * Z.min (mtu - 9) 0xFFFF). lia.
  - exists tid'. rewrite Heq. cbn [link_server channel_link] in *. rewrite hid_reference_answer by done.
    do 2 f_equal. destruct ch' as [s']. cbn in Hs. by rewrite Hs.
Qed.

(** ** The bridge *)

(** Messages on the control channel that the device answers. *)
Definition expects_answer (m : Message) : bool :=
  match m with
  | MGetReport _ _ _ | MSetReport _ _ | MGetProtocol | MSetProtocol _ | MHandshake _ | MUnknown _ _ _ => true
  | MControl _ | MData _ _ => false
  end.

(** What a decoded message is to the application. *)
Definition application_event (channel : Channel) (m : Message) : list HidpBridgeEvent :=
  match channel, m with
  | _, MData ty data => [if ty =? OUTPUT_REPORT then BridgeOutput channel data else BridgeUnsupported channel]
  | Control, MControl c =>
      [if c =? ControlCommand.SUSPEND then BridgeSuspend
       else if c =? ControlCommand.EXIT_SUSPEND then BridgeResume
       else if c =? ControlCommand.VIRTUAL_CABLE_UNPLUG then BridgeVirtualCableUnplug
       else BridgeUnsupported Control]
  | Control, (MHandshake _ | MUnknown _ _ _) => [BridgeUnsupported Control]
  | Control, _ => []
  | Interrupt, _ => [BridgeUnsupported Interrupt]
  end.

(** The one answer this device gives: [HANDSHAKE(ERR_UNSUPPORTED_REQUEST)]. *)
Definition unsupported_answer : list Z := [0x03].

Definition bridge_reference (channel : Channel) (mtu : Z) (bs : list Z) : res HidpBridgeError (list HidpBridgeEvent) :=
  match Message_from_bytes bs with
  | Ok m =>
      if bool_decide (channel = Control) && match m with MSetReport _ [] => true | _ => false end
      then Err (BridgeMalformed Control)
      else if bool_decide (channel = Control) && expects_answer m then
        if mtu <? 1 then Err (BridgePeerMtuExceeded Control 1 mtu)
        else Ok (application_event channel m ++ [BridgeControlResponse unsupported_answer])
      else Ok (application_event channel m)
  | Err _ => Err (BridgeMalformed channel)
  | Panic => Panic
  end.

(** The MTU kept inside the device runtime plays no role. *)
Lemma bridge_handle_reference channel bs self :
  bridge_handle channel bs self = (bridge_reference channel (bridge_control_mtu self) bs, self).
Proof.
  unfold bridge_handle, bridge_reference, on_runtime, device_handle_control, device_handle_interrupt.
  unfold mbind, stm_bind, lift, get, mret, stm_ret, throw.
  destruct (Message_from_bytes bs) as [m|e|]; cbn [map_err]; destruct self as [[[] mtu] cm im], channel; cbn; try done.
  all: destruct m as [| |? ? ?|? [|]| | | |]; cbn; try done.
  all: unfold encode_control, check_peer_mtu; cbn [map_err mbind res_bind].
  all: try (change (len [_]) with 1; destruct (Z.ltb_spec cm 1); reflexivity).
  all: by repeat case_match; simplify_eq/=.
Qed.

Lemma application_output channel m c p : BridgeOutput c p ∈ application_event channel m
  <-> c = channel /\ m = MData OUTPUT_REPORT p.
Proof.
  destruct channel, m; cbn; rewrite ?list_elem_of_singleton, ?elem_of_nil;
    (split; [intros; repeat case_match; simplify_eq; bool_to_prop; by subst | intros [-> Hm]; simplify_eq; done]).
Qed.

Lemma application_silent channel m rsp : ~ BridgeControlResponse rsp ∈ application_event channel m.
Proof. destruct channel, m; cbn; rewrite ?list_elem_of_singleton, ?elem_of_nil; intros ?; by repeat case_match. Qed.

Lemma input_report_wire payload : bytes payload ->
  Message_to_bytes (device_data payload) = Ok (0xA1 :: payload)
  /\ host_handle_interrupt (0xA1 :: payload) = Ok (HostInterruptData INPUT_REPORT payload).
Proof. done. Qed.

(** Reports through the bridge: handling any bytes on either channel never
    panics and leaves the bridge as it is; the application is handed an output
    report exactly when the bytes are one, with its payload and channel; every
    request on the control channel that decodes is answered once, every
    answer fits the peer's MTU and tells the host that the request is not
    supported. An input report leaves exactly when it fits the interrupt
    channel's MTU with its header, and the host then reads its payload. *)
Theorem bridge_reports channel bs self :
  let '(r, self') := bridge_handle channel bs self in
  self' = self /\ r <> Panic
  /\ (forall events, r = Ok events ->
        (forall c p, BridgeOutput c p ∈ events <-> c = channel /\ Message_from_bytes bs = Ok (MData OUTPUT_REPORT p))
        /\ (forall rsp, BridgeControlResponse rsp ∈ events -> channel = Control /\ len rsp <= bridge_control_mtu self
              /\ host_handle_control rsp = Ok (HostHandshake HANDSHAKE_UNSUPPORTED_REQUEST))
        /\ (forall m, Message_from_bytes bs = Ok m -> channel = Control -> expects_answer m = true ->
              exists before rsp, events = before ++ [BridgeControlResponse rsp]
                /\ forall other, ~ BridgeControlResponse other ∈ before))
  /\ (forall payload, bytes payload ->
        if len payload <? bridge_interrupt_mtu self then
          exists e, encode_input self payload = Ok e /\ host_handle_interrupt e = Ok (HostInterruptData INPUT_REPORT payload)
        else encode_input self payload = Err (BridgePeerMtuExceeded Interrupt (1 + len payload) (bridge_interrupt_mtu self))).
Proof.
  rewrite bridge_handle_reference. split; [done|]. split; [|split].
  - unfold bridge_reference. pose proof (message_decode_no_panic bs). by repeat case_match.
  - intros events Hr. unfold bridge_reference in Hr. destruct (Message_from_bytes bs) as [m|e|]; try done.
    destruct (bool_decide _ && match m with MSetReport _ [] => true | _ => false end); [done|].
    assert (forall c p, Ok (E := HidpError) m = Ok (MData OUTPUT_REPORT p) <-> m = MData OUTPUT_REPORT p) as Hm
      by (intros; split; [by intros [= ->]|by intros ->]).
    destruct (bool_decide (channel = Control) && expects_answer m) eqn:Ha.
    + apply andb_prop in Ha as [Hc%bool_decide_eq_true Ha]. subst channel.
      destruct (Z.ltb_spec (bridge_control_mtu self) 1); [done|].
      assert (application_event Control m ++ [BridgeControlResponse unsupported_answer] = events) as <- by congruence.
      split_and!.
      * intros c p. rewrite elem_of_app, list_elem_of_singleton, Hm, application_output by done. naive_solver.
      * intros rsp Hin. apply elem_of_app in Hin as [Hin|Hin]; [by apply application_silent in Hin|].
        apply list_elem_of_singleton in Hin. injection Hin as ->. split_and!; done.
      * intros m' [= <-] _ _. eexists _, _. split; [done|]. apply application_silent.
    + assert (application_event channel m = events) as <- by congruence. split_and!.
      * intros c p. by rewrite Hm, application_output.
      * intros rsp Hin. by apply application_silent in Hin.
      * intros m' [= <-] -> Hx. by rewrite Hx in Ha.
  - intros payload Hp. destruct (input_report_wire payload Hp) as [Hto Hread].
    unfold encode_input, check_peer_mtu. rewrite Hto. cbn [map_err mbind res_bind]. rewrite len_cons.
    destruct (Z.ltb_spec (len payload) (bridge_interrupt_mtu self)).
    + rewrite (proj2 (Z.ltb_ge _ _)) by lia. eauto.
    + by rewrite (proj2 (Z.ltb_lt _ _)) by lia.
Qed.

(** ** A gamepad *)

Definition sample_config : HidServiceConfig :=
  mkServiceConfig [5; 1; 9; 5; 161; 1; 192]
    (mkPolicy [80; 97; 100] None (Some [83; 87; 66; 84]) (Some 0x0100) 0x0101 0x0111 8 0 true true (Some false)
       0x0100 0x0C80 false true 0x0640 0x0320).

Definition sample_record_bytes : list Z :=
  Eval vm_compute in bytes_or_default (Sequence [list_to_data_element (sort_by_id (build_hid_service_record sample_config))]).

Lemma sample_record_encoding :
  DataElement_to_bytes (Sequence [list_to_data_element (sort_by_id (build_hid_service_record sample_config))])
  = Ok sample_record_bytes.
Proof. vm_compute. reflexivity. Qed.

Lemma hid_record_discovered_witness :
  exists tid', service_search_attribute [uuid16 HID_SERVICE_CLASS_UUID] [AttrRange 0 0xFFFF]
      (mkClient (HidSdpChannel_new sample_config 48) 7)
    = (Ok [sort_by_id (build_hid_service_record sample_config)], mkClient (HidSdpChannel_new sample_config 48) tid').
Proof.
  apply (hid_record_discovered sample_config 48 7 sample_record_bytes); [|lia|lia|exact sample_record_encoding|vm_compute; discriminate].
  unfold service_config_ok. cbn. split_and!; try lia; try by_compute; intros ? [=]; subst; first [lia | by_compute].
Defined.

(** An SDU of a search, one with a byte too many, and one cut short. *)
Definition sample_sdus : list (list Z) :=
  let search := [2; 0; 9; 0; 8; 0x35; 3; 0x19; 0x11; 0x24; 0; 5; 0] in [search; search ++ [0]; [2; 0]].

Lemma sample_channel_good : server_good (server (HidSdpChannel_new sample_config 48)).
Proof. split; [cbn; lia|by_compute|by_compute|done]. Qed.

Lemma sdp_channel_refines_server_witness :
  (serve sample_sdus (HidSdpChannel_new sample_config 48)).1
  = Ok [Some [3; 0; 9; 0; 9; 0; 1; 0; 1; 0; 1; 0; 1; 0]; Some [1; 0; 9; 0; 2; 3; 0]; None]
  /\ exists outs ch', serve sample_sdus (HidSdpChannel_new sample_config 48) = (Ok outs, ch') /\ Forall2 (answered_within 48) sample_sdus outs.
Proof.
  split; [vm_compute; reflexivity|].
  destruct (sdp_channel_refines_server sample_sdus (HidSdpChannel_new sample_config 48) ltac:(by_compute) sample_channel_good)
    as [_ (outs & ch' & Hs & _ & Ha)]. exists outs, ch'. split; [exact Hs|exact Ha].
Defined.
