(* ===== verification/Csr.v ===== *)
(** * CSR vendor commands ([src/src/csr.rs])

    The BCCMD layout of the commands that rewrite a CSR controller's volatile
    address, and of its responses. *)
From S2P Require Import Prelude.

Definition CSR_VENDOR_OPCODE : Z := 0xFC00.
Definition CSR_BCCMD_CHANNEL : Z := 0xC2.
Definition CSR_GETREQ : Z := 0x0000.
Definition CSR_GETRESP : Z := 0x0001.
Definition CSR_SETREQ : Z := 0x0002.
Definition CSR_PSKEY_BDADDR : Z := 0x0001.
Definition CSR_VARID_PS : Z := 0x7003.
Definition CSR_VOLATILE_STORE : Z := 0x0008.
Definition BD_ADDR_VALUE_LENGTH : Z := 8.

Record CsrVendorCommand : Type := mkCsrCommand { csr_op_code : Z; csr_parameters : list Z }.
Record CsrBdAddrRewritePlan : Type := mkPlan { plan_write : CsrVendorCommand; plan_reset : CsrVendorCommand }.
Record CsrBdAddrReadResponse : Type := mkReadResponse { read_response_address : list Z; read_response_status : Z }.

Inductive CsrCodecError : Type := MalformedResponse | NotCsrBccmd | FailedResponse.

#[global] Instance CsrVendorCommand_eq_dec : EqDecision CsrVendorCommand.
Proof. solve_decision. Defined.
#[global] Instance CsrCodecError_eq_dec : EqDecision CsrCodecError.
Proof. solve_decision. Defined.

(** [buffer[k..k + data.len()].copy_from_slice(data)] and [buffer[k] = b] with
    constant positions inside an array. *)
Definition write_at (k : nat) (data buffer : list Z) : list Z :=
  take k buffer ++ data ++ drop (k + length data) buffer.

Definition vendor_command (payload : list Z) : CsrVendorCommand :=
  {| csr_op_code := CSR_VENDOR_OPCODE; csr_parameters := CSR_BCCMD_CHANNEL :: payload |}.

Definition build_csr_bd_addr_read_command (sequence_number : Z) : CsrVendorCommand :=
  let value_words := BD_ADDR_VALUE_LENGTH / 2 in
  let payload_words := value_words + 8 in
  let payload := replicate 24 0 in
  let payload := write_at 0 (to_le_bytes 2 CSR_GETREQ) payload in
  let payload := write_at 2 (to_le_bytes 2 payload_words) payload in
  let payload := write_at 4 (to_le_bytes 2 sequence_number) payload in
  let payload := write_at 6 (to_le_bytes 2 CSR_VARID_PS) payload in
  let payload := write_at 10 (to_le_bytes 2 CSR_PSKEY_BDADDR) payload in
  let payload := write_at 12 (to_le_bytes 2 value_words) payload in
  vendor_command payload.

(** [address] has six bytes, most significant first. *)
Definition build_csr_bd_addr_volatile_rewrite_plan (address : list Z) (sequence_number : Z) : CsrBdAddrRewritePlan :=
  let value_words := BD_ADDR_VALUE_LENGTH / 2 in
  let payload_words := value_words + 8 in
  let write := replicate 24 0 in
  let write := write_at 0 (to_le_bytes 2 CSR_SETREQ) write in
  let write := write_at 2 (to_le_bytes 2 payload_words) write in
  let write := write_at 4 (to_le_bytes 2 sequence_number) write in
  let write := write_at 6 (to_le_bytes 2 CSR_VARID_PS) write in
  let write := write_at 10 (to_le_bytes 2 CSR_PSKEY_BDADDR) write in
  let write := write_at 12 (to_le_bytes 2 value_words) write in
  let write := write_at 14 (to_le_bytes 2 CSR_VOLATILE_STORE) write in
  let reversed := [nth 5 address 0; nth 4 address 0; nth 3 address 0; nth 2 address 0; nth 1 address 0; nth 0 address 0] in
  let write := write_at 16 [nth 2 reversed 0] write in
  let write := write_at 18 [nth 0 reversed 0] write in
  let write := write_at 19 [nth 1 reversed 0] write in
  let write := write_at 20 [nth 3 reversed 0] write in
  let write := write_at 22 [nth 4 reversed 0] write in
  let write := write_at 23 [nth 5 reversed 0] write in
  let reset := replicate 18 0 in
  let reset := write_at 0 (to_le_bytes 2 CSR_SETREQ) reset in
  let reset := write_at 2 (to_le_bytes 2 9) reset in
  let reset := write_at 6 [0x02] reset in
  let reset := write_at 7 [0x40] reset in
  {| plan_write := vendor_command write; plan_reset := vendor_command reset |}.

Definition matches_csr_vendor_response {E} (command : CsrVendorCommand) (event_parameters : list Z) : res E bool :=
  let parameters := csr_parameters command in
  if (len parameters <? 9) || (len event_parameters <? 9) then Ok false else
  p1 ← idx parameters 1;
  p2 ← idx parameters 2;
  let request_type := from_le_bytes [p1; p2] in
  if negb ((request_type =? CSR_GETREQ) || (request_type =? CSR_SETREQ)) then Ok false else
  e0 ← idx event_parameters 0;
  if negb (e0 =? CSR_BCCMD_CHANNEL) then Ok false else
  e1 ← idx event_parameters 1;
  e2 ← idx event_parameters 2;
  if negb (from_le_bytes [e1; e2] =? CSR_GETRESP) then Ok false else
  es ← slice event_parameters 5 7;
  ps ← slice parameters 5 7;
  if negb (bool_decide (es = ps)) then Ok false else
  ev ← slice event_parameters 7 9;
  pv ← slice parameters 7 9;
  Ok (bool_decide (ev = pv)).

Definition parse_csr_bccmd_response (event_parameters : list Z) : res CsrCodecError Z :=
  if len event_parameters <? 11 then Err MalformedResponse else
  e0 ← idx event_parameters 0;
  if negb (e0 =? CSR_BCCMD_CHANNEL) then Err NotCsrBccmd else
  e9 ← idx event_parameters 9;
  e10 ← idx event_parameters 10;
  Ok (from_le_bytes [e9; e10]).

Definition parse_csr_bd_addr_read_response (event_parameters : list Z) : res CsrCodecError CsrBdAddrReadResponse :=
  let minimum_length := 17 + BD_ADDR_VALUE_LENGTH in
  if len event_parameters <? minimum_length then Err MalformedResponse else
  status ← parse_csr_bccmd_response event_parameters;
  if negb (status =? 0) then Err FailedResponse else
  raw ← slice event_parameters 17 (Z.to_nat minimum_length);
  r7 ← idx raw 7; r6 ← idx raw 6; r4 ← idx raw 4; r0 ← idx raw 0; r3 ← idx raw 3; r2 ← idx raw 2;
  Ok {| read_response_address := [r7; r6; r4; r0; r3; r2]; read_response_status := status |}.

(** ** The controller's side *)

(** A controller's response to a command: the type becomes [GETRESP] and the
    status words are filled in; header, keys and value are those of the
    command. *)
Definition controller_response (status : Z) (value : list Z) (command : CsrVendorCommand) : list Z :=
  let p := csr_parameters command in
  take 1 p ++ to_le_bytes 2 CSR_GETRESP ++ take 6 (drop 3 p) ++ to_le_bytes 2 status ++ take 6 (drop 11 p) ++ value.

(** The value words a write carries. *)
Definition written_value (plan : CsrBdAddrRewritePlan) : list Z := drop 17 (csr_parameters (plan_write plan)).

Lemma rewrite_layout a0 a1 a2 a3 a4 a5 seq :
  plan_write (build_csr_bd_addr_volatile_rewrite_plan [a0; a1; a2; a3; a4; a5] seq)
  = mkCsrCommand CSR_VENDOR_OPCODE
      ([0xC2; 0x02; 0x00; 0x0C; 0x00; seq mod 256; seq / 256 mod 256; 0x03; 0x70; 0x00; 0x00; 0x01; 0x00; 0x04; 0x00;
        0x08; 0x00] ++ [a3; 0x00; a5; a4; a2; 0x00; a1; a0]).
Proof. reflexivity. Qed.

Lemma read_layout seq :
  build_csr_bd_addr_read_command seq
  = mkCsrCommand CSR_VENDOR_OPCODE
      ([0xC2; 0x00; 0x00; 0x0C; 0x00; seq mod 256; seq / 256 mod 256; 0x03; 0x70; 0x00; 0x00; 0x01; 0x00; 0x04; 0x00]
       ++ replicate 10 0).
Proof. reflexivity. Qed.

(** The address layout: for every address and sequence number, the value
    words of the rewrite command are those from which the read response of a
    controller gives back exactly that address; the controller's response to
    either command is recognised and carries its status, and a response to a
    command of another sequence number is not taken for it. *)
Theorem csr_address_roundtrip a0 a1 a2 a3 a4 a5 seq seq' status :
  u16 seq -> u16 seq' -> u16 status ->
  let address := [a0; a1; a2; a3; a4; a5] in
  let plan := build_csr_bd_addr_volatile_rewrite_plan address seq in
  let read := build_csr_bd_addr_read_command seq' in
  parse_csr_bd_addr_read_response (controller_response 0 (written_value plan) read)
    = Ok (mkReadResponse address 0)
  /\ matches_csr_vendor_response (E := unit) (plan_write plan)
       (controller_response status (written_value plan) (plan_write plan)) = Ok true
  /\ parse_csr_bccmd_response (controller_response status (written_value plan) (plan_write plan)) = Ok status
  /\ matches_csr_vendor_response (E := unit) (plan_write plan) (controller_response status (written_value plan) read)
     = Ok (seq =? seq').
Proof.
  intros Hs Hs' Hst address plan read.
  assert (forall x, u16 x -> from_le_bytes [x mod 256; x / 256 mod 256] = x) as Hrt by (intros; by apply u16_le_roundtrip).
  unfold written_value, plan, read, address. rewrite rewrite_layout, read_layout. split_and!.
  - reflexivity.
  - unfold matches_csr_vendor_response. lazy -[Z.modulo Z.div bool_decide from_le_bytes].
    by rewrite !bool_decide_eq_true_2.
  - exact (f_equal Ok (Hrt status Hst)).
  - unfold matches_csr_vendor_response. lazy -[Z.modulo Z.div bool_decide from_le_bytes Z.eqb].
    destruct (Z.eqb_spec seq seq') as [->|Hne]; [by rewrite !bool_decide_eq_true_2|].
    rewrite (bool_decide_eq_false_2 ([_; _] = [_; _])); [done|]. intros [= H1 H2]. apply Hne.
    rewrite <- (Hrt seq), <- (Hrt seq') by done. by rewrite H1, H2.
Qed.

Lemma csr_address_roundtrip_witness :
  parse_csr_bd_addr_read_response
    (controller_response 0 (written_value (build_csr_bd_addr_volatile_rewrite_plan [0x02; 0x12; 0x34; 0x56; 0x78; 0x9A] 0x4711))
       (build_csr_bd_addr_read_command 0x4711))
  = Ok (mkReadResponse [0x02; 0x12; 0x34; 0x56; 0x78; 0x9A] 0).
Proof. exact (proj1 (csr_address_roundtrip 0x02 0x12 0x34 0x56 0x78 0x9A 0x4711 0x4711 0 ltac:(lia) ltac:(lia) ltac:(lia))). Defined.
