(* ===== verification/Identity.v ===== *)
(** * Preparation of the adapter's identity ([src/src/identity.rs])

    The rewrite of a controller's address as one fail-closed operation over
    the two traits of the source, here the class [IdentityBackend]: a world
    [W] (the adapter and the clock), sessions on it, and their methods. The
    polling loop runs on fuel; under the laws of a clock the fuel of
    [enough_fuel] is never used up. *)
From S2P Require Import Prelude Csr.

Definition CSR_COMPANY_IDENTIFIER : Z := 10.

(** Durations are nanoseconds; the greatest one is [Duration::MAX]. *)
Definition DURATION_MAX : Z := 2 ^ 64 * 1000000000 - 1.
Definition from_millis (ms : Z) : Z := ms * 1000000.
Definition from_secs (s : Z) : Z := s * 1000000000.
Definition duration_saturating_add (a b : Z) : Z := Z.min DURATION_MAX (a + b).

(** [AdapterIdentityBackend] and [AdapterIdentitySession]: a session is a value
    of [H], its state is part of the world. *)
Class IdentityBackend (W H E : Type) : Type := {
  ib_open : stm W E H;
  ib_now : W -> Z;
  ib_sleep : Z -> W -> W;
  ib_initialize : H -> Z -> stm W E Z;
  ib_read_address : H -> Z -> stm W E (list Z);
  ib_send_vendor_command : H -> CsrVendorCommand -> Z -> stm W E (list Z);
  ib_send_command_without_response : H -> CsrVendorCommand -> stm W E unit;
  ib_close : H -> stm W E unit
}.

Record IdentityPreparationOptions : Type := mkIdentityOptions {
  response_timeout : Z;
  reenumeration_timeout : Z;
  reenumeration_poll_interval : Z
}.

Inductive AdapterIdentityPreparation : Type := AlreadyActive | Rewritten.

Inductive IdentityPreparationErrorKind : Type := IdUnsupportedController | FailedBeforeWrite | RecoveryRequired.

Inductive IdentityPreparationStage : Type :=
  StageOpen | StageInitialize | StageReadCurrent | StageWrite | StageClose | StageReenumeration | StageReadback.

Record IdentityPreparationError : Type := mkIdentityError {
  identity_error_kind : IdentityPreparationErrorKind;
  identity_error_stage : IdentityPreparationStage
}.

#[global] Instance AdapterIdentityPreparation_eq_dec : EqDecision AdapterIdentityPreparation.
Proof. solve_decision. Defined.
#[global] Instance IdentityPreparationErrorKind_eq_dec : EqDecision IdentityPreparationErrorKind.
Proof. solve_decision. Defined.
#[global] Instance IdentityPreparationStage_eq_dec : EqDecision IdentityPreparationStage.
Proof. solve_decision. Defined.
#[global] Instance IdentityPreparationError_eq_dec : EqDecision IdentityPreparationError.
Proof. solve_decision. Defined.

(** The cause is dropped. *)
Definition without_source (kind : IdentityPreparationErrorKind) (stage : IdentityPreparationStage)
  : IdentityPreparationError := mkIdentityError kind stage.
Definition with_source {E} (kind : IdentityPreparationErrorKind) (stage : IdentityPreparationStage) (source : E)
  : IdentityPreparationError := mkIdentityError kind stage.
Definition recovery_without_source (stage : IdentityPreparationStage) : IdentityPreparationError :=
  without_source RecoveryRequired stage.
Definition recovery_with_source {E} (stage : IdentityPreparationStage) (source : E) : IdentityPreparationError :=
  with_source RecoveryRequired stage source.

Section identity.
Context {W H E : Type} `{IdentityBackend W H E}.

Abbreviation prep := (stm W IdentityPreparationError).

(** A call whose error is mapped. *)
Definition mapped {A} (f : E -> IdentityPreparationError) (m : stm W E A) : prep A := fun w =>
  let '(r, w') := m w in (map_err f r, w').

(** [let _ = call;] *)
Definition ignored {A} (m : stm W E A) : prep unit := fun w =>
  let '(r, w') := m w in (match r with Panic => Panic | _ => Ok tt end, w').

(** [match call { Ok(x) => x, Err(source) => { let _ = session.close(); return Err(error) } }] *)
Definition or_close {A} (session : H) (f : E -> IdentityPreparationError) (m : stm W E A) : prep A := fun w =>
  match m w with
  | (Ok a, w') => (Ok a, w')
  | (Err source, w') => (ignored (ib_close session) ;; throw (f source)) w'
  | (Panic, w') => (Panic, w')
  end.

(** Up to the warm reset: [None] when the rewrite went out. *)
Definition rewrite_identity (target : list Z) (options : IdentityPreparationOptions)
  : prep (option AdapterIdentityPreparation) :=
  session ← mapped (with_source FailedBeforeWrite StageOpen) ib_open;
  company_identifier ← or_close session (with_source FailedBeforeWrite StageInitialize)
                         (ib_initialize session (response_timeout options));
  if negb (company_identifier =? CSR_COMPANY_IDENTIFIER) then
    ignored (ib_close session) ;;
    throw (without_source IdUnsupportedController StageInitialize)
  else
  current ← or_close session (with_source FailedBeforeWrite StageReadCurrent)
              (ib_read_address session (response_timeout options));
  if bool_decide (current = target) then
    mapped (with_source FailedBeforeWrite StageClose) (ib_close session) ;;
    mret (Some AlreadyActive)
  else
  let rewrite := build_csr_bd_addr_volatile_rewrite_plan target 0x4711 in
  response ← or_close session (recovery_with_source StageWrite)
               (ib_send_vendor_command session (plan_write rewrite) (response_timeout options));
  (match (status ← parse_csr_bccmd_response response; if status =? 0 then Ok tt else Err FailedResponse) with
   | Ok _ => skip
   | Err source => ignored (ib_close session) ;; throw (recovery_with_source StageWrite source)
   | Panic => lift Panic
   end) ;;
  ignored (ib_send_command_without_response session (plan_reset rewrite)) ;;
  ignored (ib_close session) ;;
  mret None.

(** One round of the polling loop: [None] to go on. *)
Definition poll_reenumeration (deadline poll_interval : Z) : prep (option H) := fun w =>
  let w := ib_sleep poll_interval w in
  match ib_open w with
  | (Ok session, w') => (Ok (Some session), w')
  | (Err source, w') =>
      if ib_now w' <? deadline then (Ok None, w')
      else (Err (recovery_with_source StageReenumeration source), w')
  | (Panic, w') => (Panic, w')
  end.

(** [None] when the fuel runs out. *)
Fixpoint reenumeration_loop (fuel : nat) (deadline poll_interval : Z) (w : W)
  : option (res IdentityPreparationError H * W) :=
  match fuel with
  | O => None
  | S fuel' =>
      match poll_reenumeration deadline poll_interval w with
      | (Ok (Some session), w') => Some (Ok session, w')
      | (Ok None, w') => reenumeration_loop fuel' deadline poll_interval w'
      | (Err e, w') => Some (Err e, w')
      | (Panic, w') => Some (Panic, w')
      end
  end.

Definition open_reenumerated_session (fuel : nat) (options : IdentityPreparationOptions) (w : W)
  : option (res IdentityPreparationError H * W) :=
  let deadline := duration_saturating_add (ib_now w) (reenumeration_timeout options) in
  let poll_interval := Z.max (reenumeration_poll_interval options) (from_millis 1) in
  reenumeration_loop fuel deadline poll_interval w.

(** After the re-enumeration. *)
Definition read_back (readback : H) (target : list Z) (options : IdentityPreparationOptions)
  : prep AdapterIdentityPreparation :=
  readback_company ← or_close readback (recovery_with_source StageReadback)
                       (ib_initialize readback (response_timeout options));
  if negb (readback_company =? CSR_COMPANY_IDENTIFIER) then
    ignored (ib_close readback) ;;
    throw (recovery_without_source StageReadback)
  else
  readback_address ← or_close readback (recovery_with_source StageReadback)
                       (ib_read_address readback (response_timeout options));
  mapped (recovery_with_source StageClose) (ib_close readback) ;;
  if bool_decide (readback_address = target) then mret Rewritten
  else throw (recovery_without_source StageReadback).

Definition prepare_adapter_identity (fuel : nat) (target : list Z) (options : IdentityPreparationOptions) (w : W)
  : option (res IdentityPreparationError AdapterIdentityPreparation * W) :=
  match rewrite_identity target options w with
  | (Ok (Some done), w') => Some (Ok done, w')
  | (Err e, w') => Some (Err e, w')
  | (Panic, w') => Some (Panic, w')
  | (Ok None, w') =>
      match open_reenumerated_session fuel options w' with
      | Some (Ok readback, w'') => Some (read_back readback target options w'')
      | Some (Err e, w'') => Some (Err e, w'')
      | Some (Panic, w'') => Some (Panic, w'')
      | None => None
      end
  end.
End identity.

(** ** Termination *)

(** What the loop relies on: a clock that does not go back, and a sleep that
    lasts at least as long as asked. *)
Class ClockLaws (W H E : Type) `{IdentityBackend W H E} : Prop := {
  sleep_advances d w : 0 <= d -> ib_now w + d <= ib_now (ib_sleep d w);
  open_keeps_time w : ib_now w <= ib_now (ib_open w).2
}.

Definition enough_fuel (options : IdentityPreparationOptions) : nat :=
  S (Z.to_nat (reenumeration_timeout options / Z.max (reenumeration_poll_interval options) (from_millis 1)) + 1).

Section termination.
Context {W H E : Type} `{L : ClockLaws W H E}.

Lemma loop_returns fuel deadline interval : 0 < interval -> forall w,
  deadline <= ib_now w + Z.of_nat fuel * interval -> is_Some (reenumeration_loop (S fuel) deadline interval w).
Proof.
  intros Hi. induction fuel as [|fuel IH]; intros w Hd; cbn [reenumeration_loop]; unfold poll_reenumeration.
  all: pose proof (sleep_advances interval w ltac:(lia)) as Hs.
  all: pose proof (open_keeps_time (ib_sleep interval w)) as Ho.
  all: destruct (ib_open (ib_sleep interval w)) as [[s|e|] w']; cbn [snd] in Ho; try done.
  all: destruct (Z.ltb_spec (ib_now w') deadline) as [Hlt|Hge]; try done.
  - lia.
  - apply IH. lia.
Qed.

Lemma loop_more_fuel fuel deadline interval : forall k w r,
  reenumeration_loop fuel deadline interval w = Some r -> reenumeration_loop (fuel + k) deadline interval w = Some r.
Proof.
  induction fuel as [|fuel IH]; intros k w r Hr; [done|]. cbn [reenumeration_loop Nat.add] in *.
  destruct (poll_reenumeration deadline interval w) as [[[s|]|e|] w']; try done. by apply IH.
Qed.

(** C33. The identity preparation ends: with a clock that does not go back, it
    returns a result within the rounds that fit the re-enumeration timeout,
    whatever the adapter does, and more rounds do not change it. *)
Theorem identity_preparation_ends target options w : 0 <= reenumeration_timeout options ->
  exists r, forall fuel, (enough_fuel options <= fuel)%nat -> prepare_adapter_identity fuel target options w = Some r.
Proof.
  intros Ht. unfold prepare_adapter_identity.
  destruct (rewrite_identity target options w) as [[[d|]|e|] w']; try (by eexists).
  unfold open_reenumerated_session, enough_fuel.
  set (interval := Z.max (reenumeration_poll_interval options) (from_millis 1)).
  set (deadline := duration_saturating_add (ib_now w') (reenumeration_timeout options)).
  assert (0 < interval) as Hi by (unfold interval, from_millis; lia).
  destruct (loop_returns (Z.to_nat (reenumeration_timeout options / interval) + 1) deadline interval Hi w') as [r Hr].
  { unfold deadline, duration_saturating_add. pose proof (Z.div_mod (reenumeration_timeout options) interval).
    pose proof (Z.mod_pos_bound (reenumeration_timeout options) interval Hi).
    pose proof (Z.div_pos (reenumeration_timeout options) interval Ht Hi). lia. }
  assert (forall fuel, (S (Z.to_nat (reenumeration_timeout options / interval) + 1) <= fuel)%nat ->
    reenumeration_loop fuel deadline interval w' = Some r) as Hmore.
  { intros fuel Hf. pose proof (loop_more_fuel _ _ _ (fuel - S (Z.to_nat (reenumeration_timeout options / interval) + 1)) _ _ Hr) as Hm.
  replace (S (Z.to_nat (reenumeration_timeout options / interval) + 1)
    + (fuel - S (Z.to_nat (reenumeration_timeout options / interval) + 1)))%nat with fuel in Hm by lia.
    exact Hm. }
  destruct r as [[s|e|] w'']; eexists; intros fuel Hf; rewrite Hmore by done; reflexivity.
Qed.
End termination.

(** ** What the adapter went through *)

Inductive id_op : Type :=
| OpOpen (opened : bool)
| OpInitialize
| OpRead (address : option (list Z))
| OpWrite (command : CsrVendorCommand)
| OpReset (command : CsrVendorCommand)
| OpClose.

Definition res_to_option {E A} (r : res E A) : option A := match r with Ok a => Some a | _ => None end.

Section trace.
Context {W H E : Type} `{B : IdentityBackend W H E}.

Definition logged {A} (op : res E A -> id_op) (m : stm W E A) : stm (W * list id_op) E A := fun '(w, log) =>
  let '(r, w') := m w in (r, (w', log ++ [op r])).

(** The same backend, with a log of the calls. *)
#[global] Instance traced : IdentityBackend (W * list id_op) H E := {
  ib_open := logged (fun r => OpOpen (is_ok r)) ib_open;
  ib_now w := ib_now w.1;
  ib_sleep d w := (ib_sleep d w.1, w.2);
  ib_initialize h t := logged (fun _ => OpInitialize) (ib_initialize h t);
  ib_read_address h t := logged (fun r => OpRead (res_to_option r)) (ib_read_address h t);
  ib_send_vendor_command h c t := logged (fun _ => OpWrite c) (ib_send_vendor_command h c t);
  ib_send_command_without_response h c := logged (fun _ => OpReset c) (ib_send_command_without_response h c);
  ib_close h := logged (fun _ => OpClose) (ib_close h)
}.
End trace.

Definition writes (log : list id_op) : list CsrVendorCommand :=
  omap (fun op => match op with OpWrite c => Some c | _ => None end) log.

(** Every session that was opened is closed, once and last; [open] says
    whether one is open at the start. *)
Fixpoint sessions_closed (open : bool) (log : list id_op) : bool :=
  match log with
  | [] => negb open
  | OpOpen b :: rest => negb open && sessions_closed b rest
  | OpClose :: rest => open && sessions_closed false rest
  | _ :: rest => open && sessions_closed open rest
  end.

(** A run that ends with the target read back from the adapter. *)
Definition ends_reading (target : list Z) (log : list id_op) : Prop :=
  exists before, log = before ++ [OpRead (Some target); OpClose].

Definition identity_outcome_ok (target : list Z) (r : res IdentityPreparationError AdapterIdentityPreparation)
  (log : list id_op) : Prop :=
  match r with
  | Ok AlreadyActive => sessions_closed false log = true /\ writes log = [] /\ ends_reading target log
  | Ok Rewritten =>
      sessions_closed false log = true /\ ends_reading target log
      /\ writes log = [plan_write (build_csr_bd_addr_volatile_rewrite_plan target 0x4711)]
  | Err e =>
      sessions_closed false log = true
      /\ (identity_error_kind e = RecoveryRequired <-> writes log <> [])
  | Panic => True
  end.

Section fail_closed.
Context {W H E : Type} `{B : IdentityBackend W H E}.

(** The bytes of the plan do not matter here. *)
#[local] Arguments build_csr_bd_addr_volatile_rewrite_plan : simpl never.

(** A traced computation does what the plain one does, and logs [log]. *)
Definition traces {A} (plain : stm W IdentityPreparationError A) (logging : stm (W * list id_op) IdentityPreparationError A)
  (P : res IdentityPreparationError A -> list id_op -> Prop) : Prop :=
  forall w l0, exists log, logging (w, l0) = ((plain w).1, ((plain w).2, l0 ++ log)) /\ P (plain w).1 log.

Definition rewrite_outcome_ok (target : list Z) (r : res IdentityPreparationError (option AdapterIdentityPreparation))
  (log : list id_op) : Prop :=
  match r with
  | Ok (Some d) => d = AlreadyActive /\ identity_outcome_ok target (Ok d) log
  | Ok None => sessions_closed false log = true
      /\ writes log = [plan_write (build_csr_bd_addr_volatile_rewrite_plan target 0x4711)]
  | Err e => identity_outcome_ok target (Err e) log
  | Panic => True
  end.

Ltac log_done :=
  eexists; split; [rewrite <- ?app_assoc; reflexivity|];
  try done; repeat split; try done; try (by exists [OpOpen true; OpInitialize]).

(** The session is closed on the way out. *)
Ltac closing s := match goal with |- context [ib_close s ?w] => destruct (ib_close s w) as [[[]|?|] ?] end; cbn; log_done.

Lemma rewrite_traced target options :
  traces (rewrite_identity target options) (rewrite_identity (W := W * list id_op) target options) (rewrite_outcome_ok target).
Proof.
  intros w l0. unfold rewrite_identity, mapped, or_close, ignored, mbind, stm_bind, mret, stm_ret, throw, lift, skip.
  cbn [ib_open ib_initialize ib_read_address ib_send_vendor_command ib_send_command_without_response ib_close traced].
  unfold logged.
  destruct (ib_open w) as [[s|e|] w1]; cbn [map_err is_ok]; [|log_done|log_done].
  destruct (ib_initialize s _ w1) as [[cid|e|] w2]; cbn [map_err is_ok]; [|closing s|log_done].
  destruct (negb (cid =? CSR_COMPANY_IDENTIFIER)); [closing s|].
  destruct (ib_read_address s _ w2) as [[current|e|] w3]; cbn [map_err res_to_option]; [|closing s|log_done].
  destruct (bool_decide_reflect (current = target)) as [->|Hne]; [closing s|].
  set (plan := build_csr_bd_addr_volatile_rewrite_plan target 0x4711).
  destruct (ib_send_vendor_command s _ _ w3) as [[response|e|] w4]; [|closing s|log_done].
  match goal with |- context [match ?m with Ok _ => _ | Err _ => _ | Panic => _ end (_, _)] => destruct m as [[]|err|] end;
    [|closing s|log_done].
  destruct (ib_send_command_without_response s _ w4) as [[[]|e|] w5]; [closing s|closing s|log_done].
Qed.

Lemma loop_traced fuel deadline interval : forall w l0,
  match reenumeration_loop fuel deadline interval w with
  | None => reenumeration_loop (W := W * list id_op) fuel deadline interval (w, l0) = None
  | Some (r, w') => exists log, reenumeration_loop fuel deadline interval (w, l0) = Some (r, (w', l0 ++ log))
      /\ writes log = [] /\ (forall rest, sessions_closed false (log ++ rest) = sessions_closed (is_ok r) rest)
      /\ (forall e, r = Err e -> identity_error_kind e = RecoveryRequired)
  end.
Proof.
  induction fuel as [|fuel IH]; intros w l0; [done|]. cbn [reenumeration_loop]. unfold poll_reenumeration.
  cbn [ib_open ib_now ib_sleep traced fst snd]. unfold logged.
  destruct (ib_open (ib_sleep interval w)) as [[s|e|] w1]; cbn [is_ok fst].
  - exists [OpOpen true]. split_and!; try done.
  - destruct (ib_now w1 <? deadline).
    + specialize (IH w1 (l0 ++ [OpOpen false])). destruct (reenumeration_loop fuel deadline interval w1) as [[r w2]|]; [|done].
      destruct IH as (log & Heq & Hw & Hc & He). exists ([OpOpen false] ++ log). rewrite app_assoc. split_and!; try done.
    + exists [OpOpen false]. split_and!; try done. by intros e' [= <-].
  - exists [OpOpen false]. split_and!; try done.
Qed.

Lemma read_back_traced s target options :
  traces (read_back s target options) (read_back (W := W * list id_op) s target options) (fun r log =>
    writes log = [] /\ match r with
      | Ok d => d = Rewritten /\ sessions_closed true log = true /\ ends_reading target log
      | Err e => sessions_closed true log = true /\ identity_error_kind e = RecoveryRequired
      | Panic => True
      end).
Proof.
  intros w l0. unfold read_back, mapped, or_close, ignored, mbind, stm_bind, mret, stm_ret, throw.
  cbn [ib_initialize ib_read_address ib_close traced]. unfold logged.
  destruct (ib_initialize s _ w) as [[cid|e|] w1]; [|closing s|log_done].
  destruct (negb (cid =? CSR_COMPANY_IDENTIFIER)); [closing s|].
  destruct (ib_read_address s _ w1) as [[current|e|] w2]; cbn [res_to_option]; [|closing s|log_done].
  destruct (ib_close s w2) as [[[]|e|] w3]; cbn [map_err]; [|log_done|log_done].
  destruct (bool_decide_reflect (current = target)) as [->|Hne]; [|log_done].
  eexists. split; [rewrite <- ?app_assoc; reflexivity|]. split; [done|]. split; [done|]. split; [done|].
  by exists [OpInitialize].
Qed.

Lemma sessions_closed_then log : forall open rest, sessions_closed open log = true ->
  sessions_closed open (log ++ rest) = sessions_closed false rest.
Proof.
  induction log as [|op log IH]; intros open rest Hc; cbn in *; [by destruct open|].
  destruct op; apply andb_prop in Hc as [-> Hc]; cbn; auto.
Qed.

(** C19. The preparation fails closed: whatever the adapter answers, every
    session it opens is closed before it returns; success means that the last
    address the adapter reported is the target, with no write at all when the
    address was active already and exactly the one rewrite command otherwise;
    and an error asks for recovery exactly when a write had been sent. *)
Theorem identity_preparation_fails_closed fuel target options (w : W) r w' :
  prepare_adapter_identity fuel target options w = Some (r, w') ->
  exists log, prepare_adapter_identity fuel target options (w, []) = Some (r, (w', log)) /\ identity_outcome_ok target r log.
Proof.
  unfold prepare_adapter_identity. destruct (rewrite_traced target options w []) as (log1 & -> & Hok).
  destruct (rewrite_identity target options w) as [[[d|]|e|] w1]; cbn [fst snd app] in *.
  1,3,4: intros [= <- <-]; exists log1; by destruct Hok.
  unfold open_reenumerated_session. cbn [ib_now traced fst].
  pose proof (loop_traced fuel (duration_saturating_add (ib_now w1) (reenumeration_timeout options))
    (Z.max (reenumeration_poll_interval options) (from_millis 1)) w1 log1) as Hloop.
  destruct (reenumeration_loop fuel _ _ w1) as [[[s|e|] w2]|]; [| | |done].
  all: destruct Hloop as (log2 & -> & Hw2 & Hc2 & He2); destruct Hok as [Hc1 Hw1].
  - destruct (read_back_traced s target options w2 (log1 ++ log2)) as (log3 & -> & Hw3 & H3).
    destruct (read_back s target options w2) as [r3 w3]. cbn [fst snd] in *. intros [= <- <-].
    eexists. split; [done|]. rewrite <- app_assoc.
    assert (forall r', sessions_closed true log3 = r' -> sessions_closed false (log1 ++ log2 ++ log3) = r') as Hc
      by (intros r' <-; by rewrite sessions_closed_then, Hc2).
    unfold identity_outcome_ok, writes. rewrite !omap_app. fold (writes log1) (writes log2) (writes log3). rewrite Hw1, Hw2, Hw3.
    destruct r3 as [d|e|]; [destruct H3 as (-> & H3 & before & ->)|destruct H3 as [H3 Hk]|done].
    + split_and!; [auto| |done]. by exists (log1 ++ log2 ++ before); rewrite <- !app_assoc.
    + split; [auto|]. by rewrite Hk.
  - intros [= <- <-]. eexists. split; [done|]. unfold identity_outcome_ok, writes. rewrite omap_app.
    fold (writes log1) (writes log2). rewrite Hw1, Hw2. split; [|by rewrite (He2 e)].
    specialize (Hc2 []). rewrite app_nil_r in Hc2. by rewrite sessions_closed_then, Hc2.
  - intros [= <- <-]. by eexists.
Qed.
End fail_closed.

(** ** A CSR adapter *)

(** It takes the written value words as its address, is away for two polls
    after a warm reset, and its clock only moves in [sleep]. *)
Record csr_adapter : Type := mkAdapter { ad_clock : Z; ad_address : list Z; ad_away : nat }.

Definition address_of_value (v : list Z) : list Z :=
  [nth 7 v 0; nth 6 v 0; nth 4 v 0; nth 0 v 0; nth 3 v 0; nth 2 v 0].

#[local] Instance csr_adapter_backend : IdentityBackend csr_adapter unit unit := {
  ib_open a := match ad_away a with
               | O => (Ok tt, a)
               | S n => (Err tt, mkAdapter (ad_clock a) (ad_address a) n)
               end;
  ib_now := ad_clock;
  ib_sleep d a := mkAdapter (ad_clock a + d) (ad_address a) (ad_away a);
  ib_initialize _ _ a := (Ok CSR_COMPANY_IDENTIFIER, a);
  ib_read_address _ _ a := (Ok (ad_address a), a);
  ib_send_vendor_command _ c _ a :=
    let v := drop 17 (csr_parameters c) in
    (Ok (controller_response 0 v c), mkAdapter (ad_clock a) (address_of_value v) (ad_away a));
  ib_send_command_without_response _ _ a := (Ok tt, mkAdapter (ad_clock a) (ad_address a) 2);
  ib_close _ a := (Ok tt, a)
}.

#[local] Instance csr_adapter_laws : ClockLaws csr_adapter unit unit.
Proof. split; [intros d a Hd; cbn; lia|]. intros a. cbn. destruct (ad_away a); cbn; lia. Qed.

Definition sample_options : IdentityPreparationOptions := mkIdentityOptions (from_secs 5) (from_secs 10) (from_millis 100).
Definition fresh_adapter : csr_adapter := mkAdapter 0 [0x00; 0x1B; 0xDC; 0xF9; 0x9F; 0x7D] 0.

Lemma identity_preparation_ends_witness :
  exists r, prepare_adapter_identity (W := csr_adapter) (enough_fuel sample_options) [2; 18; 52; 86; 120; 154] sample_options
    fresh_adapter = Some r.
Proof.
  destruct (identity_preparation_ends (W := csr_adapter) [2; 18; 52; 86; 120; 154] sample_options fresh_adapter) as [r Hr];
    [vm_compute; discriminate|]. exists r. apply Hr. lia.
Defined.

Lemma rewritten_run : prepare_adapter_identity (W := csr_adapter) 5 [2; 18; 52; 86; 120; 154] sample_options fresh_adapter
  = Some (Ok Rewritten, mkAdapter (from_millis 300) [2; 18; 52; 86; 120; 154] 0).
Proof. vm_compute. reflexivity. Qed.

Lemma identity_preparation_fails_closed_witness :
  exists log, prepare_adapter_identity (W := csr_adapter * list id_op) 5 [2; 18; 52; 86; 120; 154] sample_options (fresh_adapter, [])
    = Some (Ok Rewritten, (mkAdapter (from_millis 300) [2; 18; 52; 86; 120; 154] 0, log))
    /\ identity_outcome_ok [2; 18; 52; 86; 120; 154] (Ok Rewritten) log.
Proof. exact (identity_preparation_fails_closed 5 [2; 18; 52; 86; 120; 154] sample_options fresh_adapter _ _ rewritten_run). Defined.
