(* ===== verification/Usb.v ===== *)
(** * USB transport ([src/src/usb.rs])

    The adapter selector, the choice of interface and device, the framing of
    HCI packets on transfers, the writer, and the reader thread with its
    channel. The USB library is a parameter: transfers are the class [UsbIo]
    (the source's trait), devices and handles the class [Rusb]. *)
From S2P Require Import Prelude Values Hci.

Definition USB_DEVICE_CLASS_DEVICE : Z := 0x00.
Definition USB_DEVICE_CLASS_WIRELESS_CONTROLLER : Z := 0xE0.
Definition USB_DEVICE_SUBCLASS_RF_CONTROLLER : Z := 0x01.
Definition USB_DEVICE_PROTOCOL_BLUETOOTH_PRIMARY_CONTROLLER : Z := 0x01.
Definition MAX_HCI_PACKET_SIZE : Z := 4096.
Definition READ_TIMEOUT : Z := 10000000.
Definition WRITE_TIMEOUT : Z := 1000000000.

(** ** Errors *)

Inductive UsbTransferError : Type :=
| TransferTimeout
| TransferDisconnected
| TransferAccess
| TransferOther (message : string).

(** [rusb::Error], as far as the code distinguishes its values. *)
Inductive RusbError : Type := RusbTimeout | RusbNoDevice | RusbAccess | RusbNotSupported | RusbOther (message : string).

Inductive UsbError : Type :=
| InvalidSelector
| DeviceNotFound
| NoHciInterface
| UsbTransfer (e : UsbTransferError)
| UsbCodec (e : CodecError)
| PartialWrite (expected actual : Z)
| PacketTooLarge (declared maximum : Z)
| UsbClosed
| UsbRusb (e : RusbError)
| ReaderPanicked.

(** ** Numbers in text

    [from_str_radix] and [parse] of an unsigned type with the given maximum:
    an optional plus sign and at least one digit. *)
Definition MINUS : Z := 45.
Definition DOT : Z := 46.
Definition HASH : Z := 35.
Definition USIZE_MAX : Z := 2 ^ 64 - 1.

Definition to_digit (radix c : Z) : option Z :=
  d ← hex_digit c; if d <? radix then Some d else None.

Fixpoint digits_value (radix max acc : Z) (s : list Z) : option Z :=
  match s with
  | [] => Some acc
  | c :: rest =>
      d ← to_digit radix c;
      if max <? acc * radix + d then None else digits_value radix max (acc * radix + d) rest
  end.

Definition from_str_radix (radix max : Z) (s : list Z) : option Z :=
  match s with
  | [] => None
  | [c] => if (c =? PLUS) || (c =? MINUS) then None else digits_value radix max 0 s
  | c :: rest => digits_value radix max 0 (if c =? PLUS then rest else s)
  end.

(** ** Pieces of text *)

(** [s.split_once(c)] *)
Fixpoint split_once (c : Z) (s : list Z) : option (list Z * list Z) :=
  match s with
  | [] => None
  | x :: rest =>
      if x =? c then Some ([], rest)
      else '(before, after) ← split_once c rest; Some (x :: before, after)
  end.

(** [s.split(c)] *)
Fixpoint split_on (c : Z) (s : list Z) : list (list Z) :=
  match s with
  | [] => [[]]
  | x :: rest =>
      if x =? c then [] :: split_on c rest
      else match split_on c rest with
           | [] => [[x]]
           | first :: others => (x :: first) :: others
           end
  end.

Definition USB_PREFIX : list Z := [117; 115; 98; 58].

(** [value.strip_prefix("usb:").unwrap_or(value)] *)
Definition strip_usb (value : list Z) : list Z :=
  if bool_decide (take 4 value = USB_PREFIX) then drop 4 value else value.

(** ** The selector *)

Inductive UsbSelector : Type :=
| SelectIndex (index : Z)
| SelectVidPid (vendor_id product_id : Z) (serial_number : option (list Z)) (occurrence : Z)
| SelectPath (bus : Z) (ports : list Z).

#[global] Instance UsbSelector_eq_dec : EqDecision UsbSelector.
Proof. solve_decision. Defined.

Definition parse_hex_id (value : list Z) : res UsbError Z :=
  ok_or (from_str_radix 16 65535 value) InvalidSelector.

Definition UsbSelector_parse (value : list Z) : res UsbError UsbSelector :=
  let value := strip_usb value in
  match value with
  | [] => Err InvalidSelector
  | _ =>
      match split_once COLON value with
      | Some (vendor, product) =>
          vendor_id ← parse_hex_id vendor;
          '(product, serial_number, occurrence) ←
            match split_once SLASH product with
            | Some (product, serial) =>
                match serial with [] => Err InvalidSelector | _ => Ok (product, Some serial, 0) end
            | None =>
                match split_once HASH product with
                | Some (product, occurrence) =>
                    occurrence ← ok_or (from_str_radix 10 USIZE_MAX occurrence) InvalidSelector;
                    Ok (product, None, occurrence)
                | None => Ok (product, None, 0)
                end
            end;
          product_id ← parse_hex_id product;
          Ok (SelectVidPid vendor_id product_id serial_number occurrence)
      | None =>
          match split_once MINUS value with
          | Some (bus, ports) =>
              bus ← ok_or (from_str_radix 10 255 bus) InvalidSelector;
              ports ← collect ((fun port => ok_or (from_str_radix 10 255 port) InvalidSelector) <$> split_on DOT ports);
              match ports with [] => Err InvalidSelector | _ => Ok (SelectPath bus ports) end
          | None => index ← ok_or (from_str_radix 10 USIZE_MAX value) InvalidSelector; Ok (SelectIndex index)
          end
      end
  end.

(** ** Interfaces *)

Inductive Direction : Type := DirIn | DirOut.
Inductive TransferType : Type := TtControl | TtIsochronous | TtBulk | TtInterrupt.

#[global] Instance Direction_eq_dec : EqDecision Direction.
Proof. solve_decision. Defined.
#[global] Instance TransferType_eq_dec : EqDecision TransferType.
Proof. solve_decision. Defined.

Record UsbEndpointInfo : Type := mkEndpoint {
  endpoint_address : Z; endpoint_direction : Direction; endpoint_transfer_type : TransferType
}.

Record UsbInterfaceInfo : Type := mkInterface {
  if_configuration : Z;
  if_interface : Z;
  if_alternate : Z;
  if_class : Z;
  if_subclass : Z;
  if_protocol : Z;
  if_endpoints : list UsbEndpointInfo
}.

Record UsbLayout : Type := mkLayout {
  lay_configuration : Z;
  lay_interface : Z;
  lay_alternate : Z;
  interrupt_in : Z;
  bulk_in : Z;
  bulk_out : Z
}.

Definition bluetooth_primary : Z * Z * Z :=
  (USB_DEVICE_CLASS_WIRELESS_CONTROLLER, USB_DEVICE_SUBCLASS_RF_CONTROLLER, USB_DEVICE_PROTOCOL_BLUETOOTH_PRIMARY_CONTROLLER).

Definition interface_codes (i : UsbInterfaceInfo) : Z * Z * Z := (if_class i, if_subclass i, if_protocol i).

Definition find_endpoint (i : UsbInterfaceInfo) (direction : Direction) (transfer_type : TransferType) : option Z :=
  endpoint_address <$> List.find (fun e => bool_decide (endpoint_direction e = direction)
                                            && bool_decide (endpoint_transfer_type e = transfer_type)) (if_endpoints i).

Definition interface_layout (i : UsbInterfaceInfo) : option UsbLayout :=
  if negb (bool_decide (interface_codes i = bluetooth_primary)) then None else
  interrupt ← find_endpoint i DirIn TtInterrupt;
  bin ← find_endpoint i DirIn TtBulk;
  bout ← find_endpoint i DirOut TtBulk;
  Some (mkLayout (if_configuration i) (if_interface i) (if_alternate i) interrupt bin bout).

(** [find_map] *)
Fixpoint select_layout (interfaces : list UsbInterfaceInfo) : option UsbLayout :=
  match interfaces with
  | [] => None
  | i :: rest => match interface_layout i with Some l => Some l | None => select_layout rest end
  end.

Record AdapterMetadata : Type := mkAdapterMetadata {
  md_vendor_id : Z; md_product_id : Z; md_bus : Z; md_address : Z; md_ports : list Z
}.

(** ** Transfers *)

(** The trait [UsbIo]; a read is given the length of its buffer and gives back
    the count it reports and the buffer. *)
Class UsbIo (B : Type) : Type := {
  read_interrupt : Z -> nat -> Z -> stm B UsbTransferError (Z * list Z);
  read_bulk : Z -> nat -> Z -> stm B UsbTransferError (Z * list Z);
  write_control : Z -> list Z -> Z -> stm B UsbTransferError Z;
  write_bulk : Z -> list Z -> Z -> stm B UsbTransferError Z
}.

(** [rusb::request_type(Direction::Out, RequestType::Class, Recipient::Device)] *)
Definition REQUEST_TYPE_CLASS_OUT : Z := 0x20.

Record UsbTransport (B : Type) : Type := mkTransport {
  backend : B;
  layout : UsbLayout;
  metadata : AdapterMetadata;
  next_endpoint : bool;
  event_bytes : list Z;
  acl_bytes : list Z;
  pending_packets : list Packet;
  shutdown : bool
}.
Arguments mkTransport {B} backend layout metadata next_endpoint event_bytes acl_bytes pending_packets shutdown.
Arguments backend {B} u.
Arguments layout {B} u.
Arguments metadata {B} u.
Arguments next_endpoint {B} u.
Arguments event_bytes {B} u.
Arguments acl_bytes {B} u.
Arguments pending_packets {B} u.
Arguments shutdown {B} u.

#[global] Instance UsbTransport_settable B : Settable (UsbTransport B) := fun t =>
  mkTransport (backend t) (layout t) (metadata t) (next_endpoint t) (event_bytes t) (acl_bytes t) (pending_packets t) (shutdown t).

Section transport_setters.
Context {B : Type}.
Definition set_backend v (t : UsbTransport B) : UsbTransport B := ltac:(set_field (@backend B) v t).
Definition set_next_endpoint v (t : UsbTransport B) : UsbTransport B := ltac:(set_field (@next_endpoint B) v t).
Definition set_event_bytes v (t : UsbTransport B) : UsbTransport B := ltac:(set_field (@event_bytes B) v t).
Definition set_acl_bytes v (t : UsbTransport B) : UsbTransport B := ltac:(set_field (@acl_bytes B) v t).
Definition set_pending_packets v (t : UsbTransport B) : UsbTransport B := ltac:(set_field (@pending_packets B) v t).
Definition set_shutdown v (t : UsbTransport B) : UsbTransport B := ltac:(set_field (@shutdown B) v t).
End transport_setters.

Definition UsbTransport_new {B} (b : B) (l : UsbLayout) (md : AdapterMetadata) : UsbTransport B :=
  mkTransport b l md false [] [] [] false.

(** ** Framing *)

(** The length a buffered header announces, [None] while it is incomplete. *)
Definition raw_length (packet_type : Z) (buffered : list Z) : res UsbError (option Z) :=
  if (packet_type =? EVENT_PACKET_TYPE) && (2 <=? len buffered) then
    b1 ← idx buffered 1; Ok (Some (2 + b1))
  else if (packet_type =? ACL_PACKET_TYPE) && (4 <=? len buffered) then
    b2 ← idx buffered 2; b3 ← idx buffered 3; Ok (Some (4 + from_le_bytes [b2; b3]))
  else if (packet_type =? EVENT_PACKET_TYPE) || (packet_type =? ACL_PACKET_TYPE) then Ok None
  else Err (UsbCodec (UnsupportedPacketType packet_type)).

(** The loop; every round takes at least two bytes, so that the length of the
    buffer bounds the rounds ([framing_total]). *)
Fixpoint frame_loop (fuel : nat) (packet_type : Z) (packets : list Packet) : stm (list Z) UsbError (list Packet) :=
  buffered ← get;
  announced ← lift (raw_length packet_type buffered);
  match announced with
  | None => mret packets
  | Some raw =>
      let declared := raw + 1 in
      if MAX_HCI_PACKET_SIZE <? declared then
        put [] ;; throw (PacketTooLarge declared MAX_HCI_PACKET_SIZE)
      else if len buffered <? raw then mret packets
      else
        let framed := packet_type :: take (Z.to_nat raw) buffered in
        put (drop (Z.to_nat raw) buffered) ;;
        packet ← lift (map_err UsbCodec (Packet_from_bytes framed));
        match fuel with
        | O => lift Panic
        | S fuel' => frame_loop fuel' packet_type (packets ++ [packet])
        end
  end.

Definition frame_packets (packet_type : Z) : stm (list Z) UsbError (list Packet) := fun buffered =>
  frame_loop (length buffered) packet_type [] buffered.

(** ** Reading and writing *)

Section transport.
Context {B : Type} `{UsbIo B}.
Abbreviation usb := (stm (UsbTransport B) UsbError).

Definition on_backend {A} (m : stm B UsbTransferError A) : stm (UsbTransport B) UsbTransferError A := fun t =>
  let '(r, b) := m (backend t) in (r, set_backend b t).

Definition pop_pending : usb (option Packet) := fun t =>
  match pending_packets t with
  | [] => (Ok None, t)
  | p :: rest => (Ok (Some p), set_pending_packets rest t)
  end.

(** The bytes of a transfer go to their stream. *)
Definition extend_stream (events : bool) (data : list Z) : usb unit := fun t =>
  let buffered := (if events then event_bytes t else acl_bytes t) ++ data in
  let '(r, rest) := frame_packets (if events then EVENT_PACKET_TYPE else ACL_PACKET_TYPE) buffered in
  let t := if events then set_event_bytes rest t else set_acl_bytes rest t in
  match r with
  | Ok packets => (Ok tt, set_pending_packets (pending_packets t ++ packets) t)
  | Err e => (Err e, t)
  | Panic => (Panic, t)
  end.

Definition poll_transfer (events : bool) : usb (option Packet) := fun t =>
  let size := Z.to_nat (MAX_HCI_PACKET_SIZE - 1) in
  match on_backend (if events then read_interrupt (interrupt_in (layout t)) size READ_TIMEOUT
                    else read_bulk (bulk_in (layout t)) size READ_TIMEOUT) t with
  | (Err TransferTimeout, t) => (Ok None, t)
  | (Err error, t) => (Err (UsbTransfer error), t)
  | (Panic, t) => (Panic, t)
  | (Ok (count, transfer), t) =>
      if count =? 0 then (Ok None, t)
      else if len transfer <? count then
        (Err (UsbTransfer (TransferOther "USB backend returned a count larger than its buffer")), t)
      else (extend_stream events (take (Z.to_nat count) transfer) ;; pop_pending) t
  end.

Definition poll_packet : usb (option Packet) := fun t =>
  if shutdown t then (Ok None, t)
  else match pending_packets t with
       | packet :: rest => (Ok (Some packet), set_pending_packets rest t)
       | [] =>
           let events := negb (next_endpoint t) in
           poll_transfer events (set_next_endpoint events t)
       end.

Definition write_packet (packet : Packet) : usb unit := fun t =>
  if shutdown t then (Err UsbClosed, t) else
  match Packet_to_bytes packet with
  | [] => (Err (UsbCodec EmptyPacket), t)
  | packet_type :: payload =>
      if packet_type =? COMMAND_PACKET_TYPE then
        match on_backend (write_control REQUEST_TYPE_CLASS_OUT payload WRITE_TIMEOUT) t with
        | (Ok actual, t) => ((if negb (actual =? len payload) then Err (PartialWrite (len payload) actual) else Ok tt), t)
        | (Err e, t) => (Err (UsbTransfer e), t)
        | (Panic, t) => (Panic, t)
        end
      else if packet_type =? ACL_PACKET_TYPE then
        match on_backend (write_bulk (bulk_out (layout t)) payload WRITE_TIMEOUT) t with
        | (Ok actual, t) => ((if negb (actual =? len payload) then Err (PartialWrite (len payload) actual) else Ok tt), t)
        | (Err e, t) => (Err (UsbTransfer e), t)
        | (Panic, t) => (Panic, t)
        end
      else (Err (UsbCodec (UnsupportedPacketType packet_type)), t)
  end.
End transport.

(** ** Devices *)

Record DeviceDescriptor : Type := mkDescriptor {
  dd_vendor_id : Z; dd_product_id : Z; dd_class : Z; dd_subclass : Z; dd_protocol : Z; dd_num_configurations : nat
}.

Record SettingDescriptor : Type := mkSetting {
  sd_interface_number : Z; sd_setting_number : Z; sd_class : Z; sd_subclass : Z; sd_protocol : Z;
  sd_endpoints : list UsbEndpointInfo
}.

(** The number of a configuration, and the settings of its interfaces. *)
Record ConfigDescriptor : Type := mkConfigDescriptor { cd_number : Z; cd_interfaces : list (list SettingDescriptor) }.

(** The part of the USB library the code uses; operations on a handle change
    it. *)
Class Rusb (D Hd : Type) : Type := {
  device_descriptor : D -> res RusbError DeviceDescriptor;
  config_descriptor : D -> nat -> res RusbError ConfigDescriptor;
  bus_number : D -> Z;
  device_address : D -> Z;
  port_numbers : D -> res RusbError (list Z);
  open_device : D -> res RusbError Hd;
  read_serial_number_string_ascii : Hd -> DeviceDescriptor -> res RusbError (list Z);
  set_auto_detach_kernel_driver : bool -> stm Hd RusbError unit;
  active_configuration : Hd -> res RusbError Z;
  set_active_configuration : Z -> stm Hd RusbError unit;
  claim_interface : Z -> stm Hd RusbError unit;
  set_alternate_setting : Z -> Z -> stm Hd RusbError unit;
  handle_read_interrupt : Z -> nat -> Z -> stm Hd RusbError (Z * list Z);
  handle_read_bulk : Z -> nat -> Z -> stm Hd RusbError (Z * list Z);
  handle_write_control : Z -> Z -> Z -> Z -> list Z -> Z -> stm Hd RusbError Z;
  handle_write_bulk : Z -> list Z -> Z -> stm Hd RusbError Z;
  rusb_error_text : RusbError -> string
}.

Section devices.
Context {D Hd : Type} `{Rusb D Hd}.

Definition map_rusb_error (error : RusbError) : UsbTransferError :=
  match error with
  | RusbTimeout => TransferTimeout
  | RusbNoDevice => TransferDisconnected
  | RusbAccess => TransferAccess
  | error => TransferOther (rusb_error_text error)
  end.

Definition with_transfer_error {A} (m : stm Hd RusbError A) : stm Hd UsbTransferError A := fun h =>
  let '(r, h') := m h in (map_err map_rusb_error r, h').

(** [impl UsbIo for RusbIo] *)
#[global] Instance RusbIo : UsbIo Hd := {
  read_interrupt endpoint size timeout := with_transfer_error (handle_read_interrupt endpoint size timeout);
  read_bulk endpoint size timeout := with_transfer_error (handle_read_bulk endpoint size timeout);
  write_control request_type buffer timeout := with_transfer_error (handle_write_control request_type 0 0 0 buffer timeout);
  write_bulk endpoint buffer timeout := with_transfer_error (handle_write_bulk endpoint buffer timeout)
}.

Definition setting_info (configuration : Z) (setting : SettingDescriptor) : UsbInterfaceInfo :=
  mkInterface configuration (sd_interface_number setting) (sd_setting_number setting) (sd_class setting)
    (sd_subclass setting) (sd_protocol setting) (sd_endpoints setting).

Definition config_infos (config : ConfigDescriptor) : list UsbInterfaceInfo :=
  concat ((fun interface : list SettingDescriptor => setting_info (cd_number config) <$> interface) <$> cd_interfaces config).

Definition interface_infos (device : D) : res RusbError (list UsbInterfaceInfo) :=
  descriptor ← device_descriptor device;
  configs ← collect (config_descriptor device <$> seq 0 (dd_num_configurations descriptor));
  Ok (concat (config_infos <$> configs)).

Definition device_is_bluetooth_hci (device : D) : res RusbError bool :=
  descriptor ← device_descriptor device;
  if bool_decide ((dd_class descriptor, dd_subclass descriptor, dd_protocol descriptor) = bluetooth_primary) then Ok true
  else if negb (dd_class descriptor =? USB_DEVICE_CLASS_DEVICE) then Ok false
  else infos ← interface_infos device;
       Ok (existsb (fun i => bool_decide (interface_codes i = bluetooth_primary)) infos).

(** The loop over the devices with the number of matches left to skip. *)
Fixpoint select_vid_pid (vendor_id product_id : Z) (serial_number : option (list Z)) (left : Z) (devices : list D)
  : res UsbError D :=
  match devices with
  | [] => Err DeviceNotFound
  | device :: rest =>
      match device_descriptor device with
      | Panic => Panic
      | Err _ => select_vid_pid vendor_id product_id serial_number left rest
      | Ok descriptor =>
          if negb (dd_vendor_id descriptor =? vendor_id) || negb (dd_product_id descriptor =? product_id)
          then select_vid_pid vendor_id product_id serial_number left rest else
          matches ← match serial_number with
                    | None => Ok true
                    | Some expected =>
                        handle ← map_err UsbRusb (open_device device);
                        serial ← map_err UsbRusb (read_serial_number_string_ascii handle descriptor);
                        Ok (bool_decide (serial = expected))
                    end;
          if negb matches then select_vid_pid vendor_id product_id serial_number left rest
          else if left =? 0 then Ok device
          else select_vid_pid vendor_id product_id serial_number (left - 1) rest
      end
  end.

(** [unwrap_or(false)], [.ok()] *)
Definition res_or {E A} (d : A) (r : res E A) : A := match r with Ok a => a | _ => d end.

Definition select_device (devices : list D) (selector : UsbSelector) : res UsbError D :=
  match selector with
  | SelectIndex index =>
      ok_or (List.filter (fun d => res_or false (device_is_bluetooth_hci d)) devices !! Z.to_nat index) DeviceNotFound
  | SelectPath bus ports =>
      ok_or (List.find (fun d => (bus_number d =? bus)
               && bool_decide (res_or None (res_map Some (port_numbers d)) = Some ports)) devices) DeviceNotFound
  | SelectVidPid vendor_id product_id serial_number occurrence =>
      select_vid_pid vendor_id product_id serial_number occurrence devices
  end.

(** A call on the handle whose error ends the function. *)
Definition on_handle {A} (m : stm Hd RusbError A) (h : Hd) : res UsbError (A * Hd) :=
  let '(r, h') := m h in map_err UsbRusb (res_map (fun a => (a, h')) r).

(** [devices] is what [Context::new()?.devices()?] gives. *)
Definition open_transport (devices : res RusbError (list D)) (selector : UsbSelector) : res UsbError (UsbTransport Hd) :=
  devices ← map_err UsbRusb devices;
  device ← select_device devices selector;
  descriptor ← map_err UsbRusb (device_descriptor device);
  infos ← map_err UsbRusb (interface_infos device);
  layout ← ok_or (select_layout infos) NoHciInterface;
  handle ← map_err UsbRusb (open_device device);
  handle ← match set_auto_detach_kernel_driver true handle with
           | (Ok _, handle) | (Err RusbNotSupported, handle) => Ok handle
           | (Err error, _) => Err (UsbRusb error)
           | (Panic, _) => Panic
           end;
  handle ← (if bool_decide (res_or None (res_map Some (active_configuration handle)) = Some (lay_configuration layout))
            then Ok handle
            else '(_, handle) ← on_handle (set_active_configuration (lay_configuration layout)) handle; Ok handle);
  '(_, handle) ← on_handle (claim_interface (lay_interface layout)) handle;
  handle ← (if negb (lay_alternate layout =? 0)
            then '(_, handle) ← on_handle (set_alternate_setting (lay_interface layout) (lay_alternate layout)) handle; Ok handle
            else Ok handle);
  Ok (UsbTransport_new handle layout
        (mkAdapterMetadata (dd_vendor_id descriptor) (dd_product_id descriptor) (bus_number device) (device_address device)
           (res_or [] (port_numbers device)))).
End devices.

(** ** The reader thread *)

Inductive ReaderEvent : Type :=
| ReaderPacket (packet : Packet)
| ReaderFailed (e : UsbError)
| ReaderEnded.

Inductive RecvTimeoutError : Type := RecvTimeout | RecvDisconnected.

Inductive Worker : Type := WorkerRunning | WorkerFinished | WorkerPanicked.

(** An opened adapter: the reader's transport, whose backend and shutdown flag
    are shared with the sink, the channel from the thread, the thread and
    whether it can still be joined, and the calls of the activity callback. *)
Record OpenedUsb (B : Type) : Type := mkOpenedUsb {
  ou_transport : UsbTransport B;
  ou_channel : list ReaderEvent;
  ou_worker : Worker;
  ou_join : bool;
  ou_notified : nat
}.
Arguments mkOpenedUsb {B} ou_transport ou_channel ou_worker ou_join ou_notified.
Arguments ou_transport {B} o.
Arguments ou_channel {B} o.
Arguments ou_worker {B} o.
Arguments ou_join {B} o.
Arguments ou_notified {B} o.

Section reader.
Context {B : Type} `{UsbIo B}.

(** The thread starts with its transport and an empty channel. *)
Definition PacketReader_spawn (transport : UsbTransport B) : OpenedUsb B := mkOpenedUsb transport [] WorkerRunning true 0.

(** [split_transport_with_activity]: both halves start with empty buffers. *)
Definition spawn (transport : UsbTransport B) : OpenedUsb B :=
  PacketReader_spawn (mkTransport (backend transport) (layout transport) (metadata transport) false [] [] [] (shutdown transport)).

(** [sender.send(event)], then the callback. *)
Definition announce (event : ReaderEvent) (o : OpenedUsb B) : OpenedUsb B :=
  mkOpenedUsb (ou_transport o) (ou_channel o ++ [event]) (ou_worker o) (ou_join o) (S (ou_notified o)).

Definition worker_ends (o : OpenedUsb B) : OpenedUsb B :=
  let o := announce ReaderEnded o in mkOpenedUsb (ou_transport o) (ou_channel o) WorkerFinished (ou_join o) (ou_notified o).

(** One round of the thread's loop, from the test of the flag. *)
Definition worker_step (o : OpenedUsb B) : OpenedUsb B :=
  match ou_worker o with
  | WorkerRunning =>
      if shutdown (ou_transport o) then worker_ends o else
      let '(r, t) := poll_packet (ou_transport o) in
      let o := mkOpenedUsb t (ou_channel o) (ou_worker o) (ou_join o) (ou_notified o) in
      match r with
      | Ok (Some packet) => announce (ReaderPacket packet) o
      | Ok None => o
      | Err error => worker_ends (announce (ReaderFailed error) o)
      | Panic => mkOpenedUsb t (ou_channel o) WorkerPanicked (ou_join o) (ou_notified o)
      end
  | _ => o
  end.

(** [recv_timeout] once the wait is over. *)
Definition opened_recv_timeout (o : OpenedUsb B) : (ReaderEvent + RecvTimeoutError) * OpenedUsb B :=
  match ou_channel o with
  | event :: rest => (inl event, mkOpenedUsb (ou_transport o) rest (ou_worker o) (ou_join o) (ou_notified o))
  | [] => (inr match ou_worker o with WorkerRunning => RecvTimeout | _ => RecvDisconnected end, o)
  end.

(** The sink writes to the shared backend. *)
Definition opened_send (packet : Packet) (o : OpenedUsb B) : res UsbError unit * OpenedUsb B :=
  let '(r, t) := write_packet packet (ou_transport o) in
  (r, mkOpenedUsb t (ou_channel o) (ou_worker o) (ou_join o) (ou_notified o)).

(** The flag is set and the thread joined; it sees the flag in its next
    round. *)
Definition opened_close (o : OpenedUsb B) : res UsbError unit * OpenedUsb B :=
  let o := mkOpenedUsb (set_shutdown true (ou_transport o)) (ou_channel o) (ou_worker o) (ou_join o) (ou_notified o) in
  if ou_join o then
    let o := worker_step o in
    let o := mkOpenedUsb (ou_transport o) (ou_channel o) (ou_worker o) false (ou_notified o) in
    (match ou_worker o with WorkerPanicked => Err ReaderPanicked | _ => Ok tt end, o)
  else (Ok tt, o).

(** [Drop for PacketReader]: the outcome of the join is ignored. *)
Definition PacketReader_drop (o : OpenedUsb B) : OpenedUsb B :=
  let o := mkOpenedUsb (set_shutdown true (ou_transport o)) (ou_channel o) (ou_worker o) (ou_join o) (ou_notified o) in
  if ou_join o then
    let o := worker_step o in
    mkOpenedUsb (ou_transport o) (ou_channel o) (ou_worker o) false (ou_notified o)
  else o.
End reader.
