(* ===== verification/UsbProps.v ===== *)
(** * Properties of the USB transport ([src/src/usb.rs])

    Framing ends on every buffer, and does not depend on how transfers cut the
    stream. *)
From S2P Require Import Prelude Values Hci Usb.

(** ** Framing *)

(** The bytes of a packet on its endpoint: the encoding without the type. *)
Definition body (p : Packet) : list Z := tail (Packet_to_bytes p).

(** A packet the controller may send on the endpoint of [ty]. *)
Definition streamable (ty : Z) (p : Packet) : Prop :=
  Packet_wf p /\ 1 + len (body p) <= MAX_HCI_PACKET_SIZE
  /\ match p with Event _ => ty = EVENT_PACKET_TYPE | Acl _ => ty = ACL_PACKET_TYPE | Command _ => False end.

Lemma streamable_bytes ty p : streamable ty p -> Packet_to_bytes p = ty :: body p.
Proof. intros (_ & _ & Hp). by destruct p; subst. Qed.

Lemma body_event code ps : body (Event (mkEvent code ps)) = code :: len ps mod 256 :: ps.
Proof. reflexivity. Qed.

Lemma body_acl p : body (Acl p)
  = let header := AclPacket_header p in
    header mod 256 :: header / 256 mod 256
    :: (len (acl_data p) mod 65536) mod 256 :: (len (acl_data p) mod 65536) / 256 mod 256 :: acl_data p.
Proof. reflexivity. Qed.

Lemma streamable_min ty p : streamable ty p -> (2 <= length (body p))%nat.
Proof.
  intros (_ & _ & Hty). destruct p as [|[code ps]|a]; [done| |]; rewrite ?body_event, ?body_acl; cbn [length]; lia.
Qed.

(** The header of a packet announces its body, as soon as it is complete. *)
Lemma raw_length_stream ty p b rest : streamable ty p -> b `prefix_of` body p ++ rest ->
  (raw_length ty b = Ok None /\ (length b < length (body p))%nat) \/ raw_length ty b = Ok (Some (len (body p))).
Proof.
  intros (Hwf & Hl & Hty) [k Hb]. destruct p as [|[code ps]|a]; [done| |]; subst ty; cbn [Packet_wf] in Hwf.
  - rewrite body_event in *. unfold Event_wf in Hwf. cbn in Hwf. pose proof (len_nonneg ps).
    destruct b as [|b0 [|b1 b]]; [left; split; [done|cbn; lia]..|]. right. injection Hb as -> <- Hps.
    unfold raw_length. rewrite (proj2 (Z.leb_le 2 _)) by len_lia. cbn [andb Z.eqb EVENT_PACKET_TYPE Pos.eqb].
    cbn [idx expect lookup list_lookup mbind res_bind]. rewrite !len_cons, Z.mod_small by lia. do 2 f_equal. lia.
  - rewrite body_acl in *. cbv zeta in *. unfold Acl_wf in Hwf. pose proof (len_nonneg (acl_data a)).
    destruct b as [|b0 [|b1 [|b2 [|b3 b]]]]; [left; split; [done|cbn [length]; lia]..|]. right. injection Hb as <- <- <- <- Hd.
    unfold raw_length. rewrite (proj2 (Z.leb_le 4 _)) by len_lia. cbn [andb Z.eqb EVENT_PACKET_TYPE ACL_PACKET_TYPE Pos.eqb].
    cbn [idx expect lookup list_lookup mbind res_bind]. rewrite u16_le_roundtrip by (apply Z.mod_pos_bound; lia).
    rewrite !len_cons, Z.mod_small by lia. do 2 f_equal. lia.
Qed.

(** A buffer that ends inside a packet is kept. *)
Lemma frame_stops ty p b rest fuel acc : streamable ty p -> b `prefix_of` body p ++ rest -> (length b < length (body p))%nat ->
  frame_loop fuel ty acc b = (Ok acc, b).
Proof.
  intros Hp Hb Hl. pose proof (raw_length_stream ty p b rest Hp Hb) as Hr. destruct Hp as (_ & Hmax & _).
  destruct fuel; cbn [frame_loop]; unfold mbind, stm_bind, get, lift.
  all: destruct Hr as [[-> _] | ->]; [done|].
  all: rewrite (proj2 (Z.ltb_ge _ _)) by lia; by rewrite (proj2 (Z.ltb_lt _ _)) by (unfold len; lia).
Qed.

(** A complete packet at the front is taken off. *)
Lemma frame_takes ty p rest fuel acc : streamable ty p ->
  frame_loop (S fuel) ty acc (body p ++ rest) = frame_loop fuel ty (acc ++ [p]) rest.
Proof.
  intros Hp. pose proof (streamable_bytes ty p Hp) as Hto. pose proof Hp as (Hwf & Hmax & Hty).
  destruct (raw_length_stream ty p (body p ++ rest) rest Hp ltac:(done)) as [[_ Hl]|Hr]; [rewrite length_app in Hl; lia|].
  cbn [frame_loop]. unfold mbind, stm_bind, get, lift, put. rewrite Hr.
  rewrite (proj2 (Z.ltb_ge _ _)) by lia. rewrite (proj2 (Z.ltb_ge _ _)) by len_lia.
  replace (Z.to_nat (len (body p))) with (length (body p)) by (unfold len; lia).
  rewrite take_app_length, drop_app_length, <- Hto, Packet_from_to_bytes by done. done.
Qed.

(** A stream of whole packets, then perhaps a started one. *)
Definition stream (ps : list Packet) (started : list Z) : list Z := concat (body <$> ps) ++ started.

Lemma stream_cons p ps started : stream (p :: ps) started = body p ++ stream ps started.
Proof. unfold stream. by rewrite fmap_cons; cbn [concat]; rewrite <- app_assoc. Qed.

Definition started_ok (ty : Z) (started : list Z) : Prop :=
  (ty = EVENT_PACKET_TYPE \/ ty = ACL_PACKET_TYPE)
  /\ (started = [] \/ exists q, streamable ty q /\ started `prefix_of` body q /\ (length started < length (body q))%nat).

Lemma frame_empty ty fuel acc : ty = EVENT_PACKET_TYPE \/ ty = ACL_PACKET_TYPE -> frame_loop fuel ty acc [] = (Ok acc, []).
Proof. intros [-> | ->]; by destruct fuel. Qed.

(** Framing a part of the stream takes off whole packets and keeps the rest,
    which ends before the next packet is complete. *)
Lemma frame_part ty started ps : started_ok ty started -> Forall (streamable ty) ps -> forall fuel acc b future,
  (length b <= fuel)%nat -> b ++ future = stream ps started ->
  exists n b', frame_loop fuel ty acc b = (Ok (acc ++ take n ps), b') /\ b' ++ future = stream (drop n ps) started
    /\ match drop n ps with p :: _ => (length b' < length (body p))%nat | [] => True end.
Proof.
  intros [Hty Hstarted] Hps. induction Hps as [|p ps Hp Hps IH]; intros fuel acc b future Hf Hb.
  - exists 0%nat, b. split_and!; [|done|done]. rewrite app_nil_r. change (stream [] started) with started in Hb.
    destruct Hstarted as [->|(q & Hq & Hpre & Hlt)].
    + apply app_nil in Hb as [-> ->]. by apply frame_empty.
    + subst started. rewrite length_app in Hlt. apply (frame_stops ty q b []); [done| |lia].
      rewrite app_nil_r. destruct Hpre as [k ->]. rewrite <- app_assoc. by exists (future ++ k).
  - rewrite stream_cons in Hb.
    destruct (decide (length b < length (body p))%nat) as [Hlt|Hge].
    + exists 0%nat, b. rewrite app_nil_r. split_and!; [|by rewrite drop_0, stream_cons|done].
      apply (frame_stops ty p b (stream ps started)); [done|by exists future|done].
    + assert (exists b1, b = body p ++ b1) as [b1 ->].
      { exists (drop (length (body p)) b). rewrite <- (take_drop (length (body p)) b) at 1. f_equal.
        apply (f_equal (take (length (body p)))) in Hb. rewrite take_app_length in Hb.
        by rewrite take_app_le in Hb by lia. }
      rewrite <- app_assoc in Hb. apply app_inv_head in Hb. rewrite length_app in Hf.
      pose proof (streamable_min ty p Hp). destruct fuel as [|fuel]; [lia|]. rewrite frame_takes by done.
      destruct (IH fuel (acc ++ [p]) b1 future) as (n & b' & Heq & Hrest & Hend); [lia|done|].
      exists (S n), b'. cbn [take drop]. rewrite <- app_assoc in Heq. done.
Qed.

(** An announced length covers its header, so that every round shrinks the
    buffer, and framing ends on every buffer of bytes, without a panic. *)
Lemma raw_length_min ty b : bytes b ->
  no_panic (raw_length ty b) /\ forall raw, raw_length ty b = Ok (Some raw) -> 2 <= raw.
Proof.
  intros Hb. unfold raw_length, no_panic, len. destruct b as [|b0 [|b1 [|b2 [|b3 b]]]];
    repeat (apply bytes_cons in Hb as [? Hb]); repeat case_match; bool_to_prop; cbn [length] in *; try lia;
    cbn [idx expect lookup list_lookup mbind res_bind] in *; (split; [done|]); intros raw Hraw; simplify_eq; try lia.
  all: match goal with |- context [from_le_bytes [?x; ?y]] => pose proof (u16_le_range x y) end; lia.
Qed.

Lemma framing_total ty fuel : forall acc b, bytes b -> (length b <= fuel)%nat -> no_panic (frame_loop fuel ty acc b).1.
Proof.
  unfold no_panic. induction fuel as [|fuel IH]; intros acc b Hb Hf; destruct (raw_length_min ty b Hb) as [Hn Hmin];
    cbn [frame_loop]; unfold mbind, stm_bind, get, put, lift, throw, mret, stm_ret;
    destruct (raw_length ty b) as [[raw|]|e|]; try done; specialize (Hmin raw eq_refl);
    (destruct (_ <? raw + 1); [done|]); destruct (Z.ltb_spec (len b) raw) as [|Hle]; try done; unfold len in Hle; [lia|].
  pose proof (packet_decode_no_panic (ty :: take (Z.to_nat raw) b)) as Hp. unfold no_panic in Hp.
  destruct (Packet_from_bytes _) as [p| |]; try done. cbn. apply IH; [by apply Forall_drop|]. rewrite length_drop. lia.
Qed.

(** Transfers of a stream, one after the other. *)
Fixpoint feed_transfers (ty : Z) (transfers : list (list Z)) : stm (list Z) UsbError (list Packet) :=
  match transfers with
  | [] => mret []
  | data :: rest =>
      buffered ← get;
      put (buffered ++ data) ;;
      packets ← frame_packets ty;
      more ← feed_transfers ty rest;
      mret (packets ++ more)
  end.

Lemma feed_transfers_stream ty started transfers : started_ok ty started -> forall ps b, Forall (streamable ty) ps ->
  b ++ concat transfers = stream ps started ->
  match ps with p :: _ => (length b < length (body p))%nat | [] => True end ->
  feed_transfers ty transfers b = (Ok ps, started).
Proof.
  intros Hst. induction transfers as [|data rest IH]; intros ps b Hps Hb Hend.
  - cbn in *. rewrite app_nil_r in Hb. destruct ps as [|p ps]; [by rewrite Hb|].
    apply (f_equal length) in Hb. rewrite stream_cons, length_app in Hb. lia.
  - cbn [feed_transfers concat] in *. unfold mbind, stm_bind, get, put, mret, stm_ret. unfold frame_packets.
    destruct (frame_part ty started ps Hst Hps (length (b ++ data)) [] (b ++ data) (concat rest)) as (n & b' & -> & Hrest & Hn);
      [lia|by rewrite <- app_assoc|].
    rewrite (IH (drop n ps) b'); [|by apply Forall_drop|done|done]. by rewrite app_nil_l, take_drop.
Qed.

(** Framing is independent of the transfers: whatever sizes the transfers
    have in which the bytes of a sequence of packets arrive (packets cut
    anywhere, several in one transfer, an unfinished one at the end), exactly
    these packets come out, in order, and the bytes of the unfinished one are
    kept. *)
Theorem usb_framing_independent ty ps started transfers :
  Forall (streamable ty) ps -> started_ok ty started -> concat transfers = stream ps started ->
  feed_transfers ty transfers [] = (Ok ps, started).
Proof.
  intros Hps Hst Hcat. apply feed_transfers_stream; try done.
  destruct Hps as [|p ps Hp _]; [done|]. pose proof (streamable_min ty p Hp). cbn [length]. lia.
Qed.

Definition sample_event : Packet := Event (mkEvent 0x0E [1; 3; 12; 0]).
Definition other_event : Packet := Event (mkEvent 0x13 [1; 64; 0; 1; 0]).

Lemma usb_framing_independent_witness :
  feed_transfers EVENT_PACKET_TYPE [[0x0E]; [4; 1; 3; 12; 0; 0x13]; []; [5; 1; 64; 0; 1; 0; 0x0E; 4]] []
  = (Ok [sample_event; other_event], [0x0E; 4]).
Proof.
  apply (usb_framing_independent EVENT_PACKET_TYPE [sample_event; other_event] [0x0E; 4]).
  - repeat constructor; try done; try by_compute; vm_compute; discriminate.
  - split; [by left|]. right. exists sample_event. split_and!; [|by exists [1; 3; 12; 0]|cbn; lia].
    split; [|split; [vm_compute; discriminate|done]]. split_and!; [by vm_compute|done|by_compute|vm_compute; discriminate].
  - reflexivity.
Defined.
