(* ===== verification/UsbSelect.v ===== *)
(** * Selection of an adapter ([src/src/usb.rs])

    The texts that are selectors and what they select, the interface chosen on
    a device, and the device chosen among those present. *)
From S2P Require Import Prelude Values Hci Usb.

(** ** Numerals *)

Definition digits_sum (radix : Z) : Z -> list Z -> Z := foldl (fun acc d => acc * radix + d).

(** An optional plus sign, and one or more digits of value [n]. *)
Definition numeral (radix max : Z) (s : list Z) (n : Z) : Prop :=
  exists digits ds, (s = digits \/ s = PLUS :: digits) /\ digits <> []
    /\ mapM (to_digit radix) digits = Some ds /\ n = digits_sum radix 0 ds /\ n <= max.

Lemma to_digit_range radix c d : to_digit radix c = Some d ->
  0 <= d < radix /\ (in_range 48 57 c || in_range 65 70 c || in_range 97 102 c = true).
Proof.
  unfold to_digit, hex_digit, in_range. intros Hd.
  destruct ((48 <=? c) && (c <=? 57)) eqn:H1; [|destruct ((65 <=? c) && (c <=? 70)) eqn:H2;
    [|destruct ((97 <=? c) && (c <=? 102)) eqn:H3; [|done]]]; cbn in Hd;
    destruct (_ <? radix) eqn:Hlt; simplify_eq; bool_to_prop; split; try done; lia.
Qed.

Lemma digits_sum_grows radix ds : 1 <= radix -> Forall (fun d => 0 <= d) ds -> forall acc, 0 <= acc ->
  acc <= digits_sum radix acc ds.
Proof.
  intros Hr Hds. induction Hds as [|d ds Hd Hds IH]; intros acc Ha; cbn; [lia|].
  specialize (IH (acc * radix + d) ltac:(nia)). nia.
Qed.

Lemma digits_nonneg radix s ds : mapM (to_digit radix) s = Some ds -> Forall (fun d => 0 <= d) ds.
Proof.
  intros Hs. apply mapM_Some in Hs. induction Hs as [|c d cs ds Hx _ IH]; constructor; [|exact IH].
  apply to_digit_range in Hx. lia.
Qed.

Lemma digits_value_spec radix max s : 1 <= radix -> forall acc n, 0 <= acc <= max ->
  (digits_value radix max acc s = Some n
   <-> exists ds, mapM (to_digit radix) s = Some ds /\ n = digits_sum radix acc ds /\ n <= max).
Proof.
  intros Hr. induction s as [|c s IH]; intros acc n Ha; cbn [digits_value mapM].
  - split; [intros [= <-]; exists []; cbn; split_and!; [done|done|lia]|by intros (ds & [= <-] & -> & _)].
  - destruct (to_digit radix c) as [d|] eqn:Hd; cbn [mbind option_bind];
      [|split; [done|by intros (ds & ? & _)]].
    pose proof (to_digit_range _ _ _ Hd) as [Hrange _].
    destruct (Z.ltb_spec max (acc * radix + d)) as [Hlt|Hle].
    + split; [done|]. intros (ds & Hm & -> & Hmax).
      destruct (mapM (to_digit radix) s) as [ds'|] eqn:Hs; [|done]. injection Hm as <-. cbn in Hmax.
      pose proof (digits_sum_grows radix ds' Hr (digits_nonneg _ _ _ Hs) (acc * radix + d) ltac:(nia)). unfold digits_sum in *. lia.
    + rewrite IH by nia. destruct (mapM (to_digit radix) s) as [ds'|]; cbn.
      * split; [intros (ds & [= <-] & -> & Hm); by exists (d :: ds')|].
        intros (ds & [= <-] & -> & Hm). by exists ds'.
      * by split; intros (? & ? & _).
Qed.

Lemma from_str_radix_spec radix max s n : 1 <= radix -> 0 <= max ->
  from_str_radix radix max s = Some n <-> numeral radix max s n.
Proof.
  intros Hr Hmax. assert (forall c, c = PLUS \/ c = MINUS -> to_digit radix c = None) as Hsign by (intros c [-> | ->]; done).
  split.
  - unfold from_str_radix. intros Hs. destruct s as [|c [|c' s]]; [done| |].
    + destruct ((c =? PLUS) || (c =? MINUS)); [done|]. apply digits_value_spec in Hs as (ds & Hm & Hn); [|done|lia].
      exists [c], ds. by split; [left|].
    + destruct (Z.eqb_spec c PLUS) as [->|Hne]; apply digits_value_spec in Hs as (ds & Hm & Hn); try lia.
      * exists (c' :: s), ds. by split; [right|].
      * exists (c :: c' :: s), ds. by split; [left|].
  - intros (digits & ds & Hs & Hne & Hm & Hn). destruct digits as [|c digits]; [done|].
    assert (digits_value radix max 0 (c :: digits) = Some n) as Hv by (apply digits_value_spec; [done|lia|eauto]).
    assert (c <> PLUS /\ c <> MINUS) as [Hp Hmi].
    { split; intros ->; cbn [mapM] in Hm; by rewrite Hsign in Hm by auto. }
    destruct Hs as [-> | ->].
    + unfold from_str_radix. rewrite (proj2 (Z.eqb_neq c PLUS)), (proj2 (Z.eqb_neq c MINUS)) by done. by destruct digits.
    + unfold from_str_radix. rewrite Z.eqb_refl. exact Hv.
Qed.

(** Numerals are made of signs and digits. *)
Lemma numeral_chars radix max s n : numeral radix max s n ->
  s <> [] /\ Forall (fun c => c ∉ [COLON; SLASH; HASH; MINUS; DOT; 117]) s.
Proof.
  intros (digits & ds & Hs & Hne & Hm & _). apply mapM_Some in Hm.
  assert (Forall (fun c => c ∉ [COLON; SLASH; HASH; MINUS; DOT; 117]) digits) as Hd.
  { clear Hs Hne. induction Hm as [|c d cs ds Hc _ IH]; constructor; [|exact IH].
    apply to_digit_range in Hc as [_ Hr]. intros Hin. unfold COLON, SLASH, HASH, MINUS, DOT in Hin.
    repeat (apply elem_of_cons in Hin as [-> | Hin]; [vm_compute in Hr; discriminate|]). by apply not_elem_of_nil in Hin. }
  destruct Hs as [-> | ->]; (split; [done|]); [done|]. constructor; [by_compute|done].
Qed.

(** ** Cutting texts *)

Lemma split_once_Some c s a b : split_once c s = Some (a, b) <-> s = a ++ c :: b /\ Forall (fun x => x <> c) a.
Proof.
  revert a. induction s as [|x s IH]; intros a; cbn [split_once].
  - split; [done|]. intros [Hs _]. by destruct a.
  - destruct (Z.eqb_spec x c) as [->|Hne].
    + split; [by intros [= <- <-]|]. intros [Hs Ha]. destruct a as [|y a]; [by simplify_eq/=|].
      injection Hs as <- _. by apply Forall_cons in Ha as [? _].
    + destruct (split_once c s) as [[a' b']|] eqn:Hr; cbn [mbind option_bind].
      * split.
        -- intros [= <- <-]. destruct (proj1 (IH a') eq_refl) as [-> Ha']. by split; [|constructor].
        -- intros [Hs Ha]. destruct a as [|y a]; [by simplify_eq/=|]. injection Hs as <- Hs.
           apply Forall_cons in Ha as [_ Ha]. specialize (proj2 (IH a) (conj Hs Ha)). intros [= -> ->]. done.
      * split; [done|]. intros [Hs Ha]. destruct a as [|y a]; [by simplify_eq/=|]. injection Hs as <- Hs.
        apply Forall_cons in Ha as [_ Ha]. by specialize (proj2 (IH a) (conj Hs Ha)).
Qed.

Lemma split_once_None c s : split_once c s = None <-> Forall (fun x => x <> c) s.
Proof.
  induction s as [|x s IH]; cbn [split_once]; [done|]. rewrite Forall_cons.
  destruct (Z.eqb_spec x c) as [->|Hne]; [split; [done|by intros [? _]]|].
  destruct (split_once c s) as [[a b]|]; cbn; [|tauto]. split; [done|]. intros [_ Hs]. by apply IH in Hs.
Qed.

(** Pieces joined by a separator. *)
Fixpoint join_with (c : Z) (pieces : list (list Z)) : list Z :=
  match pieces with
  | [] => []
  | [p] => p
  | p :: rest => p ++ c :: join_with c rest
  end.

Lemma split_on_spec c s : split_on c s <> [] /\ s = join_with c (split_on c s)
  /\ Forall (Forall (fun x => x <> c)) (split_on c s).
Proof.
  induction s as [|x s (Hne & Hs & Hf)]; cbn [split_on].
  - split_and!; [done|done|]. repeat constructor.
  - destruct (Z.eqb_spec x c) as [->|Hx].
    + split_and!; [done| |by constructor]. cbn. destruct (split_on c s) eqn:E; [done|]. rewrite <- E in *. by rewrite <- Hs.
    + destruct (split_on c s) as [|first others]; [done|]. apply Forall_cons in Hf as [H1 H2].
      split_and!; [done| |by repeat constructor]. rewrite Hs. by destruct others.
Qed.

Lemma split_joined c pieces : pieces <> [] -> Forall (Forall (fun x => x <> c)) pieces ->
  split_on c (join_with c pieces) = pieces.
Proof.
  intros Hne Hp. induction Hp as [|p rest Hp Hrest IH]; [done|]. clear Hne.
  assert (forall tl, split_on c (p ++ tl) = match split_on c tl with [] => [p] | f :: o => (p ++ f) :: o end) as Hpre.
  { intros tl. pose proof (proj1 (split_on_spec c tl)) as Hn. induction Hp as [|x p Hx Hp IHp]; cbn.
    - by destruct (split_on c tl).
    - rewrite (proj2 (Z.eqb_neq x c)) by done. rewrite IHp. by destruct (split_on c tl). }
  destruct rest as [|q rest].
  - cbn. specialize (Hpre []). rewrite app_nil_r in Hpre. rewrite Hpre. cbn. by rewrite app_nil_r.
  - cbn [join_with]. rewrite Hpre. cbn [split_on]. rewrite Z.eqb_refl, app_nil_r. f_equal. by apply IH.
Qed.

(** ** Selectors *)

(** The texts of selectors. *)
Inductive selector_text : list Z -> UsbSelector -> Prop :=
| text_index s n : numeral 10 USIZE_MAX s n -> selector_text s (SelectIndex n)
| text_path bus b pieces ports : numeral 10 255 bus b -> pieces <> [] -> Forall2 (numeral 10 255) pieces ports ->
    selector_text (bus ++ MINUS :: join_with DOT pieces) (SelectPath b ports)
| text_vid_pid vendor v product p : numeral 16 65535 vendor v -> numeral 16 65535 product p ->
    selector_text (vendor ++ COLON :: product) (SelectVidPid v p None 0)
| text_serial vendor v product p serial : numeral 16 65535 vendor v -> numeral 16 65535 product p -> serial <> [] ->
    selector_text (vendor ++ COLON :: product ++ SLASH :: serial) (SelectVidPid v p (Some serial) 0)
| text_occurrence vendor v product p occurrence n : numeral 16 65535 vendor v -> numeral 16 65535 product p ->
    numeral 10 USIZE_MAX occurrence n ->
    selector_text (vendor ++ COLON :: product ++ HASH :: occurrence) (SelectVidPid v p None n).

(** The part of the parser after the prefix. *)
Definition parse_stripped (value : list Z) : res UsbError UsbSelector :=
  match split_once COLON value with
  | Some (vendor, product) =>
      vendor_id ← parse_hex_id vendor;
      '(product, serial_number, occurrence) ←
        match split_once SLASH product with
        | Some (product, serial) =>
            match serial with [] => Err InvalidSelector | _ => Ok (product, Some serial, 0) end
        | None =>
            match split_once HASH product with
            | Some (product, occurrence) =>
                occurrence ← ok_or (from_str_radix 10 USIZE_MAX occurrence) InvalidSelector;
                Ok (product, None, occurrence)
            | None => Ok (product, None, 0)
            end
        end;
      product_id ← parse_hex_id product;
      Ok (SelectVidPid vendor_id product_id serial_number occurrence)
  | None =>
      match split_once MINUS value with
      | Some (bus, ports) =>
          bus ← ok_or (from_str_radix 10 255 bus) InvalidSelector;
          ports ← collect ((fun port => ok_or (from_str_radix 10 255 port) InvalidSelector) <$> split_on DOT ports);
          match ports with [] => Err InvalidSelector | _ => Ok (SelectPath bus ports) end
      | None => index ← ok_or (from_str_radix 10 USIZE_MAX value) InvalidSelector; Ok (SelectIndex index)
      end
  end.

Lemma parse_unfold value : UsbSelector_parse value = parse_stripped (strip_usb value).
Proof. unfold UsbSelector_parse. by destruct (strip_usb value). Qed.

Lemma numeral_avoids radix max s n c : numeral radix max s n -> c ∈ [COLON; SLASH; HASH; MINUS; DOT; 117] ->
  Forall (fun x => x <> c) s.
Proof.
  intros Hn Hc. apply numeral_chars in Hn as [_ Hn]. eapply Forall_impl; [exact Hn|]. intros x Hx ->. done.
Qed.

Lemma radix_numeral radix max s n : numeral radix max s n -> 1 <= radix -> 0 <= max ->
  ok_or (from_str_radix radix max s) InvalidSelector = Ok n.
Proof. intros Hn Hr Hm. by rewrite (proj2 (from_str_radix_spec radix max s n Hr Hm) Hn). Qed.

Lemma numeral_radix radix max s n : 1 <= radix -> 0 <= max ->
  ok_or (from_str_radix radix max s) InvalidSelector = Ok n -> numeral radix max s n.
Proof.
  intros Hr Hm Hn. apply from_str_radix_spec; [done|done|]. destruct (from_str_radix radix max s); by simplify_eq/=.
Qed.

Lemma ports_numeral pieces ports :
  collect ((fun port => ok_or (from_str_radix 10 255 port) InvalidSelector) <$> pieces) = Ok ports
  <-> Forall2 (numeral 10 255) pieces ports.
Proof.
  split.
  - revert ports. induction pieces as [|q pieces IH]; intros ports Hc; cbn in Hc; [by injection Hc as <-|].
    destruct (from_str_radix 10 255 q) as [n|] eqn:Hq; [|done]. cbn in Hc.
    destruct (collect _) as [ns|e|]; try done. injection Hc as <-. constructor; [|by apply IH].
    by apply from_str_radix_spec.
  - induction 1 as [|q n pieces ports Hq Hps IH]; [done|]. rewrite fmap_cons. cbn [collect].
    rewrite radix_numeral with (n := n) by (done || lia). cbn [mbind res_bind]. by rewrite IH.
Qed.

Lemma first_char_not_u c s : c ∉ [COLON; SLASH; HASH; MINUS; DOT; 117] -> take 4 (c :: s) <> USB_PREFIX.
Proof. intros Hc [= -> _]. apply Hc. by_compute. Qed.

Lemma numeral_starts radix max s n t : numeral radix max s n -> take 4 (s ++ t) <> USB_PREFIX.
Proof.
  intros Hn. apply numeral_chars in Hn as [Hne Hf]. destruct s as [|c s]; [done|].
  apply Forall_cons in Hf as [Hc _]. by apply first_char_not_u.
Qed.

Lemma numeral_cut radix max s n c t : numeral radix max s n -> c ∈ [COLON; SLASH; HASH; MINUS; DOT; 117] ->
  split_once c (s ++ c :: t) = Some (s, t).
Proof. intros Hn Hc. apply split_once_Some. split; [done|]. by eapply numeral_avoids. Qed.

Lemma numeral_uncut radix max s n c : numeral radix max s n -> c ∈ [COLON; SLASH; HASH; MINUS; DOT; 117] ->
  split_once c s = None.
Proof. intros Hn Hc. apply split_once_None. by eapply numeral_avoids. Qed.

Lemma numerals_join c pieces ports : c ∈ [COLON; SLASH; HASH; MINUS; 117] -> Forall2 (numeral 10 255) pieces ports ->
  Forall (fun x => x <> c) (join_with DOT pieces).
Proof.
  intros Hc Hp. assert (c ∈ [COLON; SLASH; HASH; MINUS; DOT; 117] /\ DOT <> c) as [Hin Hdot].
  { repeat (apply elem_of_cons in Hc as [-> | Hc]; [split; [by_compute|done]|]). by apply not_elem_of_nil in Hc. }
  induction Hp as [|q n pieces ports Hq Hps IH]; [constructor|].
  pose proof (numeral_avoids _ _ _ _ _ Hq Hin). destruct pieces as [|q' pieces]; [done|].
  cbn [join_with]. apply Forall_app. split; [done|]. by constructor.
Qed.

(** Membership in the list of separators. *)
Ltac sep := by_compute.

Lemma selector_text_parses s sel : selector_text s sel -> parse_stripped s = Ok sel /\ take 4 s <> USB_PREFIX.
Proof.
  intros Hs. split; cycle 1.
  { destruct Hs as [s n Hn| | | |]; [rewrite <- (app_nil_r s)|..]; by eapply numeral_starts. }
  unfold parse_stripped, parse_hex_id.
  destruct Hs as [s n Hn|bus b pieces ports Hb Hne Hp|vendor v product p Hv Hp|vendor v product p serial Hv Hp Hs
    |vendor v product p occurrence n Hv Hp Hn].
  - rewrite !(numeral_uncut _ _ _ _ _ Hn) by sep. by rewrite (radix_numeral _ _ _ _ Hn) by done.
  - assert (split_once COLON (bus ++ MINUS :: join_with DOT pieces) = None) as ->.
    { apply split_once_None, Forall_app. split; [eapply numeral_avoids; [exact Hb|sep]|].
      constructor; [done|]. eapply numerals_join; [sep|exact Hp]. }
    rewrite (numeral_cut _ _ _ _ _ _ Hb) by sep. rewrite (radix_numeral _ _ _ _ Hb) by done. cbn [mbind res_bind].
    rewrite split_joined; [|done|].
    + rewrite (proj2 (ports_numeral pieces ports) Hp). cbn [mbind res_bind]. by destruct Hp.
    + clear Hb Hne. induction Hp as [|q n pieces ports Hq _ IH]; constructor; [|exact IH]. eapply numeral_avoids; [exact Hq|sep].
  - rewrite (numeral_cut _ _ _ _ _ _ Hv), (radix_numeral _ _ _ _ Hv) by (sep || done). cbn [mbind res_bind].
    rewrite !(numeral_uncut _ _ _ _ _ Hp) by sep. cbn [mbind res_bind].
    by rewrite (radix_numeral _ _ _ _ Hp) by done.
  - rewrite (numeral_cut _ _ _ _ _ _ Hv), (radix_numeral _ _ _ _ Hv) by (sep || done). cbn [mbind res_bind].
    rewrite (numeral_cut _ _ _ _ _ _ Hp) by sep. destruct serial as [|c serial]; [done|]. cbn [mbind res_bind].
    by rewrite (radix_numeral _ _ _ _ Hp) by done.
  - rewrite (numeral_cut _ _ _ _ _ _ Hv), (radix_numeral _ _ _ _ Hv) by (sep || done). cbn [mbind res_bind].
    assert (split_once SLASH (product ++ HASH :: occurrence) = None) as ->.
    { apply split_once_None, Forall_app. split; [eapply numeral_avoids; [exact Hp|sep]|].
      constructor; [done|]. eapply numeral_avoids; [exact Hn|sep]. }
    rewrite (numeral_cut _ _ _ _ _ _ Hp), (radix_numeral _ _ _ _ Hn) by (sep || done). cbn [mbind res_bind].
    by rewrite (radix_numeral _ _ _ _ Hp) by done.
Qed.

Lemma parses_selector_text s sel : parse_stripped s = Ok sel -> selector_text s sel.
Proof.
  unfold parse_stripped, parse_hex_id. intros Hs.
  destruct (split_once COLON s) as [[vendor product]|] eqn:Hc.
  - apply split_once_Some in Hc as [-> _]. destruct (ok_or (from_str_radix 16 65535 vendor) _) as [v| |] eqn:Hv; try done.
    apply numeral_radix in Hv; [|lia|done]. cbn [mbind res_bind] in Hs.
    destruct (split_once SLASH product) as [[product' serial]|] eqn:Hsl.
    + apply split_once_Some in Hsl as [-> _]. destruct serial as [|c serial]; [done|]. cbn [mbind res_bind] in Hs.
      destruct (ok_or (from_str_radix 16 65535 product') _) as [p| |] eqn:Hp; try done. injection Hs as <-.
      apply numeral_radix in Hp; [|lia|done]. by constructor.
    + destruct (split_once HASH product) as [[product' occurrence]|] eqn:Hh; cbn [mbind res_bind] in Hs.
      * apply split_once_Some in Hh as [-> _].
        destruct (ok_or (from_str_radix 10 USIZE_MAX occurrence) _) as [n| |] eqn:Hn; try done. cbn [mbind res_bind] in Hs.
        destruct (ok_or (from_str_radix 16 65535 product') _) as [p| |] eqn:Hp; try done. injection Hs as <-.
        apply numeral_radix in Hp; [|lia|done]. apply numeral_radix in Hn; [|lia|done]. by constructor.
      * destruct (ok_or (from_str_radix 16 65535 product) _) as [p| |] eqn:Hp; try done. injection Hs as <-.
        apply numeral_radix in Hp; [|lia|done]. by constructor.
  - destruct (split_once MINUS s) as [[bus ports]|] eqn:Hm.
    + apply split_once_Some in Hm as [-> _]. destruct (ok_or (from_str_radix 10 255 bus) _) as [b| |] eqn:Hb; try done.
      apply numeral_radix in Hb; [|lia|done]. cbn [mbind res_bind] in Hs.
      destruct (collect _) as [ns| |] eqn:Hp; try done. cbn [mbind res_bind] in Hs. destruct ns as [|n ns]; [done|].
      injection Hs as <-. apply ports_numeral in Hp. destruct (split_on_spec DOT ports) as (Hne & -> & _).
      by constructor.
    + destruct (ok_or (from_str_radix 10 USIZE_MAX s) _) as [n| |] eqn:Hn; try done. injection Hs as <-.
      apply numeral_radix in Hn; [|lia|done]. by constructor.
Qed.

Lemma parse_stripped_panic_free s : parse_stripped s <> Panic.
Proof.
  unfold parse_stripped, parse_hex_id. destruct (split_once COLON s) as [[v p]|]; [|destruct (split_once MINUS s) as [[b p]|]].
  - apply bind_no_panic; [apply ok_or_no_panic|]. intros vid _. apply bind_no_panic.
    + destruct (split_once SLASH p) as [[? [|]]|]; [done|done|]. destruct (split_once HASH p) as [[? o]|]; [|done].
      apply bind_no_panic; [apply ok_or_no_panic|done].
    + intros [[p' se] oc] _. apply bind_no_panic; [apply ok_or_no_panic|done].
  - apply bind_no_panic; [apply ok_or_no_panic|]. intros bus _. apply bind_no_panic.
    + apply collect_no_panic, Forall_fmap, Forall_true. intros q. apply ok_or_no_panic.
    + intros [|] _; done.
  - apply bind_no_panic; [apply ok_or_no_panic|done].
Qed.

(** C34. The selector parser accepts exactly the texts of the grammar, with or
    without the prefix [usb:], and gives what they stand for: a number is an
    index, [bus-port.port] a path, and [vendor:product], with [/serial] or
    [#occurrence], an identity; numbers out of range of their type, empty
    pieces and anything else are refused, and nothing panics. *)
Theorem selector_parse_exact value sel :
  (UsbSelector_parse value = Ok sel
   <-> selector_text value sel \/ exists s, value = USB_PREFIX ++ s /\ selector_text s sel)
  /\ UsbSelector_parse value <> Panic.
Proof.
  rewrite parse_unfold. unfold strip_usb. split.
  - split.
    + intros Hp. apply parses_selector_text in Hp. case_bool_decide as Hpre; [right|by left].
      exists (drop 4 value). by rewrite <- Hpre, take_drop.
    + intros [Hs|(s & -> & Hs)]; apply selector_text_parses in Hs as [Hp Hpre]; [by rewrite bool_decide_eq_false_2|exact Hp].
  - assert (forall s, parse_stripped s <> Panic) as Hn; [|apply Hn].
    intros s. apply parse_stripped_panic_free.
Qed.
