(* ===== verification/UsbReader.v ===== *)
(** * The reader thread ([src/src/usb.rs])

    The thread that polls the adapter, the sink and the consumer, in any
    interleaving: what comes out of the channel is the framing of what was
    read, then the reason the thread ended. *)
From S2P Require Import Prelude Values Hci Usb UsbProps.

(** ** A backend that records its reads *)

Record Traced (B : Type) : Type := mkTraced { tr_inner : B; tr_events : list (list Z); tr_acls : list (list Z) }.
Arguments mkTraced {B} tr_inner tr_events tr_acls.
Arguments tr_inner {B} t.
Arguments tr_events {B} t.
Arguments tr_acls {B} t.

Definition tr_log {B} (events : bool) (t : Traced B) : list (list Z) := if events then tr_events t else tr_acls t.

Section traced.
Context {B : Type} `{UsbIo B}.

(** A read is recorded when it gives bytes that fit its buffer. *)
Definition record_read (events : bool) (m : stm B UsbTransferError (Z * list Z)) : stm (Traced B) UsbTransferError (Z * list Z) :=
  fun t =>
    let '(r, b) := m (tr_inner t) in
    let data := match r with
                | Ok (count, transfer) =>
                    if (count =? 0) || (len transfer <? count) then [] else [take (Z.to_nat count) transfer]
                | _ => []
                end in
    (r, if events then mkTraced b (tr_events t ++ data) (tr_acls t) else mkTraced b (tr_events t) (tr_acls t ++ data)).

Definition untraced {A} (m : stm B UsbTransferError A) : stm (Traced B) UsbTransferError A := fun t =>
  let '(r, b) := m (tr_inner t) in (r, mkTraced b (tr_events t) (tr_acls t)).

#[global] Instance TracedIo : UsbIo (Traced B) := {
  read_interrupt endpoint size timeout := record_read true (read_interrupt endpoint size timeout);
  read_bulk endpoint size timeout := record_read false (read_bulk endpoint size timeout);
  write_control request_type buffer timeout := untraced (write_control request_type buffer timeout);
  write_bulk endpoint buffer timeout := untraced (write_bulk endpoint buffer timeout)
}.

Definition traced_transport (t : UsbTransport B) : UsbTransport (Traced B) :=
  UsbTransport_new (mkTraced (backend t) [] []) (layout t) (metadata t).
End traced.

(** ** Streams *)

Definition stream_type (events : bool) : Z := if events then EVENT_PACKET_TYPE else ACL_PACKET_TYPE.

Definition of_stream (events : bool) (p : Packet) : Prop :=
  match p with Event _ => events = true | Acl _ => events = false | Command _ => False end.

#[global] Instance of_stream_dec events p : Decision (of_stream events p).
Proof. destruct p; cbn; apply _. Defined.

Definition stream_buffer {B} (events : bool) (t : UsbTransport B) : list Z := if events then event_bytes t else acl_bytes t.

Lemma from_bytes_stream ev l p : Packet_from_bytes (stream_type ev :: l) = Ok p -> of_stream ev p.
Proof.
  unfold Packet_from_bytes, res_map. destruct ev; cbn [head ok_or mbind res_bind stream_type].
  - change (EVENT_PACKET_TYPE =? COMMAND_PACKET_TYPE) with false. rewrite Z.eqb_refl. cbv iota.
    destruct (EventPacket_from_bytes (EVENT_PACKET_TYPE :: l)); cbn; by intros [= <-].
  - change (ACL_PACKET_TYPE =? COMMAND_PACKET_TYPE) with false. change (ACL_PACKET_TYPE =? EVENT_PACKET_TYPE) with false.
    rewrite Z.eqb_refl. cbv iota. destruct (AclPacket_from_bytes (ACL_PACKET_TYPE :: l)); cbn; by intros [= <-].
Qed.

Lemma frame_loop_stream ev fuel : forall acc b ps b', Forall (of_stream ev) acc ->
  frame_loop fuel (stream_type ev) acc b = (Ok ps, b') -> Forall (of_stream ev) ps.
Proof.
  induction fuel as [|fuel IH]; intros acc b ps b' Hacc; cbn [frame_loop]; unfold mbind, stm_bind, get, put, lift, throw, mret, stm_ret;
    destruct (raw_length _ b) as [[raw|]|e|]; try done; try (by intros [= <- <-]);
    (destruct (_ <? _); [done|]); (destruct (len b <? raw); [by intros [= <- <-]|]);
    destruct (Packet_from_bytes _) as [p| |] eqn:Hp; cbn; try done.
  apply IH, Forall_app. split; [done|]. apply from_bytes_stream in Hp. by constructor.
Qed.

Lemma frame_packets_stream ev b ps b' : frame_packets (stream_type ev) b = (Ok ps, b') ->
  filter (of_stream ev) ps = ps /\ filter (of_stream (negb ev)) ps = [].
Proof.
  intros Hf. apply frame_loop_stream in Hf; [|constructor].
  induction Hf as [|p ps Hp _ [IH1 IH2]]; [done|]. rewrite !filter_cons, IH1, IH2.
  rewrite decide_True by done. rewrite decide_False by (destruct p, ev; cbn in *; congruence). done.
Qed.

Lemma feed_transfers_snoc ty ts data : forall b ps b', feed_transfers ty ts b = (Ok ps, b') ->
  feed_transfers ty (ts ++ [data]) b =
    let '(r, rest) := frame_packets ty (b' ++ data) in (res_map (fun more => ps ++ more) r, rest).
Proof.
  induction ts as [|d ts IH]; intros b ps b' Hf.
  - injection Hf as <- <-. cbn. unfold mbind, stm_bind, get, put, mret, stm_ret.
    destruct (frame_packets ty (b ++ data)) as [[more| |] rest]; cbn; [by rewrite app_nil_r|done|done].
  - cbn [feed_transfers app] in *. unfold mbind, stm_bind, get, put, mret, stm_ret in *.
    destruct (frame_packets ty (b ++ d)) as [[ps1| |] b1]; [|done|done].
    destruct (feed_transfers ty ts b1) as [[ps2| |] b2] eqn:Hr; [|done|done]. injection Hf as <- <-.
    rewrite (IH _ _ _ Hr). destruct (frame_packets ty (b2 ++ data)) as [[more| |] rest]; cbn; [by rewrite app_assoc|done|done].
Qed.

(** The transport has framed what was recorded; [sent] of it was handed out. *)
Definition framed {B} (sent : list Packet) (t : UsbTransport (Traced B)) : Prop :=
  forall ev, feed_transfers (stream_type ev) (tr_log ev (backend t)) []
             = (Ok (filter (of_stream ev) (sent ++ pending_packets t)), stream_buffer ev t).

(** The same once a transfer was refused: it may be the last of a record. *)
Definition framed_until {B} (sent : list Packet) (t : UsbTransport (Traced B)) : Prop :=
  forall ev, exists ts, ts `prefix_of` tr_log ev (backend t)
    /\ (feed_transfers (stream_type ev) ts []).1 = Ok (filter (of_stream ev) sent).

Section polls.
Context {B : Type} `{UsbIo B}.
Implicit Types t : UsbTransport (Traced B).

Lemma framed_ext sent t t' : tr_events (backend t') = tr_events (backend t) -> tr_acls (backend t') = tr_acls (backend t) ->
  pending_packets t' = pending_packets t -> event_bytes t' = event_bytes t -> acl_bytes t' = acl_bytes t ->
  framed sent t -> framed sent t'.
Proof.
  intros He Ha Hp Hb Hc Hf ev. specialize (Hf ev). destruct ev; cbn in *; congruence.
Qed.

Lemma framed_stopped sent t : pending_packets t = [] -> framed sent t -> framed_until sent t.
Proof.
  intros Hp Hf ev. exists (tr_log ev (backend t)). split; [done|]. by rewrite Hf, Hp, app_nil_r.
Qed.

(** What a read leaves behind. *)
Lemma read_spec (ev : bool) size timeout (t t1 : UsbTransport (Traced B)) r :
  on_backend (if ev then read_interrupt (interrupt_in (layout t)) size timeout
              else read_bulk (bulk_in (layout t)) size timeout) t = (r, t1) ->
  exists b data, t1 = set_backend (if ev then mkTraced b (tr_events (backend t) ++ data) (tr_acls (backend t))
                                  else mkTraced b (tr_events (backend t)) (tr_acls (backend t) ++ data)) t
    /\ data = match r with
              | Ok (count, transfer) =>
                  if (count =? 0) || (len transfer <? count) then [] else [take (Z.to_nat count) transfer]
              | _ => []
              end.
Proof.
  unfold on_backend. destruct ev; cbn; unfold record_read.
  - destruct (read_interrupt _ _ _ _) as [r0 b]. intros [= <- <-]. eauto.
  - destruct (read_bulk _ _ _ _) as [r0 b]. intros [= <- <-]. eauto.
Qed.

Lemma extend_framed (ev : bool) data sent t b r t' : pending_packets t = [] -> framed sent t ->
  (extend_stream ev data ;; pop_pending)
    (set_backend (if ev then mkTraced b (tr_events (backend t) ++ [data]) (tr_acls (backend t))
                  else mkTraced b (tr_events (backend t)) (tr_acls (backend t) ++ [data])) t) = (r, t') ->
  match r with
  | Ok (Some p) => framed (sent ++ [p]) t'
  | Ok None => framed sent t'
  | _ => framed_until sent t'
  end.
Proof.
  intros Hp Hf. unfold extend_stream, mbind, stm_bind.
  assert (forall ev : bool, feed_transfers (stream_type ev) (tr_log ev (backend t)) []
    = (Ok (filter (of_stream ev) sent), stream_buffer ev t)) as Hf'.
  { intros e. by rewrite Hf, Hp, app_nil_r. }
  pose proof (feed_transfers_snoc _ _ data _ _ _ (Hf' ev)) as Hs.
  change (if ev then EVENT_PACKET_TYPE else ACL_PACKET_TYPE) with (stream_type ev).
  assert (forall x, (if ev then event_bytes (set_backend x t) else acl_bytes (set_backend x t)) = stream_buffer ev t) as ->
    by (by destruct ev).
  destruct (frame_packets (stream_type ev) (stream_buffer ev t ++ data)) as [[ps|e|] rest] eqn:Hfr.
  - apply frame_packets_stream in Hfr as [Hown Hother]. cbn in Hs. intros Hpop.
    assert (framed sent (set_pending_packets ps ((if ev then set_event_bytes rest else set_acl_bytes rest)
       (set_backend (if ev then mkTraced b (tr_events (backend t) ++ [data]) (tr_acls (backend t))
                  else mkTraced b (tr_events (backend t)) (tr_acls (backend t) ++ [data])) t)))) as Hnew.
    { intros e. destruct e, ev; cbn in *; rewrite filter_app, ?Hown, ?Hother, ?app_nil_r;
      first [exact Hs | apply Hf' | exact (Hf' true) | exact (Hf' false)]. }
    unfold pop_pending in Hpop.
    destruct ps as [|p ps], ev; cbn in Hpop, Hnew; rewrite Hp in Hpop; injection Hpop as <- <-;
      try (eapply framed_ext, Hnew; done);
      intros e; specialize (Hnew e); rewrite <- app_assoc; exact Hnew.
  - intros [= <- <-]. intros e'. exists (tr_log e' (backend t)). split; [|by rewrite Hf'].
    destruct e', ev; cbn; try done; by exists [data].
  - intros [= <- <-]. intros e'. exists (tr_log e' (backend t)). split; [|by rewrite Hf'].
    destruct e', ev; cbn; try done; by exists [data].
Qed.

Lemma poll_transfer_framed (ev : bool) sent t r t' : pending_packets t = [] -> framed sent t ->
  poll_transfer ev t = (r, t') ->
  match r with
  | Ok (Some p) => framed (sent ++ [p]) t'
  | Ok None => framed sent t'
  | _ => framed_until sent t'
  end.
Proof.
  intros Hp Hf. unfold poll_transfer. destruct (on_backend _ t) as [r0 t1] eqn:Hr.
  apply read_spec in Hr as (b & data & -> & Hdata).
  assert (data = [] -> framed sent (set_backend (if ev then mkTraced b (tr_events (backend t) ++ data) (tr_acls (backend t))
     else mkTraced b (tr_events (backend t)) (tr_acls (backend t) ++ data)) t)) as Hsame.
  { intros ->. destruct ev; (eapply framed_ext, Hf; [..|done|done|done]); cbn; by rewrite ?app_nil_r. }
  destruct r0 as [[count transfer]|e|].
  - destruct (count =? 0) eqn:Hc; [intros [= <- <-]; by apply Hsame|].
    destruct (len transfer <? count) eqn:Hl; [intros [= <- <-]|].
    + apply framed_stopped, Hsame, Hdata. by destruct ev.
    + cbn in Hdata. subst data. by apply extend_framed.
  - destruct e; intros [= <- <-]; try (by apply Hsame); (apply framed_stopped; [by destruct ev|by apply Hsame]).
  - intros [= <- <-]. apply framed_stopped; [by destruct ev|by apply Hsame].
Qed.

Lemma poll_packet_framed sent t r t' : framed sent t -> poll_packet t = (r, t') ->
  match r with
  | Ok (Some p) => framed (sent ++ [p]) t'
  | Ok None => framed sent t'
  | _ => framed_until sent t'
  end.
Proof.
  intros Hf. unfold poll_packet. destruct (shutdown t); [by intros [= <- <-]|].
  destruct (pending_packets t) as [|p rest] eqn:Hp.
  - apply poll_transfer_framed; [done|]. by eapply framed_ext, Hf.
  - intros [= <- <-] ev. specialize (Hf ev). rewrite Hp in Hf. by rewrite <- app_assoc.
Qed.

Lemma write_packet_same p t : exists b, (write_packet p t).2 = set_backend (mkTraced b (tr_events (backend t)) (tr_acls (backend t))) t.
Proof.
  assert (exists b, t = set_backend (mkTraced b (tr_events (backend t)) (tr_acls (backend t))) t) as Hsame.
  { exists (tr_inner (backend t)). by destruct t as [[]]. }
  unfold write_packet. destruct (shutdown t); [exact Hsame|]. destruct (Packet_to_bytes p) as [|ty payload]; [exact Hsame|].
  destruct (ty =? COMMAND_PACKET_TYPE); [|destruct (ty =? ACL_PACKET_TYPE); [|exact Hsame]];
    unfold on_backend; cbn; unfold untraced.
  - destruct (write_control _ _ _ _) as [[]]; cbn; eauto.
  - destruct (write_bulk _ _ _ _) as [[]]; cbn; eauto.
Qed.
End polls.

(** ** Interleavings *)

(** What the thread, the consumer and the sink do, each atomically: a round of
    the thread's loop, a [recv_timeout], a [send], the [close], and the [drop]. *)
Inductive ReaderAct : Type :=
| ActRound
| ActReceive
| ActSend (packet : Packet)
| ActClose
| ActDrop.

Section runs.
Context {B : Type} `{UsbIo B}.

Definition reader_act (a : ReaderAct) (s : OpenedUsb B * list ReaderEvent) : OpenedUsb B * list ReaderEvent :=
  let '(o, received) := s in
  match a with
  | ActRound => (worker_step o, received)
  | ActReceive =>
      let '(r, o) := opened_recv_timeout o in
      (o, received ++ match r with inl event => [event] | inr _ => [] end)
  | ActSend packet => ((opened_send packet o).2, received)
  | ActClose => ((opened_close o).2, received)
  | ActDrop => (PacketReader_drop o, received)
  end.

Definition reader_run (acts : list ReaderAct) (s : OpenedUsb B * list ReaderEvent) : OpenedUsb B * list ReaderEvent :=
  foldl (fun s a => reader_act a s) s acts.
End runs.

(** How the events of a thread end. *)
Inductive reader_end : Worker -> list ReaderEvent -> Prop :=
| end_running : reader_end WorkerRunning []
| end_panicked : reader_end WorkerPanicked []
| end_shutdown : reader_end WorkerFinished [ReaderEnded]
| end_failed e : reader_end WorkerFinished [ReaderFailed e; ReaderEnded].

Definition sound_end (w : Worker) (tail : list ReaderEvent) : Prop :=
  w <> WorkerPanicked /\ forall e, ReaderFailed e ∉ tail.

Section life.
Context {B : Type} `{UsbIo B}.

(** The events up to now, those received and those in the channel. *)
Record reader_inv (o : OpenedUsb (Traced B)) (all : list ReaderEvent) (ps : list Packet) (tail : list ReaderEvent) : Prop := {
  ri_events : all = (ReaderPacket <$> ps) ++ tail;
  ri_end : reader_end (ou_worker o) tail;
  ri_notified : ou_notified o = length all;
  ri_framed : sound_end (ou_worker o) tail -> framed ps (ou_transport o);
  ri_until : ~ sound_end (ou_worker o) tail -> framed_until ps (ou_transport o);
  ri_join : ou_join o = negb (shutdown (ou_transport o));
  ri_closed : shutdown (ou_transport o) = true -> ou_worker o <> WorkerRunning
}.

Lemma running_sound : sound_end WorkerRunning [].
Proof. split; [done|]. intros e. apply not_elem_of_nil. Qed.

Lemma shutdown_sound : sound_end WorkerFinished [ReaderEnded].
Proof. split; [done|]. intros e He. apply list_elem_of_singleton in He. done. Qed.

Lemma failed_unsound e : ~ sound_end WorkerFinished [ReaderFailed e; ReaderEnded].
Proof. intros [_ Hs]. apply (Hs e). by apply elem_of_cons; left. Qed.

Lemma poll_packet_shutdown (t t' : UsbTransport (Traced B)) r : poll_packet t = (r, t') -> shutdown t' = shutdown t.
Proof.
  unfold poll_packet. destruct (shutdown t) eqn:Hs; [by intros [= <- <-]|].
  destruct (pending_packets t); [|by intros [= <- <-]]. unfold poll_transfer.
  destruct (on_backend _ _) as [r0 t1] eqn:Hr. apply read_spec in Hr as (b & data & -> & _).
  destruct r0 as [[count transfer]|e|]; [|destruct e; by intros [= <- <-]|by intros [= <- <-]].
  destruct (count =? 0); [by intros [= <- <-]|]. destruct (_ <? count); [by intros [= <- <-]|].
  unfold extend_stream, mbind, stm_bind, pop_pending. set (ev := negb (next_endpoint t)).
  destruct (frame_packets _ _) as [[ps| |] rest]; [|by destruct ev; intros [= <- <-]..].
  destruct ev; cbn; destruct (_ ++ ps); intros [= <- <-]; done.
Qed.

Lemma round_inv o all ps tail : reader_inv o all ps tail -> exists ps' tail' news,
  reader_inv (worker_step o) (all ++ news) ps' tail' /\ ou_channel (worker_step o) = ou_channel o ++ news.
Proof.
  intros [Hall Hend Hnot Hfr Hun Hj Hc]. unfold worker_step. destruct o as [t ch w join nt];
    cbn [ou_worker ou_transport ou_channel ou_join ou_notified] in *.
  destruct Hend as [| | |e]; [|exists ps, [], []|exists ps, [ReaderEnded], []|exists ps, [ReaderFailed e; ReaderEnded], []];
    cbn [ou_worker ou_channel ou_transport]; rewrite ?app_nil_r in *; try (by split; [constructor; cbn; rewrite ?app_nil_r; try done;
      constructor|rewrite ?app_nil_r]).
  specialize (Hfr running_sound). destruct (shutdown t) eqn:Hs; [by destruct (Hc eq_refl)|].
  destruct (poll_packet t) as [r t'] eqn:Hp. pose proof (poll_packet_shutdown _ _ _ Hp) as Hs'. rewrite Hs in Hs'.
  apply (poll_packet_framed ps) in Hp; [|done]. destruct r as [[p|]|e|]; cbn.
  - exists (ps ++ [p]), [], [ReaderPacket p]. split; [constructor|done]; cbn;
      rewrite ?Hs', ?length_app, ?fmap_app, ?app_nil_r; try done; [by rewrite Hall|constructor|cbn; lia|by intros []; apply running_sound].
  - exists ps, [], []. rewrite !app_nil_r. split; [constructor|done]; cbn; rewrite ?Hs', ?app_nil_r; try done; [constructor|].
    by intros []; apply running_sound.
  - exists ps, [ReaderFailed e; ReaderEnded], [ReaderFailed e; ReaderEnded].
    split; [constructor|by rewrite <- app_assoc]; cbn; rewrite ?Hs', ?length_app; try done; [by rewrite Hall|constructor|cbn; lia|].
    intros Hx. by apply failed_unsound in Hx.
  - exists ps, [], []. rewrite !app_nil_r. split; [constructor|done]; cbn; rewrite ?Hs', ?app_nil_r; try done; [constructor|].
    by intros [].
Qed.

Lemma send_inv packet o all ps tail : reader_inv o all ps tail -> reader_inv (opened_send packet o).2 all ps tail.
Proof.
  intros [Hall Hend Hnot Hfr Hun Hj Hc]. unfold opened_send. destruct (write_packet_same packet (ou_transport o)) as [b Hb].
  destruct (write_packet packet (ou_transport o)) as [r t]. cbn in Hb. subst t. constructor; cbn; try done.
Qed.

Lemma receive_inv o all ps tail : reader_inv o all ps tail -> reader_inv (opened_recv_timeout o).2 all ps tail.
Proof.
  intros [Hall Hend Hnot Hfr Hun Hj Hc]. unfold opened_recv_timeout. by destruct (ou_channel o); constructor.
Qed.

Lemma framed_until_ext sent (t t' : UsbTransport (Traced B)) : backend t' = backend t -> framed_until sent t -> framed_until sent t'.
Proof. intros Hb Hf ev. rewrite Hb. apply Hf. Qed.

Lemma close_inv o all ps tail : reader_inv o all ps tail -> exists tail' news,
  reader_inv (opened_close o).2 (all ++ news) ps tail' /\ ou_channel (opened_close o).2 = ou_channel o ++ news
  /\ shutdown (ou_transport (opened_close o).2) = true.
Proof.
  intros [Hall Hend Hnot Hfr Hun Hj Hc]. unfold opened_close, worker_step.
  destruct o as [t ch w join nt]; cbn [ou_worker ou_transport ou_channel ou_join ou_notified] in *.
  assert (sound_end w tail -> framed ps (set_shutdown true t)) as Hfr' by (intros Hs; by eapply framed_ext, Hfr).
  assert (~ sound_end w tail -> framed_until ps (set_shutdown true t)) as Hun' by (intros Hs; by eapply framed_until_ext, Hun).
  destruct join; destruct Hend; cbn; try (exists [], []; rewrite !app_nil_r in *; by split_and!; [constructor; cbn; rewrite ?app_nil_r;
    try done; constructor|..]);
    try (eexists _, []; rewrite !app_nil_r in *; by split_and!; [constructor; cbn; try done; constructor|..]).
  - exists [ReaderEnded], [ReaderEnded]. split_and!; [constructor; cbn|done|done]; try done.
    + by rewrite Hall, app_nil_r.
    + constructor.
    + rewrite length_app. cbn. lia.
    + intros _. apply Hfr', running_sound.
    + intros []. apply shutdown_sound.
  - destruct (shutdown t) eqn:Hs; [|done]. by destruct (Hc eq_refl).
Qed.

Lemma drop_closes (o : OpenedUsb (Traced B)) : PacketReader_drop o = (opened_close o).2.
Proof. unfold PacketReader_drop, opened_close. by destruct o as [t ch w [] nt]. Qed.

Lemma spawn_inv (t : UsbTransport B) : reader_inv (spawn (traced_transport t)) [] [] [].
Proof.
  constructor; cbn; try done; [constructor| |].
  - intros _ ev. by destruct ev.
  - intros Hn. destruct (Hn running_sound).
Qed.

Lemma run_inv (t : UsbTransport B) acts : let '(o, received) := reader_run acts (spawn (traced_transport t), []) in
  exists ps tail, reader_inv o (received ++ ou_channel o) ps tail /\ (ActClose ∈ acts \/ ActDrop ∈ acts -> shutdown (ou_transport o) = true).
Proof.
  induction acts as [|a acts IH] using rev_ind.
  - exists [], []. split; [apply spawn_inv|]. intros [Hc|Hc]; by apply not_elem_of_nil in Hc.
  - unfold reader_run in *. rewrite foldl_app. cbn [foldl].
    destruct (foldl _ _ acts) as [o received]. destruct IH as (ps & tail & Hinv & Hcl).
    assert (ActClose ∈ acts ++ [a] \/ ActDrop ∈ acts ++ [a] -> a <> ActClose -> a <> ActDrop -> shutdown (ou_transport o) = true) as Hkeep
      by (rewrite !elem_of_app, !list_elem_of_singleton; naive_solver). clear Hcl.
    destruct a as [| |packet| |]; cbn [reader_act].
    + destruct (round_inv _ _ _ _ Hinv) as (ps' & tail' & news & Hinv' & Hch). exists ps', tail'.
      rewrite Hch, app_assoc. split; [done|]. intros Hx. assert (shutdown (ou_transport o) = true) as Hsh by by apply Hkeep.
      unfold worker_step. destruct (ou_worker o) eqn:Hw; try done. by destruct (ri_closed _ _ _ _ Hinv Hsh).
    + pose proof (receive_inv _ _ _ _ Hinv) as Hinv'.
      unfold opened_recv_timeout in *. destruct (ou_channel o) as [|e rest] eqn:Hch; cbn [snd] in *; exists ps, tail.
      * rewrite (app_nil_r received), Hch. split; [done|]. intros Hx. by apply Hkeep.
      * cbn. rewrite <- app_assoc. split; [done|]. intros Hx. by apply Hkeep.
    + pose proof (send_inv packet _ _ _ _ Hinv) as Hinv'. exists ps, tail.
      unfold opened_send in *. destruct (write_packet_same packet (ou_transport o)) as [b Hb].
      destruct (write_packet packet (ou_transport o)) as [r t']. cbn in Hb. subst t'.
      split; [done|]. cbn. intros Hx. by apply Hkeep.
    + destruct (close_inv _ _ _ _ Hinv) as (tail' & news & Hinv' & Hch & Hs). exists ps, tail'.
      rewrite Hch, app_assoc. by split.
    + rewrite drop_closes. destruct (close_inv _ _ _ _ Hinv) as (tail' & news & Hinv' & Hch & Hs). exists ps, tail'.
      rewrite Hch, app_assoc. by split.
Qed.

(** C18. Whatever the adapter returns and however the thread, the consumer and
    the writer interleave: the events received and still in the channel are
    packets, then, once the thread has ended, [Ended], preceded by at most one
    failure; each is announced once. Unless a read failed, the packets of each
    stream, with those not handed out yet, are exactly the framing of the bytes
    read from its endpoint; after a failure they are the framing of a prefix of
    the transfers. Once closed or dropped, the thread no longer runs and writing
    is refused. *)
Theorem reader_stream_exact (t : UsbTransport B) acts :
  let '(o, received) := reader_run acts (spawn (traced_transport t), []) in
  exists ps tail,
    received ++ ou_channel o = (ReaderPacket <$> ps) ++ tail
    /\ reader_end (ou_worker o) tail
    /\ ou_notified o = length (received ++ ou_channel o)
    /\ (sound_end (ou_worker o) tail -> framed ps (ou_transport o))
    /\ (~ sound_end (ou_worker o) tail -> framed_until ps (ou_transport o))
    /\ (ActClose ∈ acts \/ ActDrop ∈ acts -> ou_worker o <> WorkerRunning /\ forall packet, (opened_send packet o).1 = Err UsbClosed).
Proof.
  pose proof (run_inv t acts) as Hrun. destruct (reader_run acts _) as [o received].
  destruct Hrun as (ps & tail & [Hall Hend Hnot Hfr Hun Hj Hc] & Hcl). exists ps, tail. split_and!; try done.
  intros Hin. specialize (Hcl Hin). split; [auto|]. intros packet. unfold opened_send, write_packet. by rewrite Hcl.
Qed.
End life.
