(* ===== verification/Session.v ===== *)
(** * Backend session ([src/src/session.rs])

    The owned session on one controller: initialization, the window in which a
    peer may connect, the routing of controller packets to the host and of the
    host's output to the controller, the protocols on the channels, and the
    bounded queue of application events. The controller link is the class
    [HciIo]; the reader thread of the USB link runs some rounds before each
    receive. Loops run on [fuel]; a run that uses it up ends in [OutOfFuel]. *)
From S2P Require Import Prelude Hci L2cap Ertm Classic Hidp Values Sdp SdpPdu SdpService Host Csr Identity Usb Api HidService.

(** ** Constants *)

Definition COMMAND_TIMEOUT : Z := from_secs 5.
Definition HCI_RESET : Z := 0x0C03.
Definition HCI_SET_EVENT_MASK : Z := 0x0C01.
Definition HCI_WRITE_LOCAL_NAME : Z := 0x0C13.
Definition HCI_WRITE_SCAN_ENABLE : Z := 0x0C1A.
Definition HCI_WRITE_CLASS_OF_DEVICE : Z := 0x0C24.
Definition HCI_WRITE_EXTENDED_INQUIRY_RESPONSE : Z := 0x0C52.
Definition HCI_WRITE_SIMPLE_PAIRING_MODE : Z := 0x0C56.
Definition HCI_WRITE_DEFAULT_LINK_POLICY_SETTINGS : Z := 0x080F.
Definition HCI_READ_LOCAL_VERSION_INFORMATION : Z := 0x1001.
Definition HCI_READ_LOCAL_SUPPORTED_COMMANDS : Z := 0x1002.
Definition HCI_READ_LOCAL_EXTENDED_FEATURES : Z := 0x1004.
Definition HCI_READ_BUFFER_SIZE : Z := 0x1005.
Definition HCI_READ_BD_ADDR : Z := 0x1009.
Definition HCI_LE_SET_EVENT_MASK : Z := 0x2001.
Definition HCI_CREATE_CONNECTION : Z := 0x0405.
Definition HCI_DISCONNECT : Z := 0x0406.
Definition HCI_REJECT_CONNECTION_REQUEST : Z := 0x040A.
Definition EVENT_CONNECTION_COMPLETE : Z := 0x03.
Definition EVENT_CONNECTION_REQUEST : Z := 0x04.
Definition EVENT_DISCONNECTION_COMPLETE : Z := 0x05.
Definition EVENT_AUTHENTICATION_COMPLETE : Z := 0x06.
Definition EVENT_ENCRYPTION_CHANGE : Z := 0x08.
Definition EVENT_COMMAND_COMPLETE : Z := 0x0E.
Definition EVENT_COMMAND_STATUS : Z := 0x0F.
Definition EVENT_NUMBER_OF_COMPLETED_PACKETS : Z := 0x13.
Definition EVENT_LINK_KEY_REQUEST : Z := 0x17.
Definition EVENT_LINK_KEY_NOTIFICATION : Z := 0x18.
Definition EVENT_IO_CAPABILITY_REQUEST : Z := 0x31.
Definition EVENT_USER_CONFIRMATION_REQUEST : Z := 0x33.
Definition EVENT_VENDOR : Z := 0xFF.
Definition EVENT_MASK : list Z := [0xFF; 0x9F; 0xFF; 0xBF; 0x07; 0xF8; 0xBF; 0x3D].
Definition LE_EVENT_MASK : list Z := [0xFF; 0xFF; 0xF7; 0xFF; 0x0F; 0xED; 0x7B; 0x00].
Definition LEGACY_LE_EVENT_MASK : list Z := [0x1F; 0; 0; 0; 0; 0; 0; 0].
Definition DEFAULT_LINK_POLICY_SETTINGS : Z := 0x0005.
Definition CONNECTION_REJECTED_UNACCEPTABLE_ADDRESS : Z := 0x0F.
Definition REMOTE_USER_TERMINATED_CONNECTION : Z := 0x13.
Definition AUTHENTICATION_FAILURE : Z := 0x05.
Definition BR_EDR_NOT_SUPPORTED_MASK : Z := 0x20.
Definition CLASSIC_SERVER_MTU : Z := 672.
Definition EVENT_QUEUE_CAPACITY : nat := 64.

(** ** Errors *)

Inductive Source : Type :=
| FromUsb (e : UsbError)
| FromCodec (e : CodecError)
| FromHost (e : HostError)
| FromBondStore (e : BondStoreError)
| FromBridge (e : HidpBridgeError)
| FromIdentity (e : IdentityPreparationError)
| CommandFailure (opcode status : Z)
| PacketLengthError (field : string) (expected actual : Z).

Abbreviation SErr := (Error Source).

(** How a computation that does not give a value ends: the code's error, or
    the bound on its loops. *)
Inductive Stop : Type :=
| Raised (e : SErr)
| OutOfFuel.

Definition raise {S A} (kind : ErrorKind) : stm S Stop A := throw (Raised (Error_new kind)).

(** [.map_err(|source| Error::with_source(kind, source))] *)
Definition sourced {E A} (kind : ErrorKind) (wrap : E -> Source) (r : res E A) : res SErr A :=
  map_err (fun source => Error_with_source kind (wrap source)) r.

Definition raised {A} (r : res SErr A) : res Stop A := map_err Raised r.

Definition require_len (parameters : list Z) (expected : Z) (field : string) : res SErr unit :=
  if len parameters =? expected then Ok tt
  else Err (Error_with_source ProtocolViolation (PacketLengthError field expected (len parameters))).

Definition require_min_len (parameters : list Z) (minimum : Z) (field : string) : res SErr unit :=
  if minimum <=? len parameters then Ok tt
  else Err (Error_with_source ProtocolViolation (PacketLengthError field minimum (len parameters))).

Definition protocol_error (field : string) : SErr :=
  Error_with_source ProtocolViolation (PacketLengthError field 1 0).

Definition map_host_error (source : HostError) : SErr :=
  let kind := match source with HostBondStore _ => InvalidBondStore | _ => ProtocolViolation end in
  Error_with_source kind (FromHost source).

Definition map_identity_error (source : IdentityPreparationError) : SErr :=
  let kind := match identity_error_kind source with
              | IdUnsupportedController => UnsupportedController
              | FailedBeforeWrite => OpenFailed
              | RecoveryRequired => AdapterIdentityRecoveryRequired
              end in
  Error_with_source kind (FromIdentity source).

Definition identity_mismatch_kind (preparation : option AdapterIdentityPreparation) : ErrorKind :=
  if bool_decide (preparation = Some Rewritten) then AdapterIdentityRecoveryRequired else IdentityMismatch.

(** ** Decoding of controller events *)

Definition address_at (parameters : list Z) (offset : nat) : res SErr BluetoothAddress :=
  bs ← ok_or (get_range parameters offset (offset + 6)) (protocol_error "Bluetooth address");
  Ok (mkAddress bs AKPublic).

(** [u16::from_le_bytes([parameters[i], parameters[i + 1]])] *)
Definition u16_at {E} (parameters : list Z) (i : nat) : res E Z :=
  a ← idx parameters i;
  b ← idx parameters (S i);
  Ok (from_le_bytes [a; b]).

Definition completed_entry {E} (entry : list Z) : res E ClassicEvent :=
  handle ← u16_at entry 0;
  completed ← u16_at entry 2;
  Ok (NumberOfCompletedPackets handle completed).

Definition completed_packet_events (parameters : list Z) : res SErr (list ClassicEvent) :=
  match parameters with
  | [] => Err (protocol_error "completed packets")
  | count :: entries =>
      require_len entries (count * 4) "completed packets" ;;
      collect (completed_entry <$> chunks_exact 4 entries)
  end.

Definition decode_classic_event (event : EventPacket) : res SErr (list ClassicEvent) :=
  let parameters := event_parameters event in
  let code := event_code event in
  if code =? EVENT_CONNECTION_REQUEST then
    require_len parameters 10 "connection request" ;;
    peer ← address_at parameters 0;
    Ok [ConnectionRequested peer]
  else if code =? EVENT_CONNECTION_COMPLETE then
    require_len parameters 11 "connection complete" ;;
    status ← idx parameters 0;
    handle ← u16_at parameters 1;
    peer ← address_at parameters 3;
    Ok [ConnectionComplete status handle peer]
  else if code =? EVENT_LINK_KEY_REQUEST then
    require_len parameters 6 "link key request" ;;
    peer ← address_at parameters 0;
    Ok [LinkKeyRequest peer]
  else if code =? EVENT_LINK_KEY_NOTIFICATION then
    require_len parameters 23 "link key notification" ;;
    peer ← address_at parameters 0;
    key ← slice parameters 6 22;
    key_type ← idx parameters 22;
    Ok [LinkKeyNotification peer key key_type]
  else if code =? EVENT_IO_CAPABILITY_REQUEST then
    require_len parameters 6 "IO capability request" ;;
    peer ← address_at parameters 0;
    Ok [IoCapabilityRequest peer]
  else if code =? EVENT_USER_CONFIRMATION_REQUEST then
    require_len parameters 10 "user confirmation request" ;;
    peer ← address_at parameters 0;
    Ok [UserConfirmationRequest peer]
  else if code =? EVENT_AUTHENTICATION_COMPLETE then
    require_len parameters 3 "authentication complete" ;;
    status ← idx parameters 0;
    handle ← u16_at parameters 1;
    Ok [AuthenticationComplete status handle]
  else if code =? EVENT_ENCRYPTION_CHANGE then
    require_len parameters 4 "encryption change" ;;
    status ← idx parameters 0;
    handle ← u16_at parameters 1;
    enabled ← idx parameters 3;
    Ok [EncryptionChange status handle (negb (enabled =? 0))]
  else if code =? EVENT_NUMBER_OF_COMPLETED_PACKETS then completed_packet_events parameters
  else if code =? EVENT_DISCONNECTION_COMPLETE then
    require_len parameters 4 "disconnection complete" ;;
    status ← idx parameters 0;
    if status =? 0 then
      handle ← u16_at parameters 1;
      reason ← idx parameters 3;
      Ok [DisconnectionComplete handle reason]
    else Ok []
  else Ok [].

Definition parse_version (parameters : list Z) : res SErr ControllerVersion :=
  require_len parameters 8 "local version" ;;
  hci_version ← idx parameters 0;
  hci_subversion ← u16_at parameters 1;
  lmp_version ← idx parameters 3;
  company_identifier ← u16_at parameters 4;
  lmp_subversion ← u16_at parameters 6;
  Ok (mkVersion hci_version hci_subversion lmp_version company_identifier lmp_subversion).

(** ** The controller link *)

(** The trait [HciIo]. *)
Class HciIo (T : Type) : Type := {
  io_send : Packet -> stm T SErr unit;
  io_recv_timeout : Z -> stm T SErr (option Packet);
  io_metadata : T -> UsbAdapterMetadata;
  io_close : stm T SErr unit
}.

(** The USB link, with the number of rounds the reader thread makes before each
    receive is decided; without one left, it makes none. *)
Record UsbHciIo (B : Type) : Type := mkUsbHciIo { opened : OpenedUsb B; schedule : list nat }.
Arguments mkUsbHciIo {B} opened schedule.
Arguments opened {B} u.
Arguments schedule {B} u.

Section usb_link.
Context {B : Type} `{UsbIo B}.

Definition recv_result (r : ReaderEvent + RecvTimeoutError) : res SErr (option Packet) :=
  match r with
  | inl (ReaderPacket packet) => Ok (Some packet)
  | inl (ReaderFailed source) => Err (Error_with_source SourceTerminated (FromUsb source))
  | inl ReaderEnded | inr RecvDisconnected => Err (Error_new SourceTerminated)
  | inr RecvTimeout => Ok None
  end.

#[global] Instance UsbHciIo_io : HciIo (UsbHciIo B) := {
  io_send packet := fun io =>
    let '(r, o) := opened_send packet (opened io) in
    (sourced SourceTerminated FromUsb r, mkUsbHciIo o (schedule io));
  io_recv_timeout timeout := fun io =>
    let o := Nat.iter (hd 0%nat (schedule io)) worker_step (opened io) in
    let '(r, o) := opened_recv_timeout o in
    (recv_result r, mkUsbHciIo o (tail (schedule io)));
  io_metadata io :=
    let md := metadata (ou_transport (opened io)) in
    mkUsbMetadata (md_vendor_id md) (md_product_id md) (md_bus md) (md_address md) (md_ports md);
  io_close := fun io =>
    let '(r, o) := opened_close (opened io) in
    (sourced CloseFailed FromUsb r, mkUsbHciIo o (schedule io))
}.
End usb_link.

Definition raising {S A} (m : stm S SErr A) : stm S Stop A := fun s =>
  let '(r, s') := m s in (raised r, s').

Definition command (opcode : Z) (parameters : list Z) : res SErr CommandPacket :=
  sourced InvalidConfiguration FromCodec (CommandPacket_new opcode parameters).

Definition identity_commands (config : SessionConfig) : res SErr (list CommandPacket) :=
  name ← copy_at 0 (local_name config) (replicate 248 0);
  let class := take 3 (to_le_bytes 4 (class_of_device config)) in
  let inquiry_response := 0 :: extended_inquiry_response config in
  c1 ← command HCI_WRITE_LOCAL_NAME name;
  c2 ← command HCI_WRITE_CLASS_OF_DEVICE class;
  c3 ← command HCI_WRITE_SIMPLE_PAIRING_MODE [1];
  c4 ← command HCI_WRITE_EXTENDED_INQUIRY_RESPONSE inquiry_response;
  c5 ← command HCI_WRITE_DEFAULT_LINK_POLICY_SETTINGS (to_le_bytes 2 DEFAULT_LINK_POLICY_SETTINGS);
  c6 ← command HCI_WRITE_SCAN_ENABLE [0];
  Ok [c1; c2; c3; c4; c5; c6].

Record InitializedController : Type := mkInitialized {
  init_local_address : BluetoothAddress;
  init_version : ControllerVersion;
  acl_packet_length : Z;
  acl_packet_count : Z
}.

Section link.
Context {T : Type} `{HciIo T}.
Context (fuel : nat).

(** What a packet means to a caller waiting for the completion of [opcode]:
    [None] to go on waiting. *)
Definition completion_of (opcode : Z) (packet : Packet) : res SErr (option (list Z)) :=
  match packet with
  | Hci.Event event =>
      let parameters := event_parameters event in
      if event_code event =? EVENT_COMMAND_COMPLETE then
        require_min_len parameters 4 "command complete" ;;
        completed_opcode ← u16_at parameters 1;
        if negb (completed_opcode =? opcode) then Ok None else
        status ← idx parameters 3;
        if negb (status =? 0) then Err (Error_with_source OpenFailed (CommandFailure opcode status))
        else Ok (Some (drop 4 parameters))
      else if event_code event =? EVENT_COMMAND_STATUS then
        require_len parameters 4 "command status" ;;
        completed_opcode ← u16_at parameters 2;
        status ← idx parameters 0;
        if (completed_opcode =? opcode) && negb (status =? 0)
        then Err (Error_with_source OpenFailed (CommandFailure opcode status))
        else Ok None
      else Ok None
  | _ => Ok None
  end.

(** [recv_timeout(timeout)?.ok_or(OpenFailed)?] *)
Definition recv_required (timeout : Z) : stm T Stop Packet :=
  received ← raising (io_recv_timeout timeout);
  match received with Some packet => mret packet | None => raise OpenFailed end.

Fixpoint await (n : nat) (timeout : Z) (meaning : Packet -> res SErr (option (list Z))) : stm T Stop (list Z) :=
  match n with
  | O => throw OutOfFuel
  | S n' =>
      packet ← recv_required timeout;
      answer ← lift (raised (meaning packet));
      match answer with
      | Some parameters => mret parameters
      | None => await n' timeout meaning
      end
  end.

Definition send_complete (packet : CommandPacket) : stm T Stop (list Z) :=
  raising (io_send (Command packet)) ;;
  await fuel COMMAND_TIMEOUT (completion_of (cmd_opcode packet)).

(** [send_complete(io, command(opcode, parameters)?)?] *)
Definition run_command (opcode : Z) (parameters : list Z) : stm T Stop (list Z) :=
  packet ← lift (raised (command opcode parameters));
  send_complete packet.

Definition initialize_controller (config : SessionConfig) : stm T Stop InitializedController :=
  _ ← run_command HCI_RESET [];
  supported_commands ← run_command HCI_READ_LOCAL_SUPPORTED_COMMANDS [];
  lift (raised (require_len supported_commands 64 "supported commands")) ;;
  local_version ← run_command HCI_READ_LOCAL_VERSION_INFORMATION [];
  version ← lift (raised (parse_version local_version));
  extended_features ← run_command HCI_READ_LOCAL_EXTENDED_FEATURES [0];
  lift (raised (require_len extended_features 10 "extended features")) ;;
  page ← lift (idx extended_features 0);
  feature ← lift (idx extended_features 6);
  if negb (page =? 0) || negb (Z.land feature BR_EDR_NOT_SUPPORTED_MASK =? 0) then raise UnsupportedController else
  _ ← run_command HCI_SET_EVENT_MASK EVENT_MASK;
  let le_event_mask := if hci_version version <=? 6 then LEGACY_LE_EVENT_MASK else LE_EVENT_MASK in
  _ ← run_command HCI_LE_SET_EVENT_MASK le_event_mask;
  buffer ← run_command HCI_READ_BUFFER_SIZE [];
  lift (raised (require_len buffer 7 "buffer size")) ;;
  acl_packet_length ← lift (u16_at buffer 0);
  acl_packet_count ← lift (u16_at buffer 3);
  if (acl_packet_length =? 0) || (acl_packet_count =? 0) then raise UnsupportedController else
  address ← run_command HCI_READ_BD_ADDR [];
  lift (raised (require_len address 6 "local address")) ;;
  let local_address := mkAddress address AKPublic in
  if bool_decide (address_le local_address = replicate 6 0) then raise InvalidControllerIdentity else
  commands ← lift (raised (identity_commands config));
  for_each (fun c => _ ← send_complete c; skip) commands ;;
  mret (mkInitialized local_address version acl_packet_length acl_packet_count).
End link.

(** ** The link during the preparation of an identity *)

(** What opening an adapter and the clock take. *)
Class UsbEnv (Env T : Type) : Type := {
  usb_open : UsbSelector -> stm Env UsbError T;
  env_now : Env -> Z;
  env_sleep : Z -> Env -> Env
}.

(** [UsbIdentityBackend] and the one session opened from it, [io] of
    [UsbIdentitySession]: the former session is closed when the next one
    opens. *)
Record IdentityWorld (Env T : Type) : Type := mkIdentityWorld { iw_env : Env; iw_io : option T }.
Arguments mkIdentityWorld {Env T} iw_env iw_io.
Arguments iw_env {Env T} i.
Arguments iw_io {Env T} i.

Section identity_link.
Context {Env T : Type} `{UsbEnv Env T} `{HciIo T}.
Context (fuel : nat) (selector : UsbSelector).

(** [self.io_mut()?] and a call on the link. A wait that does not end leaves
    nothing to run after it, as a panic does. *)
Definition on_identity_io {A} (m : stm T Stop A) : stm (IdentityWorld Env T) SErr A := fun w =>
  match iw_io w with
  | None => (Err (Error_new Closed), w)
  | Some io =>
      let '(r, io) := m io in
      (match r with Ok a => Ok a | Err (Raised e) => Err e | Err OutOfFuel | Panic => Panic end,
       mkIdentityWorld (iw_env w) (Some io))
  end.

Definition vendor_meaning (c : CsrVendorCommand) (packet : Packet) : res SErr (option (list Z)) :=
  match packet with
  | Hci.Event event =>
      let parameters := event_parameters event in
      matched ← (if event_code event =? EVENT_VENDOR then matches_csr_vendor_response c parameters else Ok false : res SErr bool);
      if matched : bool then Ok (Some parameters)
      else if event_code event =? EVENT_COMMAND_STATUS then
        require_len parameters 4 "command status" ;;
        opcode ← u16_at parameters 2;
        status ← idx parameters 0;
        if (opcode =? csr_op_code c) && negb (status =? 0)
        then Err (Error_with_source OpenFailed (CommandFailure opcode status))
        else Ok None
      else Ok None
  | _ => Ok None
  end.

Definition vendor_packet (c : CsrVendorCommand) : res SErr CommandPacket :=
  sourced ProtocolViolation FromCodec (CommandPacket_new (csr_op_code c) (csr_parameters c)).

Definition identity_open : stm (IdentityWorld Env T) SErr unit := fun w =>
  let '(r, env) := usb_open selector (iw_env w) in
  match sourced OpenFailed FromUsb r with
  | Ok io => (Ok tt, mkIdentityWorld env (Some io))
  | Err e => (Err e, mkIdentityWorld env (iw_io w))
  | Panic => (Panic, mkIdentityWorld env (iw_io w))
  end.

Definition identity_initialize : stm (IdentityWorld Env T) SErr Z :=
  on_identity_io (
    response ← run_command fuel HCI_READ_LOCAL_VERSION_INFORMATION [];
    version ← lift (raised (parse_version response));
    mret (company_identifier version)).

Definition identity_read_address : stm (IdentityWorld Env T) SErr (list Z) :=
  on_identity_io (
    response ← run_command fuel HCI_READ_BD_ADDR [];
    lift (raised (require_len response 6 "local address")) ;;
    mret (rev response)).

Definition identity_send_vendor_command (c : CsrVendorCommand) (timeout : Z) : stm (IdentityWorld Env T) SErr (list Z) :=
  packet ← lift (vendor_packet c);
  on_identity_io (raising (io_send (Command packet)) ;; await fuel timeout (vendor_meaning c)).

Definition identity_send_without_response (c : CsrVendorCommand) : stm (IdentityWorld Env T) SErr unit :=
  packet ← lift (vendor_packet c);
  on_identity_io (raising (io_send (Command packet))).

Definition identity_close : stm (IdentityWorld Env T) SErr unit := fun w =>
  match iw_io w with
  | None => (Ok tt, w)
  | Some io => let '(r, _) := io_close io in (r, mkIdentityWorld (iw_env w) None)
  end.

#[local] Instance UsbIdentityBackend : IdentityBackend (IdentityWorld Env T) unit SErr := {
  ib_open := identity_open;
  ib_now w := env_now (iw_env w);
  ib_sleep d w := mkIdentityWorld (env_sleep d (iw_env w)) (iw_io w);
  ib_initialize _ _ := identity_initialize;
  ib_read_address _ _ := identity_read_address;
  ib_send_vendor_command _ := identity_send_vendor_command;
  ib_send_command_without_response _ := identity_send_without_response;
  ib_close _ := identity_close
}.

Definition explicit_identity_options : IdentityPreparationOptions :=
  mkIdentityOptions COMMAND_TIMEOUT (from_secs 10) (from_millis 100).

Definition prepare_explicit_identity (target : BluetoothAddress) : stm Env Stop AdapterIdentityPreparation := fun env =>
  if negb (bool_decide (address_kind target = AKPublic)) then raise InvalidConfiguration env else
  match prepare_adapter_identity (W := IdentityWorld Env T) fuel (rev (address_le target)) explicit_identity_options
          (mkIdentityWorld env None) with
  | Some (r, w) => (raised (map_err map_identity_error r), iw_env w)
  | None => (Err OutOfFuel, env)
  end.
End identity_link.

(** ** The session *)

Inductive ConnectionWindow : Type :=
| Idle
| Pairing (peer : option BluetoothAddress)
| Reconnecting (peer : BluetoothAddress)
| WindowConnected.

#[global] Instance ConnectionWindow_eq_dec : EqDecision ConnectionWindow.
Proof. solve_decision. Defined.

Record ProtocolChannel : Type := mkProtocolChannel { pc_cid : Z; pc_open : bool }.

Record ProtocolState : Type := mkProtocols {
  sdp : gmap Z HidSdpChannel;
  control : option ProtocolChannel;
  interrupt : option ProtocolChannel;
  hidp : HidpBridge
}.

#[global] Instance ProtocolState_settable : Settable ProtocolState :=
  fun p => mkProtocols (sdp p) (control p) (interrupt p) (hidp p).
Definition set_sdp v (p : ProtocolState) : ProtocolState := ltac:(set_field sdp v p).
Definition set_control v (p : ProtocolState) : ProtocolState := ltac:(set_field control v p).
Definition set_interrupt v (p : ProtocolState) : ProtocolState := ltac:(set_field interrupt v p).
Definition set_hidp v (p : ProtocolState) : ProtocolState := ltac:(set_field hidp v p).

Definition ProtocolState_default : ProtocolState := mkProtocols ∅ None None (HidpBridge_new 0 0).

(** The clock of [Instant]: readings, and the greatest instant. *)
Class Clock (W : Type) : Type := {
  clock_read : W -> Z * W;
  instant_max : W -> Z
}.

Record BackendSession (T W S : Type) : Type := mkSession {
  sess_io : option T;
  sess_clock : W;
  sess_capabilities : Capabilities;
  sess_config : SessionConfig;
  host : ClassicHost S;
  window : ConnectionWindow;
  sess_connection : option (BluetoothAddress * Z);
  rejected_connections : gset Z;
  protocols : ProtocolState;
  active_reconnect : bool;
  terminal : option SErr;
  closed : bool;
  pending_events : list Api.Event
}.
Arguments mkSession {T W S}.
Arguments sess_io {T W S} b.
Arguments sess_clock {T W S} b.
Arguments sess_capabilities {T W S} b.
Arguments sess_config {T W S} b.
Arguments host {T W S} b.
Arguments window {T W S} b.
Arguments sess_connection {T W S} b.
Arguments rejected_connections {T W S} b.
Arguments protocols {T W S} b.
Arguments active_reconnect {T W S} b.
Arguments terminal {T W S} b.
Arguments closed {T W S} b.
Arguments pending_events {T W S} b.

#[global] Instance BackendSession_settable T W S : Settable (BackendSession T W S) := fun b =>
  mkSession (sess_io b) (sess_clock b) (sess_capabilities b) (sess_config b) (host b) (window b) (sess_connection b)
    (rejected_connections b) (protocols b) (active_reconnect b) (terminal b) (closed b) (pending_events b).

Section session_setters.
Context {T W S : Type}.
Abbreviation bs := (BackendSession T W S).
Definition set_sess_io v (b : bs) : bs := ltac:(set_field (@sess_io T W S) v b).
Definition set_sess_clock v (b : bs) : bs := ltac:(set_field (@sess_clock T W S) v b).
Definition set_host v (b : bs) : bs := ltac:(set_field (@host T W S) v b).
Definition set_window v (b : bs) : bs := ltac:(set_field (@window T W S) v b).
Definition set_sess_connection v (b : bs) : bs := ltac:(set_field (@sess_connection T W S) v b).
Definition set_rejected v (b : bs) : bs := ltac:(set_field (@rejected_connections T W S) v b).
Definition set_protocols v (b : bs) : bs := ltac:(set_field (@protocols T W S) v b).
Definition set_active_reconnect v (b : bs) : bs := ltac:(set_field (@active_reconnect T W S) v b).
Definition set_terminal v (b : bs) : bs := ltac:(set_field (@terminal T W S) v b).
Definition set_closed v (b : bs) : bs := ltac:(set_field (@closed T W S) v b).
Definition set_pending_events v (b : bs) : bs := ltac:(set_field (@pending_events T W S) v b).
End session_setters.

Section session.
Context {T W D : Type} `{HciIo T} `{Clock W} `{BondStore D} `{Profile}.
Context (fuel : nat).

Abbreviation sess := (stm (BackendSession T W D) Stop).

Definition raise_error {A} (e : SErr) : sess A := throw (Raised e).

Definition on_io {A} (m : stm T SErr A) : sess A := fun b =>
  match sess_io b with
  | None => raise Closed b
  | Some io => let '(r, io) := m io in (raised r, set_sess_io (Some io) b)
  end.

Definition on_host {A} (wrap : HostError -> SErr) (m : stm (ClassicHost D) HostError A) : sess A := fun b =>
  let '(r, h) := m (host b) in (raised (map_err wrap r), set_host h b).

Definition modify_protocols (f : ProtocolState -> ProtocolState) : sess unit :=
  modify (fun b => set_protocols (f (protocols b)) b).

(** [io] is the link after [initialize_controller]. *)
Definition BackendSession_initialize (config : SessionConfig) (bonds : D) (clock : W) (io : T)
  : res Stop (BackendSession T W D) :=
  let '(initialized, io) := initialize_controller fuel config io in
  initialized ← initialized;
  let capabilities := mkCapabilities (init_local_address initialized) (init_version initialized) (io_metadata io) in
  let '(selected, bonds) := select_local_address (local_address capabilities) bonds in
  raised (sourced InvalidBondStore FromBondStore selected) ;;
  let '(registered, h) :=
    for_each (fun psm => host_register_server psm (mkClassicSpec CLASSIC_SERVER_MTU))
      [HID_SDP_PSM; HID_CONTROL_PSM; HID_INTERRUPT_PSM]
      (ClassicHost_new bonds (acl_packet_length initialized) (acl_packet_count initialized)) in
  raised (sourced OpenFailed FromHost registered) ;;
  Ok (mkSession (Some io) clock capabilities config h Idle None ∅ ProtocolState_default false None false []).

Definition ensure_session_active : sess unit :=
  b ← get;
  if closed b then raise Closed
  else match terminal b with Some error => raise_error error | None => skip end.

Definition session_command (opcode : Z) (parameters : list Z) : sess unit :=
  packet ← lift (raised (sourced ProtocolViolation FromCodec (CommandPacket_new opcode parameters)));
  on_io (io_send (Command packet)).

Definition set_scan (discoverable connectable : bool) : sess unit :=
  session_command HCI_WRITE_SCAN_ENABLE [Z.lor (Z.b2z discoverable) (Z.shiftl (Z.b2z connectable) 1)].

Definition write_inquiry_response : sess unit :=
  b ← get;
  session_command HCI_WRITE_EXTENDED_INQUIRY_RESPONSE (0 :: extended_inquiry_response (sess_config b)).

Definition end_connection_window : sess unit :=
  b ← get;
  if bool_decide (window b = Idle) then skip else
  write_inquiry_response ;;
  set_scan false true ;;
  set_scan false false ;;
  modify (set_window Idle).

(** The recorded error is given back as the call's own. *)
Definition record_terminal {A} (error : SErr) : sess A :=
  modify (set_terminal (Some error)) ;; raise_error error.

Definition enqueue_event (event : Api.Event) : sess unit := modify (fun b =>
  match terminal b with
  | Some _ => b
  | None =>
      if (length (pending_events b) =? EVENT_QUEUE_CAPACITY)%nat
      then set_terminal (Some (Error_new EventQueueOverflow)) b
      else set_pending_events (pending_events b ++ [event]) b
  end).

Definition open_outgoing (psm : Z) : sess Z :=
  on_host map_host_error (connect_channel psm (mkClassicSpec CLASSIC_SERVER_MTU)).

Definition start_active_reconnect_control : sess unit :=
  b ← get;
  if negb (active_reconnect b) || bool_decide (is_Some (control (protocols b))) then skip else
  cid ← open_outgoing HID_CONTROL_PSM;
  modify_protocols (set_control (Some (mkProtocolChannel cid false))).

(** [slot.is_none_or(|channel| channel.cid == cid && !channel.open)] *)
Definition first_open (slot : option ProtocolChannel) (cid : Z) : bool :=
  match slot with None => true | Some channel => (pc_cid channel =? cid) && negb (pc_open channel) end.

Definition on_channel_opened (psm cid : Z) : sess unit :=
  b ← get;
  '(actual_psm, peer_mtu, open) ←
    lift (ok_or (channel_info (host b) cid) (Raised (Error_new ProtocolViolation)));
  if negb open || negb (actual_psm =? psm) then raise ProtocolViolation else
  if psm =? HID_SDP_PSM then
    modify_protocols (fun p =>
      match sdp p !! cid with
      | Some _ => p
      | None => set_sdp (<[cid := HidSdpChannel_new (hid_service (sess_config b)) peer_mtu]> (sdp p)) p
      end)
  else if psm =? HID_CONTROL_PSM then
    (if first_open (control (protocols b)) cid then
       modify_protocols (set_control (Some (mkProtocolChannel cid true))) ;;
       modify_protocols (fun p => set_hidp (set_peer_mtu Control peer_mtu (hidp p)) p) ;;
       enqueue_event (EvChannelOpened Control)
     else skip) ;;
    b ← get;
    if active_reconnect b && bool_decide (interrupt (protocols b) = None) then
      cid ← open_outgoing HID_INTERRUPT_PSM;
      modify_protocols (set_interrupt (Some (mkProtocolChannel cid false)))
    else skip
  else if psm =? HID_INTERRUPT_PSM then
    if first_open (interrupt (protocols b)) cid then
      modify_protocols (set_interrupt (Some (mkProtocolChannel cid true))) ;;
      modify_protocols (fun p => set_hidp (set_peer_mtu Interrupt peer_mtu (hidp p)) p) ;;
      enqueue_event (EvChannelOpened Interrupt)
    else skip
  else raise ProtocolViolation.

Definition pop_host_output : sess (option HostOutput) := fun b =>
  let '(o, h) := pop_output (host b) in (Ok o, set_host h b).

Definition apply_output (output : HostOutput) : sess unit :=
  match output with
  | OutCommand packet => on_io (io_send (Command packet))
  | OutAcl packet => on_io (io_send (Acl packet))
  | OutEvent (Connected peer handle) =>
      modify (set_sess_connection (Some (peer, handle))) ;;
      modify (set_window WindowConnected) ;;
      modify (set_protocols ProtocolState_default) ;;
      write_inquiry_response ;;
      set_scan false true ;;
      set_scan false false ;;
      enqueue_event (EvConnected peer)
  | OutEvent (Disconnected _ reason) =>
      modify (set_sess_connection None) ;;
      modify (set_window Idle) ;;
      modify (set_protocols ProtocolState_default) ;;
      modify (set_active_reconnect false) ;;
      enqueue_event (EvDisconnected (Some reason))
  | OutEvent (Encrypted _) => start_active_reconnect_control
  | OutEvent (ChannelOpened psm source_cid) => on_channel_opened psm source_cid
  | OutEvent (BondStored _) => skip
  end.

Fixpoint drain_loop (n : nat) : sess unit :=
  match n with
  | O => throw OutOfFuel
  | S n' =>
      output ← pop_host_output;
      match output with
      | None => skip
      | Some output => apply_output output ;; drain_loop n'
      end
  end.

Definition drain_host_output : sess unit := drain_loop fuel.

(** [slot.filter(|channel| channel.open)] and its negation. *)
Definition open_slot (slot : option ProtocolChannel) : option ProtocolChannel :=
  match slot with Some c => if pc_open c then Some c else None | None => None end.
Definition pending_slot (slot : option ProtocolChannel) : option ProtocolChannel :=
  match slot with Some c => if pc_open c then None else Some c | None => None end.

Definition refresh_channel (psm : Z) (slot : ProtocolState -> option ProtocolChannel) : sess unit :=
  b ← get;
  match pending_slot (slot (protocols b)) with
  | None => skip
  | Some channel =>
      match channel_info (host b) (pc_cid channel) with
      | Some (_, _, true) => on_channel_opened psm (pc_cid channel)
      | _ => skip
      end
  end.

Definition refresh_outgoing_channels : sess unit :=
  refresh_channel HID_CONTROL_PSM control ;;
  refresh_channel HID_INTERRUPT_PSM interrupt.

Definition take_sdu (cid : Z) : sess (option (list Z)) := fun b =>
  let '(sdu, h) := take_channel_sdu cid (host b) in (Ok sdu, set_host h b).

(** [while let Some(sdu) = self.host.take_channel_sdu(cid)] *)
Fixpoint sdu_loop (n : nat) (cid : Z) (body : list Z -> sess unit) : sess unit :=
  match n with
  | O => throw OutOfFuel
  | S n' =>
      sdu ← take_sdu cid;
      match sdu with
      | None => skip
      | Some sdu => body sdu ;; sdu_loop n' cid body
      end
  end.

(** [get_mut(&cid).and_then(|channel| channel.handle_sdu(&request))] *)
Definition answer_sdp (cid : Z) (request : list Z) : sess (option (list Z)) := fun b =>
  match sdp (protocols b) !! cid with
  | None => (Ok None, b)
  | Some channel =>
      let '(r, channel) := handle_sdu request channel in
      (match r with Ok response => Ok response | Err _ => Ok None | Panic => Panic end,
       set_protocols (set_sdp (<[cid := channel]> (sdp (protocols b))) (protocols b)) b)
  end.

Definition send_on_channel (cid : Z) (sdu : list Z) : sess unit := on_host map_host_error (send_channel_sdu cid sdu).

Definition process_sdp (cid : Z) : sess unit :=
  sdu_loop fuel cid (fun request =>
    response ← answer_sdp cid request;
    match response with Some response => send_on_channel cid response | None => skip end).

Definition apply_hidp_event (event : HidpBridgeEvent) : sess unit :=
  match event with
  | BridgeOutput channel payload => enqueue_event (EvHidOutput channel payload)
  | BridgeControlResponse response =>
      b ← get;
      match open_slot (control (protocols b)) with
      | Some control => send_on_channel (pc_cid control) response
      | None => skip
      end
  | BridgeSuspend | BridgeResume | BridgeVirtualCableUnplug | BridgeUnsupported _ => skip
  end.

(** The bridge's answer to an SDU, its errors as a value. *)
Definition bridge_sdu (channel : Channel) (sdu : list Z) : sess (list HidpBridgeEvent + HidpBridgeError) := fun b =>
  let '(r, bridge) := bridge_handle channel sdu (hidp (protocols b)) in
  (match r with Ok events => Ok (inl events) | Err e => Ok (inr e) | Panic => Panic end,
   set_protocols (set_hidp bridge (protocols b)) b).

Definition process_hidp_sdu (channel : Channel) (cid : Z) (sdu : list Z) : sess unit :=
  handled ← bridge_sdu channel sdu;
  match handled with
  | inl events => for_each apply_hidp_event events
  | inr (BridgeMalformed Control) =>
      b ← get;
      match invalid_parameter_response (hidp (protocols b)) with
      | Ok response => send_on_channel cid response
      | Err _ => skip
      | Panic => lift Panic
      end
  | inr _ => skip
  end.

Definition process_hidp (channel : Channel) (slot : option ProtocolChannel) : sess unit :=
  match open_slot slot with
  | None => skip
  | Some c => sdu_loop fuel (pc_cid c) (process_hidp_sdu channel (pc_cid c))
  end.

Definition process_protocol_input : sess unit :=
  b ← get;
  for_each process_sdp (sorted_keys (sdp (protocols b))) ;;
  b ← get;
  process_hidp Control (control (protocols b)) ;;
  process_hidp Interrupt (interrupt (protocols b)).

(** ** Controller packets *)

(** The three checks of [handle_event] before the host sees the event: [false]
    when the session has dealt with it. *)
Definition admit_request (event : EventPacket) : sess bool :=
  let parameters := event_parameters event in
  lift (raised (require_len parameters 10 "connection request")) ;;
  peer ← lift (raised (address_at parameters 0));
  link_type ← lift (idx parameters 9);
  b ← get;
  accepted ←
    (if negb (link_type =? 0x01) then mret false else
     match window b with
     | Pairing (Some expected) => mret (bool_decide (expected = peer))
     | Pairing None => modify (set_window (Pairing (Some peer))) ;; mret true
     | Reconnecting expected => mret (bool_decide (expected = peer))
     | Idle | WindowConnected => mret false
     end);
  if accepted : bool then mret true else
  session_command HCI_REJECT_CONNECTION_REQUEST (address_le peer ++ [CONNECTION_REJECTED_UNACCEPTABLE_ADDRESS]) ;;
  mret false.

(** The peer whose connection the window waits for. *)
Definition expected_peer (w : ConnectionWindow) : option BluetoothAddress :=
  match w with
  | Pairing peer => peer
  | Reconnecting peer => Some peer
  | Idle | WindowConnected => None
  end.

Definition admit_connection (event : EventPacket) : sess bool :=
  let parameters := event_parameters event in
  lift (raised (require_len parameters 11 "connection complete")) ;;
  status ← lift (idx parameters 0);
  handle ← lift (u16_at parameters 1);
  peer ← lift (raised (address_at parameters 3));
  b ← get;
  link_type ← lift (idx parameters 9);
  if (status =? 0) && (negb (bool_decide (expected_peer (window b) = Some peer)) || negb (link_type =? 0x01)) then
    session_command HCI_DISCONNECT (to_le_bytes 2 handle ++ [AUTHENTICATION_FAILURE]) ;;
    modify (fun b => set_rejected ({[handle]} ∪ rejected_connections b) b) ;;
    mret false
  else if negb (status =? 0) then
    end_connection_window ;;
    modify (set_active_reconnect false) ;;
    enqueue_event (EvDisconnected (Some status)) ;;
    mret true
  else mret true.

Definition admit_disconnection (event : EventPacket) : sess bool :=
  let parameters := event_parameters event in
  lift (raised (require_len parameters 4 "disconnection complete")) ;;
  handle ← lift (u16_at parameters 1);
  status ← lift (idx parameters 0);
  b ← get;
  if (status =? 0) && bool_decide (handle ∈ rejected_connections b) then
    modify (fun b => set_rejected (rejected_connections b ∖ {[handle]}) b) ;;
    mret false
  else mret true.

(** The events the session does not keep for itself go to the host. *)
Definition route_event (event : EventPacket) : sess unit :=
  events ← lift (raised (decode_classic_event event));
  for_each (fun e => on_host map_host_error (host_handle_event e)) events ;;
  drain_host_output.

Definition handle_event (event : EventPacket) : sess unit :=
  go ← (if event_code event =? EVENT_CONNECTION_REQUEST then admit_request event else mret true);
  if negb go then skip else
  go ← (if event_code event =? EVENT_CONNECTION_COMPLETE then admit_connection event else mret true);
  if negb go then skip else
  go ← (if event_code event =? EVENT_DISCONNECTION_COMPLETE then admit_disconnection event else mret true);
  if negb go then skip else
  route_event event.

Definition handle_packet (packet : Packet) : sess unit :=
  match packet with
  | Hci.Event event => handle_event event
  | Acl packet =>
      on_host map_host_error (process_acl packet) ;;
      drain_host_output ;;
      refresh_outgoing_channels ;;
      process_protocol_input ;;
      drain_host_output
  | Command _ => raise ProtocolViolation
  end.

(** An error of the handler, or one it recorded, ends the session. *)
Definition handle_polled_packet (packet : Packet) : sess unit := fun b =>
  match handle_packet packet b with
  | (Err (Raised error), b) => record_terminal error b
  | (Err OutOfFuel, b) => (Err OutOfFuel, b)
  | (Panic, b) => (Panic, b)
  | (Ok _, b) => match terminal b with Some error => (Err (Raised error), b) | None => (Ok tt, b) end
  end.

(** ** The driver's calls *)

Definition start_pairing : sess unit :=
  ensure_session_active ;;
  b ← get;
  match window b with
  | Pairing _ => skip
  | Reconnecting _ | WindowConnected => raise SendRejected
  | Idle =>
      set_scan false true ;;
      write_inquiry_response ;;
      set_scan true true ;;
      modify (set_active_reconnect false) ;;
      modify (set_window (Pairing None))
  end.

Definition create_connection_parameters (peer : BluetoothAddress) : list Z :=
  address_le peer ++ to_le_bytes 2 0 ++ [0; 0] ++ to_le_bytes 2 0 ++ [1].

Definition start_reconnect : sess unit :=
  ensure_session_active ;;
  b ← get;
  match window b with
  | Reconnecting _ => skip
  | Pairing _ | WindowConnected => raise SendRejected
  | Idle =>
      bonds ← lift (raised (sourced InvalidBondStore FromBondStore (bond_load_all (bonds (host b)))));
      match bonds with
      | [(peer, _)] =>
          set_scan false true ;;
          write_inquiry_response ;;
          set_scan false true ;;
          session_command HCI_CREATE_CONNECTION (create_connection_parameters peer) ;;
          modify (set_active_reconnect true) ;;
          modify (set_window (Reconnecting peer))
      | [] => raise NoBond
      | _ => raise InvalidBondStore
      end
  end.

(** [self.io_mut()?.recv_timeout(timeout)], whose error ends the session, and
    the handler of what it gives: [false] without a packet. *)
Definition poll_round (timeout : Z) : sess bool := fun b =>
  match sess_io b with
  | None => raise Closed b
  | Some io =>
      let '(received, io) := io_recv_timeout timeout io in
      let b := set_sess_io (Some io) b in
      match received with
      | Ok (Some packet) => (handle_polled_packet packet ;; mret true) b
      | Ok None => (Ok false, b)
      | Err error => record_terminal error b
      | Panic => (Panic, b)
      end
  end.

Fixpoint poll_loop (n : nat) : sess unit :=
  match n with
  | O => throw OutOfFuel
  | S n' => again ← poll_round 0; if again : bool then poll_loop n' else skip
  end.

Definition session_poll (timeout : Z) : sess (list Api.Event) :=
  ensure_session_active ;;
  b ← get;
  (match pending_events b with [] => _ ← poll_round timeout; skip | _ => skip end) ;;
  poll_loop fuel ;;
  b ← get;
  modify (set_pending_events []) ;;
  mret (pending_events b).

Definition session_capacity_available (b : BackendSession T W D) : res HostError bool :=
  if bool_decide (is_Some (terminal b)) || closed b then Ok false
  else match open_slot (interrupt (protocols b)) with
       | None => Ok false
       | Some _ => interrupt_send_capacity_available (host b)
       end.

Definition send_interrupt (payload : list Z) : sess unit :=
  ensure_session_active ;;
  b ← get;
  match open_slot (interrupt (protocols b)) with
  | None => raise SendRejected
  | Some channel =>
      encoded ← lift (raised (sourced SendRejected FromBridge (encode_input (hidp (protocols b)) payload)));
      on_host (fun source => Error_with_source SendRejected (FromHost source)) (send_channel_sdu (pc_cid channel) encoded) ;;
      drain_host_output
  end.

Definition read_clock : sess Z := fun b =>
  let '(now, w) := clock_read (sess_clock b) in (Ok now, set_sess_clock w b).

Fixpoint drain_interrupt_loop (n : nat) (deadline : Z) : sess unit :=
  match n with
  | O => throw OutOfFuel
  | S n' =>
      b ← get;
      if channel_output_is_flushed (host b) then skip else
      now ← read_clock;
      let remaining := Z.max 0 (deadline - now) in
      if remaining =? 0 then raise DrainTimedOut else
      again ← poll_round remaining;
      if again : bool then drain_interrupt_loop n' deadline else raise DrainTimedOut
  end.

Definition drain_interrupt (timeout : Z) : sess unit :=
  ensure_session_active ;;
  now ← read_clock;
  b ← get;
  deadline ← (if now + timeout <=? instant_max (sess_clock b) then mret (now + timeout) else read_clock);
  drain_interrupt_loop fuel deadline.

Definition session_disconnect : sess unit :=
  ensure_session_active ;;
  modify (set_protocols ProtocolState_default) ;;
  modify (set_active_reconnect false) ;;
  b ← get;
  modify (set_sess_connection None) ;;
  (match sess_connection b with
   | Some (_, handle) => session_command HCI_DISCONNECT (to_le_bytes 2 handle ++ [REMOTE_USER_TERMINATED_CONNECTION])
   | None => skip
   end) ;;
  end_connection_window.

Definition session_close : sess unit :=
  b ← get;
  if closed b then skip else
  modify (set_closed true) ;;
  modify (set_sess_connection None) ;;
  modify (set_rejected ∅) ;;
  modify (set_window Idle) ;;
  modify (set_protocols ProtocolState_default) ;;
  modify (set_active_reconnect false) ;;
  modify (set_pending_events []) ;;
  b ← get;
  match sess_io b with
  | None => skip
  | Some io => modify (set_sess_io None) ;; lift (raised (io_close io).1)
  end.
End session.

(** ** Opening *)

Section open.
Context {Env T W D : Type} `{UsbEnv Env T} `{HciIo T} `{Clock W} `{BondStore D} `{Profile}.
Context (fuel : nat).

Definition Session_open (options : OpenOptions) (bonds : D) (clock : W) : stm Env Stop (BackendSession T W D) :=
  selector ← lift (raised (sourced OpenFailed FromUsb (UsbSelector_parse (adapter options))));
  identity_preparation ←
    match local_identity options with
    | AdapterDefault => mret None
    | Explicit target =>
        prepared ← prepare_explicit_identity (T := T) fuel selector target;
        mret (Some prepared)
    end;
  opened ← (fun env => let '(r, env) := usb_open selector env in (raised (sourced OpenFailed FromUsb r), env));
  driver ← lift (BackendSession_initialize fuel (options_config options) bonds clock opened);
  match local_identity options with
  | Explicit expected =>
      if bool_decide (local_address (sess_capabilities driver) = expected) then mret driver
      else raise (identity_mismatch_kind identity_preparation)
  | AdapterDefault => mret driver
  end.
End open.
