(* ===== verification/Format.v ===== *)
(** * What values and errors print ([src/src/values.rs], [src/src/api.rs], [src/src/identity.rs], [src/src/session.rs])

    The hand-written [Debug] and [Display] of bonds, selectors and errors, as the
    text they give with [{:?}] and [{}], and that they keep secrets and causes
    to themselves but tell everything else apart. *)
From S2P Require Import Prelude Hci L2cap Values Csr Host Identity Api Session.
From stdpp Require Import pretty.

#[local] Open Scope string_scope.
#[local] Open Scope Z_scope.

(** ** The standard library's builders *)

Definition QUOTE : string := String (Ascii.ascii_of_nat 34) EmptyString.

(** [Debug] of a text without characters to escape, of a [bool] and of a
    number. *)
Definition debug_str (s : string) : string := QUOTE +:+ s +:+ QUOTE.
Definition debug_bool (b : bool) : string := if b then "true" else "false".
Definition debug_number (n : Z) : string := pretty n.

Fixpoint separated (fields : list string) : string :=
  match fields with
  | [] => ""
  | [f] => f
  | f :: rest => f +:+ ", " +:+ separated rest
  end.

Definition debug_fields (fields : list (string * string)) : string :=
  separated ((fun '(name, value) => name +:+ ": " +:+ value) <$> fields).

(** [debug_struct(name).field(...).finish()], with [finish_non_exhaustive()], and
    [debug_tuple(name).field(...).finish()]. *)
Definition debug_struct (name : string) (fields : list (string * string)) : string :=
  match fields with [] => name | _ => name +:+ " { " +:+ debug_fields fields +:+ " }" end.

Definition debug_struct_non_exhaustive (name : string) (fields : list (string * string)) : string :=
  match fields with [] => name +:+ " { .. }" | _ => name +:+ " { " +:+ debug_fields fields +:+ ", .. }" end.

Definition debug_tuple (name : string) (fields : list string) : string :=
  match fields with [] => name | _ => name +:+ "(" +:+ separated fields +:+ ")" end.

(** ** Values *)

Definition ClassicBond_debug (self : ClassicBond) : string :=
  debug_struct "ClassicBond"
    [("link_key", debug_str "<redacted>"); ("link_key_type", debug_number (link_key_type self));
     ("authenticated", debug_bool (authenticated self))].

(** The selector is the text of its only field. *)
Definition AdapterSelector_debug (self : list Z) : string := debug_tuple "AdapterSelector" [debug_str "<redacted>"].

(** ** Errors *)

Definition ErrorKind_debug (kind : ErrorKind) : string :=
  match kind with
  | InvalidConfiguration => "InvalidConfiguration"
  | OpenFailed => "OpenFailed"
  | InvalidControllerIdentity => "InvalidControllerIdentity"
  | IdentityMismatch => "IdentityMismatch"
  | AdapterIdentityRecoveryRequired => "AdapterIdentityRecoveryRequired"
  | UnsupportedController => "UnsupportedController"
  | InvalidBondStore => "InvalidBondStore"
  | NoBond => "NoBond"
  | Closed => "Closed"
  | SendRejected => "SendRejected"
  | DrainTimedOut => "DrainTimedOut"
  | EventQueueOverflow => "EventQueueOverflow"
  | SourceTerminated => "SourceTerminated"
  | CloseFailed => "CloseFailed"
  | ProtocolViolation => "ProtocolViolation"
  end.

Definition Error_debug {Src} (self : Error Src) : string :=
  debug_struct_non_exhaustive "Error" [("kind", ErrorKind_debug (error_kind self))].

Definition Error_display {Src} (self : Error Src) : string :=
  match error_kind self with
  | InvalidConfiguration => "backend configuration is invalid"
  | OpenFailed => "Bluetooth adapter could not be opened or initialized"
  | InvalidControllerIdentity => "Bluetooth controller returned an invalid identity"
  | IdentityMismatch => "Bluetooth controller identity does not match the requested identity"
  | AdapterIdentityRecoveryRequired => "Bluetooth adapter identity is uncertain after a write"
  | UnsupportedController => "Bluetooth controller lacks required Classic ACL capability"
  | InvalidBondStore => "Classic bond store could not be accessed"
  | NoBond => "no single reconnectable Classic bond exists"
  | Closed => "backend session is closed"
  | SendRejected => "backend session rejected the interrupt report"
  | DrainTimedOut => "backend interrupt queue did not drain before the deadline"
  | EventQueueOverflow => "backend application event queue overflowed"
  | SourceTerminated => "Bluetooth packet source terminated"
  | CloseFailed => "backend session could not be closed cleanly"
  | ProtocolViolation => "Bluetooth protocol packet is invalid or unsupported"
  end.

Definition BondStoreError_display (self : BondStoreError) : string :=
  match self with
  | LoadFailed => "Classic bond could not be read"
  | ListFailed => "Classic bonds could not be listed"
  | UpsertFailed => "Classic bond could not be persisted"
  end.

Definition CsrCodecError_display (self : CsrCodecError) : string :=
  match self with
  | MalformedResponse => "CSR vendor response is malformed"
  | NotCsrBccmd => "vendor response is not CSR BCCMD"
  | FailedResponse => "CSR vendor response reported failure"
  end.

Definition IdentityPreparationErrorKind_debug (kind : IdentityPreparationErrorKind) : string :=
  match kind with
  | IdUnsupportedController => "UnsupportedController"
  | FailedBeforeWrite => "FailedBeforeWrite"
  | RecoveryRequired => "RecoveryRequired"
  end.

Definition IdentityPreparationStage_debug (stage : IdentityPreparationStage) : string :=
  match stage with
  | StageOpen => "Open"
  | StageInitialize => "Initialize"
  | StageReadCurrent => "ReadCurrent"
  | StageWrite => "Write"
  | StageClose => "Close"
  | StageReenumeration => "Reenumeration"
  | StageReadback => "Readback"
  end.

Definition IdentityPreparationError_debug (self : IdentityPreparationError) : string :=
  debug_struct_non_exhaustive "IdentityPreparationError"
    [("kind", IdentityPreparationErrorKind_debug (identity_error_kind self));
     ("stage", IdentityPreparationStage_debug (identity_error_stage self))].

Definition IdentityPreparationError_display (self : IdentityPreparationError) : string :=
  match identity_error_kind self with
  | IdUnsupportedController => "adapter does not support explicit local address preparation"
  | FailedBeforeWrite => "adapter identity preparation failed before writing"
  | RecoveryRequired => "adapter identity is uncertain; power cycle the USB adapter before retrying"
  end.

Definition hex_upper (d : Z) : Ascii.ascii := default (Ascii.ascii_of_nat 0) (String.get (Z.to_nat d) "0123456789ABCDEF").

(** [{:0width$X}] of a number of at most [width] digits. *)
Fixpoint upper_hex (width : nat) (n : Z) : string :=
  match width with
  | O => ""
  | S width => upper_hex width (n / 16) +:+ String (hex_upper (n mod 16)) ""
  end.

Definition CommandFailure_display (opcode status : Z) : string :=
  "HCI command 0x" +:+ upper_hex 4 opcode +:+ " failed with status 0x" +:+ upper_hex 2 status.

Definition PacketLengthError_display (field : string) (expected actual : Z) : string :=
  field +:+ " has length " +:+ pretty actual +:+ ", expected " +:+ pretty expected.

Example bond_text : ClassicBond_debug (mkBond (replicate 16 7) 4 false)
  = "ClassicBond { link_key: " +:+ QUOTE +:+ "<redacted>" +:+ QUOTE +:+ ", link_key_type: 4, authenticated: false }".
Proof. vm_compute. reflexivity. Qed.

Example error_text : Error_debug (Error_new (Src := Source) NoBond) = "Error { kind: NoBond, .. }".
Proof. reflexivity. Qed.

Example failure_text : CommandFailure_display 0x0C1A 0x0C = "HCI command 0x0C1A failed with status 0x0C".
Proof. reflexivity. Qed.

Example length_text : PacketLengthError_display "local version" 8 7 = "local version has length 7, expected 8".
Proof. vm_compute. reflexivity. Qed.

(** ** What they tell *)

Lemma chars_app s t : String.list_ascii_of_string (s +:+ t) = (String.list_ascii_of_string s ++ String.list_ascii_of_string t)%list.
Proof. induction s as [|c s IH]; [done|]. exact (f_equal (cons c) IH). Qed.

Lemma append_tail_inj s s' t : s +:+ t = s' +:+ t -> s = s'.
Proof.
  intros He. apply (f_equal String.list_ascii_of_string) in He. rewrite !chars_app in He. apply app_inv_tail in He.
  rewrite <- (String.string_of_list_ascii_of_string s), He. apply String.string_of_list_ascii_of_string.
Qed.

Lemma append_assoc s t u : (s +:+ t) +:+ u = s +:+ (t +:+ u).
Proof. induction s as [|c s IH]; [done|]. exact (f_equal (String c) IH). Qed.

(** What a text tells: what is equal when it is. *)
Definition tells_exactly {A B} (text : A -> string) (told : A -> B) : Prop := forall a a', text a = text a' <-> told a = told a'.

Lemma tells_finite {A} (text : A -> string) : Inj eq eq text -> tells_exactly text id.
Proof. intros Hi a a'. unfold id. split; [apply Hi|by intros ->]. Qed.

Lemma bond_debug_tells : tells_exactly ClassicBond_debug (fun b => (link_key_type b, authenticated b)).
Proof.
  intros [k n a] [k' n' a']. cbn [link_key_type authenticated].
  split; [|by intros [= -> ->]]. unfold ClassicBond_debug, debug_struct, debug_fields, debug_number.
  cbn [fmap list_fmap separated link_key_type authenticated].
  rewrite !append_assoc. intros He. repeat apply (inj _) in He.
  destruct a, a'.
  - by apply append_tail_inj, (inj pretty) in He as ->.
  - exfalso. apply (f_equal (fun s => rev (String.list_ascii_of_string s))) in He. rewrite !chars_app, !rev_app_distr in He. discriminate He.
  - exfalso. apply (f_equal (fun s => rev (String.list_ascii_of_string s))) in He. rewrite !chars_app, !rev_app_distr in He. discriminate He.
  - by apply append_tail_inj, (inj pretty) in He as ->.
Qed.

Lemma error_kind_debug_inj : Inj eq eq ErrorKind_debug.
Proof. intros k k' He. destruct k, k'; first [reflexivity|discriminate He]. Qed.

Lemma error_debug_tells {Src} : tells_exactly (Error_debug (Src := Src)) error_kind.
Proof.
  intros [k s] [k' s']. cbn [error_kind]. split; [|by unfold Error_debug; cbn; intros ->].
  unfold Error_debug, debug_struct_non_exhaustive, debug_fields. cbn [fmap list_fmap separated error_kind]. rewrite !append_assoc. intros He.
  repeat apply (inj _) in He. by apply append_tail_inj, error_kind_debug_inj in He.
Qed.

Lemma error_display_tells {Src} : tells_exactly (Error_display (Src := Src)) error_kind.
Proof. intros [k s] [k' s']. unfold Error_display. cbn [error_kind]. split; [|by intros ->]. destruct k, k'; first [reflexivity|discriminate]. Qed.

Lemma identity_debug_tells : tells_exactly IdentityPreparationError_debug id.
Proof. apply tells_finite. intros [k s] [k' s'] He. destruct k, k', s, s'; first [reflexivity|discriminate He]. Qed.

Lemma identity_display_tells : tells_exactly IdentityPreparationError_display identity_error_kind.
Proof.
  intros [k s] [k' s']. unfold IdentityPreparationError_display. cbn [identity_error_kind]. split; [|by intros ->].
  destruct k, k'; first [reflexivity|discriminate].
Qed.

(** ** Hexadecimal *)

Definition digit_value (c : Ascii.ascii) : Z :=
  let n := Z.of_nat (Ascii.nat_of_ascii c) in if n <? 58 then n - 48 else n - 55.

Lemma digit_read : forall d, 0 <= d < 16 -> digit_value (hex_upper d) = d.
Proof. apply (forall_below (fun d => digit_value (hex_upper d) = d)). vm_compute. reflexivity. Qed.

Lemma upper_hex_length w : forall n, length (String.list_ascii_of_string (upper_hex w n)) = w.
Proof. induction w as [|w IH]; intros n; [done|]. cbn [upper_hex]. rewrite chars_app, length_app, IH. cbn. lia. Qed.

Lemma upper_hex_inj w : forall n m, 0 <= n < 16 ^ Z.of_nat w -> 0 <= m < 16 ^ Z.of_nat w -> upper_hex w n = upper_hex w m -> n = m.
Proof.
  induction w as [|w IH]; intros n m Hn Hm He; [cbn in *; lia|]. cbn [upper_hex] in He. rewrite Nat2Z.inj_succ, Z.pow_succ_r in Hn, Hm by lia.
  apply (f_equal String.list_ascii_of_string) in He. rewrite !chars_app in He. apply app_inj_tail in He as [Hh Hl].
  apply (f_equal String.string_of_list_ascii) in Hh. rewrite !String.string_of_list_ascii_of_string in Hh.
  apply IH in Hh; [|split; [apply Z.div_pos; lia|apply Z.div_lt_upper_bound; lia]..].
  apply (f_equal digit_value) in Hl. rewrite !digit_read in Hl by (apply Z.mod_pos_bound; lia).
  rewrite (Z.div_mod n 16), (Z.div_mod m 16), Hh, Hl by lia. done.
Qed.

Lemma append_inj s s' t t' : length (String.list_ascii_of_string s) = length (String.list_ascii_of_string s') -> s +:+ t = s' +:+ t'
  -> s = s' /\ t = t'.
Proof.
  intros Hl He. apply (f_equal String.list_ascii_of_string) in He. rewrite !chars_app in He. apply app_inj_1 in He as [Hs Ht]; [|done].
  apply (f_equal String.string_of_list_ascii) in Hs, Ht. by rewrite !String.string_of_list_ascii_of_string in Hs, Ht.
Qed.

Lemma failure_display_tells op st op' st' : u16 op -> u16 op' -> u8 st -> u8 st' ->
  CommandFailure_display op st = CommandFailure_display op' st' -> op = op' /\ st = st'.
Proof.
  intros Ho Ho' Hs Hs' He. unfold CommandFailure_display in He. apply (inj _), append_inj in He as [Hop He]; [|by rewrite !upper_hex_length].
  apply (inj _) in He. split; [by apply (upper_hex_inj 4)|by apply (upper_hex_inj 2)].
Qed.

(** C35. Texts tell what they may and no more: a bond prints its key type and
    whether it is authenticated but nothing of its key, a selector nothing, an
    error its kind but nothing of its cause, and a failed identity preparation
    its kind and stage; and two that print alike agree on all that is
    printed. *)
Theorem texts_tell_no_secret {Src} :
  tells_exactly ClassicBond_debug (fun b => (link_key_type b, authenticated b))
  /\ tells_exactly AdapterSelector_debug (fun _ => tt)
  /\ tells_exactly (Error_debug (Src := Src)) error_kind /\ tells_exactly (Error_display (Src := Src)) error_kind
  /\ tells_exactly IdentityPreparationError_debug (fun e => (identity_error_kind e, identity_error_stage e))
  /\ tells_exactly IdentityPreparationError_display identity_error_kind.
Proof.
  split_and!; [apply bond_debug_tells|done|apply error_debug_tells|apply error_display_tells| |apply identity_display_tells].
  intros [k s] [k' s']. etrans; [apply identity_debug_tells|]. cbn. unfold id. naive_solver.
Qed.
