(* ===== verification/SessionProps.v ===== *)
(** * Properties of the session ([src/src/session.rs])

    The session drives its host only through the host's calls, so it inherits
    the host's invariant; its own invariant, with the bound of the event queue;
    and single rounds of the loop that drains the host's output. *)
From S2P Require Import Prelude Hci L2cap Ertm Classic ClassicProps Hidp Values Sdp SdpPdu SdpService Host HostProps.
From S2P Require Import Csr Identity Usb Api HidService Session.

Lemma lift_ok {S A} (r : res SErr A) (s : S) a s' : lift (raised r) s = (Ok a, s') -> r = Ok a /\ s' = s.
Proof. unfold lift, raised. destruct r; try done. by intros [= -> ->]. Qed.

(** ** Calls of the application *)

Inductive session_call : Type :=
| CallStartPairing
| CallStartReconnect
| CallPoll (timeout : Z)
| CallSendInterrupt (payload : list Z)
| CallDrainInterrupt (timeout : Z)
| CallDisconnect
| CallClose.

Section calls.
Context {T W D : Type} `{HciIo T} `{Clock W} `{BondStore D} `{Profile}.
Context (fuel : nat).
Abbreviation bs := (BackendSession T W D).

Definition session_call_result (c : session_call) : stm bs Stop unit :=
  match c with
  | CallStartPairing => start_pairing
  | CallStartReconnect => start_reconnect
  | CallPoll timeout => _ ← session_poll fuel timeout; skip
  | CallSendInterrupt payload => send_interrupt fuel payload
  | CallDrainInterrupt timeout => drain_interrupt fuel timeout
  | CallDisconnect => session_disconnect
  | CallClose => session_close
  end.

Definition run_session_calls (cs : list session_call) (b : bs) : bs :=
  fold_left (fun b c => (session_call_result c b).2) cs b.
End calls.

#[global] Instance session_call_eq_dec : EqDecision session_call.
Proof. solve_decision. Defined.

(** ** The session as a client of its host *)

Create HintDb drive_db.

Section driving.
Context {T W D : Type} `{HciIo T} `{Clock W} `{BondStore D} `{Profile}.
Abbreviation bs := (BackendSession T W D).
Abbreviation sess := (stm bs Stop).

(** The open session's link satisfies [J], its host was reached from [h0] by
    calls of [P], and the event queue is within its bound. *)
Definition driven (P : host_call -> Prop) (J : T -> Prop) (h0 : ClassicHost D) (b : bs) : Prop :=
  (exists cs, Forall P cs /\ host b = run_host_calls cs h0)
  /\ (length (pending_events b) <= EVENT_QUEUE_CAPACITY)%nat /\ closed b = false /\ (exists io, sess_io b = Some io /\ J io).

Lemma driven_refl P J (b : bs) : (length (pending_events b) <= EVENT_QUEUE_CAPACITY)%nat -> closed b = false ->
  (exists io, sess_io b = Some io /\ J io) -> driven P J (host b) b.
Proof. intros Hb Hc Hio. split_and!; [by exists []|done|done|done]. Qed.

Lemma driven_keep P J h0 (b b' : bs) : host b' = host b -> pending_events b' = pending_events b -> closed b' = closed b ->
  (forall io, sess_io b = Some io -> J io -> exists io', sess_io b' = Some io' /\ J io') -> driven P J h0 b -> driven P J h0 b'.
Proof. unfold driven. intros -> -> -> Hio (? & ? & ? & io & ? & ?). split_and!; eauto. Qed.

Lemma driven_same P J h0 (b b' : bs) : host b' = host b -> pending_events b' = pending_events b -> closed b' = closed b ->
  sess_io b' = sess_io b -> driven P J h0 b -> driven P J h0 b'.
Proof. unfold driven. by intros -> -> -> ->. Qed.

Lemma driven_call P J h0 c (b b' : bs) : P c -> host b' = run_host_call c (host b) -> pending_events b' = pending_events b ->
  closed b' = closed b -> sess_io b' = sess_io b -> driven P J h0 b -> driven P J h0 b'.
Proof.
  intros Hc Hh Hp Hcl Hio [(cs & Hcs & Hb) Hq]. unfold driven. rewrite Hp, Hcl, Hio. split; [|done]. exists (cs ++ [c]). split.
  - apply Forall_app. split; [done|]. by constructor.
  - unfold run_host_calls in *. by rewrite fold_left_app, Hh, Hb.
Qed.

Context (fuel : nat) (P : host_call -> Prop) (J : T -> Prop) (h0 : ClassicHost D).
Abbreviation drives m := (preserves (E := Stop) (driven P J h0) m).

Lemma drives_modify (f : bs -> bs) : (forall b, host (f b) = host b /\ pending_events (f b) = pending_events b /\ closed (f b) = closed b
  /\ sess_io (f b) = sess_io b) ->
  drives (modify f).
Proof. intros Hf b Hb. destruct (Hf b) as (? & ? & ? & Hio). cbn. by eapply driven_same. Qed.

Lemma drives_io {A} (m : stm T SErr A) : (forall io, J io -> J (m io).2) -> drives (on_io m).
Proof.
  intros Hm b Hb. unfold on_io, raise, throw. destruct (sess_io b) as [io|] eqn:Hio; [|done]. specialize (Hm io).
  destruct (m io) as [r io']. eapply driven_keep, Hb; try done. intros ? [= <-]%(eq_trans (eq_sym Hio)) HJ. eexists. split; [done|auto].
Qed.

Lemma drives_host {A} wrap c (m : stm (ClassicHost D) HostError A) : P c -> (forall h, (m h).2 = run_host_call c h) ->
  drives (on_host wrap m).
Proof.
  intros Hc Hm b Hb. unfold on_host. specialize (Hm (host b)). destruct (m (host b)) as [r h].
  by eapply driven_call, Hb.
Qed.

(** A command goes out only within the length of its parameters. *)
Context (Jcommand : forall op ps io, len ps <= 255 -> J io -> J (io_send (Command (mkCommand op ps)) io).2).

Lemma drives_command op ps : drives (session_command op ps).
Proof.
  intros b Hb. unfold session_command, mbind, stm_bind, lift, CommandPacket_new, validate_u8_length.
  destruct (Z.leb_spec (len ps) 255); [|done]. apply (drives_io (io_send (Command (mkCommand op ps)))); [|done]. intros. by apply Jcommand.
Qed.

Lemma drives_enqueue e : drives (enqueue_event e).
Proof.
  intros b Hb. cbn. destruct (terminal b); [done|]. destruct (Nat.eqb_spec (length (pending_events b)) EVENT_QUEUE_CAPACITY).
  - by eapply driven_same, Hb.
  - destruct Hb as (Hcs & Hq & Hc). split; [done|split]; [|done]. cbn. rewrite length_app. cbn. lia.
Qed.

#[local] Hint Resolve preserves_ret preserves_lift preserves_throw preserves_skip drives_command drives_enqueue : drive_db.

(** Walks down a computation. *)
Ltac driving :=
  walk_preserves (first [apply drives_modify; intros; done | solve [eauto 1 with drive_db]]) with (eauto 2 with drive_db).

Lemma drives_raise {A} kind : drives (raise (A := A) kind).
Proof. apply preserves_throw. Qed.
Lemma drives_raise_error {A} e : drives (raise_error (A := A) e).
Proof. apply preserves_throw. Qed.
#[local] Hint Resolve drives_raise drives_raise_error : drive_db.

Lemma drives_ensure : drives ensure_session_active.
Proof. unfold ensure_session_active. driving. Qed.
Lemma drives_terminal {A} e : drives (record_terminal (A := A) e).
Proof. unfold record_terminal. driving. Qed.
Lemma drives_protocols f : drives (modify_protocols f).
Proof. unfold modify_protocols. driving. Qed.
Lemma drives_inquiry : drives write_inquiry_response.
Proof. unfold write_inquiry_response. driving. Qed.
Lemma drives_scan d c : drives (set_scan d c).
Proof. apply drives_command. Qed.
#[local] Hint Resolve drives_ensure drives_terminal drives_protocols drives_inquiry drives_scan : drive_db.

Lemma drives_end_window : drives end_connection_window.
Proof. unfold end_connection_window. driving. Qed.
#[local] Hint Resolve drives_end_window : drive_db.

(** Calls the session makes at any time. *)
Context (Ppop : P HPop) (Ptake : forall cid, P (HTake cid)) (Psend : forall cid sdu, P (HSend cid sdu))
  (Pconnect : forall psm, P (HConnect psm (mkClassicSpec CLASSIC_SERVER_MTU))).

Lemma drives_open psm : drives (open_outgoing psm).
Proof. by apply (drives_host _ (HConnect psm (mkClassicSpec CLASSIC_SERVER_MTU))). Qed.

Lemma drives_send wrap cid sdu : drives (on_host wrap (send_channel_sdu cid sdu)).
Proof. by apply (drives_host _ (HSend cid sdu)). Qed.

Lemma drives_pop : drives pop_host_output.
Proof.
  intros b Hb. unfold pop_host_output. destruct (pop_output (host b)) as [o h] eqn:Hp.
  apply (driven_call P J h0 HPop b); [done| |done|done|done|exact Hb]. cbn. by rewrite Hp.
Qed.

Lemma drives_take cid : drives (take_sdu cid).
Proof.
  intros b Hb. unfold take_sdu. destruct (take_channel_sdu cid (host b)) as [o h] eqn:Hp.
  apply (driven_call P J h0 (HTake cid) b); [done| |done|done|done|exact Hb]. cbn. by rewrite Hp.
Qed.

Lemma drives_answer cid request : drives (answer_sdp cid request).
Proof.
  intros b Hb. unfold answer_sdp. destruct (sdp (protocols b) !! cid) as [ch|]; [|done].
  destruct (handle_sdu request ch) as [r ch']. by eapply driven_same, Hb.
Qed.

Lemma drives_bridge channel sdu : drives (bridge_sdu channel sdu).
Proof.
  intros b Hb. unfold bridge_sdu. destruct (bridge_handle _ _ _) as [r br]. by eapply driven_same, Hb.
Qed.
#[local] Hint Resolve drives_open drives_send drives_pop drives_take drives_answer drives_bridge : drive_db.

Lemma drives_opened psm cid : drives (on_channel_opened psm cid).
Proof. unfold on_channel_opened. driving. Qed.
#[local] Hint Resolve drives_opened : drive_db.

(** What the host puts out may be sent. *)
Definition sendable (o : HostOutput) : Prop :=
  match o with
  | OutCommand c => forall io, J io -> J (io_send (Command c) io).2
  | OutAcl p => forall io, J io -> J (io_send (Acl p) io).2
  | OutEvent _ => True
  end.

Lemma drives_output o : sendable o -> drives (apply_output o).
Proof.
  intros Ho. destruct o; cbn [apply_output sendable] in *; [by apply drives_io|by apply drives_io|].
  unfold start_active_reconnect_control. driving.
Qed.

Context (Joutput : forall cs o, Forall P cs -> o ∈ output (run_host_calls cs h0) -> sendable o).

Lemma drives_drain : drives (drain_host_output fuel).
Proof.
  unfold drain_host_output. induction fuel as [|n IH]; cbn [drain_loop]; [driving|]. intros b Hb.
  pose proof (drives_pop b Hb) as Hb1. pose proof Hb as ((cs & Hcs & Hrun) & _). unfold mbind at 1, stm_bind at 1, pop_host_output, pop_output.
  unfold pop_host_output, pop_output in Hb1.
  destruct (output (host b)) as [|o rest] eqn:Ho; [done|]. cbn [snd] in Hb1.
  apply (preserves_bind (driven P J h0)); [|done|done]. apply drives_output, (Joutput cs); [done|]. rewrite <- Hrun, Ho. apply list_elem_of_here.
Qed.

Lemma drives_sdu_loop cid body : (forall sdu, drives (body sdu)) -> forall n, drives (sdu_loop n cid body).
Proof. intros Hbody. induction n as [|n IH]; cbn [sdu_loop]; driving. Qed.
#[local] Hint Resolve drives_drain : drive_db.

Lemma drives_input : drives (process_protocol_input fuel).
Proof.
  unfold process_protocol_input, process_hidp, process_sdp, process_hidp_sdu. driving;
    intros; apply drives_sdu_loop; intros; unfold apply_hidp_event, send_on_channel; driving.
Qed.

Lemma drives_refresh : drives refresh_outgoing_channels.
Proof. unfold refresh_outgoing_channels, refresh_channel. driving. Qed.
#[local] Hint Resolve drives_input drives_refresh : drive_db.

Lemma drives_admit ev : drives (admit_request ev) /\ drives (admit_connection ev) /\ drives (admit_disconnection ev).
Proof. unfold admit_request, admit_connection, admit_disconnection. split_and!; driving. Qed.

(** The calls a packet brings with it. *)
Definition packet_calls (packet : Packet) : Prop :=
  match packet with
  | Acl p => P (HAcl p)
  | Hci.Event ev => forall es, decode_classic_event ev = Ok es -> Forall (fun e => P (HEvent e)) es
  | Command _ => True
  end.

Lemma drives_events es : Forall (fun e => P (HEvent e)) es ->
  drives (for_each (fun e => on_host map_host_error (host_handle_event e)) es).
Proof.
  induction 1 as [|e es He _ IH]; cbn [for_each]; [apply preserves_skip|].
  apply preserves_bind; [|done]. by apply (drives_host _ (HEvent e)).
Qed.

Lemma drives_route ev : (forall es, decode_classic_event ev = Ok es -> Forall (fun e => P (HEvent e)) es) ->
  drives (route_event fuel ev).
Proof.
  intros Hev b Hb. unfold route_event. unfold mbind at 1, stm_bind at 1, lift.
  destruct (decode_classic_event ev) as [es|e|]; cbn; [|done|done].
  apply (preserves_bind (driven P J h0)); [by apply drives_events; apply Hev| |done]. intros _. apply drives_drain.
Qed.

Lemma drives_packet packet : packet_calls packet -> drives (handle_packet fuel packet).
Proof.
  intros Hp. destruct packet as [c|ev|p]; cbn [handle_packet packet_calls] in *; [driving| |].
  - destruct (drives_admit ev) as (Hreq & Hcon & Hdis). pose proof (drives_route ev Hp). unfold handle_event. driving.
  - apply preserves_bind; [by apply (drives_host _ (HAcl p))|driving].
Qed.

Lemma drives_polled packet : packet_calls packet -> drives (handle_polled_packet fuel packet).
Proof.
  intros Hp b Hb. pose proof (drives_packet packet Hp b Hb) as Hd. unfold handle_polled_packet.
  destruct (handle_packet fuel packet b) as [[[]|[e|]|] b']; cbn [snd] in *; [|by apply drives_terminal|done|done].
  by destruct (terminal b').
Qed.

(** What comes in brings calls of [P]. *)
Context (Jrecv : forall timeout io, J io -> J (io_recv_timeout timeout io).2
  /\ match (io_recv_timeout timeout io).1 with Ok (Some packet) => packet_calls packet | _ => True end).

Lemma drives_poll_round timeout : drives (poll_round fuel timeout).
Proof.
  intros b Hb. unfold poll_round. pose proof Hb as (_ & _ & _ & io & Hio & HJ). rewrite Hio.
  destruct (Jrecv timeout io HJ) as [HJ' Hcalls]. destruct (io_recv_timeout timeout io) as [r io'].
  assert (driven P J h0 (set_sess_io (Some io') b)) as Hb' by (eapply driven_keep, Hb; eauto).
  destruct r as [[packet|]|e|]; [|done|by apply drives_terminal|done].
  revert Hb'. generalize (set_sess_io (Some io') b). intros b' Hb'. apply (preserves_bind (driven P J h0)); [|intros; apply preserves_ret|done].
  by apply drives_polled.
Qed.
#[local] Hint Resolve drives_poll_round : drive_db.

Lemma drives_clock : drives read_clock.
Proof. intros b Hb. unfold read_clock. destruct (clock_read _). by eapply driven_same, Hb. Qed.
#[local] Hint Resolve drives_clock : drive_db.

Lemma drives_loops n deadline : drives (poll_loop fuel n) /\ drives (drain_interrupt_loop fuel n deadline).
Proof. induction n as [|n [IH1 IH2]]; cbn [poll_loop drain_interrupt_loop]; split; driving. Qed.

Lemma drives_clear : drives (modify (set_pending_events [])).
Proof. intros b (Hb & _ & Hc). split; [exact Hb|split]; [cbn; lia|done]. Qed.
#[local] Hint Resolve drives_clear : drive_db.

Lemma drives_call c : c <> CallClose -> drives (session_call_result fuel c).
Proof.
  intros Hc. destruct (drives_loops fuel 0) as [Hpoll _]. pose proof (fun d => proj2 (drives_loops fuel d)).
  destruct c; cbn [session_call_result]; try done;
    unfold start_pairing, start_reconnect, session_poll, send_interrupt, drain_interrupt, session_disconnect; driving.
Qed.
End driving.

(** On a link of which nothing is asked, everything may be sent. *)
Lemma sendable_any {T} `{HciIo T} o : sendable (fun _ : T => True) o.
Proof. by destruct o. Qed.
#[export] Hint Resolve sendable_any : core.

(** The bytes of a packet, as its Rust type has them. *)
Definition packet_bytes (packet : Packet) : Prop :=
  match packet with
  | Hci.Event ev => bytes (event_parameters ev)
  | Acl p => bytes (acl_data p)
  | Command c => bytes (cmd_parameters c)
  end.

(** What a session relies on of its link: from a state that satisfies [io_ok] it
    stays in such states, and only bytes come in. *)
Class HciIoLaws (T : Type) `{HciIo T} : Type := {
  io_ok : T -> Prop;
  io_ok_send packet io : io_ok io -> io_ok (io_send packet io).2;
  io_ok_recv timeout io : io_ok io -> io_ok (io_recv_timeout timeout io).2;
  recv_bytes timeout io packet io' : io_ok io -> io_recv_timeout timeout io = (Ok (Some packet), io') -> packet_bytes packet
}.

Lemma u16_at_range {E} l i n : bytes l -> u16_at (E := E) l i = Ok n -> u16 n.
Proof.
  intros Hl. unfold u16_at, idx. destruct (l !! i) as [a|] eqn:Ha; [|done]. destruct (l !! S i) as [c|] eqn:Hc; [|done].
  intros [= <-]. apply u16_le_range; by eapply (Forall_lookup_1 (fun b => u8 b)).
Qed.

Lemma decode_in_range ev es : bytes (event_parameters ev) -> decode_classic_event ev = Ok es -> Forall event_in_range es.
Proof.
  intros Hb. unfold decode_classic_event, completed_packet_events. set (ps := event_parameters ev) in *.
  destruct (event_code ev =? EVENT_NUMBER_OF_COMPLETED_PACKETS) eqn:Hc.
  - bool_to_prop. rewrite Hc. cbn. destruct ps as [|n entries]; [done|]. destruct (require_len _ _ _); try done.
    cbn. intros He%collect_Ok. apply bytes_cons in Hb as [_ Hb].
    assert (Forall bytes (chunks_exact 4 entries)) as Hch.
    { apply Forall_forall. intros c Hin. apply list_elem_of_filter in Hin as [_ Hin].
      pose proof (chunks_bytes 4 entries ltac:(lia) Hb) as Hall. rewrite Forall_forall in Hall. auto. }
    revert es He. induction Hch as [|c cs Hbc _ IH]; intros es He; destruct es as [|e es]; simplify_eq/=; [done|].
    constructor; [|by apply IH]. unfold completed_entry in *.
    destruct (u16_at c 0) as [h| |]; cbn in *; simplify_eq. destruct (u16_at c 2) as [k| |] eqn:Hk; cbn in *; simplify_eq.
    apply u16_at_range in Hk; [cbn; lia|done].
  - intros He. assert (forall A (r : res SErr A) f, (r ≫= f) = Ok es -> exists a, f a = Ok es) as Hbind.
    { intros A r f Hr. destruct r; try done. eauto. }
    repeat (case_match; [repeat (apply Hbind in He as [? He] || (case_match; try done)); simplify_eq; repeat constructor|]);
      try done; simplify_eq; constructor.
Qed.

(** ** Rounds of the drain loop *)

Section drain.
Context {T W D : Type} `{HciIo T} `{Clock W} `{BondStore D} `{Profile}.
Abbreviation bs := (BackendSession T W D).

Lemma drain_nothing n (b : bs) : output (host b) = [] -> drain_loop (S n) b = (Ok tt, b).
Proof.
  intros Ho. cbn [drain_loop]. unfold mbind, stm_bind, pop_host_output, pop_output, skip. rewrite Ho. by destruct b.
Qed.

Lemma drain_step n o rest (b : bs) : output (host b) = o :: rest ->
  drain_loop (S n) b = (apply_output o ;; drain_loop n) (set_host (set_output rest (host b)) b).
Proof. intros Ho. cbn [drain_loop]. unfold mbind at 1, stm_bind at 1, pop_host_output, pop_output. by rewrite Ho. Qed.
End drain.

(** ** The dialogue with the controller *)

Lemma completion_bytes opcode packet l : packet_bytes packet -> completion_of opcode packet = Ok (Some l) -> bytes l.
Proof.
  unfold completion_of. destruct packet as [c|ev|p]; try done. cbn [packet_bytes]. intros Hp.
  destruct (event_code ev =? EVENT_COMMAND_COMPLETE).
  - destruct (require_min_len _ _ _); [|done|done]. cbn. destruct (u16_at _ 1) as [op| |]; cbn; try done.
    destruct (negb _); [done|]. destruct (idx _ 3) as [status| |]; cbn; try done. destruct (negb _); [done|].
    intros [= <-]. by apply bytes_drop.
  - destruct (event_code ev =? EVENT_COMMAND_STATUS); [|done]. destruct (require_len _ _ _); [|done|done]. cbn.
    destruct (u16_at _ 2) as [op| |]; cbn; try done. destruct (idx _ 0) as [status| |]; cbn; try done. by destruct (_ && _).
Qed.

Section link.
Context {T : Type} `{HciIo T} (J : T -> Prop).
Context (Jcommand : forall op ps io, len ps <= 255 -> J io -> J (io_send (Command (mkCommand op ps)) io).2).
Context (Jrecv : forall timeout io, J io -> J (io_recv_timeout timeout io).2
  /\ match (io_recv_timeout timeout io).1 with Ok (Some packet) => packet_bytes packet | _ => True end).

(** A computation on the link that keeps [J], and whose value satisfies [Q]. *)
Abbreviation gives Q m := (triple (S := T) (E := Stop) J m (fun r io => J io /\ match r with Ok a => Q a | _ => True end)).

Lemma gives_bind {A B} Q R (m : stm T Stop A) (k : A -> stm T Stop B) : gives R m -> (forall a, R a -> gives Q (k a)) -> gives Q (m ≫= k).
Proof.
  intros Hm Hk io Hio. specialize (Hm io Hio) as [HJ Hm]. unfold mbind, stm_bind. destruct (m io) as [[a|e|] io']; [|done|done].
  by apply Hk.
Qed.

Lemma gives_lift {A} (r : res Stop A) : gives (fun a => r = Ok a) (lift r).
Proof. intros io Hio. by destruct r. Qed.

Lemma gives_ret {A} (Q : A -> Prop) a : Q a -> gives Q (mret a).
Proof. by intros Ha io Hio. Qed.

Lemma gives_raise {A} (Q : A -> Prop) kind : gives Q (raise kind).
Proof. by intros io Hio. Qed.

Lemma gives_for_each {A} (f : A -> stm T Stop unit) l : Forall (fun a => gives (fun _ => True) (f a)) l -> gives (fun _ => True) (for_each f l).
Proof. induction 1 as [|a l Ha _ IH]; cbn [for_each]; [by intros io Hio|]. eapply gives_bind; [exact Ha|]. intros _ _. exact IH. Qed.

Lemma await_bytes opcode n timeout : gives bytes (await n timeout (completion_of opcode)).
Proof.
  induction n as [|n IH]; cbn [await]; [by intros io Hio|]. apply (gives_bind _ packet_bytes).
  - intros io Hio. destruct (Jrecv timeout io Hio) as [HJ Hp]. unfold recv_required, raising, mbind, stm_bind.
    by destruct (io_recv_timeout timeout io) as [[[p|]|e|] io'].
  - intros packet Hp. eapply gives_bind; [apply gives_lift|]. intros [answer|] Ha; [|done]. apply gives_ret.
    destruct (completion_of opcode packet) as [[l|]|e|] eqn:Hl; try done. injection Ha as <-. by eapply completion_bytes.
Qed.

Lemma send_complete_bytes n c : len (cmd_parameters c) <= 255 -> gives bytes (send_complete n c).
Proof.
  intros Hc. apply (gives_bind _ (fun _ => True)); [|intros _ _; apply await_bytes].
  intros io Hio. unfold raising. destruct c as [op ps]. specialize (Jcommand op ps io Hc Hio).
  by destruct (io_send _ io) as [[[]|e|] io'].
Qed.

Lemma raised_ok {A} (r : res SErr A) a : raised r = Ok a -> r = Ok a.
Proof. destruct r; try done. by intros [= ->]. Qed.

Lemma command_len op ps c : command op ps = Ok c -> c = mkCommand op ps /\ len ps <= 255.
Proof.
  unfold command, CommandPacket_new, validate_u8_length. destruct (Z.leb_spec (len ps) 255); [|done]. by intros [= <-].
Qed.

Lemma run_command_bytes n opcode ps : gives bytes (run_command n opcode ps).
Proof.
  eapply gives_bind; [apply gives_lift|]. intros c [-> Hl]%raised_ok%command_len. by apply send_complete_bytes.
Qed.

Lemma identity_commands_len config cs : raised (identity_commands config) = Ok cs -> Forall (fun c => len (cmd_parameters c) <= 255) cs.
Proof.
  intros Hcs%raised_ok. unfold identity_commands in Hcs. apply bind_ok in Hcs as (name & _ & Hcs).
  do 6 (let Hc := fresh in apply bind_ok in Hcs as (? & Hc & Hcs); apply command_len in Hc as [-> Hc]).
  injection Hcs as <-. by repeat constructor.
Qed.

Lemma initialize_counts n config :
  gives (fun i => u16 (acl_packet_count i) /\ 1 <= acl_packet_length i) (initialize_controller n config).
Proof.
  unfold initialize_controller.
  repeat first
    [ apply gives_raise
    | lazymatch goal with
      | |- triple _ (mbind _ (run_command _ _ _)) _ => eapply gives_bind; [apply run_command_bytes|intros]
      | |- triple _ (mbind _ (lift _)) _ => eapply gives_bind; [apply gives_lift|intros]
      | |- triple _ (mbind _ (for_each _ _)) _ => eapply (gives_bind _ (fun _ => True)); [apply gives_for_each|intros _ _]
      | |- triple _ (if ?c then _ else _) _ => destruct c eqn:?
      end ].
  - eapply Forall_impl; [eapply identity_commands_len; cbn beta in *; eassumption|]. intros c Hc. eapply gives_bind; [by apply send_complete_bytes|].
    intros _ _. by apply gives_ret.
  - apply gives_ret. cbn beta in *. repeat match goal with Hn : u16_at _ _ = Ok _ |- _ => apply u16_at_range in Hn; [|done] end.
    bool_to_prop. cbn [acl_packet_count acl_packet_length]. lia.
Qed.
End link.

(** ** The invariant *)

(** What closing leaves. *)
Definition closed_shape {T W D} (b : BackendSession T W D) : Prop :=
  sess_io b = None /\ pending_events b = [] /\ window b = Idle /\ sess_connection b = None
  /\ protocols b = ProtocolState_default.

Section invariant.
Context {T W D : Type} `{HciIo T} `{Clock W} `{BondStore D} `{Profile}.
Context `{!HciIoLaws T}.
Context (fuel : nat).
Abbreviation bs := (BackendSession T W D).

Definition session_ok (b : bs) : Prop :=
  host_ok (host b) /\ (length (pending_events b) <= EVENT_QUEUE_CAPACITY)%nat /\ (closed b = true -> closed_shape b)
  /\ (closed b = false -> exists io, sess_io b = Some io /\ io_ok io).

Lemma packet_in_range packet : packet_bytes packet -> packet_calls host_call_in_range packet.
Proof. destruct packet; [done| |done]. intros Hb es Hes. by apply (decode_in_range _ es Hb). Qed.

Lemma recv_ok_bytes timeout io : io_ok io -> io_ok (io_recv_timeout timeout io).2
  /\ match (io_recv_timeout timeout io).1 with Ok (Some packet) => packet_bytes packet | _ => True end.
Proof.
  intros Hio. split; [by apply io_ok_recv|]. destruct (io_recv_timeout timeout io) as [[[p|]|e|] io'] eqn:Hr; try done.
  by eapply recv_bytes.
Qed.

Lemma recv_in_range timeout io : io_ok io -> io_ok (io_recv_timeout timeout io).2
  /\ match (io_recv_timeout timeout io).1 with Ok (Some packet) => packet_calls host_call_in_range packet | _ => True end.
Proof.
  intros Hio. destruct (recv_ok_bytes timeout io Hio) as [Hok Hp]. split; [done|].
  destruct (io_recv_timeout timeout io) as [[[p|]|e|] io']; try done. by apply packet_in_range.
Qed.

(** Calls on a closed session change nothing. *)
Lemma closed_call c (b : bs) : closed b = true ->
  session_call_result fuel c b = (if decide (c = CallClose) then Ok tt else Err (Raised (Error_new Closed)), b).
Proof.
  intros Hc. destruct c; case_decide; simplify_eq; cbn [session_call_result];
    unfold start_pairing, start_reconnect, session_poll, send_interrupt, drain_interrupt, session_disconnect, session_close, ensure_session_active,
      mbind, stm_bind, get, raise, throw, skip; by rewrite Hc.
Qed.

Lemma close_shape (b : bs) : closed b = false -> host (session_close b).2 = host b /\ closed (session_close b).2 = true
  /\ closed_shape (session_close b).2.
Proof.
  intros Hc. unfold session_close, mbind, stm_bind, get, modify, lift. rewrite Hc. cbn. destruct (sess_io b) as [io|] eqn:Hio; by split_and!.
Qed.

Lemma session_call_ok c (b : bs) : session_ok b -> session_ok (session_call_result fuel c b).2.
Proof.
  intros Hb. destruct (closed b) eqn:Hc; [by rewrite closed_call|]. destruct Hb as (Hh & Hq & Hcl & Hio).
  destruct (decide (c = CallClose)) as [->|Hne].
  - destruct (close_shape b Hc) as (Hhost & Hclosed & Hshape). cbn [session_call_result].
    split_and!; [by rewrite Hhost| |done|by rewrite Hclosed]. destruct Hshape as (_ & -> & _). cbn. lia.
  - assert (driven host_call_in_range io_ok (host b) (session_call_result fuel c b).2) as ((cs & Hcs & Hrun) & Hq' & Hc' & Hio').
    { apply drives_call; try done; [auto using io_ok_send|intros ? [] _ _; cbn; auto using io_ok_send|apply recv_in_range|apply driven_refl; auto]. }
    split_and!; [rewrite Hrun; by apply host_calls_ok|done|by rewrite Hc'|done].
Qed.

Lemma calls_ok cs : forall b : bs, session_ok b -> session_ok (run_session_calls fuel cs b).
Proof. induction cs as [|c cs IH]; intros b Hb; [done|]. by apply IH, session_call_ok. Qed.

Lemma initialize_ok config store (clock : W) io b : io_ok io -> BackendSession_initialize fuel config store clock io = Ok b -> session_ok b.
Proof.
  intros Hio. unfold BackendSession_initialize.
  destruct (initialize_counts io_ok (fun _ _ _ _ => io_ok_send _ _) recv_ok_bytes fuel config io Hio) as [Hio' Hcounts].
  destruct (initialize_controller fuel config io) as [[i|e|] io']; cbn [mbind res_bind fst snd] in *; try done.
  destruct Hcounts as [Hcount _]. destruct (select_local_address _ store) as [[[]|e|] store']; cbn [mbind res_bind raised sourced map_err]; try done.
  destruct (for_each _ _ _) as [r h] eqn:Hreg. destruct r as [[]|e|]; cbn; try done. intros [= <-].
  split_and!; cbn; [|lia|done|eauto].
  assert (preserves (@host_ok D) (for_each (fun psm => host_register_server psm (mkClassicSpec CLASSIC_SERVER_MTU))
            [HID_SDP_PSM; HID_CONTROL_PSM; HID_INTERRUPT_PSM])) as Hkeep
    by by apply preserves_for_each; intros; apply keep_register.
  specialize (Hkeep (ClassicHost_new store' (acl_packet_length i) (acl_packet_count i))). rewrite Hreg in Hkeep.
  apply Hkeep. split; try done. split; try done. cbn. rewrite sum_values_empty. lia.
Qed.

(** C1. The session's invariant: from its initialization on, through any
    sequence of the application's calls and whatever the controller sends,
    answers or fails to answer, the host behind the session keeps its own
    invariant (the controller's buffers are never overrun, every channel is
    consistent), at most 64 events wait for the application, a closed session
    holds no link, no events, no connection and no channel, and an open one
    has its link, in a state the link's laws speak of. *)
Theorem session_invariant config store (clock : W) io b cs :
  io_ok io -> BackendSession_initialize fuel config store clock io = Ok b ->
  let b' := run_session_calls fuel cs b in
  host_ok (host b') /\ (length (pending_events b') <= EVENT_QUEUE_CAPACITY)%nat /\ (closed b' = true -> closed_shape b')
  /\ (closed b' = false -> exists io', sess_io b' = Some io' /\ io_ok io').
Proof. intros Hio Hb. by eapply calls_ok, initialize_ok. Qed.
End invariant.
