(* ===== verification/SessionAdmission.v ===== *)
(** * Who may connect ([src/src/session.rs])

    The checks the session makes before its host sees a connection: only the
    peer its window expects is let in, others are refused or disconnected, and
    what a failed connection attempt does to the session. *)
From S2P Require Import Prelude Hci L2cap Ertm Classic ClassicProps Hidp Values Sdp SdpPdu SdpService Host HostProps.
From S2P Require Import Csr Identity Usb Api HidService Session SessionProps.

(** ** The host's connection *)

(** Peer and handle of the connection. *)
Definition conn_id {D} (h : ClassicHost D) : option (BluetoothAddress * Z) :=
  c ← connection h; Some (conn_peer c, conn_handle c).

Create HintDb conn_db.

Section conn.
Context {D : Type} `{BondStore D} `{Profile}.
Abbreviation steady x := (preserves (S := ClassicHost D) (E := HostError) (fun h => conn_id h = x)).

Lemma steady_modify x (f : ClassicHost D -> ClassicHost D) : (forall h, conn_id (f h) = conn_id h) -> steady x (modify f).
Proof. intros Hf h Hh. cbn. by rewrite Hf. Qed.

Lemma steady_on_channels {A} x missing (m : stm ChannelManager L2capError A) : steady x (on_channels missing m).
Proof.
  intros h Hh. unfold on_channels. destruct (connection h) as [c|] eqn:Hc; [|done].
  destruct (m (conn_channels c)). unfold conn_id in *. by rewrite Hc in Hh.
Qed.

Lemma steady_flush_flow x : steady x flush_flow.
Proof. intros h Hh. unfold flush_flow. by destruct (AclFlow_flush _ _) as [[]| |]. Qed.

Lemma steady_feed x p : steady x (feed_assembler p).
Proof. intros h Hh. unfold feed_assembler. by destruct (AclAssembler_feed _ _). Qed.

#[local] Hint Resolve preserves_ret preserves_lift preserves_throw preserves_skip
  steady_on_channels steady_flush_flow steady_feed : conn_db.

Ltac steady :=
  walk_preserves (apply steady_modify; intros; reflexivity) with (eauto 1 with conn_db).

Lemma steady_flush_channels x : steady x flush_channels.
Proof. unfold flush_channels, connection_handle_of, enqueue_pdu, push_output. steady. Qed.
#[local] Hint Resolve steady_flush_channels : conn_db.

Lemma steady_queue x op ps : steady x (queue_command op ps).
Proof. unfold queue_command, push_output. steady. Qed.

Lemma steady_ensure x handle : steady x (ensure_handle handle).
Proof. unfold ensure_handle, connection_handle_of. steady. Qed.
#[local] Hint Resolve steady_queue steady_ensure : conn_db.

(** The calls that do not establish or end a connection. *)
Definition changes_connection (c : host_call) : bool :=
  match c with
  | HEvent (ConnectionComplete status _ _) => status =? 0
  | HEvent (DisconnectionComplete _ _) => true
  | _ => false
  end.

Lemma connection_mut_spec handle (h : ClassicHost D) :
  (connection_mut handle h).2 = h
  /\ forall c, (connection_mut handle h).1 = Ok c -> connection h = Some c /\ conn_handle c = handle.
Proof.
  unfold connection_mut, ensure_handle, connection_handle_of, mbind, stm_bind, get, lift, skip, throw.
  destruct (connection h) as [c|] eqn:Hc; cbn; [|done]. destruct (Z.eqb_spec handle (conn_handle c)); cbn; [|done].
  rewrite Hc. cbn. split; [done|]. by intros c' [= ->].
Qed.

Lemma steady_call c (h : ClassicHost D) : changes_connection c = false -> conn_id (run_host_call c h) = conn_id h.
Proof.
  intros Hc. destruct c as [e|p|cid sdu|psm spec|psm spec|cid|]; cbn [run_host_call].
  - enough (forall x, steady x (host_handle_event e)) as He by by apply (He (conn_id h) h). intros x.
    destruct e; cbn [host_handle_event]; cbn in Hc; try discriminate Hc; try rewrite Hc;
      unfold on_link_key_request; lazymatch goal with |- context [set_conn_encrypted] => case_match; [|apply preserves_skip] | _ => try steady end.
    + intros h' Hh. unfold on_link_key_notification, push_output, modify, mbind, stm_bind.
      by destruct (bond_upsert _ _ (bonds h')) as [[[]|e|] s].
    + intros h' Hh. destruct (connection_mut_spec handle h') as [Hs Hcm]. unfold mbind, stm_bind.
      destruct (connection_mut handle h') as [[c|e|] h'']; cbn in Hs |- *; subst; [|done|done].
      destruct (Hcm c eq_refl) as [Hcon _]. unfold conn_id. cbn. by rewrite Hcon.
  - by apply (ltac:(unfold process_acl, connection_handle_of; steady) : steady (conn_id h) (process_acl p)).
  - by apply (ltac:(unfold send_channel_sdu; steady) : steady (conn_id h) (send_channel_sdu cid sdu)).
  - by apply (ltac:(unfold connect_channel; steady) : steady (conn_id h) (connect_channel psm spec)).
  - by apply (ltac:(unfold host_register_server; steady) : steady (conn_id h) (host_register_server psm spec)).
  - unfold take_channel_sdu. destruct (connection h) as [c|] eqn:Hcon; [|done].
    destruct (channels _ !! cid) as [ch|]; [|done]. destruct (ClassicChannel_pop_received ch). unfold conn_id. cbn. by rewrite Hcon.
  - unfold pop_output. by repeat case_match.
Qed.

(** A completed connection, if the host takes it, is the one of the event; a
    completed disconnection ends the connection or changes nothing. *)
Lemma complete_call handle peer (h : ClassicHost D) :
  conn_id (run_host_call (HEvent (ConnectionComplete 0 handle peer)) h) = Some (peer, handle)
  \/ conn_id (run_host_call (HEvent (ConnectionComplete 0 handle peer)) h) = conn_id h.
Proof.
  cbn [run_host_call host_handle_event]. change (0 =? 0) with true. cbv iota.
  unfold on_connection_complete, push_output, queue_command, modify, mbind, stm_bind, get, lift, throw, skip.
  destruct (pending_peer h) as [expected|]; [case_bool_decide; [|by right]|];
    (destruct (register_all _ _) as [[[]|e|] channels]; [|by right|by right]); cbn;
    (destruct (CommandPacket_new _ _); cbn; by left).
Qed.

Lemma disconnection_call handle reason (h : ClassicHost D) :
  conn_id (run_host_call (HEvent (DisconnectionComplete handle reason)) h) = None
  \/ conn_id (run_host_call (HEvent (DisconnectionComplete handle reason)) h) = conn_id h.
Proof.
  cbn [run_host_call host_handle_event]. unfold on_disconnection_complete, push_output, modify, mbind, stm_bind.
  destruct (connection_mut_spec handle h) as [Hs _]. destruct (connection_mut handle h) as [[c|e|] h']; cbn in *; subst; auto.
Qed.
End conn.

(** ** Admission *)

(** The completed connections [packet] may bring to the host of a session whose
    window is [w]. *)
Definition admissible (w : ConnectionWindow) (packet : Packet) (c : host_call) : Prop :=
  match c with
  | HEvent (ConnectionComplete 0 handle peer) =>
      expected_peer w = Some peer
      /\ exists ev, packet = Hci.Event ev /\ decode_classic_event ev = Ok [ConnectionComplete 0 handle peer]
  | _ => True
  end.

(** What a completed connection is decoded from. *)
Lemma decode_connection_complete ev es s h p : decode_classic_event ev = Ok es -> ConnectionComplete s h p ∈ es ->
  event_code ev = EVENT_CONNECTION_COMPLETE /\ es = [ConnectionComplete s h p]
  /\ idx (E := Stop) (event_parameters ev) 0 = Ok s /\ address_at (event_parameters ev) 3 = Ok p.
Proof.
  unfold decode_classic_event. intros He Hin.
  destruct (event_code ev =? EVENT_CONNECTION_COMPLETE) eqn:Hc; bool_to_prop.
  - rewrite Hc in He |- *. cbn in He. apply bind_ok in He as ([] & _ & He). apply bind_ok in He as (s' & Hs & He).
    apply bind_ok in He as (h' & _ & He). apply bind_ok in He as (p' & Hp & He). injection He as <-.
    apply list_elem_of_singleton in Hin. injection Hin as -> -> ->. split_and!; try done.
    revert Hs. unfold idx. by destruct (event_parameters ev !! 0%nat); intros [=->].
  - exfalso. destruct (event_code ev =? EVENT_NUMBER_OF_COMPLETED_PACKETS) eqn:Hn.
    + bool_to_prop. rewrite Hn in He. cbn in He. unfold completed_packet_events in He. destruct (event_parameters ev); [done|].
      apply bind_ok in He as ([] & _ & He). apply collect_Ok in He. apply (list_elem_of_fmap_2 (Ok (E := SErr))) in Hin. rewrite <- He in Hin.
      apply list_elem_of_fmap in Hin as (entry & Hx & _). symmetry in Hx. unfold completed_entry in Hx.
      apply bind_ok in Hx as (? & _ & Hx). by apply bind_ok in Hx as (? & _ & [=]).
    + repeat (case_match; [repeat (apply bind_ok in He as (? & _ & He) || (case_match; try done)); simplify_eq;
        first [by apply list_elem_of_singleton in Hin | by apply not_elem_of_nil in Hin]|]); try congruence.
      simplify_eq. by apply not_elem_of_nil in Hin.
Qed.

Section admission.
Context {T W D : Type} `{HciIo T} `{Clock W} `{BondStore D} `{Profile}.
Context (fuel : nat).
Abbreviation bs := (BackendSession T W D).

Lemma admit_connection_true ev (b : bs) s p : (admit_connection ev b).1 = Ok true ->
  idx (E := Stop) (event_parameters ev) 0 = Ok s -> address_at (event_parameters ev) 3 = Ok p ->
  s = 0 -> expected_peer (window b) = Some p.
Proof.
  intros Hadm Hs Hp ->. unfold admit_connection, mbind, stm_bind, lift, get in Hadm.
  destruct (require_len _ _ _); cbn in Hadm; try done. rewrite Hs in Hadm.
  destruct (u16_at _ 1) as [h| |]; try done. rewrite Hp in Hadm. cbn [raised map_err] in Hadm.
  destruct (idx _ 9) as [lt| |]; try done. change (0 =? 0) with true in Hadm.
  case_bool_decide as He; [done|]. cbn [negb andb orb] in Hadm.
  by destruct (session_command _ _ b) as [[[]|e|] b'].
Qed.

Lemma admitted_packet packet (b : bs) : closed b = false -> is_Some (sess_io b) ->
  (length (pending_events b) <= EVENT_QUEUE_CAPACITY)%nat -> driven (admissible (window b) packet) (fun _ => True) (host b) (handle_packet
    fuel packet b).2.
Proof.
  intros Hc Hio Hq. assert (driven (admissible (window b) packet) (fun _ => True) (host b) b) as Hb
    by (apply driven_refl; [done|done|destruct Hio as [io Hio]; eauto]).
  destruct packet as [c|ev|p]; [by apply drives_packet|cbn [handle_packet]|by apply drives_packet].
  destruct (event_code ev =? EVENT_CONNECTION_COMPLETE) eqn:Hcode.
  - unfold handle_event. bool_to_prop. rewrite Hcode. cbn [Z.eqb EVENT_CONNECTION_COMPLETE EVENT_CONNECTION_REQUEST Pos.eqb].
    unfold mbind, stm_bind, mret, stm_ret, skip. cbn [negb].
    pose proof (admit_connection_true ev b) as Htrue.
    assert (driven (admissible (window b) (Hci.Event ev)) (fun _ => True) (host b) (admit_connection ev b).2) as Hd
      by by apply (proj1 (proj2 (drives_admit _ _ _ (fun _ _ _ _ _ => I) ev))).
    destruct (admit_connection ev b) as [[[]|e|] b1]; cbn [negb fst snd] in *; try done.
    apply drives_route; try done. intros es Hes. apply Forall_forall. intros e He.
    destruct e; try done. destruct (decode_connection_complete _ _ _ _ _ Hes He) as (_ & -> & Hs & Hp).
    destruct status; try done. split; [by eapply Htrue|]. eauto.
  - change (handle_event fuel ev) with (handle_packet (T := T) (W := W) (D := D) fuel (Hci.Event ev)).
    apply drives_packet; try done. intros es Hes. apply Forall_forall. intros e He. destruct e; try done.
    destruct (decode_connection_complete _ _ _ _ _ Hes He) as (Hx & _). bool_to_prop. congruence.
Qed.

Lemma admissible_calls w packet cs : Forall (admissible w packet) cs -> forall h : ClassicHost D,
  conn_id (run_host_calls cs h) = conn_id h \/ conn_id (run_host_calls cs h) = None
  \/ exists peer handle, conn_id (run_host_calls cs h) = Some (peer, handle)
       /\ admissible w packet (HEvent (ConnectionComplete 0 handle peer)).
Proof.
  intros Hcs h. induction cs as [|c cs IH] using rev_ind; [by left|]. apply Forall_app in Hcs as [Hcs Hc].
  apply Forall_cons in Hc as [Hc _]. specialize (IH Hcs). unfold run_host_calls in *. rewrite fold_left_app. cbn [fold_left].
  set (h1 := fold_left _ cs h) in *.
  destruct (changes_connection c) eqn:Hch; [|by rewrite steady_call].
  destruct c as [[]| | | | | |]; try done; cbn in Hch.
  - bool_to_prop. subst status. destruct (complete_call handle peer h1) as [->| ->]; [|done]. right. right. eauto.
  - destruct (disconnection_call handle reason h1) as [->| ->]; [by right; left|done].
Qed.

(** C2. Only the expected peer gets in: whatever packet arrives, the host's
    connection stays, ends, or becomes the one a Connection Complete event
    announces; and that only for the peer the session's window was waiting
    for. *)
Theorem only_expected_peer_connects packet (b : bs) :
  closed b = false -> is_Some (sess_io b) -> (length (pending_events b) <= EVENT_QUEUE_CAPACITY)%nat ->
  let h' := host (handle_packet fuel packet b).2 in
  conn_id h' = conn_id (host b) \/ conn_id h' = None
  \/ exists peer handle ev, conn_id h' = Some (peer, handle) /\ expected_peer (window b) = Some peer
       /\ packet = Hci.Event ev /\ decode_classic_event ev = Ok [ConnectionComplete 0 handle peer].
Proof.
  intros Hc Hio Hq h'. destruct (admitted_packet packet b Hc Hio Hq) as ((cs & Hcs & Hrun) & _). subst h'. rewrite Hrun.
  destruct (admissible_calls _ _ cs Hcs (host b)) as [->|[->|(peer & handle & -> & Hadm)]]; [by left|by right; left|].
  destruct Hadm as (Hexp & ev & -> & Hdec). right. right. by exists peer, handle, ev.
Qed.
End admission.

(** ** Attempts that are refused or fail *)

(** A link that takes every packet. *)
Class AcceptingLink (T : Type) `{HciIo T} : Prop := link_accepts packet io : exists io', io_send packet io = (Ok tt, io').

Section attempts.
Context {T W D : Type} `{HciIo T} `{Clock W} `{BondStore D} `{Profile} `{!AcceptingLink T}.
Context (fuel : nat).
Abbreviation bs := (BackendSession T W D).

(** An open session in service, whose inquiry response fits a command. *)
Definition in_service (b : bs) : Prop :=
  closed b = false /\ terminal b = None /\ is_Some (sess_io b) /\ len (extended_inquiry_response (sess_config b)) <= 254.

Lemma command_goes op ps (b : bs) io : sess_io b = Some io -> len ps <= 255 ->
  session_command op ps b = (Ok tt, set_sess_io (Some (io_send (Command (mkCommand op ps)) io).2) b).
Proof.
  intros Hio Hl. unfold session_command, mbind, stm_bind, lift, CommandPacket_new, validate_u8_length.
  rewrite (proj2 (Z.leb_le _ _)) by lia. cbn. unfold on_io. rewrite Hio.
  by destruct (link_accepts (Command (mkCommand op ps)) io) as [io' ->].
Qed.

Lemma window_ends (b : bs) : in_service b ->
  exists io, end_connection_window b = (Ok tt, set_window Idle (set_sess_io io b)) /\ is_Some io.
Proof.
  intros (Hc & Ht & Hio & Hl). unfold end_connection_window, mbind, stm_bind, get. case_bool_decide as Hw.
  { exists (sess_io b). split; [|done]. destruct b; cbn in *; by subst. }
  unfold write_inquiry_response, set_scan, mbind, stm_bind, get, modify. destruct Hio as [io Hio].
  rewrite (command_goes _ _ b io) by first [done | rewrite len_cons; lia].
  do 2 (erewrite command_goes; [|reflexivity|by vm_compute]). by eexists.
Qed.

Lemma enqueue_room e (b : bs) : terminal b = None -> (length (pending_events b) < EVENT_QUEUE_CAPACITY)%nat ->
  enqueue_event e b = (Ok tt, set_pending_events (pending_events b ++ [e]) b).
Proof. intros Ht Hq. unfold enqueue_event, modify. rewrite Ht. by rewrite (proj2 (Nat.eqb_neq _ _)) by lia. Qed.

(** C26. A failed connection attempt, of whatever peer, is reported as the end of
    the connection: a session that is connected, and gets a Connection Complete
    event with an error status (as after refusing a stranger's request), tells
    the application that its connection ended and goes back to the idle
    window, while the host and the session still hold the live connection. *)
Theorem foreign_failure_reported_as_disconnect (b : bs) status h0 h1 other link encryption :
  in_service b -> window b = WindowConnected -> output (host b) = [] -> (0 < fuel)%nat ->
  (length (pending_events b) < EVENT_QUEUE_CAPACITY)%nat -> status <> 0 -> length other = 6%nat ->
  exists b', handle_packet fuel (Hci.Event (mkEvent EVENT_CONNECTION_COMPLETE
               ([status; h0; h1] ++ other ++ [link; encryption]))) b = (Ok tt, b')
    /\ pending_events b' = pending_events b ++ [EvDisconnected (Some status)]
    /\ window b' = Idle /\ conn_id (host b') = conn_id (host b) /\ sess_connection b' = sess_connection b.
Proof.
  intros Hs Hw Ho Hfuel Hq Hst Hother.
  do 6 (destruct other as [|? other]; [done|]). destruct other; [|done]. cbn [app].
  set (ps := [status; h0; h1; _; _; _; _; _; _; link; encryption]). set (peer := mkAddress [z; z0; z1; z2; z3; z4] AKPublic).
  assert (admit_connection (mkEvent EVENT_CONNECTION_COMPLETE ps) b
    = (end_connection_window ;; modify (set_active_reconnect false) ;; enqueue_event (EvDisconnected (Some status)) ;; mret true) b) as Hadm.
  { unfold admit_connection, mbind, stm_bind, lift, get. change (require_len _ _ _) with (Ok (E := SErr) tt).
    change (address_at _ _) with (Ok (E := SErr) peer). cbn [raised map_err event_parameters idx expect lookup list_lookup u16_at ps mbind res_bind].
    by rewrite (proj2 (Z.eqb_neq _ _)). }
  assert (decode_classic_event (mkEvent EVENT_CONNECTION_COMPLETE ps) = Ok [ConnectionComplete status (from_le_bytes [h0; h1]) peer]) as Hdec
    by reflexivity.
  cbn [handle_packet]. unfold handle_event, route_event. rewrite Hdec. unfold mbind, stm_bind, lift, mret, stm_ret.
  change (event_code _) with EVENT_CONNECTION_COMPLETE. cbn [Z.eqb EVENT_CONNECTION_COMPLETE EVENT_CONNECTION_REQUEST
    EVENT_DISCONNECTION_COMPLETE Pos.eqb negb].
  rewrite Hadm. unfold mbind, stm_bind, mret, stm_ret, modify.
  destruct (window_ends b Hs) as (io & -> & Hio). destruct Hs as (Hc & Ht & _). rewrite enqueue_room by done.
  cbn [negb raised map_err for_each]. unfold mbind, stm_bind, skip, on_host. cbn [host_handle_event].
  rewrite (proj2 (Z.eqb_neq _ _)) by done. cbn [modify]. unfold drain_host_output. destruct fuel as [|n]; [lia|].
  cbn [raised map_err]. rewrite drain_nothing by done. by eexists.
Qed.

(** The window after a request of [peer] was let through. *)
Definition latched (w : ConnectionWindow) (peer : BluetoothAddress) : ConnectionWindow :=
  match w with Pairing None => Pairing (Some peer) | _ => w end.

Definition lets_in (w : ConnectionWindow) (link : Z) (peer : BluetoothAddress) : bool :=
  (link =? 1) && bool_decide (expected_peer (latched w peer) = Some peer).

Lemma admit_request_spec (b : bs) io address c0 c1 c2 link : sess_io b = Some io -> length address = 6%nat ->
  let peer := mkAddress address AKPublic in
  admit_request (mkEvent EVENT_CONNECTION_REQUEST (address ++ [c0; c1; c2; link])) b
  = if lets_in (window b) link peer then (Ok true, set_window (latched (window b) peer) b)
    else (Ok false, set_sess_io (Some (io_send (Command (mkCommand HCI_REJECT_CONNECTION_REQUEST (address ++ [0x0F]))) io).2) b).
Proof.
  intros Hio Ha peer. do 6 (destruct address as [|? address]; [done|]). destruct address; [|done]. cbn [app].
  unfold admit_request. cbn [event_parameters]. change (address_at _ 0) with (Ok (E := SErr) peer).
  change (require_len _ _ _) with (Ok (E := SErr) tt). unfold mbind, stm_bind, lift, get, mret, stm_ret.
  cbn [raised map_err idx expect lookup list_lookup].
  assert (session_command HCI_REJECT_CONNECTION_REQUEST (address_le peer ++ [CONNECTION_REJECTED_UNACCEPTABLE_ADDRESS]) b
    = (Ok tt, set_sess_io (Some (io_send (Command (mkCommand HCI_REJECT_CONNECTION_REQUEST ([z; z0; z1; z2; z3; z4] ++ [0x0F]))) io).2) b))
    as Hrej by (apply command_goes; [done|by vm_compute]).
  unfold lets_in. destruct (Z.eqb_spec link 1) as [->|Hl]; cbn [negb andb]; [|by rewrite Hrej].
  assert (set_window (window b) b = b) as Hself by by destruct b.
  destruct (window b) as [|[expected|]|expected|] eqn:Hw; cbn [latched expected_peer]; try (by rewrite Hrej);
    cbn [modify]; try (rewrite bool_decide_eq_true_2 by done; done).
  all: repeat case_bool_decide; simplify_eq; first [by rewrite Hself | by rewrite Hrej | done].
Qed.

Lemma request_outcome (b : bs) io address c0 c1 c2 link :
  in_service b -> sess_io b = Some io -> output (host b) = [] -> (2 <= fuel)%nat -> length address = 6%nat ->
  let peer := mkAddress address AKPublic in
  handle_packet fuel (Hci.Event (mkEvent EVENT_CONNECTION_REQUEST (address ++ [c0; c1; c2; link]))) b
  = (Ok tt,
     if lets_in (window b) link peer
     then set_sess_io (Some (io_send (Command (mkCommand HCI_ACCEPT_CONNECTION_REQUEST (address ++ [HCI_ROLE_PERIPHERAL]))) io).2)
            (set_host (set_pending_peer (Some peer) (host b)) (set_window (latched (window b) peer) b))
     else set_sess_io (Some (io_send (Command (mkCommand HCI_REJECT_CONNECTION_REQUEST (address ++ [0x0F]))) io).2) b).
Proof.
  intros Hs Hio Ho Hfuel Ha peer. cbn [handle_packet]. unfold handle_event.
  cbn [event_code Z.eqb EVENT_CONNECTION_REQUEST Pos.eqb]. unfold mbind at 1, stm_bind at 1.
  rewrite (admit_request_spec b io) by done. fold peer. destruct (lets_in _ _ _); cbn [negb]; [|done].
  assert (decode_classic_event (mkEvent EVENT_CONNECTION_REQUEST (address ++ [c0; c1; c2; link])) = Ok [ConnectionRequested peer]) as Hdec.
  { do 6 (destruct address as [|? address]; [done|]). by destruct address. }
  unfold route_event. rewrite Hdec. unfold mbind, stm_bind, mret, stm_ret, lift.
  cbn [event_code Z.eqb EVENT_CONNECTION_COMPLETE EVENT_DISCONNECTION_COMPLETE Pos.eqb negb raised map_err for_each].
  unfold mbind, stm_bind, on_host. cbn [host_handle_event]. unfold queue_command, push_output, mbind, stm_bind, modify, lift, skip.
  assert (CommandPacket_new HCI_ACCEPT_CONNECTION_REQUEST (address_le peer ++ [HCI_ROLE_PERIPHERAL])
    = Ok (mkCommand HCI_ACCEPT_CONNECTION_REQUEST (address ++ [HCI_ROLE_PERIPHERAL]))) as Hcmd.
  { do 6 (destruct address as [|? address]; [done|]). by destruct address. }
  rewrite Hcmd. cbn [map_err raised host set_window set_pending_peer set_output output]. rewrite Ho.
  destruct fuel as [|[|n]]; [lia|lia|]. unfold drain_host_output. erewrite drain_step by reflexivity.
  unfold mbind, stm_bind. cbn [apply_output]. unfold on_io. cbn [sess_io set_host set_window]. rewrite Hio.
  destruct (link_accepts (Command (mkCommand HCI_ACCEPT_CONNECTION_REQUEST (address ++ [HCI_ROLE_PERIPHERAL]))) io) as [io' Hsend].
  rewrite Hsend. cbn [raised map_err snd]. rewrite drain_nothing by done. do 2 f_equal. destruct b as [? ? ? ? []]; cbn in *. by subst.
Qed.

(** C24. Every connection request is judged by the window alone: from an ACL
    peer it waits for (any peer, which is then latched, while pairing has none
    yet), the host takes the peer as pending and exactly the accept command
    goes out; from anyone else nothing changes and exactly the reject command
    goes out. *)
Theorem connection_requests_judged (b : bs) io address c0 c1 c2 link :
  in_service b -> sess_io b = Some io -> output (host b) = [] -> (2 <= fuel)%nat -> length address = 6%nat ->
  let peer := mkAddress address AKPublic in
  handle_packet fuel (Hci.Event (mkEvent EVENT_CONNECTION_REQUEST (address ++ [c0; c1; c2; link]))) b
  = (Ok tt,
     if lets_in (window b) link peer
     then set_sess_io (Some (io_send (Command (mkCommand HCI_ACCEPT_CONNECTION_REQUEST (address ++ [HCI_ROLE_PERIPHERAL]))) io).2)
            (set_host (set_pending_peer (Some peer) (host b)) (set_window (latched (window b) peer) b))
     else set_sess_io (Some (io_send (Command (mkCommand HCI_REJECT_CONNECTION_REQUEST (address ++ [0x0F]))) io).2) b).
Proof. apply request_outcome. Qed.
End attempts.
