(* ===== verification/SessionLife.v ===== *)
(** * Peers one after the other ([src/src/session.rs])

    What becomes of a session when a peer pairs, connects and leaves, on a link
    that takes every packet: what is sent, what the application is told, and
    that the session can serve the next peer. *)
From S2P Require Import Prelude Hci L2cap Ertm Classic ClassicProps Hidp Values Sdp SdpPdu SdpService Host HostProps.
From S2P Require Import Csr Identity Usb Api HidService Session SessionProps SessionAdmission.

(** The servers of a session's host, as its initialization registers them. *)
Definition session_servers : gmap Z ClassicChannelSpec :=
  <[HID_INTERRUPT_PSM := mkClassicSpec CLASSIC_SERVER_MTU]>
    (<[HID_CONTROL_PSM := mkClassicSpec CLASSIC_SERVER_MTU]> (<[HID_SDP_PSM := mkClassicSpec CLASSIC_SERVER_MTU]> ∅)).

Section life.
Context {T W D : Type} `{HciIo T} `{Clock W} `{BondStore D} `{Profile} `{!AcceptingLink T}.
Abbreviation bs := (BackendSession T W D).

(** The link after the packets were sent on it. *)
Definition send_all (packets : list Packet) (io : T) : T := fold_left (fun io p => (io_send p io).2) packets io.

Definition scan_packet (discoverable connectable : bool) : Packet :=
  Command (mkCommand HCI_WRITE_SCAN_ENABLE [Z.lor (Z.b2z discoverable) (Z.shiftl (Z.b2z connectable) 1)]).

Definition inquiry_packet (config : SessionConfig) : Packet :=
  Command (mkCommand HCI_WRITE_EXTENDED_INQUIRY_RESPONSE (0 :: extended_inquiry_response config)).

Lemma scan_goes d c (b : bs) io : sess_io b = Some io -> set_scan d c b = (Ok tt, set_sess_io (Some (send_all [scan_packet d c] io)) b).
Proof. intros Hio. apply command_goes; [done|]. by destruct d, c. Qed.

Lemma inquiry_goes (b : bs) io : sess_io b = Some io -> len (extended_inquiry_response (sess_config b)) <= 254 ->
  write_inquiry_response b = (Ok tt, set_sess_io (Some (send_all [inquiry_packet (sess_config b)] io)) b).
Proof.
  intros Hio Hl. unfold write_inquiry_response, mbind, stm_bind, get. apply command_goes; [done|]. rewrite len_cons. lia.
Qed.

(** A session no peer is connected to, ready to serve one. *)
Record resting (io : T) (b : bs) : Prop := {
  rest_open : closed b = false;
  rest_live : terminal b = None;
  rest_inquiry : len (extended_inquiry_response (sess_config b)) <= 254;
  rest_io : sess_io b = Some io;
  rest_window : window b = Idle;
  rest_connection : connection (host b) = None;
  rest_servers : host_servers (host b) = session_servers;
  rest_output : output (host b) = [];
  rest_rejected : rejected_connections b = ∅
}.

Definition pairing_packets (config : SessionConfig) : list Packet :=
  [scan_packet false true; inquiry_packet config; scan_packet true true].

Lemma pairing_starts io (b : bs) : resting io b ->
  start_pairing b = (Ok tt, set_window (Pairing None) (set_active_reconnect false
                               (set_sess_io (Some (send_all (pairing_packets (sess_config b)) io)) b))).
Proof.
  intros []. unfold start_pairing, ensure_session_active, mbind, stm_bind, get, skip. rewrite rest_open0, rest_live0, rest_window0.
  rewrite (scan_goes _ _ b io) by done. erewrite inquiry_goes by first [reflexivity|done].
  by erewrite scan_goes by reflexivity.
Qed.

Lemma servers_registered : exists channels, register_all session_servers ChannelManager_new = (Ok tt, channels).
Proof. eexists. vm_compute. reflexivity. Qed.

Definition connected_packets (config : SessionConfig) (handle : Z) : list Packet :=
  [inquiry_packet config; scan_packet false true; scan_packet false false;
   Command (mkCommand HCI_AUTHENTICATION_REQUESTED (to_le_bytes 2 handle))].

(** A session a peer is connected to. *)
Record attended (io : T) (peer : BluetoothAddress) (handle : Z) (b : bs) : Prop := {
  att_open : closed b = false;
  att_live : terminal b = None;
  att_inquiry : len (extended_inquiry_response (sess_config b)) <= 254;
  att_io : sess_io b = Some io;
  att_connection : conn_id (host b) = Some (peer, handle);
  att_servers : host_servers (host b) = session_servers;
  att_output : output (host b) = [];
  att_rejected : rejected_connections b = ∅
}.

Context (fuel : nat) (Hfuel : (3 <= fuel)%nat).

(** The announcement of a connection and the command after it are drained. *)
Lemma announcement_drained io (b : bs) peer handle c : closed b = false -> terminal b = None ->
  len (extended_inquiry_response (sess_config b)) <= 254 -> sess_io b = Some io ->
  output (host b) = [OutEvent (Connected peer handle); OutCommand c] -> (length (pending_events b) < EVENT_QUEUE_CAPACITY)%nat ->
  exists b', drain_host_output fuel b = (Ok tt, b') /\ host b' = set_output [] (host b) /\ closed b' = false /\ terminal b' = None
    /\ sess_io b' = Some (send_all [inquiry_packet (sess_config b); scan_packet false true; scan_packet false false; Command c] io)
    /\ sess_config b' = sess_config b /\ rejected_connections b' = rejected_connections b
    /\ pending_events b' = pending_events b ++ [EvConnected peer].
Proof.
  intros Hc Ht Hl Hio Ho Hroom. unfold drain_host_output. destruct fuel as [|[|[|n]]]; [lia..|]. erewrite drain_step by exact Ho.
  unfold mbind, stm_bind. cbn [apply_output]. unfold mbind, stm_bind, modify at 1 2 3. cbv beta iota.
  erewrite inquiry_goes by first [exact Hio|exact Hl]. do 2 (erewrite scan_goes by reflexivity).
  rewrite enqueue_room by first [exact Ht|exact Hroom]. erewrite drain_step by reflexivity.
  unfold mbind, stm_bind. cbn [apply_output]. unfold on_io. cbn [sess_io set_host set_sess_io set_pending_events].
  set (io3 := send_all _ (send_all _ _)). destruct (link_accepts (Command c) io3) as [io4 Hsend]. rewrite Hsend. cbn [raised map_err].
  rewrite drain_nothing by done. eexists. split; [reflexivity|]. cbn. split_and!; try done.
  change (Some io4 = Some (io_send (Command c) io3).2). by rewrite Hsend.
Qed.

Lemma connection_completes io (b : bs) address h0 h1 encryption :
  let peer := mkAddress address AKPublic in let handle := from_le_bytes [h0; h1] in
  in_service b -> sess_io b = Some io -> expected_peer (window b) = Some peer -> pending_peer (host b) = Some peer ->
  host_servers (host b) = session_servers -> output (host b) = [] -> rejected_connections b = ∅ ->
  (length (pending_events b) < EVENT_QUEUE_CAPACITY)%nat -> length address = 6%nat ->
  exists b', handle_packet fuel (Hci.Event (mkEvent EVENT_CONNECTION_COMPLETE ([0; h0; h1] ++ address ++ [1; encryption]))) b = (Ok tt, b')
    /\ attended (send_all (connected_packets (sess_config b) handle) io) peer handle b'
    /\ sess_config b' = sess_config b /\ pending_events b' = pending_events b ++ [EvConnected peer].
Proof.
  intros peer handle (Hc & Ht & _ & Hl) Hio Hexp Hpend Hserv Ho Hrej Hroom Ha.
  do 6 (destruct address as [|? address]; [done|]). destruct address; [|done]. cbn [app] in *.
  set (ev := mkEvent _ _). assert (admit_connection ev b = (Ok true, b)) as Hadm.
  { unfold admit_connection, mbind, stm_bind, lift, get. change (require_len _ _ _) with (Ok (E := SErr) tt).
    change (address_at _ _) with (Ok (E := SErr) peer). cbn [raised map_err event_parameters ev idx expect lookup list_lookup u16_at mbind res_bind].
    change (0 =? 0) with true. change (1 =? 1) with true. by rewrite bool_decide_eq_true_2. }
  assert (decode_classic_event ev = Ok [ConnectionComplete 0 handle peer]) as Hdec by reflexivity.
  cbn [handle_packet]. unfold handle_event, route_event. rewrite Hdec. unfold mbind, stm_bind, lift, mret, stm_ret.
  change (event_code ev) with EVENT_CONNECTION_COMPLETE. cbn [Z.eqb EVENT_CONNECTION_COMPLETE EVENT_CONNECTION_REQUEST
    EVENT_DISCONNECTION_COMPLETE Pos.eqb negb].
  rewrite Hadm. cbn [negb raised map_err for_each]. unfold mbind, stm_bind, on_host. cbn [host_handle_event]. change (0 =? 0) with true. cbv iota.
  unfold on_connection_complete, push_output, queue_command, push_output, mbind, stm_bind, get, modify, lift, skip.
  rewrite Hpend, bool_decide_eq_true_2 by done.
  rewrite Hserv. destruct servers_registered as [channels ->].
  assert (CommandPacket_new HCI_AUTHENTICATION_REQUESTED (to_le_bytes 2 handle) = Ok (mkCommand HCI_AUTHENTICATION_REQUESTED (to_le_bytes
    2 handle))) as -> by reflexivity.
  cbn [map_err raised host set_output output set_pending_peer set_connection app]. rewrite Ho. cbn [app]. set (b1 := set_host _ b).
  destruct (announcement_drained io b1 peer handle (mkCommand HCI_AUTHENTICATION_REQUESTED (to_le_bytes 2 handle)))
    as (b' & -> & Hh & Hc' & Ht' & Hio' & Hcfg & Hr' & Hp'); try done.
  exists b'. split_and!; try done. split; try done; try congruence; first [by rewrite Hcfg|by rewrite Hh|by rewrite Hr'].
Qed.

Lemma disconnection_completes io (b : bs) peer h0 h1 reason :
  attended io peer (from_le_bytes [h0; h1]) b -> (length (pending_events b) < EVENT_QUEUE_CAPACITY)%nat ->
  exists b', handle_packet fuel (Hci.Event (mkEvent EVENT_DISCONNECTION_COMPLETE [0; h0; h1; reason])) b = (Ok tt, b')
    /\ resting io b' /\ sess_config b' = sess_config b /\ pending_events b' = pending_events b ++ [EvDisconnected (Some reason)].
Proof.
  intros [Hc Ht Hl Hio Hconn Hserv Ho Hrej] Hroom. set (handle := from_le_bytes [h0; h1]) in *. set (ev := mkEvent _ _).
  assert (admit_disconnection ev b = (Ok true, b)) as Hadm.
  { unfold admit_disconnection, mbind, stm_bind, lift, get. change (require_len _ _ _) with (Ok (E := SErr) tt).
    cbn [raised map_err event_parameters ev idx expect lookup list_lookup u16_at mbind res_bind]. rewrite Hrej.
    rewrite bool_decide_eq_false_2 by apply not_elem_of_empty. by rewrite andb_false_r. }
  assert (decode_classic_event ev = Ok [DisconnectionComplete handle reason]) as Hdec by reflexivity.
  cbn [handle_packet]. unfold handle_event, route_event. rewrite Hdec. unfold mbind, stm_bind, lift, mret, stm_ret.
  change (event_code ev) with EVENT_DISCONNECTION_COMPLETE. cbn [Z.eqb EVENT_CONNECTION_COMPLETE EVENT_CONNECTION_REQUEST
    EVENT_DISCONNECTION_COMPLETE Pos.eqb negb].
  rewrite Hadm. cbn [negb raised map_err for_each]. unfold mbind, stm_bind, on_host. cbn [host_handle_event].
  unfold conn_id in Hconn. destruct (connection (host b)) as [conn|] eqn:Hcon; [|done]. injection Hconn as Hpeer Hhandle.
  assert (connection_mut handle (host b) = (Ok conn, host b)) as Hmut.
  { unfold connection_mut, ensure_handle, connection_handle_of, mbind, stm_bind, get, lift, skip, throw. rewrite Hcon. cbn.
  rewrite Hhandle, Z.eqb_refl. cbn. by rewrite Hcon. }
  unfold on_disconnection_complete, push_output, mbind, stm_bind, modify. rewrite Hmut. cbv beta iota.
  cbn [output set_output set_acl_assembler set_acl_flow set_connection]. rewrite Ho.
  cbn [List.filter app]. set (b1 := set_host _ b). cbn [raised map_err]. unfold skip, drain_host_output.
  destruct fuel as [|[|n]]; [lia..|]. rewrite (drain_step _ (OutEvent (Disconnected (conn_peer conn) reason)) []) by done.
  unfold mbind, stm_bind. cbn [apply_output]. unfold mbind, stm_bind, modify at 1 2 3 4. cbv beta iota.
  rewrite enqueue_room by first [exact Ht|exact Hroom]. rewrite drain_nothing by done.
  eexists. split; [reflexivity|]. split_and!; [|done|done]. by split.
Qed.

(** ** Visits *)

(** A peer that asks for a connection, gets it, and leaves. *)
Record Visit : Type := mkVisit { v_address : list Z; v_handle : Z * Z; v_class : Z * Z * Z; v_encryption : Z; v_reason : Z }.

Definition visitor (v : Visit) : BluetoothAddress := mkAddress (v_address v) AKPublic.
Definition visit_handle (v : Visit) : Z := from_le_bytes [(v_handle v).1; (v_handle v).2].

(** The controller's three events. *)
Definition visit_request (v : Visit) : Packet :=
  Hci.Event (mkEvent EVENT_CONNECTION_REQUEST (v_address v ++ [(v_class v).1.1; (v_class v).1.2; (v_class v).2; 1])).
Definition visit_complete (v : Visit) : Packet :=
  Hci.Event (mkEvent EVENT_CONNECTION_COMPLETE ([0; (v_handle v).1; (v_handle v).2] ++ v_address v ++ [1; v_encryption v])).
Definition visit_over (v : Visit) : Packet :=
  Hci.Event (mkEvent EVENT_DISCONNECTION_COMPLETE [0; (v_handle v).1; (v_handle v).2; v_reason v]).

(** The application starts pairing, and the controller's packets come in. *)
Definition receive_visit (v : Visit) : stm bs Stop unit :=
  start_pairing ;; handle_packet fuel (visit_request v) ;; handle_packet fuel (visit_complete v) ;; handle_packet fuel (visit_over v).

Definition visit_events (v : Visit) : list Api.Event := [EvConnected (visitor v); EvDisconnected (Some (v_reason v))].

Definition visit_packets (config : SessionConfig) (v : Visit) : list Packet :=
  pairing_packets config ++ [Command (mkCommand HCI_ACCEPT_CONNECTION_REQUEST (v_address v ++ [HCI_ROLE_PERIPHERAL]))]
  ++ connected_packets config (visit_handle v).

Lemma send_all_app ps ps' io : send_all (ps ++ ps') io = send_all ps' (send_all ps io).
Proof. apply fold_left_app. Qed.

Lemma visit_received io (b : bs) v : resting io b -> (length (pending_events b) + 2 <= EVENT_QUEUE_CAPACITY)%nat -> length (v_address v) = 6%nat ->
  exists b', receive_visit v b = (Ok tt, b') /\ resting (send_all (visit_packets (sess_config b) v) io) b'
    /\ sess_config b' = sess_config b /\ pending_events b' = pending_events b ++ visit_events v.
Proof.
  intros Hrest Hroom Ha. unfold receive_visit. rewrite (stm_bind_run _ _ _ _ _ (pairing_starts io b Hrest)). set (b1 := set_window _ _).
  destruct Hrest as [Hc Ht Hl Hio Hw Hcon Hserv Ho Hrej].
  assert (in_service b1) as Hs1 by by split_and!; [| |eexists|].
  pose proof (request_outcome fuel b1 _ (v_address v) (v_class v).1.1 (v_class v).1.2 (v_class v).2 1 Hs1 eq_refl Ho ltac:(lia) Ha) as Hreq.
  cbv zeta in Hreq. assert (lets_in (window b1) 1 (visitor v) = true) as Hin by (unfold lets_in; cbn; by rewrite bool_decide_eq_true_2).
  unfold visitor in Hin. rewrite Hin in Hreq.
  rewrite (stm_bind_run _ _ _ _ _ Hreq). set (b2 := set_sess_io _ _). set (io2 := (io_send _ _).2) in b2.
  destruct (connection_completes io2 b2 (v_address v) (v_handle v).1 (v_handle v).2 (v_encryption v)) as (b3 & Hcon3 & Hatt & Hcfg3 & Hp3); try done.
  { cbn. lia. }
  rewrite (stm_bind_run _ _ _ _ _ Hcon3).
  destruct (disconnection_completes _ b3 _ _ _ (v_reason v) Hatt) as (b4 & Hdis & Hrest & Hcfg4 & Hp4).
  { rewrite Hp3, length_app. cbn. lia. }
  exists b4. split; [exact Hdis|]. split_and!; [|by etrans|rewrite Hp4, Hp3; cbn; by rewrite <- app_assoc].
  unfold visit_packets. by rewrite !send_all_app.
Qed.

Definition receive_all (vs : list Visit) : stm bs Stop unit := for_each receive_visit vs.

Lemma visits_received vs : Forall (fun v => length (v_address v) = 6%nat) vs -> forall io (b : bs), resting io b ->
  (length (pending_events b) + 2 * length vs <= EVENT_QUEUE_CAPACITY)%nat ->
  exists b', receive_all vs b = (Ok tt, b') /\ resting (send_all (concat (visit_packets (sess_config b) <$> vs)) io) b'
    /\ pending_events b' = pending_events b ++ concat (visit_events <$> vs).
Proof.
  induction 1 as [|v vs Hv _ IH]; intros io b Hb Hroom; [exists b; by rewrite app_nil_r|]. cbn [length] in Hroom.
  destruct (visit_received io b v Hb ltac:(lia) Hv) as (b1 & Hv1 & Hb1 & Hcfg & Hp1).
  destruct (IH _ b1 Hb1) as (b2 & Hv2 & Hb2 & Hp2); [rewrite Hp1, length_app; cbn; lia|].
  exists b2. unfold receive_all. cbn [for_each]. rewrite (stm_bind_run _ _ _ _ _ Hv1). split; [exact Hv2|]. rewrite Hcfg in Hb2.
  cbn [fmap list_fmap concat].
  rewrite send_all_app, Hp2, Hp1, <- app_assoc. by split.
Qed.

(** A session just initialized. *)
Lemma initialized_rests config (store : D) (clock : W) (io : T) (b : bs) : len (extended_inquiry_response config) <= 254 ->
  BackendSession_initialize fuel config store clock io = Ok b ->
  exists io', resting io' b /\ sess_config b = config /\ pending_events b = [].
Proof.
  intros Hl. unfold BackendSession_initialize. destruct (initialize_controller _ _ _) as [[i|e|] io']; cbn [mbind res_bind]; try done.
  destruct (select_local_address _ _) as [[[]|e|] store']; cbn [mbind res_bind raised sourced map_err]; try done.
  assert (for_each (fun psm => host_register_server psm (mkClassicSpec CLASSIC_SERVER_MTU)) [HID_SDP_PSM; HID_CONTROL_PSM; HID_INTERRUPT_PSM]
    (ClassicHost_new store' (acl_packet_length i) (acl_packet_count i))
    = (Ok tt, set_host_servers session_servers (ClassicHost_new store' (acl_packet_length i) (acl_packet_count i)))) as -> by reflexivity.
  cbn [raised sourced map_err]. intros [= <-]. by exists io'.
Qed.

(** C11. A session serves peers one after the other: from its initialization on,
    each time the application starts pairing, a peer asks for a connection, the
    controller completes it and later its end, the session accepts the peer,
    tells the application of both, is ready for the next peer, and has sent for
    each exactly the packets that open the window, accept the peer, close the
    window and ask for authentication, in that order; as long as the events fit
    the queue. *)
Theorem peers_served_in_turn config (store : D) (clock : W) (io : T) (b : bs) vs :
  len (extended_inquiry_response config) <= 254 -> BackendSession_initialize fuel config store clock io = Ok b ->
  Forall (fun v => length (v_address v) = 6%nat) vs -> (2 * length vs <= EVENT_QUEUE_CAPACITY)%nat ->
  exists io' b', sess_io b = Some io' /\ receive_all vs b = (Ok tt, b')
    /\ pending_events b' = concat (visit_events <$> vs)
    /\ sess_io b' = Some (send_all (concat (visit_packets config <$> vs)) io')
    /\ window b' = Idle /\ conn_id (host b') = None.
Proof.
  intros Hl Hb Hvs Hroom. destruct (initialized_rests config store clock io b Hl Hb) as (io' & Hrest & Hcfg & Hp). exists io'.
  destruct (visits_received vs Hvs io' b Hrest) as (b' & Hv & Hrest' & Hp'); [rewrite Hp; cbn; lia|]. rewrite Hcfg in Hrest'. rewrite Hp in Hp'.
  exists b'. destruct Hrest, Hrest'. split_and!; try done. unfold conn_id. by rewrite rest_connection1.
Qed.
End life.
