(* ===== verification/SessionLoops.v ===== *)
(** * The session's loops ([src/src/session.rs])

    Handling a packet ends: draining the host's output, although draining may
    make the host produce more, and the loops over the received SDUs, although
    answering one sends. *)
From S2P Require Import Prelude Hci L2cap Ertm Classic ClassicProps Hidp Values Sdp SdpPdu SdpService Host HostProps.
From S2P Require Import Csr Identity Usb Api HidService Session SessionProps.

(** ** Sending brings no SDU in *)

(** The SDUs a channel holds for its owner. *)
Definition channel_waiting (ch : ClassicChannel) : nat :=
  length (ch_received ch) + match ertm ch with Some e => length (received e) | None => 0 end.

Definition manager_waiting (cid : Z) (m : ChannelManager) : nat :=
  match channels m !! cid with Some ch => channel_waiting ch | None => 0 end.

Definition waiting {D} (cid : Z) (h : ClassicHost D) : nat :=
  match connection h with Some c => manager_waiting cid (conn_channels c) | None => 0 end.

Definition is_connected (o : HostOutput) : bool := match o with OutEvent (Connected _ _) => true | _ => false end.

(** The connections still to be announced. *)
Definition announcements (l : list HostOutput) : nat := length (List.filter is_connected l).

Create HintDb quiet_db.
#[local] Hint Resolve preserves_ret preserves_lift preserves_throw preserves_skip : quiet_db.

Ltac by_modify := apply preserves_modify; intros; assumption.

Lemma engine_quiet x sdu : preserves (fun e => received e = x) (Ertm.send_sdu sdu).
Proof.
  assert (forall todo, preserves (fun e => received e = x) (process_output_loop todo)) as Hloop.
  { induction todo as [|f todo IH]; cbn [process_output_loop]; unfold push_outbound, note_acked_rx;
      walk_preserves by_modify with (eauto 1 with quiet_db). }
  unfold Ertm.send_sdu, send_segment, Ertm.ensure_active, take_tx_seq, push_pending, process_output, refresh_retransmission_deadline.
  walk_preserves by_modify with (eauto 2 with quiet_db).
Qed.

Lemma channel_send_quiet x sdu : preserves (fun ch => channel_waiting ch = x) (channel_send sdu).
Proof.
  unfold channel_send. walk_preserves by_modify with (eauto 1 with quiet_db).
  intros ch Hch. unfold on_ertm. destruct (ertm ch) as [en|] eqn:Hen; [|done].
  pose proof (engine_quiet (received en) sdu en eq_refl) as Hq. destruct (Ertm.send_sdu sdu en) as [r en']. cbn in *.
  unfold channel_waiting in *. rewrite Hen in Hch. cbn. by rewrite Hq.
Qed.

Lemma drain_engine_quiet x : preserves (fun ch => channel_waiting ch = x) drain_engine.
Proof.
  intros ch Hch. unfold drain_engine. destruct (ertm ch) as [e|] eqn:He; [|done].
  destruct (drain_outbound e) as [frames e'] eqn:Hd. unfold drain_outbound in Hd. injection Hd as <- <-.
  unfold channel_waiting in *. rewrite He in Hch. cbn. rewrite length_app. lia.
Qed.

Lemma on_channel_quiet {A} cid x cid' missing (m : stm ClassicChannel L2capError A) :
  (forall y, preserves (fun ch => channel_waiting ch = y) m) ->
  preserves (fun mgr => manager_waiting cid mgr = x) (on_channel cid' missing m).
Proof.
  intros Hm mgr Hx. unfold on_channel. destruct (channels mgr !! cid') as [ch|] eqn:Hch; [|done].
  specialize (Hm (channel_waiting ch) ch eq_refl). destruct (m ch) as [r ch']. cbn in *.
  unfold manager_waiting in *. cbn. destruct (decide (cid = cid')) as [->|Hne].
  - rewrite lookup_insert_eq. by rewrite Hch in Hx; subst.
  - by rewrite lookup_insert_ne.
Qed.

Lemma manager_send_quiet cid x cid' sdu : preserves (fun mgr => manager_waiting cid mgr = x) (ChannelManager_send cid' sdu).
Proof.
  unfold ChannelManager_send, flush_ertm, push_pdu. walk_preserves by_modify with (eauto 1 with quiet_db).
  - apply on_channel_quiet. intros y. apply channel_send_quiet.
  - apply on_channel_quiet. intros y. apply drain_engine_quiet.
Qed.

Section host_quiet.
Context {D : Type} `{BondStore D} `{Profile}.
Abbreviation unmoved cid x := (preserves (S := ClassicHost D) (E := HostError) (fun h => waiting cid h = x)).

Lemma on_channels_quiet {A} cid x missing (m : stm ChannelManager L2capError A) :
  (forall y, preserves (fun mgr => manager_waiting cid mgr = y) m) -> unmoved cid x (on_channels missing m).
Proof.
  intros Hm h Hx. unfold on_channels. destruct (connection h) as [c|] eqn:Hc; [|done]. unfold waiting in *. rewrite Hc in Hx.
  specialize (Hm (manager_waiting cid (conn_channels c)) (conn_channels c) eq_refl). destruct (m _) as [r mgr]. cbn in *. congruence.
Qed.

Lemma drain_manager_quiet cid x : preserves (fun mgr => manager_waiting cid mgr = x) drain_manager.
Proof. intros mgr Hx. unfold drain_manager. by destruct (collect _). Qed.

Lemma flush_flow_unmoved cid x : unmoved cid x flush_flow.
Proof. intros h Hx. unfold flush_flow. by destruct (AclFlow_flush _ _) as [[]| |]. Qed.
#[local] Hint Resolve flush_flow_unmoved on_channels_quiet drain_manager_quiet manager_send_quiet : quiet_db.

(** Sending an SDU leaves every channel's SDUs where they are. *)
Lemma send_unmoved cid cid' sdu (h : ClassicHost D) : waiting cid (send_channel_sdu cid' sdu h).2 = waiting cid h.
Proof.
  enough (unmoved cid (waiting cid h) (send_channel_sdu cid' sdu)) as Hs by by apply Hs.
  unfold send_channel_sdu, flush_channels, connection_handle_of, enqueue_pdu, push_output.
  walk_preserves by_modify with (eauto 3 with quiet_db).
Qed.

Lemma take_waiting cid (h : ClassicHost D) :
  match take_channel_sdu cid h with
  | (Some _, h') => (waiting cid h' < waiting cid h)%nat
  | (None, h') => True
  end.
Proof.
  unfold take_channel_sdu, waiting, manager_waiting. destruct (connection h) as [c|] eqn:Hc; [|done].
  destruct (channels (conn_channels c) !! cid) as [ch|] eqn:Hch; [|done].
  unfold ClassicChannel_pop_received. destruct (ch_received ch) as [|sdu rest] eqn:Hr; [done|]. cbn.
  rewrite lookup_insert_eq. unfold channel_waiting. rewrite Hr. cbn. lia.
Qed.

(** ** Opening a channel announces no connection *)

Abbreviation announcing x := (preserves (S := ClassicHost D) (E := HostError) (fun h => announcements (output h) = x)).

Lemma announcements_app l l' : announcements (l ++ l') = (announcements l + announcements l')%nat.
Proof. unfold announcements. by rewrite List.filter_app, length_app. Qed.

Lemma flush_queue_announces total waiting_acl : forall m out r, flush_queue total waiting_acl m out = Ok r ->
  announcements r.2 = announcements out.
Proof.
  induction waiting_acl as [|p rest IH]; intros m out r; cbn [flush_queue];
    (destruct (in_flight_total m) as [used| |]; [|done|done]); cbn [mbind res_bind]; (destruct (used <? total); [|by intros [= <-]]);
    [by intros [= <-]|].
  destruct (checked_add _ _ _) as [n| |]; cbn [mbind res_bind]; try done. intros Hr. apply IH in Hr. rewrite Hr, announcements_app. cbn. lia.
Qed.

Lemma flush_flow_announces x : announcing x flush_flow.
Proof.
  intros h Hx. unfold flush_flow, AclFlow_flush. destruct (flush_queue _ _ _ _) as [[[w m] out]| |] eqn:Hf; cbn; [|done|done].
  apply flush_queue_announces in Hf. cbn in Hf. congruence.
Qed.

Lemma on_channels_announces {A} x missing (m : stm ChannelManager L2capError A) : announcing x (on_channels missing m).
Proof. intros h Hx. unfold on_channels. destruct (connection h) as [c|]; [|done]. by destruct (m _). Qed.

Lemma push_announces x o : is_connected o = false -> announcing x (push_output o).
Proof.
  intros Ho h Hx. change (announcements (output h ++ [o]) = x). rewrite announcements_app. unfold announcements at 2. cbn. rewrite Ho. cbn. lia.
Qed.
#[local] Hint Resolve flush_flow_announces on_channels_announces push_announces : quiet_db.

Lemma connect_announces psm spec (h : ClassicHost D) :
  announcements (output (connect_channel psm spec h).2) = announcements (output h).
Proof.
  enough (announcing (announcements (output h)) (connect_channel psm spec)) as Hc by by apply Hc.
  unfold connect_channel, flush_channels, connection_handle_of, enqueue_pdu. walk_preserves by_modify with (eauto 2 with quiet_db).
Qed.
End host_quiet.

(** ** Computations that end *)

Section ends.
Context {T W D : Type} `{HciIo T} `{Clock W} `{BondStore D} `{Profile}.
Abbreviation bs := (BackendSession T W D).
Abbreviation sess := (stm bs Stop).

(** Whatever the fuel, it is not what stops [m]. *)
Definition fuelless {A} (m : sess A) : Prop := forall b, (m b).1 <> Err OutOfFuel.

(** From every state some fuel is enough, and more fuel changes nothing. *)
Definition ends {A} (m : nat -> sess A) : Prop :=
  forall b, exists n, (m n b).1 <> Err OutOfFuel /\ forall k, (n <= k)%nat -> m k b = m n b.

Lemma fuelless_ends {A} (m : sess A) : fuelless m -> ends (fun _ => m).
Proof. intros Hm b. exists 0%nat. by split; [apply Hm|]. Qed.

Lemma fuelless_bind {A B} (m : sess A) (k : A -> sess B) : fuelless m -> (forall a, fuelless (k a)) -> fuelless (m ≫= k).
Proof.
  intros Hm Hk b. specialize (Hm b). unfold mbind, stm_bind. destruct (m b) as [[a|e|] b']; cbn in *; [apply Hk|congruence|done].
Qed.

Lemma fuelless_get {A} (k : bs -> sess A) : (forall b, fuelless (k b)) -> fuelless (get ≫= k).
Proof. intros Hk b. apply (Hk b). Qed.

Lemma ends_bind {A B} (m : nat -> sess A) (k : A -> nat -> sess B) : ends m -> (forall a, ends (k a)) ->
  ends (fun n => m n ≫= fun a => k a n).
Proof.
  intros Hm Hk b. destruct (Hm b) as (n & Hn & Hmore). unfold mbind, stm_bind.
  destruct (m n b) as [[a|e|] b'] eqn:Hr; cbn in Hn.
  - destruct (Hk a b') as (n' & Hn' & Hmore'). exists (Nat.max n n'). split.
    + by rewrite (Hmore (Nat.max n n')), (Hmore' (Nat.max n n')) by lia.
    + intros j Hj. by rewrite (Hmore (Nat.max n n')), (Hmore j), (Hmore' (Nat.max n n')), (Hmore' j) by lia.
  - exists n. rewrite Hr. split; [by cbn; intros [= ->]|]. intros j Hj. by rewrite Hmore.
  - exists n. rewrite Hr. split; [done|]. intros j Hj. by rewrite Hmore.
Qed.

Lemma ends_get {A} (k : bs -> nat -> sess A) : (forall b, ends (k b)) -> ends (fun n => get ≫= fun b => k b n).
Proof. intros Hk b. exact (Hk b b). Qed.

Lemma ends_for_each {X} (body : X -> nat -> sess unit) xs : (forall x, ends (body x)) ->
  ends (fun n => for_each (fun x => body x n) xs).
Proof.
  intros Hb. induction xs as [|x xs IH]; cbn [for_each]; [by apply fuelless_ends|].
  apply (ends_bind (body x) (fun _ n => for_each (fun x => body x n) xs)); [apply Hb|done].
Qed.

Lemma fuelless_lift {A} (r : res SErr A) : fuelless (lift (raised r)).
Proof. intros b. by destruct r. Qed.
Lemma fuelless_io {A} (m : stm T SErr A) : fuelless (on_io m).
Proof. intros b. unfold on_io. destruct (sess_io b) as [io|]; [|done]. by destruct (m io) as [[]]. Qed.
Lemma fuelless_host {A} wrap (m : stm (ClassicHost D) HostError A) : fuelless (on_host wrap m).
Proof. intros b. unfold on_host. by destruct (m (host b)) as [[]]. Qed.
Lemma fuelless_modify f : fuelless (modify f).
Proof. done. Qed.
Lemma fuelless_raise {A} kind : fuelless (raise (A := A) kind).
Proof. done. Qed.
Lemma fuelless_skip : fuelless skip.
Proof. done. Qed.
Lemma fuelless_ret {A} (a : A) : fuelless (mret a).
Proof. done. Qed.
Lemma fuelless_idx {A} (l : list A) i : fuelless (lift (idx l i)).
Proof. intros b. cbn. unfold idx. by destruct (l !! i). Qed.
Lemma fuelless_u16 l i : fuelless (lift (u16_at l i)).
Proof. intros b. cbn. unfold u16_at, idx. destruct (l !! i); [|done]. by destruct (l !! S i). Qed.
Lemma fuelless_ok_or {A} (o : option A) kind : fuelless (lift (ok_or o (Raised (Error_new kind)))).
Proof. intros b. by destruct o. Qed.
Lemma fuelless_answer cid request : fuelless (answer_sdp cid request).
Proof. intros b. unfold answer_sdp. destruct (_ !! _); [|done]. by destruct (handle_sdu request _) as [[]]. Qed.
Lemma fuelless_bridge channel sdu : fuelless (bridge_sdu channel sdu).
Proof. intros b. unfold bridge_sdu. by destruct (bridge_handle _ _ _) as [[]]. Qed.
Lemma fuelless_panic {A} : fuelless (A := A) (lift Panic).
Proof. done. Qed.

Lemma fuelless_for_each {X} (body : X -> sess unit) xs : (forall x, fuelless (body x)) -> fuelless (for_each body xs).
Proof. intros Hb. induction xs as [|x xs IH]; [done|]. by apply fuelless_bind. Qed.

Create HintDb fuel_db.
#[local] Hint Resolve fuelless_lift fuelless_io fuelless_host fuelless_modify fuelless_raise fuelless_skip fuelless_ret
  fuelless_idx fuelless_u16 fuelless_ok_or fuelless_answer fuelless_bridge fuelless_panic : fuel_db.

Ltac fuelless :=
  repeat (intros; lazymatch goal with
    | |- fuelless (mbind _ get) => apply fuelless_get
    | |- fuelless (mbind _ _) => apply fuelless_bind
    | |- fuelless (for_each _ _) => apply fuelless_for_each
    | |- fuelless (match _ with _ => _ end) => case_match
    | |- fuelless _ => solve [eauto 1 with fuel_db]
    end).

Lemma fuelless_command op ps : fuelless (session_command op ps).
Proof. unfold session_command. fuelless. Qed.
#[local] Hint Resolve fuelless_command : fuel_db.

Lemma fuelless_opened psm cid : fuelless (on_channel_opened psm cid).
Proof. unfold on_channel_opened, modify_protocols, enqueue_event, open_outgoing. fuelless. Qed.
#[local] Hint Resolve fuelless_opened : fuel_db.

Lemma fuelless_output o : fuelless (apply_output o).
Proof.
  unfold apply_output, start_active_reconnect_control, modify_protocols, enqueue_event, open_outgoing, write_inquiry_response, set_scan.
  fuelless.
Qed.

Lemma fuelless_admit ev : fuelless (admit_request ev) /\ fuelless (admit_connection ev) /\ fuelless (admit_disconnection ev).
Proof.
  unfold admit_request, admit_connection, admit_disconnection, end_connection_window, enqueue_event, write_inquiry_response, set_scan.
  split_and!; fuelless.
Qed.

(** *** SDUs *)

Lemma sdu_loop_ends cid body : (forall sdu, fuelless (body sdu)) ->
  (forall sdu b, waiting cid (host (body sdu b).2) = waiting cid (host b)) -> ends (fun n => sdu_loop n cid body).
Proof.
  intros Hf Hw b. remember (waiting cid (host b)) as k eqn:Hk. revert b Hk. induction (lt_wf k) as [k _ IH]. intros b ->.
  pose proof (take_waiting cid (host b)) as Ht.
  assert (forall n, sdu_loop (S n) cid body b = match take_channel_sdu cid (host b) with
    | (None, h) => (Ok tt, set_host h b) | (Some sdu, h) => (body sdu ;; sdu_loop n cid body) (set_host h b) end) as Hstep.
  { intros n. cbn [sdu_loop]. unfold mbind at 1, stm_bind at 1, take_sdu. by destruct (take_channel_sdu cid (host b)) as [[sdu|] h]. }
  destruct (take_channel_sdu cid (host b)) as [[sdu|] h].
  - set (b1 := set_host h b) in *. specialize (Hf sdu b1) as Hf1. specialize (Hw sdu b1) as Hw1.
    assert (forall n, sdu_loop (S n) cid body b = match body sdu b1 with
      | (Ok _, b2) => sdu_loop n cid body b2 | (Err e, b2) => (Err e, b2) | (Panic, b2) => (Panic, b2) end) as Hstep'
      by (intros n; by rewrite Hstep).
    destruct (body sdu b1) as [[[]|e|] b2]; cbn [fst snd] in *.
    + destruct (IH (waiting cid (host b2)) ltac:(rewrite Hw1; exact Ht) b2 eq_refl) as (n & Hn & Hmore). exists (S n). rewrite Hstep'. split; [done|].
      intros [|j] Hj; [lia|]. rewrite Hstep'. apply Hmore. lia.
    + exists 1%nat. rewrite Hstep'. split; [done|]. intros [|j] Hj; [lia|]. by rewrite Hstep'.
    + exists 1%nat. rewrite Hstep'. split; [done|]. intros [|j] Hj; [lia|]. by rewrite Hstep'.
  - exists 1%nat. rewrite Hstep. split; [done|]. intros [|j] Hj; [lia|]. by rewrite Hstep.
Qed.

Create HintDb still_db.
Abbreviation still cid x := (preserves (S := bs) (E := Stop) (fun b => waiting cid (host b) = x)).

Lemma still_send cid x cid' sdu : still cid x (send_on_channel cid' sdu).
Proof.
  intros b Hx. unfold send_on_channel, on_host. pose proof (send_unmoved cid cid' sdu (host b)) as Hs.
  destruct (send_channel_sdu cid' sdu (host b)) as [r h]. cbn in *. congruence.
Qed.
Lemma still_answer cid x cid' request : still cid x (answer_sdp cid' request).
Proof. intros b Hx. unfold answer_sdp. destruct (_ !! _); [|done]. by destruct (handle_sdu _ _). Qed.
Lemma still_bridge cid x channel sdu : still cid x (bridge_sdu channel sdu).
Proof. intros b Hx. unfold bridge_sdu. by destruct (bridge_handle _ _ _). Qed.
Lemma still_enqueue cid x e : still cid x (enqueue_event e).
Proof. intros b Hx. cbn. destruct (terminal b); [done|]. by destruct (_ =? _)%nat. Qed.
#[local] Hint Resolve preserves_ret preserves_lift preserves_throw preserves_skip still_send still_answer still_bridge still_enqueue : still_db.

Lemma still_hidp cid x channel cid' sdu : still cid x (process_hidp_sdu channel cid' sdu).
Proof. unfold process_hidp_sdu, apply_hidp_event. walk_preserves by_modify with (eauto 1 with still_db). Qed.

Lemma fuelless_send cid sdu : fuelless (send_on_channel cid sdu).
Proof. apply fuelless_host. Qed.
Lemma fuelless_enqueue e : fuelless (enqueue_event e).
Proof. done. Qed.
#[local] Hint Resolve fuelless_send fuelless_enqueue : fuel_db.

Lemma input_ends : ends process_protocol_input.
Proof.
  apply ends_get. intros b.
  apply (ends_bind (fun n => for_each (process_sdp n) (sorted_keys (sdp (protocols b))))
           (fun _ n => get ≫= fun b => process_hidp n Control (control (protocols b)) ;; process_hidp n Interrupt (interrupt (protocols b)))).
  - apply (ends_for_each (fun cid n => process_sdp n cid)). intros cid. apply sdu_loop_ends; [intros; fuelless|].
    intros sdu b'.
    enough (still cid (waiting cid (host b')) (response ← answer_sdp cid sdu;
      match response with Some response => send_on_channel cid response | None => skip end)) as Hs by by apply Hs.
    walk_preserves by_modify with (eauto 1 with still_db).
  - intros _. apply ends_get. intros b'.
    assert (forall channel slot, ends (fun n => process_hidp n channel slot)) as Hhidp.
    { intros channel slot. unfold process_hidp. destruct (open_slot slot) as [c|]; [|by apply fuelless_ends].
      apply sdu_loop_ends; [intros; unfold process_hidp_sdu, apply_hidp_event; fuelless|].
      intros sdu b''. by apply (still_hidp _ (waiting (pc_cid c) (host b''))). }
    apply (ends_bind (fun n => process_hidp n Control (control (protocols b'))) (fun _ n => process_hidp n Interrupt (interrupt (protocols b'))));
      [apply Hhidp|intros; apply Hhidp].
Qed.

(** *** The host's output *)

(** The channels the session may still open on its own, and may again after
    each announced connection. *)
Definition connects_left (b : bs) : nat :=
  if active_reconnect b then
    (match control (protocols b) with None => 1 | Some _ => 0 end)
    + (match interrupt (protocols b) with None => 1 | Some _ => 0 end)
  else 0.

Definition weight (b : bs) : nat := connects_left b + 2 * announcements (output (host b)).

(** Either the host got no new output, or a channel was opened. *)
Definition progress (b b' : bs) : Prop :=
  (weight b' < weight b)%nat \/ ((weight b' <= weight b)%nat /\ output (host b') = output (host b)).

Lemma open_outgoing_weight psm (b b' : bs) cid : open_outgoing psm b = (Ok cid, b') ->
  announcements (output (host b')) = announcements (output (host b)) /\ protocols b' = protocols b
  /\ active_reconnect b' = active_reconnect b.
Proof.
  unfold open_outgoing, on_host. pose proof (connect_announces psm (mkClassicSpec CLASSIC_SERVER_MTU) (host b)) as Hc.
  destruct (connect_channel _ _ (host b)) as [[c|e|] h]; cbn in *; [|done|done]. by intros [= <- <-].
Qed.

Lemma progress_refl (b : bs) : progress b b.
Proof. right. by split. Qed.

(** What leaves the host alone and fills at most a slot. *)
Lemma progress_same (b b' : bs) : output (host b') = output (host b) -> (connects_left b' <= connects_left b)%nat -> progress b b'.
Proof. intros Ho Hc. right. unfold weight. rewrite Ho. split; [lia|done]. Qed.

Lemma progress_trans (b b1 b' : bs) : progress b b1 -> progress b1 b' -> progress b b'.
Proof. unfold progress. intros [Hw1|[Hw1 Ho1]] [Hw2|[Hw2 Ho2]]; [left; lia..|]. right. split; [lia|congruence]. Qed.

Lemma enqueue_same e (b : bs) : let b' := (enqueue_event e b).2 in
  host b' = host b /\ protocols b' = protocols b /\ active_reconnect b' = active_reconnect b.
Proof. cbn. destruct (terminal b); [done|]. by destruct (_ =? _)%nat. Qed.

Lemma progress_enqueue e (b : bs) : progress b (enqueue_event e b).2.
Proof.
  destruct (enqueue_same e b) as (Hh & Hp & Ha). apply progress_same; [by rewrite Hh|]. unfold connects_left. by rewrite Hp, Ha.
Qed.

(** A slot that was empty gets an outgoing channel. *)
Lemma progress_open psm (b b' : bs) (fill : option ProtocolChannel -> ProtocolState -> ProtocolState) :
  active_reconnect b = true ->
  (fill = set_control /\ control (protocols b) = None) \/ (fill = set_interrupt /\ interrupt (protocols b) = None) ->
  (cid ← open_outgoing psm; modify_protocols (fill (Some (mkProtocolChannel cid false)))) b = (Ok tt, b') -> progress b b'.
Proof.
  intros Ha Hfill. unfold mbind, stm_bind. destruct (open_outgoing psm b) as [[cid|e|] b1] eqn:Ho; [|done|done].
  apply open_outgoing_weight in Ho as (Hn & Hp & Ha1). intros [= <-]. left. unfold weight, connects_left. cbn [host output set_protocols].
  rewrite Hn. cbn [active_reconnect protocols set_protocols]. rewrite Ha1, Ha, Hp.
  destruct Hfill as [[-> Hc]|[-> Hc]]; cbn [control interrupt set_control set_interrupt]; rewrite Hc; case_match; lia.
Qed.

Lemma progress_opened psm cid (b b' : bs) : on_channel_opened psm cid b = (Ok tt, b') -> progress b b'.
Proof.
  unfold on_channel_opened. unfold mbind at 1, stm_bind at 1, get at 1. unfold mbind at 1, stm_bind at 1, lift.
  destruct (channel_info (host b) cid) as [[[actual mtu] o]|]; [|done]. cbn [ok_or].
  destruct (negb o || negb (actual =? psm)); [done|]. destruct (psm =? HID_SDP_PSM).
  { intros [= <-]. apply progress_same; [done|]. unfold connects_left. cbn. by destruct (sdp (protocols b) !! cid). }
  assert (forall e b1, progress b b1 -> progress b (enqueue_event e b1).2) as Henq
    by (intros; by eapply progress_trans, progress_enqueue).
  destruct (psm =? HID_CONTROL_PSM).
  - set (m1 := if first_open _ _ then _ else _). unfold mbind at 1, stm_bind at 1.
    assert (exists b1, m1 b = (Ok tt, b1) /\ progress b b1) as (b1 & -> & Hb1).
    { subst m1. destruct (first_open _ _); [|exists b; by split; [|apply progress_refl]].
      eexists. split; [unfold mbind, stm_bind, modify_protocols, modify; reflexivity|]. apply Henq, progress_same; [done|].
      unfold connects_left. cbn. destruct (active_reconnect b), (control (protocols b)); lia. }
    unfold mbind at 1, stm_bind at 1, get. destruct (active_reconnect b1 && _) eqn:Ha; [|by intros [= <-]].
    apply andb_prop in Ha as [Ha Hi]. apply bool_decide_eq_true in Hi. intros Hr.
    eapply progress_trans; [exact Hb1|]. eapply (progress_open HID_INTERRUPT_PSM b1 b' set_interrupt); [done|by auto|exact Hr].
  - destruct (psm =? HID_INTERRUPT_PSM); [|done]. destruct (first_open _ _); [|intros [= <-]; apply progress_refl].
    unfold mbind, stm_bind, modify_protocols, modify. set (b1 := set_protocols _ _). intros Hr.
    replace b' with (enqueue_event (EvChannelOpened Interrupt) b1).2 by by rewrite Hr. apply Henq, progress_same; [done|].
    unfold connects_left. cbn. destruct (active_reconnect b), (interrupt (protocols b)); lia.
Qed.

Lemma host_kept h0 : let kept m := preserves (S := bs) (E := Stop) (A := unit) (fun b => host b = h0) m in
  (forall op ps, kept (session_command op ps)) /\ (forall e, kept (enqueue_event e)) /\ (forall A (m : stm T SErr A), preserves (E
    := Stop) (fun b : bs => host b = h0) (on_io m)).
Proof.
  intros kept. assert (forall A (m : stm T SErr A), preserves (E := Stop) (fun b : bs => host b = h0) (on_io m)) as Hio.
  { intros A m b Hb. unfold on_io. destruct (sess_io b) as [io|]; [|done]. by destruct (m io). }
  split_and!; [| |exact Hio].
  - intros op ps. apply preserves_bind; [apply preserves_lift|]. intros. apply Hio.
  - intros e b Hb. by rewrite (proj1 (enqueue_same e b)).
Qed.

Lemma connects_left_max (b : bs) : (connects_left b <= 2)%nat.
Proof. unfold connects_left. destruct (active_reconnect b), (control (protocols b)), (interrupt (protocols b)); lia. Qed.

(** Handling an output: the rest of the output is what remains, unless a channel
    was opened. *)
Lemma output_progress o rest (b b' : bs) : output (host b) = o :: rest ->
  apply_output o (set_host (set_output rest (host b)) b) = (Ok tt, b') ->
  (weight b' < weight b)%nat \/ ((weight b' <= weight b)%nat /\ output (host b') = rest).
Proof.
  intros Ho Hr. set (b0 := set_host (set_output rest (host b)) b) in *.
  assert (is_connected o = false -> weight b0 = weight b) as Hw0.
  { intros Hc. unfold weight, connects_left. cbn. rewrite Ho. unfold announcements. cbn. by rewrite Hc. }
  destruct (host_kept (host b0)) as (Hcmd & Henq & Hio).
  assert (progress b0 b' -> is_connected o = false ->
    (weight b' < weight b)%nat \/ ((weight b' <= weight b)%nat /\ output (host b') = rest)) as Hprog.
  { intros Hp Hc. specialize (Hw0 Hc). destruct Hp as [Hp|[Hp Hout]]; [left; lia|right]. split; [lia|exact Hout]. }
  assert (host b' = host b0 -> (connects_left b' <= connects_left b0)%nat -> progress b0 b') as Hsame
    by (intros Hh Hc; apply progress_same; [by rewrite Hh|done]).
  destruct o as [packet|packet|[peer handle|peer|peer|psm cid|peer reason]]; cbn [apply_output] in Hr.
  - apply Hprog; [|done]. unfold on_io in Hr. destruct (sess_io b0); [|done]. destruct (io_send _ _) as [[]]; try done.
    injection Hr as _ <-. by apply Hsame.
  - apply Hprog; [|done]. unfold on_io in Hr. destruct (sess_io b0); [|done]. destruct (io_send _ _) as [[]]; try done.
    injection Hr as _ <-. by apply Hsame.
  - assert (host b' = host b0) as Hh.
    { match type of Hr with ?m b0 = _ => enough (preserves (fun b : bs => host b = host b0) m) as Hk by (specialize (Hk b0 eq_refl);
      by rewrite Hr in Hk) end.
      unfold write_inquiry_response, set_scan. walk_preserves by_modify with auto. }
    right. pose proof (connects_left_max b'). unfold weight. rewrite Hh, Ho. unfold announcements at 2. cbn. split; [|done].
    unfold announcements. lia.
  - apply Hprog; [|done]. by injection Hr as <-; apply progress_refl.
  - apply Hprog; [|done]. unfold start_active_reconnect_control in Hr. unfold mbind at 1, stm_bind at 1, get in Hr.
    destruct (negb (active_reconnect b0) || _) eqn:Hc; [injection Hr as <-; apply progress_refl|].
    apply orb_false_elim in Hc as [Ha Hn]. apply negb_false_iff in Ha. apply bool_decide_eq_false in Hn. apply eq_None_not_Some in Hn.
    eapply (progress_open HID_CONTROL_PSM b0 b' set_control); [done|by auto|exact Hr].
  - apply Hprog; [|done]. by eapply progress_opened.
  - apply Hprog; [|done]. unfold mbind, stm_bind, modify in Hr. set (b1 := set_active_reconnect false _) in Hr.
    assert (b' = (enqueue_event (EvDisconnected (Some reason)) b1).2) as -> by by rewrite Hr.
    destruct (enqueue_same (EvDisconnected (Some reason)) b1) as (Hh & Hp & Ha). apply Hsame; [by rewrite Hh|].
    unfold connects_left at 1. rewrite Ha. cbn. lia.
Qed.


Lemma drain_loop_ends : ends (drain_loop (T := T) (W := W) (D := D)).
Proof.
  intros b. remember (weight b) as w eqn:Hw. revert b Hw. induction (lt_wf w) as [w _ IHw]. intros b ->.
  remember (output (host b)) as out eqn:Hout.
  assert (forall b1, (weight b1 <= weight b)%nat -> output (host b1) = out ->
    exists n, (drain_loop n b1).1 <> Err OutOfFuel /\ forall k, (n <= k)%nat -> drain_loop k b1 = drain_loop n b1) as Hall;
    [|by apply Hall].
  clear Hout. induction out as [|o rest IHout]; intros b1 Hle Ho.
  { exists 1%nat. rewrite drain_nothing by done. split; [done|]. intros [|k] Hk; [lia|]. by rewrite drain_nothing. }
  pose proof (fuelless_output o (set_host (set_output rest (host b1)) b1)) as Hf.
  pose proof (fun b' => output_progress o rest b1 b' Ho) as Hp.
  assert (forall n, drain_loop (S n) b1 = match apply_output o (set_host (set_output rest (host b1)) b1) with
    | (Ok _, b2) => drain_loop n b2 | (Err e, b2) => (Err e, b2) | (Panic, b2) => (Panic, b2) end) as Hstep
    by (intros n; by rewrite (drain_step n o rest)).
  destruct (apply_output o _) as [[[]|e|] b2]; cbn [fst] in Hf.
  - assert (exists n, (drain_loop n b2).1 <> Err OutOfFuel /\ forall k, (n <= k)%nat -> drain_loop k b2 = drain_loop n b2)
      as (n & Hn & Hmore).
    { destruct (Hp b2 eq_refl) as [Hlt|[Hle2 Hout2]]; [|apply IHout; [lia|done]].
      apply (IHw (weight b2)); [lia|done]. }
    exists (S n). rewrite Hstep. split; [done|]. intros [|k] Hk; [lia|]. rewrite Hstep. apply Hmore. lia.
  - exists 1%nat. rewrite Hstep. split; [done|]. intros [|k] Hk; [lia|]. by rewrite Hstep.
  - exists 1%nat. rewrite Hstep. split; [done|]. intros [|k] Hk; [lia|]. by rewrite Hstep.
Qed.

Lemma event_ends ev : ends (fun n => handle_event (T := T) (W := W) (D := D) n ev).
Proof.
  destruct (fuelless_admit ev) as (Hreq & Hcon & Hdis).
  assert (ends (fun n => route_event (T := T) (W := W) (D := D) n ev)) as Hroute.
  { apply (ends_bind (fun _ => lift (raised (decode_classic_event ev)))
             (fun es n => for_each (fun e => on_host map_host_error (host_handle_event e)) es ;; drain_host_output n)).
    - apply fuelless_ends, fuelless_lift.
    - intros es. apply (ends_bind (fun _ => for_each (fun e => on_host map_host_error (host_handle_event e)) es) (fun _ n => drain_host_output n)).
      + apply fuelless_ends, fuelless_for_each. intros. apply fuelless_host.
      + intros _. apply drain_loop_ends. }
  assert (forall (c : bool) (m : sess bool) (k : nat -> sess unit), fuelless m -> ends k ->
    ends (fun n => go ← (if c then m else mret true); if negb go then skip else k n)) as Hguard.
  { intros c m k Hm Hk. apply (ends_bind (fun _ => if c then m else mret true) (fun go n => if negb go then skip else k n)).
    - apply fuelless_ends. by destruct c.
    - intros []; [exact Hk|]. by apply (fuelless_ends skip). }
  unfold handle_event. by do 3 (apply Hguard; [done|]).
Qed.

Lemma refresh_fuelless : fuelless (refresh_outgoing_channels (T := T) (W := W) (D := D)).
Proof. unfold refresh_outgoing_channels, refresh_channel. fuelless. Qed.

(** C12. Every packet is handled in finitely many steps: from any state of the
    session there is an amount of fuel with which handling the packet does not
    stop for lack of it, and with more the outcome and the state are the
    same. *)
Theorem packet_handling_ends packet (b : bs) :
  exists n, (handle_packet n packet b).1 <> Err OutOfFuel
    /\ forall k, (n <= k)%nat -> handle_packet k packet b = handle_packet n packet b.
Proof.
  enough (ends (fun n => handle_packet (T := T) (W := W) (D := D) n packet)) as He by apply He.
  destruct packet as [c|ev|p]; cbn [handle_packet]; [by apply fuelless_ends|apply event_ends|].
  apply (ends_bind (fun _ => on_host map_host_error (process_acl p)) (fun _ n => drain_host_output n ;; refresh_outgoing_channels ;;
    process_protocol_input n ;; drain_host_output n)); [apply fuelless_ends, fuelless_host|intros _].
  apply (ends_bind drain_host_output (fun _ n => refresh_outgoing_channels ;; process_protocol_input n ;; drain_host_output n));
    [apply drain_loop_ends|intros _].
  apply (ends_bind (fun _ => refresh_outgoing_channels) (fun _ n => process_protocol_input n ;; drain_host_output n));
    [apply fuelless_ends, refresh_fuelless|intros _].
  apply (ends_bind process_protocol_input (fun _ n => drain_host_output n)); [apply input_ends|intros _; apply drain_loop_ends].
Qed.
End ends.
