(* ===== verification/SessionEvents.v ===== *)
(** * Controller events, failures and reports ([src/src/session.rs])

    The events the session decodes and their layout; that an error of [poll]
    ends the session for good; and that the peer's reports reach the
    application. *)
From S2P Require Import Prelude Hci L2cap Ertm Classic ClassicProps Hidp Values Sdp SdpPdu SdpService Host HostProps.
From S2P Require Import Csr Identity Usb Api HidService Session SessionProps.

(** ** Layout *)

Definition known_events : list Z :=
  [EVENT_CONNECTION_REQUEST; EVENT_CONNECTION_COMPLETE; EVENT_LINK_KEY_REQUEST; EVENT_LINK_KEY_NOTIFICATION;
   EVENT_IO_CAPABILITY_REQUEST; EVENT_USER_CONFIRMATION_REQUEST; EVENT_AUTHENTICATION_COMPLETE; EVENT_ENCRYPTION_CHANGE;
   EVENT_NUMBER_OF_COMPLETED_PACKETS; EVENT_DISCONNECTION_COMPLETE].

Definition public (address : list Z) : BluetoothAddress := mkAddress address AKPublic.

Definition completed_bytes (entry : Z * Z) : list Z := to_le_bytes 2 entry.1 ++ to_le_bytes 2 entry.2.

(** The parameters of an event, field by field, and what the host is told. *)
Inductive event_layout : EventPacket -> list ClassicEvent -> Prop :=
| lay_request a class link : length a = 6%nat -> length class = 3%nat ->
    event_layout (mkEvent EVENT_CONNECTION_REQUEST (a ++ class ++ [link])) [ConnectionRequested (public a)]
| lay_complete status handle a link encryption : u16 handle -> length a = 6%nat ->
    event_layout (mkEvent EVENT_CONNECTION_COMPLETE ([status] ++ to_le_bytes 2 handle ++ a ++ [link; encryption]))
      [ConnectionComplete status handle (public a)]
| lay_key_request a : length a = 6%nat -> event_layout (mkEvent EVENT_LINK_KEY_REQUEST a) [LinkKeyRequest (public a)]
| lay_key_notification a key key_type : length a = 6%nat -> length key = 16%nat ->
    event_layout (mkEvent EVENT_LINK_KEY_NOTIFICATION (a ++ key ++ [key_type])) [LinkKeyNotification (public a) key key_type]
| lay_io_capability a : length a = 6%nat ->
    event_layout (mkEvent EVENT_IO_CAPABILITY_REQUEST a) [IoCapabilityRequest (public a)]
| lay_confirmation a value : length a = 6%nat -> length value = 4%nat ->
    event_layout (mkEvent EVENT_USER_CONFIRMATION_REQUEST (a ++ value)) [UserConfirmationRequest (public a)]
| lay_authentication status handle : u16 handle ->
    event_layout (mkEvent EVENT_AUTHENTICATION_COMPLETE ([status] ++ to_le_bytes 2 handle)) [AuthenticationComplete status handle]
| lay_encryption status handle enabled : u16 handle ->
    event_layout (mkEvent EVENT_ENCRYPTION_CHANGE ([status] ++ to_le_bytes 2 handle ++ [enabled]))
      [EncryptionChange status handle (negb (enabled =? 0))]
| lay_completed entries : Forall (fun e => u16 e.1 /\ u16 e.2) entries ->
    event_layout (mkEvent EVENT_NUMBER_OF_COMPLETED_PACKETS (len entries :: concat (completed_bytes <$> entries)))
      ((fun e => NumberOfCompletedPackets e.1 e.2) <$> entries)
| lay_disconnection handle reason : u16 handle ->
    event_layout (mkEvent EVENT_DISCONNECTION_COMPLETE ([0] ++ to_le_bytes 2 handle ++ [reason])) [DisconnectionComplete handle reason]
| lay_disconnection_failed status b1 b2 b3 : status <> 0 ->
    event_layout (mkEvent EVENT_DISCONNECTION_COMPLETE [status; b1; b2; b3]) []
| lay_other code parameters : code ∉ known_events -> event_layout (mkEvent code parameters) [].

(** Takes apart a list of known length. *)
Ltac sized l H := repeat (destruct l as [|? l]; [discriminate H|]); destruct l; [|discriminate H].

Lemma completed_entry_bytes e : u16 e.1 /\ u16 e.2 -> completed_entry (E := SErr) (completed_bytes e) = Ok (NumberOfCompletedPackets e.1 e.2).
Proof.
  intros [H1 H2]. unfold completed_bytes. rewrite !to_le_bytes_2. cbn. unfold completed_entry, u16_at. cbn.
  by rewrite !u16_le_roundtrip.
Qed.

Lemma layout_decodes ev es : event_layout ev es -> decode_classic_event ev = Ok es.
Proof.
  destruct 1 as [a class link Ha Hc|status handle a link en Hh Ha|a Ha|a key kt Ha Hk|a Ha|a value Ha Hv|status handle Hh
    |status handle en Hh|entries He|handle reason Hh|status b1 b2 b3 Hs|code ps Hc].
  - sized a Ha. sized class Hc. reflexivity.
  - sized a Ha. rewrite to_le_bytes_2. rewrite <- (u16_le_roundtrip handle Hh) at 3. reflexivity.
  - sized a Ha. reflexivity.
  - sized a Ha. sized key Hk. reflexivity.
  - sized a Ha. reflexivity.
  - sized a Ha. sized value Hv. reflexivity.
  - rewrite to_le_bytes_2. rewrite <- (u16_le_roundtrip handle Hh) at 3. reflexivity.
  - rewrite to_le_bytes_2. rewrite <- (u16_le_roundtrip handle Hh) at 3. reflexivity.
  - unfold decode_classic_event. cbn [event_code event_parameters].
    cbn [Z.eqb EVENT_NUMBER_OF_COMPLETED_PACKETS EVENT_CONNECTION_REQUEST EVENT_CONNECTION_COMPLETE EVENT_LINK_KEY_REQUEST
      EVENT_LINK_KEY_NOTIFICATION EVENT_IO_CAPABILITY_REQUEST EVENT_USER_CONFIRMATION_REQUEST EVENT_AUTHENTICATION_COMPLETE
      EVENT_ENCRYPTION_CHANGE Pos.eqb completed_packet_events].
    assert (Forall (fun l => length l = 4%nat) (completed_bytes <$> entries)) as Hl by (apply Forall_fmap, Forall_true; by intros []).
    unfold require_len. rewrite (proj2 (Z.eqb_eq _ _)).
    + cbn [mbind res_bind]. rewrite chunks_concat by (done || lia). apply collect_Ok. rewrite <- !list_fmap_compose.
      apply list_fmap_ext. intros i e Hi. apply completed_entry_bytes. by eapply (Forall_lookup_1 _ _ _ _ He).
    + clear He. induction entries as [|e entries IH]; [done|]. rewrite fmap_cons in *. apply Forall_cons in Hl as [Hl1 Hl].
      specialize (IH Hl). cbn [concat]. rewrite len_cons. unfold len in *. rewrite length_app, Hl1. lia.
  - rewrite to_le_bytes_2. rewrite <- (u16_le_roundtrip handle Hh) at 3. reflexivity.
  - unfold decode_classic_event. cbn. by rewrite (proj2 (Z.eqb_neq _ _)).
  - unfold decode_classic_event. cbn [event_code].
    repeat (rewrite (proj2 (Z.eqb_neq code _)); [|intros ->; apply Hc; by_compute]). done.
Qed.

Lemma require_len_ok l n f : require_len l n f = Ok tt -> len l = n.
Proof. unfold require_len. destruct (Z.eqb_spec (len l) n); by intros. Qed.

Lemma u16_pair h0 h1 : u8 h0 -> u8 h1 -> [h0; h1] = to_le_bytes 2 (from_le_bytes [h0; h1]).
Proof. intros. by rewrite u16_le_inverse. Qed.

Lemma entries_layout cs es : Forall bytes cs -> Forall (fun c => length c = 4%nat) cs ->
  completed_entry (E := SErr) <$> cs = Ok <$> es -> exists entries, Forall (fun e => u16 e.1 /\ u16 e.2) entries
    /\ cs = completed_bytes <$> entries /\ es = (fun e => NumberOfCompletedPackets e.1 e.2) <$> entries.
Proof.
  intros Hb Hl. revert es. induction Hb as [|c cs Hc Hcs IH]; intros es He; destruct es as [|e es]; try done; [by exists []|].
  apply Forall_cons in Hl as [Hl1 Hl]. injection He as He1 He. destruct (IH Hl es He) as (entries & Hr & -> & ->).
  destruct c as [|a [|b [|d [|f [|]]]]]; try done. repeat (apply bytes_cons in Hc as [? Hc]).
  exists ((from_le_bytes [a; b], from_le_bytes [d; f]) :: entries). split_and!.
  - constructor; [|done]. split; by apply u16_le_range.
  - rewrite fmap_cons. f_equal. unfold completed_bytes. cbn [fst snd]. by rewrite !u16_le_inverse.
  - rewrite fmap_cons. f_equal. by injection He1 as <-.
Qed.

Lemma completed_layout ps es : bytes ps -> completed_packet_events ps = Ok es ->
  event_layout (mkEvent EVENT_NUMBER_OF_COMPLETED_PACKETS ps) es.
Proof.
  intros Hb Hd. destruct ps as [|count entries]; [done|]. cbn in Hd. apply bind_ok in Hd as ([] & Hl & Hd).
  apply require_len_ok in Hl. apply collect_Ok in Hd. apply bytes_cons in Hb as [Hc Hb].
  assert (concat (chunks_exact 4 entries) = entries /\ Forall bytes (chunks_exact 4 entries)
    /\ Forall (fun c => length c = 4%nat) (chunks_exact 4 entries)) as (Hcat & Hcb & Hcl).
  { assert (chunks_exact 4 entries = chunks 4 entries) as Heq.
    { unfold chunks_exact. clear Hd Hb. assert (exists k : nat, length entries = (4 * k)%nat) as [k Hk].
      { exists (Z.to_nat count). unfold len in Hl. lia. }
      clear Hl. revert entries Hk. induction k as [|k IH]; intros entries Hk; [by destruct entries|].
      rewrite chunks_step; [|lia|intros ->; cbn in Hk; lia].
      rewrite filter_cons_True by (rewrite length_take; lia). f_equal. apply IH. rewrite length_drop. lia. }
    split_and!.
    - rewrite Heq. apply concat_chunks. lia.
    - rewrite Heq. apply chunks_bytes; [lia|done].
    - unfold chunks_exact. apply Forall_forall. intros c Hin. by apply list_elem_of_filter in Hin as [? _]. }
  destruct (entries_layout _ _ Hcb Hcl Hd) as (es' & Hr & Hcs & ->). rewrite Hcs in Hcat. rewrite <- Hcat in *.
  replace count with (len es'); [by constructor|].
  enough (length (concat (completed_bytes <$> es')) = (4 * length es')%nat) by (unfold len in *; lia).
  clear. induction es' as [|e es' IH]; [done|]. rewrite fmap_cons. cbn [concat]. rewrite length_app, IH.
  change (length (completed_bytes e)) with 4%nat. cbn [length]. lia.
Qed.

(** Splits the length check off [Hd] and takes the parameters apart. *)
Ltac fields ps n Hb Hd :=
  let Hl := fresh in let Hk := fresh in
  apply bind_ok in Hd as ([] & Hl & Hd); apply require_len_ok in Hl;
  assert (length ps = n) as Hk by (unfold len in Hl; lia); clear Hl; sized ps Hk; clear Hk;
  repeat (apply bytes_cons in Hb as [? Hb]); clear Hb.

Lemma decodes_layout ev es : bytes (event_parameters ev) -> decode_classic_event ev = Ok es -> event_layout ev es.
Proof.
  destruct ev as [code ps]. cbn [event_parameters]. intros Hb. unfold decode_classic_event. cbn [event_code event_parameters]. intros Hd.
  repeat match type of Hd with (if code =? ?c then _ else _) = _ => destruct (Z.eqb_spec code c) as [->|?] end.
  - fields ps 10%nat Hb Hd. injection Hd as <-. by apply (lay_request [_; _; _; _; _; _] [_; _; _]).
  - fields ps 11%nat Hb Hd. injection Hd as <-.
    pose proof (lay_complete z (from_le_bytes [z0; z1]) [z2; z3; z4; z5; z6; z7] z8 z9) as Hlay.
    rewrite u16_le_inverse in Hlay by done. apply Hlay; [by apply u16_le_range|done].
  - fields ps 6%nat Hb Hd. injection Hd as <-. by apply (lay_key_request [_; _; _; _; _; _]).
  - fields ps 23%nat Hb Hd. injection Hd as <-. by apply (lay_key_notification [_; _; _; _; _; _] [_; _; _; _; _; _; _; _; _; _; _; _; _; _; _; _]).
  - fields ps 6%nat Hb Hd. injection Hd as <-. by apply (lay_io_capability [_; _; _; _; _; _]).
  - fields ps 10%nat Hb Hd. injection Hd as <-. by apply (lay_confirmation [_; _; _; _; _; _] [_; _; _; _]).
  - fields ps 3%nat Hb Hd. injection Hd as <-. pose proof (lay_authentication z (from_le_bytes [z0; z1])) as Hlay.
    rewrite u16_le_inverse in Hlay by done. by apply Hlay, u16_le_range.
  - fields ps 4%nat Hb Hd. injection Hd as <-. pose proof (lay_encryption z (from_le_bytes [z0; z1]) z2) as Hlay.
    rewrite u16_le_inverse in Hlay by done. by apply Hlay, u16_le_range.
  - by apply completed_layout.
  - fields ps 4%nat Hb Hd. cbn in Hd. destruct (Z.eqb_spec z 0) as [->|Hz]; injection Hd as <-; [|by constructor].
    pose proof (lay_disconnection (from_le_bytes [z0; z1]) z2) as Hlay.
    rewrite u16_le_inverse in Hlay by done. by apply Hlay, u16_le_range.
  - injection Hd as <-. constructor. unfold known_events. rewrite !elem_of_cons, elem_of_nil. tauto.
Qed.

(** Past the length check, every access is in range. *)
Ltac checked ps n :=
  let Hl := fresh in let Hk := fresh in
  match goal with |- context [require_len ps ?m ?f] => destruct (require_len ps m f) as [[]|?|] eqn:Hl end;
  [|done|by unfold require_len in Hl; case_match]; apply require_len_ok in Hl; assert (length ps = n) as Hk by (unfold len in Hl; lia);
    sized ps Hk; done.

Lemma decode_no_panic ev : no_panic (decode_classic_event ev).
Proof.
  destruct ev as [code ps]. unfold decode_classic_event, no_panic. cbn [event_code event_parameters].
  repeat match goal with |- (if code =? ?c then _ else _) <> _ => destruct (code =? c) end; [..|done].
  - checked ps 10%nat.
  - checked ps 11%nat.
  - checked ps 6%nat.
  - checked ps 23%nat.
  - checked ps 6%nat.
  - checked ps 10%nat.
  - checked ps 3%nat.
  - checked ps 4%nat.
  - destruct ps as [|count entries]; [done|]. cbn [completed_packet_events].
    destruct (require_len entries (count * 4) _) as [[]|e|] eqn:Hl; [|done|by unfold require_len in Hl; case_match]. cbn [mbind res_bind].
    apply collect_no_panic, Forall_fmap. unfold chunks_exact. apply Forall_forall. intros c Hc.
    apply list_elem_of_filter in Hc as [Hc _]. by sized c Hc.
  - destruct (require_len ps 4 "disconnection complete") as [[]|?|] eqn:Hl; [|done|by unfold require_len in Hl; case_match].
    apply require_len_ok in Hl. assert (length ps = 4%nat) as Hk by (unfold len in Hl; lia). sized ps Hk. cbn. by destruct (z =? 0).
Qed.

(** C25. The decoder of controller events knows exactly its layouts: an event
    with the parameters of a layout, whatever its fields, gives the host the
    fields it names (a batch of completed packets one event per entry, in
    order), an unknown event or a failed disconnection gives nothing, any
    other parameters are an error, and nothing panics. *)
Theorem event_decoding_exact ev es : bytes (event_parameters ev) ->
  (decode_classic_event ev = Ok es <-> event_layout ev es) /\ no_panic (decode_classic_event ev).
Proof. intros Hb. split; [split; [by apply decodes_layout|apply layout_decodes]|apply decode_no_panic]. Qed.

Lemma event_decoding_exact_witness :
  decode_classic_event (mkEvent EVENT_NUMBER_OF_COMPLETED_PACKETS [2; 64; 0; 3; 0; 65; 0; 1; 0])
  = Ok [NumberOfCompletedPackets 64 3; NumberOfCompletedPackets 65 1].
Proof.
  apply event_decoding_exact; [by_compute|]. apply (lay_completed [(64, 3); (65, 1)]). repeat constructor; cbn; lia.
Defined.

(** ** Errors that end the session *)

Section ending.
Context {T W D : Type} `{HciIo T} `{Clock W} `{BondStore D} `{Profile}.
Context (fuel : nat).
Abbreviation bs := (BackendSession T W D).

(** An open session, whatever its host has been through. *)
Definition usable (b : bs) : Prop := driven (fun _ => True) (fun _ => True) (host b) b.

Lemma usable_round t (b : bs) : usable b -> usable (poll_round fuel t b).2.
Proof.
  intros Hb. assert (forall h0 (b : bs), driven (fun _ => True) (fun _ => True) h0 b -> usable b) as Hany
    by (intros ? b0 (_ & ? & ? & ?); by apply driven_refl).
  eapply Hany, drives_poll_round; try done. intros timeout io _. split; [done|].
  destruct (io_recv_timeout timeout io).1 as [[[]|]| |]; try done. intros es _. by apply Forall_true.
Qed.

Lemma round_error t (b : bs) e b' : usable b -> poll_round fuel t b = (Err (Raised e), b') -> terminal b' = Some e.
Proof.
  intros (_ & _ & _ & io & Hio & _). unfold poll_round. rewrite Hio. destruct (io_recv_timeout t io) as [[[p|]|e'|] io'];
    [|done|by intros [= <- <-]|done].
  unfold mbind, stm_bind, handle_polled_packet. destruct (handle_packet fuel p _) as [[[]|[e'|]|] b1];
    [|by intros [= <- <-]|done|done].
  destruct (terminal b1) eqn:Ht; [|done]. by intros [= <- <-].
Qed.

Lemma loop_error n (b : bs) e b' : usable b -> poll_loop fuel n b = (Err (Raised e), b') ->
  terminal b' = Some e /\ closed b' = false.
Proof.
  revert b. induction n as [|n IH]; intros b Hb; [done|]. cbn [poll_loop]. unfold mbind, stm_bind.
  pose proof (usable_round 0 b Hb) as Hb1. destruct (poll_round fuel 0 b) as [[[]|e'|] b1] eqn:Hr; [by apply IH|done| |done].
  intros [= -> ->]. split; [exact (round_error _ _ _ _ Hb Hr)|apply Hb1].
Qed.

Lemma ended_calls c (b : bs) e : terminal b = Some e -> closed b = false -> c <> CallClose ->
  session_call_result fuel c b = (Err (Raised e), b).
Proof.
  intros Ht Hc Hn. assert (ensure_session_active b = (Err (Raised e), b)) as Hens.
  { unfold ensure_session_active, mbind, stm_bind, get. by rewrite Hc, Ht. }
  destruct c; cbn [session_call_result]; try done;
    unfold start_pairing, start_reconnect, session_poll, send_interrupt, drain_interrupt, session_disconnect, mbind, stm_bind;
    by rewrite Hens.
Qed.

(** C22. An error of [poll] ends an open session for good: it is recorded, the
    session is not closed by it, and every later call but [close] gives back
    that same error and changes nothing. *)
Theorem poll_errors_end_session t (b : bs) e b' :
  closed b = false -> is_Some (sess_io b) -> (length (pending_events b) <= EVENT_QUEUE_CAPACITY)%nat ->
  session_poll fuel t b = (Err (Raised e), b') ->
  terminal b' = Some e /\ closed b' = false
  /\ forall c, c <> CallClose -> session_call_result fuel c b' = (Err (Raised e), b').
Proof.
  intros Hc Hio Hq Hp. assert (terminal b' = Some e /\ closed b' = false) as [Ht Hc']; [|by split_and!; auto using ended_calls].
  revert Hp. unfold session_poll, ensure_session_active, mbind, stm_bind, get. rewrite Hc.
  destruct (terminal b) as [e0|] eqn:Ht; [by intros [= <- <-]|]. cbn [skip].
  assert (usable b) as Hb by (apply driven_refl; [done|done|destruct Hio as [io Hio]; eauto]). pose proof (usable_round t b Hb) as Hb1.
  destruct (pending_events b) as [|ev evs]; unfold skip.
  - destruct (poll_round fuel t b) as [[again|e'|] b1] eqn:Hr; [| |done].
    + destruct (poll_loop fuel fuel b1) as [[[]|e'|] b2] eqn:Hl; [done| |done]. intros [= -> ->]. exact (loop_error _ _ _ _ Hb1 Hl).
    + intros [= -> ->]. split; [exact (round_error _ _ _ _ Hb Hr)|apply Hb1].
  - destruct (poll_loop fuel fuel b) as [[[]|e'|] b2] eqn:Hl; [done| |done]. intros [= -> ->]. exact (loop_error _ _ _ _ Hb Hl).
Qed.
End ending.

(** ** Reports to the application *)

(** The application's event for an SDU of [channel], when there is one. *)
Definition report_event (channel : Channel) (sdu : list Z) : option Api.Event :=
  match Message_from_bytes sdu with
  | Ok (MData report_type payload) => if report_type =? ReportType.OUTPUT_REPORT then Some (EvHidOutput channel payload) else None
  | _ => None
  end.

(** The host once the SDUs of a channel are taken. *)
Definition taken {D} (cid : Z) (sdus : list (list Z)) (h : ClassicHost D) : ClassicHost D :=
  match connection h with
  | None => h
  | Some c => set_connection (Some (set_conn_channels (set_channels (alter (set_ch_received sdus) cid (channels (conn_channels c)))
    (conn_channels c)) c)) h
  end.

Definition waiting_sdus {D} (cid : Z) (h : ClassicHost D) : option (list (list Z)) :=
  c ← connection h; channel ← channels (conn_channels c) !! cid; Some (ch_received channel).

(** The queue after [events] more, as far as they fit. *)
Definition queued_events {T W D} (events : list Api.Event) (b : BackendSession T W D) : BackendSession T W D :=
  let all := pending_events b ++ events in
  set_pending_events (take EVENT_QUEUE_CAPACITY all)
    (if (EVENT_QUEUE_CAPACITY <? length all)%nat then set_terminal (Some (Error_new EventQueueOverflow)) b else b).

Lemma taking {D} cid sdu sdus (h : ClassicHost D) : waiting_sdus cid h = Some (sdu :: sdus) ->
  take_channel_sdu cid h = (Some sdu, taken cid sdus h) /\ waiting_sdus cid (taken cid sdus h) = Some sdus.
Proof.
  unfold waiting_sdus, take_channel_sdu, taken. destruct (connection h) as [c|]; [|done]. cbn.
  destruct (channels (conn_channels c) !! cid) as [ch|] eqn:Hc; [|done]. cbn. intros [= Hr].
  unfold ClassicChannel_pop_received. rewrite Hr, lookup_alter_eq, Hc. split; [|done]. do 5 f_equal.
  apply map_eq. intros i. destruct (decide (i = cid)) as [->|].
  - by rewrite lookup_insert_eq, lookup_alter_eq, Hc.
  - by rewrite lookup_insert_ne, lookup_alter_ne.
Qed.

Lemma waiting_taken {D} cid sdus (h : ClassicHost D) : is_Some (waiting_sdus cid h) -> waiting_sdus cid (taken cid sdus h) = Some sdus.
Proof.
  unfold waiting_sdus, taken. destruct (connection h) as [c|]; [|by intros []]. cbn. rewrite lookup_alter_eq.
  destruct (channels (conn_channels c) !! cid); [done|by intros []].
Qed.

Lemma taking_none {D} cid (h : ClassicHost D) : waiting_sdus cid h = Some [] -> take_channel_sdu cid h = (None, h) /\ taken cid [] h = h.
Proof.
  unfold waiting_sdus, take_channel_sdu, taken. destruct (connection h) as [c|] eqn:Hh; [|done]. cbn.
  destruct (channels (conn_channels c) !! cid) as [ch|] eqn:Hc; [|done]. cbn. intros [= Hr].
  unfold ClassicChannel_pop_received. rewrite Hr. assert (set_ch_received [] ch = ch) as Hch by (destruct ch; cbn in *; by subst).
  split; [rewrite insert_id by done|rewrite alter_id by (intros; naive_solver)];
    f_equal; destruct h; cbn in *; subst; f_equal; by destruct c as [? ? ? []].
Qed.

Lemma taken_twice {D} cid l1 l2 (h : ClassicHost D) : taken cid l1 (taken cid l2 h) = taken cid l1 h.
Proof.
  assert (forall m : gmap Z ClassicChannel, alter (set_ch_received l1) cid (alter (set_ch_received l2) cid m) = alter (set_ch_received l1)
    cid m) as Ha.
  { intros m. apply map_eq. intros i. destruct (decide (i = cid)) as [->|]; [|by rewrite !lookup_alter_ne].
    rewrite !lookup_alter_eq. by destruct (m !! cid). }
  unfold taken. destruct (connection h) as [c|] eqn:Hh; [|by rewrite Hh]. destruct h, c as [? ? ? []]; cbn in *. subst.
  unfold set_connection, set_conn_channels, set_channels. cbn. by rewrite Ha.
Qed.

Section reports.
Context {T W D : Type} `{HciIo T} `{Clock W} `{BondStore D} `{Profile}.
Abbreviation bs := (BackendSession T W D).

Lemma enqueue_queued e (b : bs) : (terminal b = None /\ length (pending_events b) <= EVENT_QUEUE_CAPACITY)%nat ->
  enqueue_event e b = (Ok tt, queued_events [e] b).
Proof.
  intros [Ht Hq]. unfold enqueue_event, queued_events, modify. rewrite Ht, length_app. cbn [length].
  destruct (Nat.eqb_spec (length (pending_events b)) EVENT_QUEUE_CAPACITY) as [He|He].
  - rewrite (proj2 (Nat.ltb_lt _ _)) by lia. rewrite take_app_length' by done. by destruct b.
  - rewrite (proj2 (Nat.ltb_ge _ _)) by lia. rewrite take_ge by (rewrite length_app; cbn; lia). done.
Qed.

(** What an overflow leaves is not touched again. *)
Lemma queued_queued e es (b : bs) : (length (pending_events b) <= EVENT_QUEUE_CAPACITY)%nat ->
  queued_events (e :: es) b
  = if (length (pending_events b) <? EVENT_QUEUE_CAPACITY)%nat then queued_events es (queued_events [e] b) else queued_events [e] b.
Proof.
  intros Hq. unfold queued_events. rewrite !length_app. cbn [length]. destruct (Nat.ltb_spec (length (pending_events b)) EVENT_QUEUE_CAPACITY).
  - rewrite (proj2 (Nat.ltb_ge _ (length (pending_events b) + 1))) by lia. cbn [pending_events set_pending_events].
    rewrite (take_ge (pending_events b ++ [e])) by (rewrite length_app; cbn; lia). rewrite <- app_assoc, !length_app. cbn [length app].
    replace (length (pending_events b) + 1 + length es)%nat with (length (pending_events b) + S (length es))%nat by lia.
    by destruct (_ <? _)%nat.
  - rewrite !(proj2 (Nat.ltb_lt _ _)) by lia. by rewrite !take_app_length' by lia.
Qed.

Lemma enqueue_all es (b : bs) : terminal b = None -> (length (pending_events b) <= EVENT_QUEUE_CAPACITY)%nat ->
  for_each enqueue_event es b = (Ok tt, queued_events es b).
Proof.
  revert b. induction es as [|e es IH]; intros b Ht Hq.
  { unfold queued_events. rewrite app_nil_r, (proj2 (Nat.ltb_ge _ _)), take_ge by lia. by destruct b. }
  cbn [for_each]. unfold mbind, stm_bind. rewrite enqueue_queued, (queued_queued e es) by done.
  destruct (Nat.ltb_spec (length (pending_events b)) EVENT_QUEUE_CAPACITY) as [Hr|Hr].
  - apply IH; unfold queued_events; rewrite length_app, (proj2 (Nat.ltb_ge _ _)) by (cbn; lia); [done|].
    cbn [pending_events set_pending_events]. rewrite length_take. lia.
  - unfold queued_events. rewrite length_app, (proj2 (Nat.ltb_lt _ _)) by (cbn; lia).
    clear IH. set (b0 := set_pending_events _ _). assert (terminal b0 = Some (Error_new EventQueueOverflow)) as Ht' by done.
    clearbody b0. induction es as [|e' es IH']; [done|]. cbn [for_each]. unfold mbind, stm_bind, enqueue_event at 1, modify.
    by rewrite Ht'.
Qed.

Lemma enqueue_set_host h es (b : bs) : (for_each enqueue_event es (set_host h b)).2 = set_host h (for_each enqueue_event es b).2
  /\ (for_each enqueue_event es b).1 = Ok tt.
Proof.
  revert b. induction es as [|e es IH]; intros b; [done|]. cbn [for_each]. unfold mbind, stm_bind, enqueue_event at 1 3 5, modify.
  cbn [terminal set_host pending_events]. destruct (terminal b); [apply IH|]. destruct (_ =? _)%nat;
    [apply (IH (set_terminal _ b))|apply (IH (set_pending_events _ b))].
Qed.

Lemma interrupt_sdu cid sdu (b : bs) : process_hidp_sdu Interrupt cid sdu b = for_each enqueue_event (option_list (report_event Interrupt sdu)) b.
Proof.
  unfold process_hidp_sdu, mbind, stm_bind, bridge_sdu, report_event. rewrite bridge_handle_reference.
  assert (set_protocols (set_hidp (hidp (protocols b)) (protocols b)) b = b) as Hb by by destruct b as [? ? ? ? ? ? ? ? []].
  unfold bridge_reference. pose proof (message_decode_no_panic sdu). destruct (Message_from_bytes sdu) as [m|e|]; cbn; rewrite ?Hb; [|done|done].
  destruct m; cbn; rewrite ?Hb; try done. by destruct (_ =? _).
Qed.

(** C20. The peer's reports reach the application: handling the SDUs that wait
    on the open interrupt channel takes them all and queues one event per output
    report, in order and with its payload, and nothing for any other SDU,
    however malformed; past the queue's 64 events the session ends with the
    overflow error. Nothing else changes. *)
Theorem reports_reach_application fuel cid sdus (b : bs) :
  interrupt (protocols b) = Some (mkProtocolChannel cid true) -> waiting_sdus cid (host b) = Some sdus ->
  terminal b = None -> (length (pending_events b) <= EVENT_QUEUE_CAPACITY)%nat -> (length sdus < fuel)%nat ->
  process_hidp fuel Interrupt (interrupt (protocols b)) b
  = (Ok tt, queued_events (omap (report_event Interrupt) sdus) (set_host (taken cid [] (host b)) b)).
Proof.
  intros Hi Hw Ht Hq Hfuel. rewrite <- enqueue_all by done. rewrite Hi. cbn [process_hidp open_slot pc_open pc_cid]. clear Hi Ht Hq.
  revert b fuel Hw Hfuel. induction sdus as [|sdu sdus IH]; intros b [|n] Hw Hfuel; cbn [length] in *; [lia| |lia|];
    cbn [sdu_loop]; unfold mbind at 1, stm_bind at 1, take_sdu.
  - destruct (taking_none cid (host b) Hw) as [-> ->]. done.
  - destruct (taking cid sdu sdus (host b) Hw) as [-> Hw']. unfold mbind, stm_bind. rewrite interrupt_sdu.
    set (b1 := set_host (taken cid sdus (host b)) b).
    assert (for_each enqueue_event (omap (report_event Interrupt) (sdu :: sdus)) (set_host (taken cid [] (host b)) b)
      = for_each enqueue_event (option_list (report_event Interrupt sdu) ++ omap (report_event Interrupt) sdus) (set_host (taken cid []
        (host b1)) b1))
      as ->. { subst b1. cbn [host set_host]. rewrite taken_twice. cbn [omap list_omap]. by destruct (report_event Interrupt sdu). }
    rewrite for_each_app. destruct (enqueue_set_host (taken cid [] (host b1)) (option_list (report_event Interrupt sdu)) b1) as [Hs Hr].
    pose proof (proj2 (enqueue_set_host (host b1) (option_list (report_event Interrupt sdu)) (set_host (taken cid [] (host b1)) b1))) as Hr'.
    pose proof (proj1 (enqueue_set_host (host b1) (option_list (report_event Interrupt sdu)) b1)) as Hk.
    replace (set_host (host b1) b1) with b1 in Hk by by destruct b1.
    destruct (for_each enqueue_event _ b1) as [r b2]. destruct (for_each enqueue_event _ (set_host _ b1)) as [r' b2'].
    cbn [fst snd] in *. subst r r' b2'. rewrite (IH b2 n); [|by rewrite Hk|lia]. by rewrite Hk.
Qed.
End reports.
