(* ===== verification/SessionSecrecy.v ===== *)
(** * What the application learns of link keys ([src/src/session.rs])

    Two runs of a session that differ only in the link keys, those its bond
    store holds and those the controller announces, tell the application the
    same and put the same on the link, but for the keys in the replies to link
    key requests. *)
From S2P Require Import Prelude Hci L2cap Ertm Classic ClassicProps Hidp Values Sdp SdpPdu SdpService Host HostProps HostSecrecy.
From S2P Require Import Csr Identity Usb Api HidService Session SessionProps SessionEvents.

(** ** Packets alike up to keys *)

(** Byte sequences of the same length that differ in bytes 6 to 21 at most, where
    the event has the key. *)
Inductive received_alike : Packet -> Packet -> Prop :=
| same_received p : received_alike p p
| alike_announced address key key' rest : length address = 6%nat -> length key = 16%nat -> length key' = 16%nat ->
    received_alike (Hci.Event (mkEvent EVENT_LINK_KEY_NOTIFICATION (address ++ key ++ rest)))
                   (Hci.Event (mkEvent EVENT_LINK_KEY_NOTIFICATION (address ++ key' ++ rest))).

Inductive sent_alike : Packet -> Packet -> Prop :=
| same_sent p : sent_alike p p
| alike_replied peer key key' : length key = length key' ->
    sent_alike (Command (mkCommand HCI_LINK_KEY_REQUEST_REPLY (address_le peer ++ key)))
               (Command (mkCommand HCI_LINK_KEY_REQUEST_REPLY (address_le peer ++ key'))).

(** A controller link that does not act on keys, up to [L]: it may announce
    others, but takes the replies with them the same way. *)
Class LinkBlind (T : Type) `{HciIo T} (L : T -> T -> Prop) : Prop := {
  blind_send p p' : sent_alike p p' -> agrees L (io_send p) (io_send p');
  blind_recv timeout : agrees_with L (option_Forall2 received_alike) (io_recv_timeout timeout) (io_recv_timeout timeout);
  blind_metadata io io' : L io io' -> io_metadata io = io_metadata io';
  blind_close io io' : L io io' -> (io_close io).1 = (io_close io').1
}.

(** The decoder reads the key into its field and nowhere else. *)
Lemma announced_decodes address key key' rest : length address = 6%nat -> length key = 16%nat -> length key' = 16%nat ->
  let decode k := decode_classic_event (mkEvent EVENT_LINK_KEY_NOTIFICATION (address ++ k ++ rest)) in
  (exists e, decode key = Err e /\ decode key' = Err e)
  \/ exists peer key_type, decode key = Ok [LinkKeyNotification peer key key_type] /\ decode key' = Ok [LinkKeyNotification peer key' key_type].
Proof.
  intros Ha Hk Hk' decode. destruct (decide (len rest = 1)) as [Hl|Hl].
  - right. destruct rest as [|t [|]]; try (unfold len in Hl; cbn in Hl; lia). exists (public address), t.
    split; apply layout_decodes; by constructor.
  - left. exists (Error_with_source ProtocolViolation (PacketLengthError "link key notification" 23 (22 + len rest))).
    assert (forall k, length k = 16%nat -> len (address ++ k ++ rest) = 22 + len rest) as Hlen
      by (intros k Hl'; unfold len; rewrite !length_app; lia).
    subst decode. split; cbn -[len]; unfold require_len; rewrite Hlen by done; by rewrite (proj2 (Z.eqb_neq _ _)) by lia.
Qed.

(** A key announced is no answer to a command. *)
Lemma completion_alike opcode p p' : received_alike p p' -> completion_of opcode p = completion_of opcode p'.
Proof. by destruct 1. Qed.

Section secrecy.
Context {T W D : Type} `{HciIo T} `{Clock W} `{BondStore D} `{Profile}.
Context (L : T -> T -> Prop) `{!LinkBlind T L} (R : D -> D -> Prop) `{!KeyBlind D R}.
Context (fuel : nat).
Abbreviation bs := (BackendSession T W D).
Abbreviation sess := (stm bs Stop).

(** ** The link *)

Lemma raising_agrees {S A} (Rel : S -> S -> Prop) (m m' : stm S SErr A) : agrees Rel m m' -> agrees Rel (raising m) (raising m').
Proof.
  intros Hm s s' Hs. destruct (Hm s s' Hs) as [Hr Hs']. unfold raising. destruct (m s), (m' s'). cbn in *. by subst.
Qed.

Lemma recv_agrees timeout : agrees_with L received_alike (recv_required timeout) (recv_required timeout).
Proof.
  intros io io' Hio. unfold recv_required, raising, mbind, stm_bind. destruct (blind_recv timeout io io' Hio) as [Hr Hio1].
  destruct (io_recv_timeout timeout io) as [[o|e|] io1], (io_recv_timeout timeout io') as [[o'|e'|] io1']; cbn in Hr; subst; try done.
  by destruct Hr.
Qed.

Lemma await_agrees timeout meaning n : (forall p p', received_alike p p' -> meaning p = meaning p') ->
  agrees L (await n timeout meaning) (await n timeout meaning).
Proof.
  intros Hm. induction n as [|n IH]; cbn [await]; [apply agrees_throw|]. eapply agrees_bind_with; [apply recv_agrees|]. intros p p' Hp.
  rewrite (Hm p p' Hp). apply agrees_bind; [apply agrees_lift|]. intros [ps|]; [apply agrees_ret|exact IH].
Qed.

Lemma send_complete_agrees packet : agrees L (send_complete fuel packet) (send_complete fuel packet).
Proof.
  unfold send_complete. apply agrees_bind; [apply raising_agrees, blind_send; constructor|]. intros _. apply await_agrees, completion_alike.
Qed.

Lemma run_command_agrees opcode ps : agrees L (run_command fuel opcode ps) (run_command fuel opcode ps).
Proof. unfold run_command. apply agrees_bind; [apply agrees_lift|apply send_complete_agrees]. Qed.

Lemma initialize_agrees config : agrees L (initialize_controller fuel config) (initialize_controller fuel config).
Proof.
  unfold initialize_controller, raise.
  repeat (intros; lazymatch goal with
    | |- agrees _ (mbind _ _) _ => apply agrees_bind
    | |- agrees _ (run_command _ _ _) _ => apply run_command_agrees
    | |- agrees _ (send_complete _ _) _ => apply send_complete_agrees
    | |- agrees _ (for_each _ _) _ => apply agrees_for_each
    | |- agrees _ (if _ then _ else _) _ => case_match
    | |- agrees _ _ _ => first [apply agrees_lift|apply agrees_throw|apply agrees_ret|apply agrees_skip]
    end).
Qed.

(** ** Sessions *)

Record session_alike (b b' : bs) : Prop := {
  alike_io : option_Forall2 L (sess_io b) (sess_io b');
  alike_clock : sess_clock b = sess_clock b';
  alike_capabilities : sess_capabilities b = sess_capabilities b';
  alike_config : sess_config b = sess_config b';
  alike_host : alike R (host b) (host b');
  alike_window : window b = window b';
  alike_conn : sess_connection b = sess_connection b';
  alike_rejected : rejected_connections b = rejected_connections b';
  alike_protocols : protocols b = protocols b';
  alike_reconnect : active_reconnect b = active_reconnect b';
  alike_terminal : terminal b = terminal b';
  alike_closed : closed b = closed b';
  alike_events : pending_events b = pending_events b'
}.

Abbreviation agree := (agrees (E := Stop) session_alike).

Lemma on_io_agrees {A} (m m' : stm T SErr A) : agrees L m m' -> agree (on_io m) (on_io m').
Proof.
  intros Hm b b' Hb. unfold on_io. destruct (alike_io _ _ Hb) as [io io' Hio|]; [|done]. destruct (Hm io io' Hio) as [Hr Hio'].
  destruct (m io), (m' io'). cbn in Hr. subst. split; [done|]. destruct Hb. split; try done. by constructor.
Qed.

Lemma on_host_agrees {A} wrap (m m' : stm (ClassicHost D) HostError A) : agrees (alike R) m m' -> agree (on_host wrap m) (on_host wrap m').
Proof.
  intros Hm b b' Hb. unfold on_host. destruct (Hm _ _ (alike_host _ _ Hb)) as [Hr Hh]. destruct (m (host b)), (m' (host b')).
  cbn in Hr. subst. split; [done|]. destruct Hb. by split.
Qed.

Lemma command_agrees opcode ps : agree (session_command opcode ps) (session_command opcode ps).
Proof.
  unfold session_command. apply agrees_bind; [apply agrees_lift|]. intros packet. apply on_io_agrees, blind_send. constructor.
Qed.

Lemma info_alike (h h' : ClassicHost D) cid : alike R h h' -> channel_info h cid = channel_info h' cid.
Proof. intros Hh. unfold channel_info. by rewrite (alike_connection _ _ _ Hh). Qed.

Lemma agree_take_sdu cid : agree (take_sdu cid) (take_sdu cid).
Proof.
  intros b b' Hb. unfold take_sdu. destruct (agree_take R cid _ _ (alike_host _ _ Hb)) as [Hr Hh].
  destruct (take_channel_sdu cid (host b)), (take_channel_sdu cid (host b')). cbn in Hr. subst. split; [done|]. destruct Hb. by split.
Qed.

Create HintDb session_alike_db.
#[local] Hint Resolve agrees_lift agrees_ret agrees_skip agrees_throw command_agrees agree_take_sdu same_sent : session_alike_db.

(** What is read of alike sessions is the same. *)
Ltac read_session b b' Hb :=
  rewrite <- ?(alike_clock b b' Hb), <- ?(alike_config b b' Hb), <- ?(alike_window b b' Hb), <- ?(alike_conn b b' Hb),
    <- ?(alike_rejected b b' Hb), <- ?(alike_protocols b b' Hb), <- ?(alike_reconnect b b' Hb), <- ?(alike_terminal b b' Hb),
    <- ?(alike_closed b b' Hb), <- ?(alike_events b b' Hb), <- ?(fun cid => info_alike _ _ cid (alike_host b b' Hb)).

Ltac sessions :=
  repeat (intros; lazymatch goal with
    | Hb : session_alike _ ?b |- agrees _ _ (match channel_info (host ?b) ?cid with _ => _ end) =>
        rewrite <- (info_alike _ _ cid (alike_host _ b Hb))
    | Hb : session_alike ?b ?b' |- agrees _ (match sess_io ?b with _ => _ end) (match sess_io ?b' with _ => _ end) =>
        destruct (alike_io b b' Hb)
    | |- agrees _ (mbind _ get) _ => apply agrees_get; let b := fresh "b" in let b' := fresh "b" in let Hb
      := fresh "Hb" in intros b b' Hb; read_session b b' Hb
    | |- agrees _ (mbind _ _) _ => apply agrees_bind
    | |- agrees _ (modify _) _ =>
        apply agrees_modify; let Hb := fresh "Hb" in intros [] [] Hb; destruct Hb; cbn in *; subst; repeat case_match; solve [split;
          first [done|constructor]]
    | |- agrees _ (for_each _ _) _ => apply agrees_for_each
    | |- agrees _ (match _ with _ => _ end) _ => case_match
    | |- agrees _ (raise _) _ => apply agrees_throw
    | |- agrees _ (raise_error _) _ => apply agrees_throw
    | |- agrees _ _ _ => solve [eauto 2 with session_alike_db]
    end).

Lemma agree_active : agree ensure_session_active ensure_session_active.
Proof. unfold ensure_session_active. sessions. Qed.
Lemma agree_scan d c : agree (set_scan d c) (set_scan d c).
Proof. apply command_agrees. Qed.
Lemma agree_inquiry : agree write_inquiry_response write_inquiry_response.
Proof. unfold write_inquiry_response. sessions. Qed.
Lemma agree_enqueue e : agree (enqueue_event e) (enqueue_event e).
Proof. unfold enqueue_event. sessions. Qed.
Lemma agree_protocols f : agree (modify_protocols f) (modify_protocols f).
Proof. unfold modify_protocols. sessions. Qed.
Lemma agree_terminal {A} e : agree (record_terminal (A := A) e) (record_terminal e).
Proof. unfold record_terminal. sessions. Qed.
Lemma agree_outgoing psm : agree (open_outgoing psm) (open_outgoing psm).
Proof. apply on_host_agrees, agree_connect. Qed.
Lemma agree_send_on cid sdu : agree (send_on_channel cid sdu) (send_on_channel cid sdu).
Proof. apply on_host_agrees, agree_send. Qed.
#[local] Hint Resolve agree_active agree_scan agree_inquiry agree_enqueue agree_protocols agree_terminal agree_outgoing agree_send_on :
  session_alike_db.

Lemma agree_end_window : agree end_connection_window end_connection_window.
Proof. unfold end_connection_window. sessions. Qed.
Lemma agree_reconnect_control : agree start_active_reconnect_control start_active_reconnect_control.
Proof. unfold start_active_reconnect_control. sessions. Qed.
Lemma agree_opened psm cid : agree (on_channel_opened psm cid) (on_channel_opened psm cid).
Proof. unfold on_channel_opened. sessions. Qed.
#[local] Hint Resolve agree_end_window agree_reconnect_control agree_opened : session_alike_db.

(** ** The host's output *)

Lemma agree_apply o o' : output_alike o o' -> agree (apply_output o) (apply_output o').
Proof.
  destruct 1 as [[packet|packet|[]]|peer key key' Hk]; cbn [apply_output]; try (apply on_io_agrees, blind_send; by constructor); sessions.
Qed.

Lemma pop_agrees : agrees_with session_alike (option_Forall2 output_alike) pop_host_output pop_host_output.
Proof.
  intros b b' Hb. unfold pop_host_output. destruct (pop_alike R _ _ (alike_host _ _ Hb)) as [Ho Hh].
  destruct (pop_output (host b)), (pop_output (host b')). split; [done|]. destruct Hb. by split.
Qed.

Lemma agree_drain n : agree (drain_loop n) (drain_loop n).
Proof.
  induction n as [|n IH]; cbn [drain_loop]; [apply agrees_throw|]. eapply agrees_bind_with; [apply pop_agrees|].
  destruct 1; [|apply agrees_skip]. by apply agrees_bind; [apply agree_apply|].
Qed.
#[local] Hint Resolve agree_drain : session_alike_db.

(** ** Protocols on the channels *)

Lemma agree_refresh : agree refresh_outgoing_channels refresh_outgoing_channels.
Proof. unfold refresh_outgoing_channels, refresh_channel. sessions. Qed.

Lemma agree_sdus n cid body : (forall sdu, agree (body sdu) (body sdu)) -> agree (sdu_loop n cid body) (sdu_loop n cid body).
Proof. intros Hb. induction n as [|n IH]; cbn [sdu_loop]; sessions; auto. Qed.

Lemma agree_answer_sdp cid request : agree (answer_sdp cid request) (answer_sdp cid request).
Proof.
  intros b b' Hb. unfold answer_sdp. rewrite <- (alike_protocols b b' Hb). case_match; [|done]. destruct (handle_sdu _ _).
  split; [done|]. destruct Hb. by split.
Qed.

Lemma agree_bridge channel sdu : agree (bridge_sdu channel sdu) (bridge_sdu channel sdu).
Proof.
  intros b b' Hb. unfold bridge_sdu. rewrite <- (alike_protocols b b' Hb). destruct (bridge_handle _ _ _). split; [done|]. destruct Hb. by split.
Qed.
#[local] Hint Resolve agree_refresh agree_answer_sdp agree_bridge : session_alike_db.

Lemma agree_hidp_event e : agree (apply_hidp_event e) (apply_hidp_event e).
Proof. unfold apply_hidp_event. sessions. Qed.
#[local] Hint Resolve agree_hidp_event : session_alike_db.

Lemma agree_hidp_sdu channel cid sdu : agree (process_hidp_sdu channel cid sdu) (process_hidp_sdu channel cid sdu).
Proof. unfold process_hidp_sdu. sessions. Qed.

Lemma agree_hidp channel slot : agree (process_hidp fuel channel slot) (process_hidp fuel channel slot).
Proof. unfold process_hidp. sessions. apply agree_sdus, agree_hidp_sdu. Qed.

Lemma agree_sdp cid : agree (process_sdp fuel cid) (process_sdp fuel cid).
Proof. unfold process_sdp. apply agree_sdus. sessions. Qed.
#[local] Hint Resolve agree_hidp agree_sdp : session_alike_db.

Lemma agree_input : agree (process_protocol_input fuel) (process_protocol_input fuel).
Proof. unfold process_protocol_input. sessions. Qed.
#[local] Hint Resolve agree_input : session_alike_db.

(** ** Packets *)

Lemma agree_admit_request e : agree (admit_request e) (admit_request e).
Proof. unfold admit_request. sessions. Qed.
Lemma agree_admit_connection e : agree (admit_connection e) (admit_connection e).
Proof. unfold admit_connection. sessions. Qed.
Lemma agree_admit_disconnection e : agree (admit_disconnection e) (admit_disconnection e).
Proof. unfold admit_disconnection. sessions. Qed.
#[local] Hint Resolve agree_admit_request agree_admit_connection agree_admit_disconnection : session_alike_db.

Lemma agree_route e e' : res_alike (Forall2 event_alike) (decode_classic_event e) (decode_classic_event e') ->
  agree (route_event fuel e) (route_event fuel e').
Proof.
  intros Hd. unfold route_event. apply agrees_bind_with with (Q := Forall2 event_alike).
  - intros b b' Hb. split; [|done]. unfold lift, raised. destruct (decode_classic_event e), (decode_classic_event e'); cbn in *; by subst.
  - intros es es' Hes. apply agrees_bind; [|intros; apply agree_drain]. apply (agrees_for_each_with _ _ _ _ _ _ Hes).
    intros c c' Hc. by apply on_host_agrees, agree_event.
Qed.

Lemma decode_same e : res_alike (Forall2 event_alike) (decode_classic_event e) (decode_classic_event e).
Proof. destruct (decode_classic_event e) as [es| |]; cbn; try done. induction es; constructor; [constructor|done]. Qed.

Lemma agree_handle_event e e' : received_alike (Hci.Event e) (Hci.Event e') -> agree (handle_event fuel e) (handle_event fuel e').
Proof.
  inversion_clear 1 as [|address key key' rest Ha Hk Hk'].
  - unfold handle_event. pose proof (agree_route e' e' (decode_same e')). sessions.
  - apply agree_route. destruct (announced_decodes address key key' rest Ha Hk Hk') as [(x & -> & ->)|(peer & t & -> & ->)]; [done|].
    constructor; [|constructor]. constructor. congruence.
Qed.

Lemma agree_packet p p' : received_alike p p' -> agree (handle_packet fuel p) (handle_packet fuel p').
Proof.
  intros Hp. pose proof Hp as Hp'. destruct Hp as [[c|e|a]|]; cbn [handle_packet]; try by apply agree_handle_event.
  - apply agrees_throw.
  - apply agrees_bind; [by apply on_host_agrees, agree_acl|]. unfold drain_host_output. sessions.
Qed.

Lemma agree_polled p p' : received_alike p p' -> agree (handle_polled_packet fuel p) (handle_polled_packet fuel p').
Proof.
  intros Hp b b' Hb. unfold handle_polled_packet. destruct (agree_packet p p' Hp b b' Hb) as [Hr Hb1].
  destruct (handle_packet fuel p b) as [r b1], (handle_packet fuel p' b') as [r' b1']. cbn in Hr, Hb1. subst r'.
  rewrite <- (alike_terminal _ _ Hb1). destruct r as [|[e|]|]; try done; [by case_match|by apply agree_terminal].
Qed.

Lemma agree_round timeout : agree (poll_round fuel timeout) (poll_round fuel timeout).
Proof.
  intros b b' Hb. unfold poll_round. destruct (alike_io _ _ Hb) as [io io' Hio|]; [|done]. destruct (blind_recv timeout io io' Hio) as [Hr Hio1].
  destruct (io_recv_timeout timeout io) as [[o|e|] io1], (io_recv_timeout timeout io') as [[o'|e'|] io1']; cbn in Hr; subst; try done;
    assert (session_alike (set_sess_io (Some io1) b) (set_sess_io (Some io1') b')) as Hb1 by (destruct Hb; split; try done; by constructor).
  - destruct Hr as [p p' Hp|]; [|done]. by apply agrees_bind; [apply agree_polled| |].
  - by apply agree_terminal.
  - done.
Qed.
#[local] Hint Resolve agree_round : session_alike_db.

(** ** Calls *)

Lemma agree_poll_loop n : agree (poll_loop fuel n) (poll_loop fuel n).
Proof. induction n as [|n IH]; cbn [poll_loop]; sessions; done. Qed.

Lemma agree_poll timeout : agree (session_poll fuel timeout) (session_poll fuel timeout).
Proof. unfold session_poll. pose proof agree_poll_loop. sessions. Qed.

Lemma agree_clock : agree read_clock read_clock.
Proof. intros b b' Hb. unfold read_clock. rewrite <- (alike_clock b b' Hb). destruct (clock_read _). split; [done|]. destruct Hb. by split. Qed.
#[local] Hint Resolve agree_clock : session_alike_db.

Lemma flushed_alike (h h' : ClassicHost D) : alike R h h' -> channel_output_is_flushed h = channel_output_is_flushed h'.
Proof. intros Hh. unfold channel_output_is_flushed. by rewrite (alike_flow _ _ _ Hh). Qed.

Lemma agree_drain_interrupt_loop n deadline : agree (drain_interrupt_loop fuel n deadline) (drain_interrupt_loop fuel n deadline).
Proof.
  induction n as [|n IH]; cbn [drain_interrupt_loop]; [apply agrees_throw|]. apply agrees_get. intros b b' Hb.
  rewrite <- (flushed_alike _ _ (alike_host _ _ Hb)). sessions; done.
Qed.

Lemma agree_reconnect : agree start_reconnect start_reconnect.
Proof.
  unfold start_reconnect. apply agrees_bind; [apply agree_active|]. intros _. apply agrees_get. intros b b' Hb. read_session b b' Hb.
  case_match; try apply agrees_throw; [|apply agrees_skip]. apply agrees_bind_with with (Q := Forall2 stored_alike).
  - intros c c' Hc. split; [|done]. unfold lift, raised, sourced. pose proof (blind_load_all _ _ (alike_bonds _ _ _ (alike_host _ _ Hb))) as Hl.
    destruct (bond_load_all (bonds (host b))), (bond_load_all (bonds (host b'))); cbn in *; by subst.
  - intros l l' [|[peer x] [peer' x'] l1 l1' [Hp _] [|]]; try apply agrees_throw. cbn in Hp. subst peer'. sessions.
Qed.

Lemma agree_close : agree session_close session_close.
Proof.
  unfold session_close. sessions. intros _. rewrite (blind_close x y) by done. apply agrees_lift.
Qed.

(** What a call gives the application. *)
Definition application_call (c : session_call) : sess (list Api.Event) :=
  match c with
  | CallPoll timeout => session_poll fuel timeout
  | _ => session_call_result fuel c ;; mret []
  end.

Lemma agree_call c : agree (application_call c) (application_call c).
Proof.
  destruct c; cbn [application_call session_call_result]; [| |apply agree_poll| | | |].
  - unfold start_pairing. sessions.
  - apply agrees_bind; [apply agree_reconnect|intros; apply agrees_ret].
  - unfold send_interrupt, drain_host_output. sessions; try by apply on_host_agrees, agree_send.
  - unfold drain_interrupt. pose proof agree_drain_interrupt_loop. sessions.
  - unfold session_disconnect. sessions.
  - apply agrees_bind; [apply agree_close|intros; apply agrees_ret].
Qed.

(** What the application is told by a sequence of calls, and of the capacity to
    send after each. *)
Fixpoint calls_told (cs : list session_call) (b : bs) : list (res Stop (list Api.Event) * res HostError bool) :=
  match cs with
  | [] => []
  | c :: cs => let '(r, b) := application_call c b in (r, session_capacity_available b) :: calls_told cs b
  end.

Lemma capacity_alike (b b' : bs) : session_alike b b' -> session_capacity_available b = session_capacity_available b'.
Proof.
  intros Hb. unfold session_capacity_available, interrupt_send_capacity_available.
  by rewrite (alike_terminal _ _ Hb), (alike_closed _ _ Hb), (alike_protocols _ _ Hb), (alike_flow _ _ _ (alike_host _ _ Hb)).
Qed.

(** The link at the end of the calls, unless they closed it. *)
Fixpoint link_after (cs : list session_call) (b : bs) : option T :=
  match cs with
  | [] => sess_io b
  | c :: cs => link_after cs (application_call c b).2
  end.

Lemma told_alike cs : forall b b', session_alike b b' -> calls_told cs b = calls_told cs b' /\ option_Forall2 L (link_after cs b) (link_after cs b').
Proof.
  induction cs as [|c cs IH]; intros b b' Hb; cbn [calls_told link_after]; [split; [done|apply Hb]|].
  destruct (agree_call c b b' Hb) as [Hr Hb1]. destruct (application_call c b) as [r b1], (application_call c b') as [r' b1']. cbn in Hr, Hb1 |- *.
  destruct (IH b1 b1' Hb1) as [-> Hl]. by rewrite Hr, (capacity_alike _ _ Hb1).
Qed.

(** ** From initialization on *)

Lemma register_agrees psms :
  let register := for_each (fun psm => host_register_server (S := D) psm (mkClassicSpec CLASSIC_SERVER_MTU)) psms in
  agrees (alike R) register register.
Proof. apply agrees_for_each. intros psm. apply agree_register. Qed.

Lemma initialize_alike config clock bonds bonds' io io' : L io io' -> R bonds bonds' ->
  res_alike session_alike (BackendSession_initialize (W := W) fuel config bonds clock io) (BackendSession_initialize fuel config bonds' clock io').
Proof.
  intros Hio Hbonds. unfold BackendSession_initialize. destruct (initialize_agrees config io io' Hio) as [Hr Hio1].
  destruct (initialize_controller fuel config io) as [r io1], (initialize_controller fuel config io') as [r' io1']. cbn in Hr, Hio1. subst r'.
  destruct r as [initialized|e|]; cbn [mbind res_bind]; [|done|done].
  destruct (blind_select (init_local_address initialized) _ _ Hbonds) as [Hr Hbonds1]. cbn [local_address].
  destruct (select_local_address _ bonds) as [r s], (select_local_address _ bonds') as [r' s']. cbn in Hr, Hbonds1. subst r'.
  destruct r; cbn [raised sourced map_err mbind res_bind]; [|done|done].
  destruct (register_agrees [HID_SDP_PSM; HID_CONTROL_PSM; HID_INTERRUPT_PSM]
    (ClassicHost_new s (acl_packet_length initialized) (acl_packet_count initialized))
    (ClassicHost_new s' (acl_packet_length initialized) (acl_packet_count initialized))) as [Hr Hh]; [split; try done; constructor|].
  destruct (for_each _ _ (ClassicHost_new s _ _)) as [r h], (for_each _ _ (ClassicHost_new s' _ _)) as [r' h']. cbn in Hr, Hh. subst r'.
  destruct r; cbn; try done. split; cbn; try done; [by constructor|]. by rewrite (blind_metadata _ _ Hio1).
Qed.

(** The application's run: what the opened session has told it of the
    controller, what its calls gave, and the link. *)
Definition application_run (config : SessionConfig) (bonds : D) (clock : W) (io : T) (cs : list session_call)
  : res Stop (Capabilities * list (res Stop (list Api.Event) * res HostError bool) * option T) :=
  b ← BackendSession_initialize fuel config bonds clock io;
  Ok (sess_capabilities b, calls_told cs b, link_after cs b).

(** C23. The application learns nothing of link keys: two runs of a session, from
    its initialization on and through any calls, that differ only in the keys in
    the bond store and in those the controller announces tell the application
    the same (capabilities, results, errors, events, capacity), and leave the
    link with the same packets, but for the keys in the replies to link key
    requests. *)
Theorem application_learns_no_key config clock bonds bonds' io io' cs : L io io' -> R bonds bonds' ->
  res_alike (fun x y => x.1 = y.1 /\ option_Forall2 L x.2 y.2)
    (application_run config bonds clock io cs) (application_run config bonds' clock io' cs).
Proof.
  intros Hio Hbonds. unfold application_run. pose proof (initialize_alike config clock _ _ _ _ Hio Hbonds) as Hi.
  destruct (BackendSession_initialize _ _ _ _ io) as [b| |], (BackendSession_initialize _ _ _ _ io') as [b'| |]; cbn in Hi |- *; try done.
  destruct (told_alike cs b b' Hi) as [-> Hl]. by rewrite (alike_capabilities _ _ Hi).
Qed.
End secrecy.
