(* ===== verification/SessionInit.v ===== *)
(** * The initialization dialogue ([src/src/session.rs])

    The controller is initialized exactly when it answers the fourteen commands
    of the dialogue, in their order, with what the session needs. *)
From S2P Require Import Prelude Hci Values Host Csr Identity Usb Api Session SessionProps SessionEvents.

Section dialogue.
Context {T : Type} `{HciIo T}.

(** The Command Complete event with status 0 for [opcode]. *)
Definition completes (opcode : Z) (answer : list Z) (packet : Packet) : Prop :=
  exists credits, packet = Hci.Event (mkEvent EVENT_COMMAND_COMPLETE (credits :: to_le_bytes 2 opcode ++ 0 :: answer)).

(** The link gives the completion of [opcode], after packets that do not
    concern it. *)
Inductive answered (opcode : Z) (answer : list Z) : T -> T -> Prop :=
| answered_now io packet io' : io_recv_timeout COMMAND_TIMEOUT io = (Ok (Some packet), io') ->
    completes opcode answer packet -> answered opcode answer io io'
| answered_later io packet io1 io' : io_recv_timeout COMMAND_TIMEOUT io = (Ok (Some packet), io1) ->
    completion_of opcode packet = Ok None -> answered opcode answer io1 io' -> answered opcode answer io io'.

(** Commands sent one after the other, each once the one before is answered. *)
Inductive dialogue : list (CommandPacket * list Z) -> T -> T -> Prop :=
| dialogue_nil io : dialogue [] io io
| dialogue_cons c answer script io io1 io2 io' : io_send (Command c) io = (Ok tt, io1) ->
    answered (cmd_opcode c) answer io1 io2 -> dialogue script io2 io' -> dialogue ((c, answer) :: script) io io'.

Definition version_bytes (v : ControllerVersion) : list Z :=
  [hci_version v] ++ to_le_bytes 2 (hci_subversion v) ++ [lmp_version v] ++ to_le_bytes 2 (company_identifier v)
  ++ to_le_bytes 2 (lmp_subversion v).

Definition version_fits (v : ControllerVersion) : Prop :=
  u16 (hci_subversion v) /\ u16 (company_identifier v) /\ u16 (lmp_subversion v).

Definition identity_script (config : SessionConfig) : list CommandPacket :=
  [mkCommand HCI_WRITE_LOCAL_NAME (local_name config ++ replicate (248 - length (local_name config)) 0);
   mkCommand HCI_WRITE_CLASS_OF_DEVICE (to_le_bytes 3 (class_of_device config));
   mkCommand HCI_WRITE_SIMPLE_PAIRING_MODE [1];
   mkCommand HCI_WRITE_EXTENDED_INQUIRY_RESPONSE (0 :: extended_inquiry_response config);
   mkCommand HCI_WRITE_DEFAULT_LINK_POLICY_SETTINGS [5; 0];
   mkCommand HCI_WRITE_SCAN_ENABLE [0]].

(** The mask of LE events for a controller up to Bluetooth 4.0, and after. *)
Definition le_mask (v : ControllerVersion) : list Z :=
  if hci_version v <=? 6 then LEGACY_LE_EVENT_MASK else LE_EVENT_MASK.

Definition initialization (config : SessionConfig) (i : InitializedController) (io io' : T) : Prop :=
  exists reset supported max_page features masked le_masked sco_length sco_count acknowledged,
    dialogue
      ([(mkCommand HCI_RESET [], reset);
        (mkCommand HCI_READ_LOCAL_SUPPORTED_COMMANDS [], supported);
        (mkCommand HCI_READ_LOCAL_VERSION_INFORMATION [], version_bytes (init_version i));
        (mkCommand HCI_READ_LOCAL_EXTENDED_FEATURES [0], [0; max_page] ++ features);
        (mkCommand HCI_SET_EVENT_MASK EVENT_MASK, masked);
        (mkCommand HCI_LE_SET_EVENT_MASK (le_mask (init_version i)), le_masked);
        (mkCommand HCI_READ_BUFFER_SIZE [],
          to_le_bytes 2 (acl_packet_length i) ++ [sco_length] ++ to_le_bytes 2 (acl_packet_count i) ++ sco_count);
        (mkCommand HCI_READ_BD_ADDR [], address_le (init_local_address i))]
       ++ zip (identity_script config) acknowledged) io io'
    /\ length supported = 64%nat /\ version_fits (init_version i)
    /\ length features = 8%nat /\ (exists f, features !! 4%nat = Some f /\ Z.land f BR_EDR_NOT_SUPPORTED_MASK = 0)
    /\ u16 (acl_packet_length i) /\ acl_packet_length i <> 0 /\ u16 (acl_packet_count i) /\ acl_packet_count i <> 0
    /\ length sco_count = 2%nat /\ length acknowledged = 6%nat
    /\ length (address_le (init_local_address i)) = 6%nat /\ address_le (init_local_address i) <> replicate 6 0
    /\ address_kind (init_local_address i) = AKPublic.

(** ** Answers *)

Lemma completes_iff opcode answer packet : u16 opcode -> packet_bytes packet ->
  completion_of opcode packet = Ok (Some answer) <-> completes opcode answer packet.
Proof.
  intros Hop Hb. split.
  - destruct packet as [c|[code ps]|p]; try done. cbn [completion_of event_code event_parameters packet_bytes] in *.
    destruct (Z.eqb_spec code EVENT_COMMAND_COMPLETE) as [->|].
    + unfold require_min_len. destruct (Z.leb_spec 4 (len ps)) as [Hl|]; [|done].
      destruct ps as [|credits [|a [|b [|status ps]]]]; try (unfold len in Hl; cbn in Hl; lia).
      repeat (apply bytes_cons in Hb as [? Hb]). cbn [mbind res_bind u16_at idx expect lookup list_lookup].
      destruct (Z.eqb_spec (from_le_bytes [a; b]) opcode) as [<-|]; [|done]. cbn [negb].
      destruct (Z.eqb_spec status 0) as [->|]; [|done]. cbn [negb drop]. intros [= <-]. exists credits. by rewrite u16_le_inverse.
    + destruct (code =? EVENT_COMMAND_STATUS); [|done]. intros Hd. apply bind_ok in Hd as ([] & _ & Hd).
      apply bind_ok in Hd as (op & _ & Hd). apply bind_ok in Hd as (st & _ & Hd). by case_match.
  - intros [credits ->]. cbn [completion_of event_code event_parameters]. unfold require_min_len.
    rewrite to_le_bytes_2. cbn [app]. rewrite !len_cons. rewrite (proj2 (Z.leb_le _ _)) by (pose proof (Nat2Z.is_nonneg (length answer));
      unfold len; lia).
    rewrite Z.eqb_refl. cbn. by rewrite u16_le_roundtrip, Z.eqb_refl.
Qed.

Context `{!HciIoLaws T}.

Lemma await_answered n opcode answer io io' : u16 opcode -> io_ok io ->
  await n COMMAND_TIMEOUT (completion_of opcode) io = (Ok answer, io') -> answered opcode answer io io' /\ bytes answer /\ io_ok io'.
Proof.
  intros Hop. revert io. induction n as [|n IH]; intros io Hio; [done|]. cbn [await]. unfold recv_required, raising, mbind, stm_bind,
    lift, mret, stm_ret.
  pose proof (io_ok_recv COMMAND_TIMEOUT io Hio) as Hio1.
  destruct (io_recv_timeout COMMAND_TIMEOUT io) as [[[p|]|e|] io1] eqn:Hr; cbn [raised map_err snd] in *; try done.
  pose proof (recv_bytes _ _ _ _ Hio Hr) as Hb. destruct (completion_of opcode p) as [[l|]|e|] eqn:Hp; cbn [raised map_err]; try done.
  - intros [= -> ->]. split_and!; [|by eapply completion_bytes|done]. eapply answered_now; [done|]. by apply completes_iff.
  - intros Ha. destruct (IH io1 Hio1 Ha) as (Hans & Hbytes & Hio'). split_and!; [by eapply answered_later|done|done].
Qed.

Lemma answered_ok opcode answer io io' : answered opcode answer io io' -> io_ok io -> io_ok io'.
Proof.
  induction 1 as [io p io' Hr _|io p io1 io' Hr _ _ IH]; intros Hio; pose proof (io_ok_recv COMMAND_TIMEOUT io Hio) as Hio1;
    rewrite Hr in Hio1; [done|by apply IH].
Qed.

Lemma answered_await opcode answer io io' : u16 opcode -> answered opcode answer io io' -> io_ok io ->
  exists n, forall k, (n <= k)%nat -> await k COMMAND_TIMEOUT (completion_of opcode) io = (Ok answer, io').
Proof.
  intros Hop. induction 1 as [io p io' Hr Hc|io p io1 io' Hr Hc _ IH]; intros Hio.
  - exists 1%nat. intros [|k] Hk; [lia|]. cbn [await]. unfold recv_required, raising, mbind, stm_bind, lift, mret, stm_ret. rewrite Hr.
    cbn [raised map_err]. by rewrite (proj2 (completes_iff opcode answer p Hop (recv_bytes _ _ _ _ Hio Hr)) Hc).
  - pose proof (io_ok_recv COMMAND_TIMEOUT io Hio) as Hio1. rewrite Hr in Hio1. destruct (IH Hio1) as [n Hn].
    exists (S n). intros [|k] Hk; [lia|]. cbn [await]. unfold recv_required, raising, mbind, stm_bind, lift, mret, stm_ret. rewrite Hr.
    cbn [raised map_err]. rewrite Hc. cbn [raised map_err]. apply Hn. lia.
Qed.

(** One command of the dialogue, and all of them. *)
Definition command_fits (c : CommandPacket) : Prop := u16 (cmd_opcode c) /\ len (cmd_parameters c) <= 255.

Lemma complete_dialogue n c answer io io' : command_fits c -> io_ok io -> send_complete n c io = (Ok answer, io') ->
  bytes answer /\ io_ok io' /\ forall script io2, dialogue script io' io2 -> dialogue ((c, answer) :: script) io io2.
Proof.
  intros [Hop _] Hio. unfold send_complete, raising, mbind, stm_bind. pose proof (io_ok_send (Command c) io Hio) as Hio1.
  destruct (io_send (Command c) io) as [[[]|e|] io1] eqn:Hs; cbn [raised map_err snd] in *; try done.
  intros (Ha & Hb & Hio')%await_answered; [|done|done]. split_and!; [done|done|]. intros. by eapply dialogue_cons.
Qed.

Lemma dialogue_complete c answer script io io2 : command_fits c -> io_ok io -> dialogue ((c, answer) :: script) io io2 ->
  exists io' n, dialogue script io' io2 /\ io_ok io' /\ forall k, (n <= k)%nat -> send_complete k c io = (Ok answer, io').
Proof.
  intros [Hop _] Hio Hd. inversion Hd as [|? ? ? ? io1 io' ? Hs Ha Hrest]; subst.
  pose proof (io_ok_send (Command c) io Hio) as Hio1. rewrite Hs in Hio1. cbn [snd] in Hio1. destruct (answered_await _ _ _ _ Hop Ha Hio1) as [n Hn].
  exists io', n. split_and!; [done|by eapply answered_ok|]. intros k Hk. unfold send_complete, raising, mbind, stm_bind. rewrite Hs.
  cbn [raised map_err]. auto.
Qed.

Lemma run_command_complete n op ps : command_fits (mkCommand op ps) -> run_command n op ps = send_complete (T := T) n (mkCommand op ps).
Proof.
  intros [_ Hl]. unfold run_command, command, sourced, CommandPacket_new, validate_u8_length. cbn in Hl.
  by rewrite (proj2 (Z.leb_le _ _)) by lia.
Qed.

Lemma complete_all n cs io io' : Forall command_fits cs -> io_ok io ->
  for_each (fun c => _ ← send_complete n c; skip) cs io = (Ok tt, io') ->
  exists answers, length answers = length cs /\ dialogue (zip cs answers) io io'.
Proof.
  intros Hcs. revert io. induction Hcs as [|c cs Hc _ IH]; intros io Hio; cbn [for_each].
  { intros [= <-]. exists []. split; [done|constructor]. }
  unfold mbind, stm_bind, skip. destruct (send_complete n c io) as [[answer|e|] io1] eqn:Hs; try done. intros Hrest.
  destruct (complete_dialogue n c answer io io1 Hc Hio Hs) as (_ & Hio1 & Hmore).
  destruct (IH io1 Hio1 Hrest) as (answers & Hl & Hd). exists (answer :: answers). split; [cbn; lia|]. by apply Hmore.
Qed.

Lemma all_complete cs answers io io' : Forall command_fits cs -> length answers = length cs -> io_ok io -> dialogue (zip cs answers) io io' ->
  exists n, forall k, (n <= k)%nat -> for_each (fun c => _ ← send_complete k c; skip) cs io = (Ok tt, io').
Proof.
  intros Hcs. revert answers io. induction Hcs as [|c cs Hc _ IH]; intros [|answer answers] io Hl Hio Hd; try done; cbn [for_each zip zip_with] in *.
  { inversion Hd; subst. by exists 0%nat. }
  destruct (dialogue_complete _ _ _ _ _ Hc Hio Hd) as (io1 & n1 & Hd1 & Hio1 & H1).
  destruct (IH answers io1 ltac:(cbn in Hl; lia) Hio1 Hd1) as (n2 & H2).
  exists (n1 `max` n2)%nat. intros k Hk. unfold mbind, stm_bind, skip. rewrite H1 by lia. apply H2. lia.
Qed.
End dialogue.

(** ** The commands *)

Definition config_fits (config : SessionConfig) : Prop :=
  (length (local_name config) <= 248)%nat /\ len (extended_inquiry_response config) <= 254.

Lemma command_ok op ps : len ps <= 255 -> command op ps = Ok (mkCommand op ps).
Proof. intros Hl. unfold command, sourced, CommandPacket_new, validate_u8_length. by rewrite (proj2 (Z.leb_le _ _)) by lia. Qed.

Lemma identity_commands_script config : config_fits config ->
  identity_commands config = Ok (identity_script config) /\ Forall command_fits (identity_script config).
Proof.
  intros [Hn He]. unfold identity_commands. rewrite copy_at_ok by (rewrite length_replicate; lia).
  rewrite take_0, drop_replicate. cbn [app Nat.add mbind res_bind].
  assert (len (local_name config ++ replicate (248 - length (local_name config)) 0) = 248) as Hname
    by (unfold len; rewrite length_app, length_replicate; lia).
  assert (len (0 :: extended_inquiry_response config) <= 255) as Heir by (rewrite len_cons; lia).
  rewrite !command_ok by first [done | lia]. split; [done|].
  unfold identity_script. repeat constructor; cbn [cmd_opcode cmd_parameters]; try done; try lia.
Qed.

(** The constructor's configurations do. *)
Lemma config_ok_fits config : session_config_ok config -> config_fits config.
Proof.
  intros [Hn _ He _]. unfold MAX_COMPLETE_LOCAL_NAME_LEN, EXTENDED_INQUIRY_RESPONSE_LEN in *. split; [lia|].
  rewrite He. unfold len. rewrite !length_app, length_replicate. cbn [length]. lia.
Qed.

Lemma version_parse ps v : bytes ps -> parse_version ps = Ok v -> ps = version_bytes v /\ version_fits v.
Proof.
  intros Hb Hd. unfold parse_version in Hd. fields ps 8%nat Hb Hd. injection Hd as <-. unfold version_bytes, version_fits.
  cbn [hci_version hci_subversion lmp_version company_identifier lmp_subversion].
  split; [by rewrite !u16_le_inverse|]. split_and!; by apply u16_le_range.
Qed.

Lemma parse_version_bytes v : version_fits v -> parse_version (version_bytes v) = Ok v.
Proof.
  intros (H1 & H2 & H3). unfold version_bytes. rewrite !to_le_bytes_2. unfold parse_version, u16_at. cbn.
  rewrite !u16_le_roundtrip by done. by destruct v.
Qed.

Section initialization.
Context {T : Type} `{HciIo T} `{!HciIoLaws T}.

Ltac fits := split; [by_compute|first [by_compute|cbn [cmd_parameters]; case_match; by_compute]].

(** Takes the next command, or the next check, off a successful run. *)
Ltac asked Hi Ha Hd :=
  apply stm_bind_ok in Hi as (? & ? & Ha & Hi); rewrite run_command_complete in Ha by fits;
  apply complete_dialogue in Ha as (Ha & ? & Hd); [|fits|done].
Ltac checked_ok Hi Ha :=
  let u := fresh in apply stm_bind_ok in Hi as (u & ? & Ha & Hi); apply lift_ok in Ha as [Ha ->];
    try (match type of u with unit => destruct u end); try apply require_len_ok in Ha.
Ltac read_ok Hi := apply stm_bind_ok in Hi as (? & ? & [= <- <-] & Hi).

Ltac taken_apart Hl Hb n :=
  match type of Hl with len ?l = _ =>
    let Hk := fresh in assert (length l = n) as Hk by (unfold len in Hl; lia); sized l Hk; clear Hk end;
  repeat (apply bytes_cons in Hb as [? Hb]).

Lemma initialize_dialogue n config i (io io' : T) : session_config_ok config -> io_ok io ->
  initialize_controller n config io = (Ok i, io') -> initialization config i io io'.
Proof.
  intros Hconfig Hio Hi. destruct (identity_commands_script config (config_ok_fits _ Hconfig)) as [Hscript Hfits]. unfold initialize_controller in Hi.
  asked Hi Hb1 Hd1. asked Hi Hb2 Hd2. checked_ok Hi Hl2. asked Hi Hb3 Hd3. checked_ok Hi Hv.
  asked Hi Hb4 Hd4. checked_ok Hi Hl4.
  taken_apart Hl4 Hb4 10%nat. read_ok Hi. read_ok Hi.
  match type of Hi with (if negb (?p =? 0) || negb (?f =? 0) then _ else _) _ = _ =>
    destruct (Z.eqb_spec p 0) as [->|]; [|done]; destruct (Z.eqb_spec f 0) as [Hf|]; [|done] end. cbn [negb orb] in Hi.
  asked Hi Hb5 Hd5. asked Hi Hb6 Hd6. asked Hi Hb7 Hd7. checked_ok Hi Hl7. taken_apart Hl7 Hb7 7%nat. read_ok Hi. read_ok Hi.
  match type of Hi with (if (?l =? 0) || (?c =? 0) then _ else _) _ = _ =>
    destruct (Z.eqb_spec l 0) as [|Hlen]; [done|]; destruct (Z.eqb_spec c 0) as [|Hcount]; [done|] end. cbn [orb] in Hi.
  asked Hi Hb8 Hd8. checked_ok Hi Hl8. case_bool_decide as Hzero; [done|]. checked_ok Hi Hcs. rewrite Hscript in Hcs. injection Hcs as <-.
  apply stm_bind_ok in Hi as ([] & io9 & Hall & [= <- <-]). apply complete_all in Hall as (acks & Hacks & Hlast); [|done|done].
  destruct (version_parse _ _ Hb3 Hv) as [-> Hfit]. unfold initialization. cbn [init_version init_local_address acl_packet_length
    acl_packet_count address_le address_kind].
  eexists _, _, _, _, _, _, _, _, acks. rewrite !u16_le_inverse by done. split.
  { apply Hd1, Hd2, Hd3, Hd4, Hd5, Hd6, Hd7, Hd8, Hlast. }
  unfold len in *. split_and!; try done; try lia; try by apply u16_le_range. by eexists.
Qed.

(** The other way round, with fuel for the longest wait. *)
Ltac answer Hd :=
  let io := fresh "io" in let n := fresh "n" in let Hn := fresh "Hn" in
  apply dialogue_complete in Hd as (io & n & Hd & ? & Hn); [|fits|done].

Ltac reply Hn := rewrite ?run_command_complete by fits; erewrite stm_bind_run by (apply Hn; lia).

Lemma dialogue_initialize config i (io io' : T) : session_config_ok config -> io_ok io -> initialization config i io io' ->
  exists n, forall k, (n <= k)%nat -> initialize_controller k config io = (Ok i, io').
Proof.
  intros Hconfig Hio (reset & supported & max_page & features & masked & le_masked & sco & scos & acks & Hd & Hsup & Hv & Hfl & (f & Hf & Hbit)
    & Hul & Hlen & Huc & Hcount & Hsco & Hacks & Hal & Hzero & Hkind).
  destruct (identity_commands_script config (config_ok_fits _ Hconfig)) as [Hscript Hfits].
  cbn [app] in Hd. do 5 answer Hd. unfold le_mask in Hd. do 3 answer Hd. apply all_complete in Hd as (n9 & Hall); [|done|done|done].
  exists (foldr max 0 [n; n0; n1; n2; n3; n4; n5; n6; n9])%nat. cbn [foldr]. intros k Hk. unfold initialize_controller.
  assert (forall l k field, length l = Z.to_nat k -> 0 <= k -> require_len l k field = Ok tt) as Hreq
    by (intros l j field Hl Hj; unfold require_len, len; by rewrite (proj2 (Z.eqb_eq _ _)) by lia).
  reply Hn.
  reply Hn0. rewrite Hreq by done. erewrite stm_bind_run by done.
  reply Hn1. rewrite parse_version_bytes by done. erewrite stm_bind_run by done.
  reply Hn2. sized features Hfl. injection Hf as ->.
  do 3 (erewrite stm_bind_run by done). rewrite Hbit. cbn [negb orb Z.eqb].
  reply Hn3.
  reply Hn4.
  reply Hn5. sized scos Hsco.
  rewrite !to_le_bytes_2. erewrite stm_bind_run by done. cbn [app u16_at idx expect lookup list_lookup mbind res_bind].
  do 2 (erewrite stm_bind_run by done). rewrite !u16_le_roundtrip by done. rewrite !(proj2 (Z.eqb_neq _ _)) by done. cbn [orb].
  reply Hn6. rewrite Hreq by done. erewrite stm_bind_run by done.
  cbn [address_le]. rewrite bool_decide_eq_false_2 by done. rewrite Hscript. erewrite stm_bind_run by done.
  reply Hall. destruct i as [[]]. cbn in *. by subst.
Qed.

(** C6. The controller is initialized exactly by its dialogue: with a
    configuration of the constructor, [initialize_controller] succeeds with some
    amount of fuel if and only if the controller answers the fourteen commands,
    each sent once the one before is complete and whatever unrelated packets
    come in between, and its answers are those of a BR/EDR controller with
    buffers and a public address; the result is read off these answers. *)
Theorem initialization_exact config i (io io' : T) : session_config_ok config -> io_ok io ->
  (exists n, initialize_controller n config io = (Ok i, io')) <-> initialization config i io io'.
Proof.
  intros Hc Hio. split.
  - intros [n Hn]. by eapply initialize_dialogue.
  - intros Hi. destruct (dialogue_initialize _ _ _ _ Hc Hio Hi) as [n Hn]. exists n. by apply Hn.
Qed.
End initialization.
