(* ===== verification/SessionSend.v ===== *)
(** * Reports to the peer ([src/src/session.rs])

    What [send_interrupt] puts on the controller link, and what
    [interrupt_send_capacity_available] promises about it. *)
From S2P Require Import Prelude Hci L2cap Ertm Classic ClassicProps Hidp Values Sdp SdpPdu SdpService Host HostProps.
From S2P Require Import Csr Identity Usb Api HidService Session SessionProps SessionAdmission.

Lemma encode_input_fits self payload : len payload < bridge_interrupt_mtu self ->
  encode_input self payload = Ok (0xA1 :: payload).
Proof.
  intros Hl. unfold encode_input, check_peer_mtu. change (Message_to_bytes (device_data payload)) with (Ok (E := HidpError) (0xA1 :: payload)).
  cbn [map_err mbind res_bind]. rewrite len_cons. by rewrite (proj2 (Z.ltb_ge _ _)) by lia.
Qed.

Section sending.
Context {T W D : Type} `{HciIo T} `{Clock W} `{BondStore D} `{Profile} `{!AcceptingLink T}.
Abbreviation bs := (BackendSession T W D).

(** The link once the packets are sent. *)
Definition after_sending (packets : list AclPacket) (io : T) : T :=
  fold_left (fun io packet => (io_send (Acl packet) io).2) packets io.

Lemma drain_acls packets : forall n (b : bs) io, output (host b) = OutAcl <$> packets -> sess_io b = Some io -> (length packets < n)%nat ->
  drain_loop n b = (Ok tt, set_sess_io (Some (after_sending packets io)) (set_host (set_output [] (host b)) b)).
Proof.
  induction packets as [|p packets IH]; intros [|n] b io Ho Hio Hn; cbn [length] in *; try lia.
  - rewrite drain_nothing by done. destruct b as [? ? ? ? []]; cbn in *. by subst.
  - rewrite (drain_step n (OutAcl p) (OutAcl <$> packets)) by done. unfold mbind, stm_bind. cbn [apply_output]. unfold on_io.
    cbn [sess_io set_host]. rewrite Hio. destruct (link_accepts (Acl p) io) as [io' Hs]. rewrite Hs. cbn [raised map_err].
    rewrite (IH n _ io') by first [done | lia]. cbn [after_sending fold_left]. rewrite Hs. done.
Qed.

(** An active session with an open basic-mode interrupt channel and nothing of
    the host's left to pass on; packets wait only for want of buffers. *)
Record report_ready (b : bs) (io : T) (c : Connection) (cid : Z) (ch : ClassicChannel) : Prop := {
  ready_active : closed b = false /\ terminal b = None;
  ready_io : sess_io b = Some io;
  ready_host : connection (host b) = Some c /\ mgr_outbound (conn_channels c) = [] /\ accepted_channels (conn_channels c) = []
               /\ output (host b) = [];
  ready_flow : flow_ok (acl_flow (host b))
               /\ (queued (acl_flow (host b)) = [] \/ sum_values (in_flight (acl_flow (host b))) = total_packets (acl_flow (host b)));
  ready_handle : 0 <= conn_handle c <= 0xFFF;
  ready_size : 1 <= payload_size (acl_flow (host b)) <= 65535;
  ready_slot : interrupt (protocols b) = Some (mkProtocolChannel cid true);
  ready_channel : channels (conn_channels c) !! cid = Some ch /\ state ch = Open /\ ertm ch = None;
  ready_mtu : bridge_interrupt_mtu (hidp (protocols b)) = ch_peer_mtu ch /\ ch_peer_mtu ch <= 65535
}.

(** The packets of a report. *)
Definition report_packets (b : bs) (c : Connection) (ch : ClassicChannel) (payload : list Z) : list AclPacket :=
  fragments (conn_handle c) (payload_size (acl_flow (host b))) (L2capPdu_to_bytes (mkPdu (destination_cid ch) (0xA1 :: payload)) false).

Lemma report_one_packet (b : bs) c ch payload : 1 <= payload_size (acl_flow (host b)) -> len payload + 5 <= payload_size (acl_flow (host b)) ->
  len (report_packets b c ch payload) = 1.
Proof.
  intros Hs Hl. unfold report_packets, fragments, enumerate. set (pdu := L2capPdu_to_bytes _ _).
  assert (length pdu = (length payload + 5)%nat) as Hp.
  { unfold pdu, L2capPdu_to_bytes. cbn [pdu_cid pdu_payload]. rewrite !length_app, !length_to_le_bytes. cbn [length]. lia. }
  rewrite chunks_step; [|lia|intros Hn; rewrite Hn in Hp; cbn in Hp; lia]. unfold len in *. rewrite drop_ge by lia. done.
Qed.

Lemma capacity_iff (b : bs) io c cid ch : report_ready b io c cid ch ->
  session_capacity_available b = Ok true
  <-> queued (acl_flow (host b)) = [] /\ sum_values (in_flight (acl_flow (host b))) < total_packets (acl_flow (host b)).
Proof.
  intros [[Hcl Ht] _ _ [[Hu Hp Hb] _] _ _ Hslot _ _]. unfold session_capacity_available, interrupt_send_capacity_available.
  rewrite Hcl, Ht, Hslot. cbn [bool_decide open_slot pc_open orb]. rewrite bool_decide_eq_false_2 by (by intros []). cbn [orb].
  destruct (queued (acl_flow (host b))) as [|p ps]; [|by split; [|intros [? _]]].
  rewrite in_flight_total_ok by lia. cbn [mbind res_bind]. destruct (Z.ltb_spec (sum_values (in_flight (acl_flow (host b))))
    (total_packets (acl_flow (host b)))).
  - done.
  - split; [done|]. intros [_ ?]. lia.
Qed.

(** C21. An input report goes out as it should: with the interrupt channel open
    and a payload below the peer's MTU, [send_interrupt] succeeds, the ACL
    packets of the report, an input report header and the payload in one PDU,
    are queued behind those that wait, and the link gets, in order, exactly the
    packets the controller has buffers for. For a report that fits one packet,
    [interrupt_send_capacity_available] says exactly whether it leaves without
    waiting. *)
Theorem input_report_sent fuel payload (b : bs) io c cid ch :
  report_ready b io c cid ch -> len payload < ch_peer_mtu ch ->
  (length (queued (acl_flow (host b))) + length (report_packets b c ch payload) < fuel)%nat ->
  exists sent h', send_interrupt fuel payload b = (Ok tt, set_sess_io (Some (after_sending sent io)) (set_host h' b))
    /\ queued (acl_flow (host b)) ++ report_packets b c ch payload = sent ++ queued (acl_flow h')
    /\ (queued (acl_flow h') = [] \/ sum_values (in_flight (acl_flow h')) = total_packets (acl_flow h')) /\ output h' = []
    /\ (len payload + 5 <= payload_size (acl_flow (host b)) -> session_capacity_available b = Ok true <-> queued (acl_flow h') = []).
Proof.
  intros Hr Hl Hfuel. pose proof Hr as [[Hcl Ht] Hio (Hc & Hout & Hacc & Ho) [Hf Hfull] Hh Hs Hslot (Hch & Hopen & Hbasic) [Hmtu Hmax]].
  destruct (send_sdu_flow (host b) c cid ch (0xA1 :: payload)) as (sent & f' & Hsend & Hf' & Hq & Hend & Htot & Hsum); try done;
    [rewrite len_cons; lia|]. fold (report_packets b c ch payload) in Hq.
  exists sent, (set_acl_flow f' (host b)). split_and!; try done.
  - unfold send_interrupt, ensure_session_active, mbind, stm_bind, get, lift. rewrite Hcl, Ht. unfold skip. rewrite Hslot.
    cbn [open_slot pc_open pc_cid]. rewrite encode_input_fits by (rewrite Hmtu; lia). cbn [sourced raised map_err]. unfold on_host. rewrite Hsend.
    cbn [raised map_err]. unfold drain_host_output. rewrite (drain_acls sent fuel _ io).
    + destruct b as [? ? ? ? []]; cbn in *. by subst.
    + cbn. by rewrite Ho.
    + done.
    + apply (f_equal length) in Hq. rewrite !length_app in Hq. lia.
  - intros Hfits. pose proof (report_one_packet b c ch payload ltac:(lia) Hfits) as Hone. rewrite (capacity_iff b io c cid ch Hr).
    apply (f_equal len) in Hq. rewrite !len_app, Hone in Hq. destruct Hf'. cbn [acl_flow set_acl_flow]. split.
    + intros [Hnil Hlt]. rewrite Hnil in Hq. change (len []) with 0 in Hq. destruct Hend as [|Hend]; [done|]. apply len_zero.
      pose proof (len_nonneg (queued f')). lia.
    + intros Hnil. rewrite Hnil in Hq. change (len []) with 0 in Hq. pose proof (len_nonneg (queued (acl_flow (host b)))).
      destruct Hfull as [Hfull|Hfull]; [split; [done|lia]|lia].
Qed.
End sending.
