(* ===== verification/SessionLimits.v ===== *)
(** * What the controller is sent ([src/src/session.rs], [src/src/classic_host.rs])

    A link that keeps a log, and the limits of the controller that every packet
    in the log respects, from the first command of the initialization on. *)
From S2P Require Import Prelude Hci L2cap Ertm Classic ClassicProps Hidp Values Sdp SdpPdu SdpService Host HostProps.
From S2P Require Import Csr Identity Usb Api HidService Session SessionProps.

(** ** The host's output *)

(** ACL data of [size] bytes at most, not empty, for a handle the field of the
    packet has room for. *)
Definition acl_within (size : Z) (p : AclPacket) : Prop :=
  connection_handle p <= ACL_HANDLE_MASK /\ 1 <= len (acl_data p) <= size.

Definition output_within (size : Z) (o : HostOutput) : Prop :=
  match o with
  | OutCommand c => len (cmd_parameters c) <= 255
  | OutAcl p => acl_within size p
  | OutEvent _ => True
  end.

Definition outputs_fit {S} (size : Z) (h : ClassicHost S) : Prop :=
  payload_size (acl_flow h) = size /\ Forall (output_within size) (output h) /\ Forall (acl_within size) (queued (acl_flow h)).

Lemma fragments_within handle bc size pdu fl packets : 0 <= size -> fragment_l2cap_pdu handle bc size pdu fl = Ok packets ->
  Forall (acl_within size) packets.
Proof.
  intros Hs. unfold fragment_l2cap_pdu. destruct (Z.eqb_spec size 0) as [|Hn]; [done|]. destruct (len pdu <? 4); [done|]. cbn [orb].
  intros Hf. apply bind_ok in Hf as (b0 & _ & Hf). apply bind_ok in Hf as (b1 & _ & Hf). destruct (negb _); [done|].
  apply collect_Ok in Hf. pose proof (chunks_bounded (Z.to_nat size) pdu ltac:(lia)) as Hb.
  apply Forall_forall. intros p Hp. apply (list_elem_of_fmap_2 (Ok (E := CodecError))) in Hp. rewrite <- Hf in Hp.
  apply list_elem_of_fmap in Hp as ([i d] & Hp & Hin). symmetry in Hp. apply list_elem_of_lookup_1 in Hin as [j Hj].
  unfold enumerate in Hj. rewrite list_lookup_imap in Hj. apply fmap_Some in Hj as (d' & Hd & [= -> <-]).
  eapply Forall_lookup_1 in Hb; [|exact Hd]. unfold AclPacket_new in Hp. destruct (Z.ltb_spec ACL_HANDLE_MASK handle); [done|].
  repeat (case_match; try done). injection Hp as <-. split; cbn; [lia|]. unfold len. lia.
Qed.

Section fitting.
Context {S : Type} `{B : BondStore S} `{P : Profile} (size : Z).
Abbreviation fitting m := (preserves (S := ClassicHost S) (E := HostError) (outputs_fit size) m).

Lemma fitting_modify (f : ClassicHost S -> ClassicHost S) :
  (forall h, acl_flow (f h) = acl_flow h /\ output (f h) = output h) -> fitting (modify f).
Proof. intros Hf h Hh. destruct (Hf h) as [H1 H2]. unfold outputs_fit. cbn. by rewrite H1, H2. Qed.

Lemma fitting_push o : output_within size o -> fitting (push_output o).
Proof. intros Ho h (Hs & Hout & Hq). split_and!; [done| |done]. cbn. apply Forall_app. split; [done|by constructor]. Qed.

Lemma fitting_command op ps : fitting (queue_command op ps).
Proof.
  intros h Hh. unfold queue_command, CommandPacket_new, validate_u8_length, mbind, stm_bind, lift.
  destruct (Z.leb_spec (len ps) 255); [|done]. by apply fitting_push.
Qed.

Lemma fitting_on_channels {A} missing (m : stm ChannelManager L2capError A) : fitting (on_channels missing m).
Proof. intros h Hh. unfold on_channels. by destruct (connection h) as [c|]; [destruct (m (conn_channels c))|]. Qed.

Lemma flush_queue_fits total waiting : forall m out waiting' m' out', flush_queue total waiting m out = Ok (waiting', m', out') ->
  Forall (acl_within size) waiting -> Forall (output_within size) out -> Forall (acl_within size) waiting' /\ Forall (output_within size) out'.
Proof.
  induction waiting as [|p waiting IH]; intros m out waiting' m' out' Hf Hw Ho; cbn [flush_queue] in Hf;
    apply bind_ok in Hf as (used & _ & Hf); destruct (used <? total); try by injection Hf as <- <- <-.
  apply bind_ok in Hf as (n & _ & Hf). apply Forall_cons in Hw as [Hp Hw]. eapply IH; [exact Hf|done|]. apply Forall_app.
  split; [done|by constructor].
Qed.

Lemma fitting_flush_flow : fitting flush_flow.
Proof.
  intros h (Hs & Ho & Hq). unfold flush_flow, AclFlow_flush.
  destruct (flush_queue _ _ _ _) as [[[waiting m] out]|e|] eqn:Hf; cbn; [|by split_and!|by split_and!].
  destruct (flush_queue_fits _ _ _ _ _ _ _ Hf Hq Ho). by split_and!.
Qed.

Lemma fitting_enqueue handle pdu : 0 <= size -> fitting (enqueue_pdu handle pdu).
Proof.
  intros Hsize h (Hs & Ho & Hq). unfold enqueue_pdu, mbind, stm_bind, get, lift. rewrite Hs.
  destruct (fragment_l2cap_pdu _ _ _ _ _) as [packets|e|] eqn:Hf; cbn; [|by split_and!|by split_and!].
  split_and!; [done|done|]. cbn. apply Forall_app. split; [done|]. by eapply fragments_within.
Qed.

Lemma fitting_feed p : fitting (feed_assembler p).
Proof. intros h Hh. unfold feed_assembler. by destruct (AclAssembler_feed _ _). Qed.

Context (Hsize : 0 <= size).
Create HintDb fit_db.
#[local] Hint Resolve preserves_ret preserves_lift preserves_throw preserves_skip fitting_command fitting_on_channels
  fitting_flush_flow fitting_enqueue fitting_feed : fit_db.

(** Walks down a computation of the host. *)
Ltac fitting :=
  walk_preserves (apply fitting_modify; intros; done) with (first [by apply fitting_push | eauto 2 with fit_db]).

Lemma fitting_flush_channels : fitting flush_channels.
Proof. unfold flush_channels, connection_handle_of. fitting. Qed.
#[local] Hint Resolve fitting_flush_channels : fit_db.

Lemma fitting_complete handle completed : fitting (host_handle_event (NumberOfCompletedPackets handle completed)).
Proof.
  intros h Hh. cbn [host_handle_event]. unfold mbind, stm_bind, get, lift. unfold AclFlow_complete.
  destruct (_ <? completed); [done|]. apply fitting_flush_flow. by destruct Hh as (? & ? & ?).
Qed.

Lemma fitting_disconnection handle reason : fitting (on_disconnection_complete handle reason).
Proof.
  unfold on_disconnection_complete. apply preserves_bind; [unfold connection_mut, ensure_handle, connection_handle_of; fitting|intros c].
  apply preserves_bind; [|intros _; apply preserves_bind; [fitting|intros _; apply preserves_bind; [|intros _; fitting]]].
  - intros h (Hs & Ho & Hq). split_and!; [done|done|]. cbn. apply Forall_forall. intros p Hp%list_elem_of_In%filter_In%proj1%list_elem_of_In.
    rewrite Forall_forall in Hq. auto.
  - intros h (Hs & Ho & Hq). split_and!; [done| |done]. cbn. apply Forall_forall. intros p Hp%list_elem_of_In%filter_In%proj1%list_elem_of_In.
    rewrite Forall_forall in Ho. auto.
Qed.

Lemma fitting_store (f : S -> res BondStoreError unit * S) :
  fitting (fun h => let '(r, s) := f (bonds h) in (map_err HostBondStore r, set_bonds s h)).
Proof. intros h Hh. by destruct (f (bonds h)). Qed.

Lemma fitting_call c (h : ClassicHost S) : outputs_fit size h -> outputs_fit size (run_host_call c h).
Proof.
  intros Hh. destruct c as [e|p|cid sdu|psm spec|psm spec|cid|]; cbn [run_host_call].
  - enough (fitting (host_handle_event e)) as He by by apply He.
    destruct e; try apply fitting_complete; cbn [host_handle_event];
      unfold on_connection_complete, on_link_key_request, connection_mut, ensure_handle, connection_handle_of;
      try (apply fitting_disconnection); fitting.
    unfold on_link_key_notification. apply preserves_bind; [apply (fitting_store (bond_upsert _ _))|]. fitting.
  - by apply (ltac:(unfold process_acl, connection_handle_of; fitting) : fitting (process_acl p)).
  - by apply (ltac:(unfold send_channel_sdu; fitting) : fitting (send_channel_sdu cid sdu)).
  - by apply (ltac:(unfold connect_channel; fitting) : fitting (connect_channel psm spec)).
  - by apply (ltac:(unfold host_register_server; fitting) : fitting (host_register_server psm spec)).
  - unfold take_channel_sdu. by repeat case_match.
  - pose proof Hh as (Hs & Ho & Hq). unfold pop_output. destruct (output h) as [|o rest]; [done|]. apply Forall_cons in Ho as [_ Ho]. by split_and!.
Qed.

Lemma fitting_calls cs : forall h : ClassicHost S, outputs_fit size h -> outputs_fit size (run_host_calls cs h).
Proof. induction cs as [|c cs IH]; intros h Hh; [done|]. by apply IH, fitting_call. Qed.
End fitting.

(** ** A link with a log *)

(** Any link, with the packets it was asked to send. *)
Record LoggedIo (T : Type) : Type := mkLogged { inner : T; log : list Packet }.
Arguments mkLogged {T} inner log.
Arguments inner {T} l.
Arguments log {T} l.

Section logged.
Context {T : Type} `{HciIo T}.

Definition on_inner {A} (m : stm T SErr A) : stm (LoggedIo T) SErr A := fun l =>
  let '(r, io) := m (inner l) in (r, mkLogged io (log l)).

#[global] Instance LoggedIo_io : HciIo (LoggedIo T) := {
  io_send packet := fun l => let '(r, io) := io_send packet (inner l) in (r, mkLogged io (log l ++ [packet]));
  io_recv_timeout timeout := on_inner (io_recv_timeout timeout);
  io_metadata l := io_metadata (inner l);
  io_close := on_inner io_close
}.

(** What the controller may be sent: commands whose parameters fit their length
    byte, and ACL packets within its buffers. *)
Definition packet_within (size : Z) (packet : Packet) : Prop :=
  match packet with
  | Command c => len (cmd_parameters c) <= 255
  | Acl p => acl_within size p
  | Hci.Event _ => False
  end.

Context `{!HciIoLaws T} (size : Z).

(** The link is in a state its laws speak of, and its log within the limits. *)
Definition log_ok (l : LoggedIo T) : Prop := io_ok (inner l) /\ Forall (packet_within size) (log l).

Lemma log_send packet l : packet_within size packet -> log_ok l -> log_ok (io_send packet l).2.
Proof.
  intros Hp [Hio Hl]. cbn. pose proof (io_ok_send packet (inner l) Hio) as Hio'. destruct (io_send packet (inner l)) as [r io'].
  split; [done|]. cbn. apply Forall_app. split; [done|by constructor].
Qed.

Lemma log_recv timeout l : log_ok l -> log_ok (io_recv_timeout timeout l).2
  /\ match (io_recv_timeout timeout l).1 with Ok (Some packet) => packet_bytes packet | _ => True end.
Proof.
  intros [Hio Hl]. destruct (recv_ok_bytes timeout (inner l) Hio) as [Hio' Hp]. cbn. unfold on_inner.
  by destruct (io_recv_timeout timeout (inner l)) as [r io'].
Qed.
End logged.

Section limits.
Context {T W D : Type} `{HciIo T} `{!HciIoLaws T} `{Clock W} `{BondStore D} `{Profile}.
Context (fuel : nat) (size : Z) (Hsize : 0 <= size).
Abbreviation bs := (BackendSession (LoggedIo T) W D).

(** A session whose log is within the limits, and whose host will keep to them. *)
Definition limited (b : bs) : Prop :=
  outputs_fit size (host b) /\ (length (pending_events b) <= EVENT_QUEUE_CAPACITY)%nat
  /\ if closed b then sess_io b = None else exists l, sess_io b = Some l /\ log_ok size l.

Lemma limited_output (h0 : ClassicHost D) : outputs_fit size h0 ->
  forall cs o, Forall (fun _ => True) cs -> o ∈ output (run_host_calls cs h0) -> sendable (log_ok (T := T) size) o.
Proof.
  intros Hh cs o _ Ho. destruct (fitting_calls size Hsize cs h0 Hh) as (_ & Hout & _). rewrite Forall_forall in Hout. specialize (Hout o Ho).
  destruct o; cbn in *; [| |done]; intros io; by apply log_send.
Qed.

Lemma limited_call c (b : bs) : limited b -> limited (session_call_result fuel c b).2.
Proof.
  intros (Hh & Hq & Hio). destruct (closed b) eqn:Hc; [rewrite closed_call by done; unfold limited; cbn [snd]; by rewrite Hc|].
  destruct (decide (c = CallClose)) as [->|Hne].
  - destruct (close_shape b Hc) as (Hhost & Hclosed & Hnone & Hev & _). cbn [session_call_result]. unfold limited.
    rewrite Hhost, Hclosed, Hev. split_and!; [done|cbn; lia|done].
  - assert (driven (fun _ => True) (log_ok size) (host b) (session_call_result fuel c b).2) as ((cs & Hcs & Hrun) & Hq' & Hc' & Hio').
    { apply drives_call; try done; [intros; by apply log_send|by apply limited_output| |by apply driven_refl].
      intros timeout l Hl. destruct (log_recv size timeout l Hl) as [Hl' _]. split; [done|].
      destruct (io_recv_timeout timeout l).1 as [[[]|]| |]; try done. intros es _. by apply Forall_true. }
    unfold limited. rewrite Hrun, Hc'. split_and!; [by apply fitting_calls|done|done].
Qed.

Lemma limited_calls cs : forall b : bs, limited b -> limited (run_session_calls fuel cs b).
Proof. induction cs as [|c cs IH]; intros b Hb; [done|]. by apply IH, limited_call. Qed.
End limits.

(** C7. The controller's limits are respected: as long as a session has its
    link, from the first command of its initialization, through any calls of the
    application and whatever the controller sends, everything put on the link is
    a command whose parameters fit its length byte or an ACL packet with a
    12-bit handle and at least one and at most as many bytes as the controller
    said its buffers hold, which is at least one. *)
Theorem controller_limits_respected {T W D} `{HciIo T} `{!HciIoLaws T} `{Clock W} `{BondStore D} `{Profile}
  fuel config (store : D) (clock : W) (io : T) b cs : io_ok io ->
  BackendSession_initialize fuel config store clock (mkLogged io []) = Ok b ->
  exists i l0, initialize_controller fuel config (mkLogged io []) = (Ok i, l0) /\ 1 <= acl_packet_length i
    /\ forall l, sess_io (run_session_calls fuel cs b) = Some l -> Forall (packet_within (acl_packet_length i)) (log l).
Proof.
  intros Hio Hb. unfold BackendSession_initialize in Hb.
  assert (forall size, log_ok size (mkLogged io [])) as Hstart by (intros; by split).
  pose proof (fun size => initialize_counts (log_ok size) (fun op ps l Hl => log_send size (Command (mkCommand op ps)) l Hl)
    (log_recv size) fuel config (mkLogged io []) (Hstart size)) as Hinit.
  destruct (initialize_controller fuel config (mkLogged io [])) as [[i|e|] l0]; cbn [mbind res_bind fst snd] in *; try done.
  exists i, l0. destruct (Hinit 0) as (_ & _ & Hlen). split_and!; [done|done|]. destruct (Hinit (acl_packet_length i)) as [Hl0 _].
  destruct (select_local_address _ store) as [[[]|e|] store']; cbn [mbind res_bind raised sourced map_err] in Hb; try done.
  destruct (for_each _ _ _) as [r h] eqn:Hreg. destruct r as [[]|e|]; cbn in Hb; try done. injection Hb as <-.
  assert (outputs_fit (acl_packet_length i) h) as Hh.
  { assert (preserves (outputs_fit (S := D) (acl_packet_length i)) (for_each (fun psm => host_register_server psm (mkClassicSpec CLASSIC_SERVER_MTU))
      [HID_SDP_PSM; HID_CONTROL_PSM; HID_INTERRUPT_PSM])) as Hkeep.
    { apply preserves_for_each. intros psm h'. apply (fitting_call (acl_packet_length i) ltac:(lia) (HRegister psm (mkClassicSpec
      CLASSIC_SERVER_MTU))). }
    specialize (Hkeep (ClassicHost_new store' (acl_packet_length i) (acl_packet_count i))). rewrite Hreg in Hkeep. by apply Hkeep. }
  intros l Hl. match type of Hl with sess_io (run_session_calls fuel cs ?b0) = _ =>
    destruct (limited_calls fuel (acl_packet_length i) ltac:(lia) cs b0) as (_ & _ & Hend); [split_and!; cbn; [done|lia|eauto]|] end.
  destruct (closed _); [congruence|]. destruct Hend as (l' & Hl' & _ & Hlog). congruence.
Qed.
