(* ===== verification/SessionView.v ===== *)
(** * What the application sees of a session ([src/src/session.rs])

    An abstract machine with the connection window and the two HID channels,
    whose steps queue the events the application is told; every session is an
    implementation of it. *)
From S2P Require Import Prelude Hci L2cap Ertm Classic ClassicProps Hidp Values Sdp SdpPdu SdpService Host HostProps.
From S2P Require Import Csr Identity Usb Api HidService Session SessionProps.

(** ** The abstract machine *)

Record View : Type := mkView { v_window : ConnectionWindow; v_control : bool; v_interrupt : bool }.

Definition v_open (channel : Channel) (v : View) : bool :=
  match channel with Control => v_control v | Interrupt => v_interrupt v end.

Definition opening (channel : Channel) (v : View) : View :=
  match channel with
  | Control => mkView (v_window v) true (v_interrupt v)
  | Interrupt => mkView (v_window v) (v_control v) true
  end.

(** What a packet may bring about, with the events queued. The end of the
    connection closes the channels, but a failed attempt does not; a link error
    can break a connection off before it is announced. *)
Inductive view_step : View -> list Api.Event -> View -> Prop :=
| VLatched peer c i : view_step (mkView (Pairing None) c i) [] (mkView (Pairing (Some peer)) c i)
| VConnected v peer : view_step v [EvConnected peer] (mkView WindowConnected false false)
| VBroken v : view_step v [] (mkView WindowConnected false false)
| VDisconnected v reason : view_step v [EvDisconnected (Some reason)] (mkView Idle false false)
| VFailed w c i status : view_step (mkView w c i) [EvDisconnected (Some status)] (mkView Idle c i)
| VOpened channel v : v_open channel v = false -> view_step v [EvChannelOpened channel] (opening channel v)
| VOutput channel payload v : v_open channel v = true -> view_step v [EvHidOutput channel payload] v.

Inductive view_run : View -> list Api.Event -> View -> Prop :=
| VStop v : view_run v [] v
| VThen v1 es1 v2 es2 v3 : view_run v1 es1 v2 -> view_step v2 es2 v3 -> view_run v1 (es1 ++ es2) v3.

(** What a call of the application may bring about. *)
Inductive app_step : View -> session_call -> list Api.Event -> View -> Prop :=
| ARefused v c : app_step v c [] v
| AStartPairing c i : app_step (mkView Idle c i) CallStartPairing [] (mkView (Pairing None) c i)
| AStartReconnect peer c i : app_step (mkView Idle c i) CallStartReconnect [] (mkView (Reconnecting peer) c i)
| ADisconnect v w : w = v_window v \/ w = Idle -> app_step v CallDisconnect [] (mkView w false false)
| AClose v : app_step v CallClose [] (mkView Idle false false)
| APoll timeout v es v' : view_run v es v' -> app_step v (CallPoll timeout) es v'
| ASend payload v es v' : view_run v es v' -> app_step v (CallSendInterrupt payload) es v'
| ADrain timeout v es v' : view_run v es v' -> app_step v (CallDrainInterrupt timeout) es v'.

Inductive app_run : View -> list session_call -> list Api.Event -> View -> Prop :=
| AStop v : app_run v [] [] v
| AThen v1 cs es1 v2 c es2 v3 : app_run v1 cs es1 v2 -> app_step v2 c es2 v3 -> app_run v1 (cs ++ [c]) (es1 ++ es2) v3.

(** The channels announced since the last connection was, and the events that
    may come then. *)
Definition told (s : bool * bool) (e : Api.Event) : bool * bool :=
  match e with
  | EvConnected _ => (false, false)
  | EvChannelOpened Control => (true, s.2)
  | EvChannelOpened Interrupt => (s.1, true)
  | EvHidOutput _ _ | EvDisconnected _ => s
  end.

Definition may_tell (s : bool * bool) (e : Api.Event) : bool :=
  match e with
  | EvHidOutput Control _ => s.1
  | EvHidOutput Interrupt _ => s.2
  | _ => true
  end.

(** Reports are only told of channels announced since the connection was. *)
Fixpoint well_announced (s : bool * bool) (es : list Api.Event) : bool :=
  match es with
  | [] => true
  | e :: es => may_tell s e && well_announced (told s e) es
  end.

Lemma well_announced_app es es' : forall s, well_announced s (es ++ es') = well_announced s es && well_announced (fold_left told es s) es'.
Proof. induction es as [|e es IH]; intros s; [done|]. cbn. by rewrite IH, andb_assoc. Qed.

Definition covers (s : bool * bool) (v : View) : Prop := (v_control v = true -> s.1 = true) /\ (v_interrupt v = true -> s.2 = true).

Lemma step_announced v es v' s : view_step v es v' -> covers s v -> well_announced s es = true /\ covers (fold_left told es s) v'.
Proof.
  intros Hs [Hc Hi]. destruct Hs as [| | | | |[] v _|[] payload v Ho]; cbn in *; rewrite ?andb_true_r; split; try split; auto; done.
Qed.

Lemma run_announced v es v' s : view_run v es v' -> covers s v -> well_announced s es = true /\ covers (fold_left told es s) v'.
Proof.
  intros Hr Hv. induction Hr as [|v1 es1 v2 es2 v3 _ IH Hs]; [done|]. destruct (IH Hv) as [H1 H2].
  rewrite well_announced_app, fold_left_app, H1. by eapply step_announced.
Qed.

Lemma app_announced v cs es v' s : app_run v cs es v' -> covers s v -> well_announced s es = true /\ covers (fold_left told es s) v'.
Proof.
  intros Hr Hv. induction Hr as [|v1 cs es1 v2 c es2 v3 _ IH Hs]; [done|]. destruct (IH Hv) as [H1 [H2 H3]].
  rewrite well_announced_app, fold_left_app, H1. destruct Hs; try (by eapply run_announced); done.
Qed.

Lemma run_one v es v' : view_step v es v' -> view_run v es v'.
Proof. intros Hs. apply (VThen v [] v es v'); [constructor|done]. Qed.

Lemma run_app v1 es1 v2 es2 v3 : view_run v1 es1 v2 -> view_run v2 es2 v3 -> view_run v1 (es1 ++ es2) v3.
Proof.
  intros H1 H2. induction H2 as [|v2 esa va esb vb H2 IH Hs]; [by rewrite app_nil_r|].
  rewrite app_assoc. by eapply VThen; [apply IH|].
Qed.

(** ** Sessions follow it *)

Create HintDb view_db.

Section following.
Context {T W D : Type} `{HciIo T} `{Clock W} `{BondStore D} `{Profile}.
Abbreviation bs := (BackendSession T W D).
Abbreviation sess := (stm bs Stop).

Definition slot_open (slot : option ProtocolChannel) : bool := match slot with Some c => pc_open c | None => false end.

Definition view_of (b : bs) : View :=
  mkView (window b) (slot_open (control (protocols b))) (slot_open (interrupt (protocols b))).

(** What the machine speaks of. *)
Definition seen (b : bs) : View * list Api.Event * option SErr * bool := (view_of b, pending_events b, terminal b, closed b).

(** From [b] to [b'] the machine makes steps whose events are queued, as long as
    no error is recorded; from then on none is. *)
Definition follows (b b' : bs) : Prop :=
  exists es queued, view_run (view_of b) es (view_of b') /\ pending_events b' = pending_events b ++ queued /\ closed b' = closed b
    /\ match terminal b with
       | None => queued `prefix_of` es /\ (terminal b' = None -> queued = es)
       | Some _ => queued = [] /\ terminal b' <> None
       end.

Lemma follows_refl b : follows b b.
Proof. exists [], []. rewrite app_nil_r. split_and!; [constructor|done|done|]. by destruct (terminal b). Qed.

Lemma follows_trans b1 b2 b3 : follows b1 b2 -> follows b2 b3 -> follows b1 b3.
Proof.
  intros (es1 & q1 & Hr1 & Hp1 & Hc1 & Ht1) (es2 & q2 & Hr2 & Hp2 & Hc2 & Ht2). exists (es1 ++ es2), (q1 ++ q2).
  split_and!; [by eapply run_app|by rewrite Hp2, Hp1, app_assoc|congruence|].
  destruct (terminal b1), (terminal b2); destruct Ht1 as [Hq1 Hx1], Ht2 as [Hq2 Hx2]; try done; subst.
  - by split.
  - split; [|done]. rewrite app_nil_r. by apply prefix_app_r.
  - rewrite Hx1 by done. split; [by apply prefix_app|]. intros Hn. by rewrite Hx2.
Qed.

Lemma follows_seen b0 b b' : seen b' = seen b -> follows b0 b -> follows b0 b'.
Proof. intros [= Hv Hv1 Hv2 Hp Ht Hc] Hf. unfold follows in *. unfold view_of at 2. by rewrite Hv, Hv1, Hv2, Hp, Ht, Hc. Qed.

(** A step whose event is queued last. *)
Lemma follows_event e (b0 b b' : bs) : view_step (view_of b) [e] (view_of b') ->
  pending_events b' = pending_events b -> terminal b' = terminal b -> closed b' = closed b ->
  follows b0 b -> follows b0 (enqueue_event e b').2.
Proof.
  intros Hs Hp Ht Hc Hf. eapply follows_trans; [exact Hf|]. unfold enqueue_event, modify. cbn. rewrite Ht.
  destruct (terminal b) as [error|] eqn:Htb.
  - exists [e], []. rewrite app_nil_r, Htb, Ht. split_and!; try done. by apply run_one.
  - case_match.
    + exists [e], []. rewrite app_nil_r, Htb. split_and!; try done; [by apply run_one|apply prefix_nil].
    + exists [e], [e]. rewrite Htb. cbn. rewrite Hp. split_and!; try done. by apply run_one.
Qed.

Lemma follows_step b0 b b' : view_step (view_of b) [] (view_of b') -> pending_events b' = pending_events b ->
  terminal b' = terminal b -> closed b' = closed b -> follows b0 b -> follows b0 b'.
Proof.
  intros Hs Hp Ht Hc Hf. eapply follows_trans; [exact Hf|]. exists [], []. rewrite app_nil_r, Ht.
  split_and!; try done; [by apply run_one|]. by destruct (terminal b).
Qed.

(** Computations the machine does not see. *)
Definition unseen {A} (m : sess A) : Prop := forall x, preserves (fun b => seen b = x) m.

Lemma unseen_tracks {A} b0 (m : sess A) : unseen m -> preserves (follows b0) m.
Proof. intros Hm b Hb. eapply follows_seen, Hb. by apply (Hm (seen b)). Qed.

Lemma unseen_modify (f : bs -> bs) : (forall b, seen (f b) = seen b) -> unseen (modify f).
Proof. intros Hf x b Hb. cbn. by rewrite Hf. Qed.

Lemma unseen_io {A} (m : stm T SErr A) : unseen (on_io m).
Proof. intros x b Hb. unfold on_io, raise, throw. destruct (sess_io b) as [io|]; [|done]. by destruct (m io). Qed.

Lemma unseen_host {A} wrap (m : stm (ClassicHost D) HostError A) : unseen (on_host wrap m).
Proof. intros x b Hb. unfold on_host. by destruct (m (host b)). Qed.

Lemma unseen_command op ps : unseen (session_command op ps).
Proof.
  intros x b Hb. unfold session_command, mbind, stm_bind, lift. destruct (raised _) as [c|e|]; [|done|done]. by apply unseen_io.
Qed.

Lemma unseen_inquiry : unseen write_inquiry_response.
Proof. intros x. unfold write_inquiry_response. apply preserves_get. intros b0 _. apply unseen_command. Qed.

Lemma unseen_scan d c : unseen (set_scan d c).
Proof. apply unseen_command. Qed.

Lemma unseen_ensure : unseen ensure_session_active.
Proof. intros x. unfold ensure_session_active. apply preserves_get. intros b0 _. repeat case_match;
  first [apply preserves_throw|apply preserves_skip]. Qed.

Lemma unseen_pop : unseen pop_host_output.
Proof. intros x b Hb. unfold pop_host_output. by destruct (pop_output (host b)). Qed.

Lemma unseen_take cid : unseen (take_sdu cid).
Proof. intros x b Hb. unfold take_sdu. by destruct (take_channel_sdu cid (host b)). Qed.

Lemma unseen_answer cid request : unseen (answer_sdp cid request).
Proof. intros x b Hb. unfold answer_sdp. destruct (sdp (protocols b) !! cid) as [ch|]; [|done]. by destruct (handle_sdu request ch). Qed.

Lemma unseen_bridge channel sdu : unseen (bridge_sdu channel sdu).
Proof. intros x b Hb. unfold bridge_sdu. by destruct (bridge_handle _ _ _). Qed.

Lemma unseen_clock : unseen read_clock.
Proof. intros x b Hb. unfold read_clock. by destruct (clock_read _). Qed.

#[local] Hint Resolve unseen_io unseen_host unseen_command unseen_inquiry unseen_scan unseen_ensure unseen_pop unseen_take unseen_answer
  unseen_bridge unseen_clock : view_db.

Context (fuel : nat) (b0 : bs).
Abbreviation tracks m := (preserves (E := Stop) (follows b0) m).

#[local] Hint Resolve preserves_ret preserves_lift preserves_throw preserves_skip : view_db.
#[local] Hint Extern 2 (tracks _) => apply unseen_tracks : view_db.

Ltac tracking :=
  walk_preserves (first [apply unseen_tracks, unseen_modify; intros; done | solve [eauto 2 with view_db]]) with (eauto 3 with view_db).

Lemma tracks_raise {A} kind : tracks (raise (A := A) kind).
Proof. apply preserves_throw. Qed.
Lemma tracks_raise_error {A} e : tracks (raise_error (A := A) e).
Proof. apply preserves_throw. Qed.
#[local] Hint Resolve tracks_raise tracks_raise_error : view_db.

Lemma tracks_terminal {A} e : tracks (record_terminal (A := A) e).
Proof.
  intros b (es & q & Hr & Hp & Hc & Ht). exists es, q. split_and!; try done. destruct (terminal b0); destruct Ht; done.
Qed.

(** The three commands that end a window either all go out, or end the call. *)
Lemma scan_off {A} (k : sess A) b : exists b1, seen b1 = seen b
  /\ ((write_inquiry_response ;; set_scan false true ;; set_scan false false ;; k) b = k b1
     \/ exists r, (write_inquiry_response ;; set_scan false true ;; set_scan false false ;; k) b = (r, b1) /\ forall a, r <> Ok a).
Proof.
  unfold mbind, stm_bind. pose proof (unseen_inquiry (seen b) b eq_refl) as Hq.
  destruct (write_inquiry_response b) as [[[]|e|] b1]; cbn [snd] in *; [|by exists b1; eauto..].
  apply (unseen_scan false true) in Hq. destruct (set_scan false true b1) as [[[]|e|] b2]; cbn [snd] in *; [|by exists b2; eauto..].
  apply (unseen_scan false false) in Hq. destruct (set_scan false false b2) as [[[]|e|] b3]; cbn [snd] in *; by exists b3; eauto.
Qed.

Lemma tracks_connected peer handle : tracks (apply_output (OutEvent (Connected peer handle))).
Proof.
  intros b Hb. cbn [apply_output]. unfold mbind at 1 2 3, stm_bind at 1 2 3, modify at 1 2 3. cbv beta iota.
  set (b1 := set_protocols _ _). assert (seen b1 = (mkView WindowConnected false false, pending_events b, terminal b, closed b)) as Hs by done.
  destruct (scan_off (enqueue_event (EvConnected peer)) b1) as (b2 & Hq & [->|(r & -> & _)]); rewrite Hs in Hq;
    injection Hq as Hw Hc Hi Hp Ht Hcl.
  - apply (follows_event _ b0 b); try done. unfold view_of at 2. rewrite Hw, Hc, Hi. apply VConnected.
  - apply (follows_step b0 b b2); try done. unfold view_of at 2. rewrite Hw, Hc, Hi. apply VBroken.
Qed.

(** A slot that is not open is filled, or is opened and announced. *)
Definition set_slot (channel : Channel) : option ProtocolChannel -> ProtocolState -> ProtocolState :=
  match channel with Control => set_control | Interrupt => set_interrupt end.

Lemma tracks_pending channel psm b : v_open channel (view_of b) = false -> follows b0 b ->
  follows b0 ((cid ← open_outgoing psm; modify_protocols (set_slot channel (Some (mkProtocolChannel cid false)))) b).2.
Proof.
  intros Ho Hb. unfold open_outgoing, mbind, stm_bind, on_host. destruct (connect_channel _ _ (host b)) as [[cid|e|] h];
    [|by eapply follows_seen, Hb..].
  eapply follows_seen, Hb. unfold seen, view_of in *. destruct channel; cbn in *; by rewrite Ho.
Qed.

Lemma tracks_announced channel cid mtu b : v_open channel (view_of b) = false -> follows b0 b ->
  follows b0 ((modify_protocols (set_slot channel (Some (mkProtocolChannel cid true))) ;;
    modify_protocols (fun p => set_hidp (set_peer_mtu channel mtu (hidp p)) p) ;; enqueue_event (EvChannelOpened channel)) b).2.
Proof.
  intros Ho Hb. unfold mbind, stm_bind, modify_protocols, modify at 1 2. cbv beta iota.
  apply (follows_event _ b0 b); try done. apply VOpened in Ho. by destruct channel.
Qed.

Lemma tracks_opened psm cid : tracks (on_channel_opened psm cid).
Proof.
  unfold on_channel_opened. intros b Hb. unfold mbind at 1 2, stm_bind at 1 2, get at 1, lift at 1.
  destruct (ok_or _ _) as [[[actual mtu] opened]|e|]; [|done|done]. destruct (_ || _); [done|].
  assert (forall channel slot, slot = (match channel with Control => control | Interrupt => interrupt end) (protocols b) ->
    first_open slot cid = true -> v_open channel (view_of b) = false) as Hfirst.
  { intros channel slot -> Hf. unfold first_open in Hf. destruct channel; cbn; case_match; try done; cbn; by destruct (pc_open _), (_ =? _). }
  destruct (psm =? HID_SDP_PSM); [|destruct (psm =? HID_CONTROL_PSM)]; [| |destruct (psm =? HID_INTERRUPT_PSM); [|done]].
  - eapply follows_seen, Hb. unfold modify_protocols, modify. cbn. by destruct (sdp (protocols b) !! cid).
  - set (first := if first_open _ _ then _ else _). assert (follows b0 (first b).2) as Hf.
    { unfold first. destruct (first_open _ _) eqn:Hopen; [|done]. by apply (tracks_announced Control), Hb; eapply Hfirst. }
    unfold mbind at 1, stm_bind at 1. destruct (first b) as [[[]|e|] b1]; [|done|done]. cbn [snd] in Hf. clear first Hfirst Hb.
    unfold mbind at 1, stm_bind at 1, get. destruct (active_reconnect b1); [|done]. cbn [andb]. case_bool_decide as Hi; [|done].
    apply (tracks_pending Interrupt); [|done]. cbn. by rewrite Hi.
  - destruct (first_open _ _) eqn:Hopen; [|done]. by apply (tracks_announced Interrupt), Hb; eapply Hfirst.
Qed.
#[local] Hint Resolve tracks_opened tracks_terminal : view_db.

Lemma tracks_reconnect_control : tracks start_active_reconnect_control.
Proof.
  intros b Hb. unfold start_active_reconnect_control. unfold mbind at 1, stm_bind at 1, get. destruct (active_reconnect b); [|done].
  cbn [negb orb]. case_bool_decide as Hs; [done|]. apply (tracks_pending Control); [|done]. cbn.
  destruct (control (protocols b)) eqn:Hc; [|done]. exfalso. by apply Hs.
Qed.

Lemma tracks_output o : tracks (apply_output o).
Proof.
  destruct o as [c|p|[peer handle|peer|peer|psm cid|peer reason]]; cbn [apply_output];
    [tracking|tracking|apply tracks_connected|tracking| |tracking|].
  - apply tracks_reconnect_control.
  - intros b Hb. unfold mbind, stm_bind, modify at 1 2 3 4. cbv beta iota. apply (follows_event _ b0 b); try done. apply VDisconnected.
Qed.
#[local] Hint Resolve tracks_output : view_db.

Lemma tracks_drain : tracks (drain_host_output fuel).
Proof. unfold drain_host_output. induction fuel as [|n IH]; cbn [drain_loop]; tracking. Qed.

Lemma tracks_refresh : tracks refresh_outgoing_channels.
Proof. unfold refresh_outgoing_channels, refresh_channel. tracking. Qed.
#[local] Hint Resolve tracks_drain tracks_refresh : view_db.

(** ** Reports *)

Definition of_channel (channel : Channel) (e : HidpBridgeEvent) : Prop := match e with BridgeOutput c _ => c = channel | _ => True end.

Lemma bridge_channel channel sdu bridge events : (bridge_handle channel sdu bridge).1 = Ok events -> Forall (of_channel channel) events.
Proof.
  intros He. destruct (bridge_handle channel sdu bridge) as [r bridge'] eqn:Hb. cbn in He. subst r. unfold bridge_handle in Hb.
  apply stm_bind_ok in Hb as (ds & bridge1 & _ & Hb). apply stm_bind_ok in Hb as (self & bridge2 & _ & Hb). unfold lift in Hb. injection Hb as Hb _.
  apply collect_Ok in Hb. revert events Hb. induction ds as [|d ds IH]; intros [|e events] Hb; try done; constructor.
  - injection Hb as Hd _. unfold translate_event in Hd. destruct d; try (apply bind_ok in Hd as (? & _ & Hd)); injection Hd as <-;
      unfold of_channel; by repeat case_match; simplify_eq.
  - apply IH. by injection Hb.
Qed.

(** Handling reports does not change what is open. *)
Definition within (v : View) (b : bs) : Prop := follows b0 b /\ view_of b = v.

Lemma unseen_within {A} v (m : sess A) : unseen m -> preserves (within v) m.
Proof.
  intros Hm b [Hb Hv]. pose proof (Hm (seen b) b eq_refl) as Hs. split; [eapply follows_seen, Hb; exact Hs|].
  rewrite <- Hv. unfold seen, view_of in *. congruence.
Qed.

Lemma enqueue_keeps_view e (b : bs) : view_of (enqueue_event e b).2 = view_of b.
Proof. unfold enqueue_event, modify. cbn. by repeat case_match. Qed.

Lemma within_event v channel e : v_open channel v = true -> of_channel channel e -> preserves (within v) (apply_hidp_event e).
Proof.
  intros Ho He. destruct e; cbn [apply_hidp_event of_channel] in *; subst; try apply preserves_skip.
  - intros b [Hb Hv]. split; [|by rewrite enqueue_keeps_view]. apply (follows_event _ b0 b); try done. apply VOutput. by rewrite Hv.
  - apply preserves_get. intros b1 _. case_match; [|apply preserves_skip]. apply unseen_within, unseen_host.
Qed.

Lemma within_sdu v channel cid sdu : v_open channel v = true -> preserves (within v) (process_hidp_sdu channel cid sdu).
Proof.
  intros Ho b Hb. unfold process_hidp_sdu. unfold mbind at 1, stm_bind at 1.
  pose proof (unseen_within v _ (unseen_bridge channel sdu) b Hb) as Hb1. unfold bridge_sdu in *.
  pose proof (bridge_channel channel sdu (hidp (protocols b))) as Hev. destruct (bridge_handle channel sdu _) as [r bridge]. cbn [fst snd] in *.
  destruct r as [events|e|]; [| |done].
  - specialize (Hev events eq_refl). revert Hb1. generalize (set_protocols (set_hidp bridge (protocols b)) b). clear Hb b.
    induction Hev as [|e events He _ IH]; intros b Hb; [done|]. cbn [for_each]. apply (preserves_bind (within v)); [|intros _; exact IH|done].
    by eapply within_event.
  - destruct e as [[]| |]; try done. apply (preserves_get (within v)); [|done]. intros b1 _.
    case_match; [by apply unseen_within, unseen_host|apply preserves_skip|apply preserves_lift].
Qed.

Lemma loop_keeps I cid body : (forall sdu, preserves I (body sdu)) -> preserves I (take_sdu cid) -> forall n, preserves I (sdu_loop (T
  := T) (W := W) (D := D) n cid body).
Proof.
  intros Hbody Htake. induction n as [|n IH]; cbn [sdu_loop]; [apply preserves_throw|].
  apply preserves_bind; [done|]. intros [sdu|]; [|apply preserves_skip]. by apply preserves_bind.
Qed.

Lemma within_hidp v channel slot : slot_open slot = v_open channel v -> preserves (within v) (process_hidp fuel channel slot).
Proof.
  intros Hs. unfold process_hidp. destruct slot as [c|]; cbn in *; [|apply preserves_skip]. destruct (pc_open c); [|apply preserves_skip].
  apply loop_keeps; [intros; by apply within_sdu|apply unseen_within, unseen_take].
Qed.

Lemma tracks_input : tracks (process_protocol_input fuel).
Proof.
  unfold process_protocol_input. apply preserves_get. intros b1 _. apply preserves_bind.
  - apply preserves_for_each. intros cid. apply loop_keeps; [|tracking]. intros sdu. unfold send_on_channel. tracking.
  - intros _ b Hb. unfold mbind at 1, stm_bind at 1, get. assert (within (view_of b) b) as Hw by done.
    eapply (preserves_bind (within (view_of b))); [by apply within_hidp|intros _; by apply within_hidp|exact Hw].
Qed.
#[local] Hint Resolve tracks_input : view_db.

(** ** Packets and calls *)

Lemma tracks_request ev : tracks (admit_request ev).
Proof.
  unfold admit_request. do 3 (apply preserves_bind; [tracking|intros]). intros b Hb. unfold mbind at 1 2, stm_bind at 1 2, get at 1.
  set (judged := if negb _ then _ else _). assert (follows b0 (judged b).2) as Hj.
  { unfold judged. destruct (negb _); [done|]. destruct (window b) as [|[expected|]|expected|] eqn:Hw; try done.
    apply (follows_step b0 b); try done. unfold view_of. rewrite Hw. apply VLatched. }
  destruct (judged b) as [[accepted|e|] b1]; [|done|done]. cbn [snd] in Hj. destruct accepted; [done|].
  apply (preserves_bind (follows b0)); [tracking|intros; apply preserves_ret|done].
Qed.

(** The window ends, or nothing has changed. *)
Lemma ended_window b : exists b1, seen b1 = seen b
  /\ (end_connection_window b = (Ok tt, set_window Idle b1) \/ exists r, end_connection_window b = (r, b1) /\ forall a, r <> Ok a).
Proof.
  destruct (decide (window b = Idle)) as [Hw|Hw]; unfold end_connection_window, get;
    [rewrite (stm_bind_run _ _ b b b) by done; rewrite bool_decide_eq_true_2 by done
    |rewrite (stm_bind_run _ _ b b b) by done; rewrite bool_decide_eq_false_2 by done; apply (scan_off (modify (set_window Idle)))].
  exists b. split; [done|]. left. destruct b; cbn in *; by subst.
Qed.

Lemma tracks_connection ev : tracks (admit_connection ev).
Proof.
  unfold admit_connection. do 4 (apply preserves_bind; [tracking|intros]). apply preserves_get. intros b1 _.
  apply preserves_bind; [tracking|intros link].
  destruct (_ && _); [tracking|]. destruct (negb _); [|tracking]. clear b1. intros b Hb. unfold mbind at 1, stm_bind at 1.
  destruct (ended_window b) as (b1 & Hs & [->|(r & -> & Hr)]).
  - unfold mbind, stm_bind, modify at 1. cbv beta iota.
    assert (follows b0 (enqueue_event (EvDisconnected (Some a0)) (set_active_reconnect false (set_window Idle b1))).2) as Hf.
    { injection Hs as Hw Hc Hi Hp Ht Hcl. apply (follows_event _ b0 b); try done. unfold view_of; cbn. rewrite Hc, Hi. apply VFailed. }
    by destruct (enqueue_event _ _) as [[[]|e|] b2].
  - destruct r as [[]|e|]; [by destruct (Hr tt)|by eapply follows_seen..].
Qed.

Lemma tracks_disconnection ev : tracks (admit_disconnection ev).
Proof. unfold admit_disconnection. tracking. Qed.
#[local] Hint Resolve tracks_request tracks_connection tracks_disconnection : view_db.

Lemma tracks_packet packet : tracks (handle_packet fuel packet).
Proof. destruct packet; cbn [handle_packet]; unfold handle_event, route_event; tracking. Qed.

Lemma tracks_polled packet : tracks (handle_polled_packet fuel packet).
Proof.
  intros b Hb. apply (tracks_packet packet) in Hb. unfold handle_polled_packet.
  destruct (handle_packet fuel packet b) as [[[]|[e|]|] b']; cbn [snd] in *; [|by apply tracks_terminal|done|done]. by destruct (terminal b').
Qed.
#[local] Hint Resolve tracks_polled : view_db.

Lemma tracks_poll_round timeout : tracks (poll_round fuel timeout).
Proof.
  intros b Hb. unfold poll_round. destruct (sess_io b) as [io|]; [|done]. destruct (io_recv_timeout timeout io) as [r io'].
  assert (follows b0 (set_sess_io (Some io') b)) as Hb' by by eapply follows_seen, Hb.
  destruct r as [[packet|]|e|]; [|done|by apply tracks_terminal|done].
  apply (preserves_bind (follows b0)); [apply tracks_polled|intros; apply preserves_ret|done].
Qed.
#[local] Hint Resolve tracks_poll_round : view_db.

Lemma tracks_loops n deadline : tracks (poll_loop fuel n) /\ tracks (drain_interrupt_loop fuel n deadline).
Proof. induction n as [|n [IH1 IH2]]; cbn [poll_loop drain_interrupt_loop]; split; tracking. Qed.

Lemma tracks_drain_interrupt timeout : tracks (drain_interrupt fuel timeout).
Proof. pose proof (fun d => proj2 (tracks_loops fuel d)). unfold drain_interrupt. tracking. Qed.

Lemma tracks_send payload : tracks (send_interrupt fuel payload).
Proof. unfold send_interrupt. tracking. Qed.
End following.

(** ** Refinement *)

Section refinement.
Context {T W D : Type} `{HciIo T} `{Clock W} `{BondStore D} `{Profile}.
Context (fuel : nat).
Abbreviation bs := (BackendSession T W D).
Abbreviation sess := (stm bs Stop).

(** The events a call gives the application, and those of a sequence. *)
Definition delivered_by (c : session_call) (b : bs) : list Api.Event :=
  match c with
  | CallPoll timeout => match (session_poll fuel timeout b).1 with Ok es => es | _ => [] end
  | _ => []
  end.

Fixpoint delivered (cs : list session_call) (b : bs) : list Api.Event :=
  match cs with
  | [] => []
  | c :: cs => delivered_by c b ++ delivered cs (session_call_result fuel c b).2
  end.

Definition live (b : bs) : Prop := terminal b = None /\ closed b = false.

(** A call is a step of the machine. In a live session its events come after
    those queued, all of them unless the session is no longer live; otherwise
    nothing more is told. *)
Definition implements (c : session_call) (b b' : bs) (told_now : list Api.Event) : Prop :=
  exists es, app_step (view_of b) c es (view_of b')
    /\ (live b -> told_now ++ pending_events b' `prefix_of` pending_events b ++ es
                  /\ (live b' -> told_now ++ pending_events b' = pending_events b ++ es))
    /\ (~ live b -> told_now = [] /\ pending_events b' `prefix_of` pending_events b /\ ~ live b').

Lemma implements_same c (b b' : bs) : seen b' = seen b -> implements c b b' [].
Proof.
  intros [= Hw Hc Hi Hp Ht Hcl]. exists []. unfold view_of, live. rewrite Hw, Hc, Hi, Hp, Ht, Hcl, app_nil_r.
  split; [apply ARefused|done].
Qed.

Lemma implements_silent c v (b b' : bs) : seen b' = (v, pending_events b, terminal b, closed b) -> app_step (view_of b) c [] v
  -> implements c b b' [].
Proof.
  intros Hs Hstep. assert (view_of b' = v) as Hv by (unfold seen in Hs; congruence). injection Hs as _ Hp Ht Hcl. exists [].
  unfold live. rewrite Hv, Hp, Ht, Hcl, app_nil_r. done.
Qed.

Lemma implements_follows c (b b' : bs) : (forall es v, view_run (view_of b) es v -> app_step (view_of b) c es v) -> live b ->
  follows b b' -> implements c b b' [].
Proof.
  intros Hc [Ht Hcl] (es & q & Hr & Hp & Hcl' & Hq). rewrite Ht in Hq. destruct Hq as [Hq Heq]. exists es. split; [by apply Hc|].
  split; [|by intros []]. intros _. rewrite Hp, app_nil_l. split; [by apply prefix_app|]. intros [Ht' _]. by rewrite Heq.
Qed.

(** A dead session does nothing, but it can be closed. *)
Lemma dead_active (b : bs) : ~ live b -> exists e, ensure_session_active b = (Err e, b).
Proof.
  intros Hd. unfold ensure_session_active, mbind, stm_bind, get, raise, raise_error, throw. destruct (closed b) eqn:Hc; [by eexists|].
  destruct (terminal b) eqn:Ht; [by eexists|]. by destruct Hd.
Qed.

Lemma live_active (b : bs) : live b -> ensure_session_active b = (Ok tt, b).
Proof. intros [Ht Hc]. unfold ensure_session_active, mbind, stm_bind, get, skip. by rewrite Hc, Ht. Qed.

Lemma dead_call c (b : bs) : ~ live b -> c <> CallClose -> (session_call_result fuel c b).2 = b /\ delivered_by c b = [].
Proof.
  intros Hd Hc. destruct (dead_active b Hd) as [e He].
  destruct c; try done; cbn [session_call_result delivered_by];
    unfold start_pairing, start_reconnect, session_poll, send_interrupt, drain_interrupt, session_disconnect, mbind, stm_bind; by rewrite He.
Qed.

Lemma close_implements (b : bs) : implements CallClose b (session_close b).2 [].
Proof.
  unfold session_close, mbind, stm_bind, get, skip, modify, lift. destruct (closed b) eqn:Hc; [by apply implements_same|].
  assert (forall b', seen b' = (mkView Idle false false, [], terminal b, true) -> implements CallClose b b' []) as Hclosed.
  { intros b' Hs. assert (view_of b' = mkView Idle false false) as Hv by (unfold seen in Hs; congruence).
    injection Hs as _ _ _ Hp Ht Hcl. exists []. unfold live. rewrite Hv, Hp, Hcl. split; [apply AClose|].
    split; intros Hl; split_and!; first [apply prefix_nil|done|by intros []]. }
  apply Hclosed. cbv beta iota zeta. cbn [sess_io set_pending_events set_active_reconnect set_protocols set_window set_rejected
    set_sess_connection set_closed].
  by destruct (sess_io b).
Qed.

(** A computation the machine does not see, before another. *)
Lemma unseen_bind {A B} x (Q : bs -> Prop) (m : sess A) (k : A -> sess B) : unseen m -> (forall b, seen b = x -> Q b) ->
  (forall a b, seen b = x -> Q (k a b).2) -> forall b, seen b = x -> Q ((m ≫= k) b).2.
Proof.
  intros Hm Hq Hk b Hb. unfold mbind, stm_bind. pose proof (Hm x b Hb) as Hx. destruct (m b) as [[a|e|] b']; cbn in *; auto.
Qed.

(** Goes over to every state in which the machine sees [x]. *)
Ltac from_seen x :=
  match goal with |- implements ?c ?b (?m ?b1).2 [] =>
    apply (fun Hall : forall b2, seen b2 = x -> (fun b' => implements c b b' []) (m b2).2 => Hall b1 eq_refl) end.

Lemma pairing_implements (b : bs) : live b -> implements CallStartPairing b (start_pairing b).2 [].
Proof.
  intros Hl. unfold start_pairing. rewrite (stm_bind_run _ _ b tt b) by by apply live_active. rewrite (stm_bind_run get _ b b b) by done.
  destruct (window b) eqn:Hw; try (by apply implements_same).
  assert (forall b', seen b' = seen b -> implements CallStartPairing b b' []) as Hsame by by intros; apply implements_same.
  from_seen (seen b).
  do 3 (apply (unseen_bind _ (fun b' => implements CallStartPairing b b' [])); [first [apply unseen_scan|apply unseen_inquiry]|exact Hsame|intros _]).
  intros b1 [= Hw1 Hc Hi Hp Ht Hcl]. eapply implements_silent; [unfold seen, view_of, mbind, stm_bind, modify; cbn -[slot_open];
    by rewrite Hc, Hi, Hp, Ht, Hcl|].
  unfold view_of. rewrite Hw. apply AStartPairing.
Qed.

Lemma reconnect_implements (b : bs) : live b -> implements CallStartReconnect b (start_reconnect b).2 [].
Proof.
  intros Hl. unfold start_reconnect. rewrite (stm_bind_run _ _ b tt b) by by apply live_active. rewrite (stm_bind_run get _ b b b) by done.
  destruct (window b) eqn:Hw; try (by apply implements_same).
  assert (forall b', seen b' = seen b -> implements CallStartReconnect b b' []) as Hsame by by intros; apply implements_same.
  from_seen (seen b).
  apply (unseen_bind _ (fun b' => implements CallStartReconnect b b' [])); [intros x; apply preserves_lift|exact Hsame|].
  intros [|[peer bond] [|? ?]]; [exact Hsame| |exact Hsame].
  do 4 (apply (unseen_bind _ (fun b' => implements CallStartReconnect b b' [])); [first [apply unseen_scan|apply unseen_inquiry|apply
    unseen_command]|exact Hsame|intros _]).
  intros b1 [= Hw1 Hc Hi Hp Ht Hcl]. eapply implements_silent; [unfold seen, view_of, mbind, stm_bind, modify; cbn -[slot_open];
    by rewrite Hc, Hi, Hp, Ht, Hcl|].
  unfold view_of. rewrite Hw. apply AStartReconnect.
Qed.

Lemma disconnect_implements (b : bs) : live b -> implements CallDisconnect b (session_disconnect b).2 [].
Proof.
  intros Hl. unfold session_disconnect. rewrite (stm_bind_run _ _ b tt b) by by apply live_active.
  set (x w := (mkView w false false, pending_events b, terminal b, closed b)).
  assert (forall w b', w = window b \/ w = Idle -> seen b' = x w -> implements CallDisconnect b b' []) as Hgo
    by (intros w b' Hw Hs; eapply implements_silent; [exact Hs|by apply ADisconnect]).
  unfold mbind at 1 2 3 4, stm_bind at 1 2 3 4, modify, get. cbv beta iota.
  from_seen (x (window b)).
  apply (unseen_bind _ (fun b' => implements CallDisconnect b b' [])); [|intros; apply (Hgo (window b)); auto|].
  { cbn. destruct (sess_connection b) as [[peer handle]|]; [apply unseen_command|]. intros y. apply preserves_skip. }
  intros _ b1 Hb1. destruct (ended_window b1) as (b2 & Hs & [->|(r & -> & _)]); rewrite Hb1 in Hs.
  - apply (Hgo Idle); [auto|]. injection Hs as Hw Hc Hi Hp Ht Hcl. unfold seen, view_of, x. cbn -[slot_open]. by rewrite Hc, Hi, Hp, Ht, Hcl.
  - apply (Hgo (window b)); auto.
Qed.

Lemma poll_implements timeout (b : bs) : live b -> implements (CallPoll timeout) b (session_poll fuel timeout b).2 (delivered_by (CallPoll
  timeout) b).
Proof.
  intros Hl. cbn [delivered_by]. unfold session_poll. rewrite (stm_bind_run _ _ b tt b) by by apply live_active.
  rewrite (stm_bind_run get _ b b b) by done. set (wait := match pending_events b with [] => _ | _ => _ end).
  assert (preserves (follows b) wait) as Hwait by (unfold wait; case_match; [|apply preserves_skip];
    apply preserves_bind; [apply tracks_poll_round|intros; apply preserves_skip]).
  pose proof (Hwait b (follows_refl b)) as Hf. unfold mbind, stm_bind, get, modify, mret, stm_ret.
  destruct (wait b) as [[[]|e|] b1]; cbn [fst snd] in *; [|by apply implements_follows; [constructor|..]..].
  apply (proj1 (tracks_loops fuel b fuel 0)) in Hf. destruct (poll_loop fuel fuel b1) as [[[]|e|] b2]; cbn [fst snd] in *;
    [|by apply implements_follows; [constructor|..]..].
  destruct Hf as (es & q & Hr & Hp & Hcl & Hq). destruct Hl as [Ht Hc]. rewrite Ht in Hq. destruct Hq as [Hq Heq]. exists es.
  split; [by apply APoll|]. split; [|by intros []]. intros _. cbn. rewrite app_nil_r, Hp. split; [by apply prefix_app|]. intros [Ht' _].
  by rewrite Heq.
Qed.

Lemma call_implements c (b : bs) : implements c b (session_call_result fuel c b).2 (delivered_by c b).
Proof.
  destruct (decide (c = CallClose)) as [->|Hc]; [apply close_implements|].
  assert (live b \/ ~ live b) as [Hl|Hd] by (unfold live; destruct (terminal b), (closed b); naive_solver).
  - destruct c; cbn [session_call_result]; try done.
    + by apply pairing_implements.
    + by apply reconnect_implements.
    + pose proof (poll_implements timeout b Hl) as Hp. unfold mbind, stm_bind. by destruct (session_poll fuel timeout b) as [[es|e|] b'].
    + apply implements_follows; [constructor; done|done|]. apply tracks_send, follows_refl.
    + apply implements_follows; [constructor; done|done|]. apply tracks_drain_interrupt, follows_refl.
    + by apply disconnect_implements.
  - destruct (dead_call c b Hd Hc) as [-> ->]. by apply implements_same.
Qed.

(** The application has been told, or will be, what the machine queued. *)
Definition tells (v : View) (cs : list session_call) (ds : list Api.Event) (b : bs) : Prop :=
  exists es, app_run v cs es (view_of b) /\ ds ++ pending_events b `prefix_of` es /\ (live b -> ds ++ pending_events b = es).

Lemma tells_call v cs ds c (b : bs) : tells v cs ds b -> tells v (cs ++ [c]) (ds ++ delivered_by c b) (session_call_result fuel c b).2.
Proof.
  intros (es & Hr & Hp & Heq). destruct (call_implements c b) as (es' & Hstep & Hlive & Hdead). exists (es ++ es').
  split; [by eapply AThen|]. assert (live b \/ ~ live b) as [Hl|Hd] by (unfold live; destruct (terminal b), (closed b); naive_solver).
  - destruct (Hlive Hl) as [Hpre Hfull]. rewrite <- (Heq Hl), <- !app_assoc. split; [by apply prefix_app|]. intros Hl'. by rewrite Hfull.
  - destruct (Hdead Hd) as (-> & Hpre & Hd'). rewrite app_nil_r. split; [|done]. apply prefix_app_r. etrans; [|exact Hp]. by apply prefix_app.
Qed.

Lemma tells_calls v later : forall cs ds b, tells v cs ds b -> tells v (cs ++ later) (ds ++ delivered later b) (run_session_calls fuel later b).
Proof.
  induction later as [|c later IH]; intros cs ds b Hb; [by rewrite !app_nil_r|]. apply (tells_call v cs ds c), IH in Hb.
  by rewrite <- !app_assoc in Hb.
Qed.

Lemma initialized_view config (store : D) (clock : W) (io : T) (b : bs) : BackendSession_initialize fuel config store clock io = Ok b ->
  view_of b = mkView Idle false false /\ pending_events b = [].
Proof.
  unfold BackendSession_initialize. destruct (initialize_controller _ _ _) as [[i|e|] io']; cbn [mbind res_bind]; try done.
  destruct (select_local_address _ _) as [[[]|e|] store']; cbn [mbind res_bind raised sourced map_err]; try done.
  destruct (for_each _ _ _) as [[[]|e|] h]; cbn; try done. by intros [= <-].
Qed.

(** C5. A session refines the machine the application sees: whatever the
    controller sends, the calls made on a session are steps of the machine, and
    the events the calls of [poll] have given the application are, in order and
    without a gap, the first ones the machine queued; in a live session the
    others are still waiting. In particular reports are only told of channels
    that were announced since the connection was. *)
Theorem session_refines_view config (store : D) (clock : W) (io : T) (b : bs) cs :
  BackendSession_initialize fuel config store clock io = Ok b ->
  let b' := run_session_calls fuel cs b in
  exists es, app_run (mkView Idle false false) cs es (view_of b')
    /\ delivered cs b `prefix_of` es
    /\ (terminal b' = None -> closed b' = false -> es = delivered cs b ++ pending_events b')
    /\ well_announced (false, false) (delivered cs b) = true.
Proof.
  intros Hb b'. apply initialized_view in Hb as [Hv Hp]. assert (tells (mkView Idle false false) [] [] b) as Hstart
    by (exists []; rewrite Hv, Hp; by split_and!; [constructor|..]).
  apply (tells_calls _ cs) in Hstart as (es & Hr & Hpre & Heq). exists es. split; [exact Hr|].
  assert (delivered cs b `prefix_of` es) as Hd by (etrans; [|exact Hpre]; by apply prefix_app_r).
  split_and!; [done|by intros Ht Hc; symmetry; apply Heq|]. destruct Hd as [rest ->].
  apply (app_announced _ _ _ _ (false, false)) in Hr as [Hw _]; [|done]. rewrite well_announced_app in Hw. by apply andb_true_iff in Hw as [? _].
Qed.
End refinement.
