(* ===== verification/SessionRun.v ===== *)
(** * A session in service ([src/src/session.rs])

    A scripted controller link, and sessions run on it: initialization, pairing,
    the HID channels, reports and failures, evaluated on concrete input. *)
From S2P Require Import Prelude Hci L2cap Ertm Classic ClassicProps Hidp Values Sdp SdpPdu SdpService Host HostProps HostSecrecy.
From S2P Require Import Csr Identity Usb Api HidService Session SessionProps SessionAdmission SessionLife SessionLoops.
From S2P Require Import SessionEvents SessionSecrecy SessionInit SessionSend SessionLimits SessionView.

(** ** The scripted link *)

#[global] Instance packet_bytes_dec packet : Decision (packet_bytes packet).
Proof. destruct packet; apply bytes_dec. Defined.

(** What the controller will send, and what it was sent. *)
Record ScriptedIo : Type := mkScripted { inbox : list Packet; sent : list Packet }.

#[global] Instance ScriptedIo_io : HciIo ScriptedIo := {
  io_send packet := fun io => (Ok tt, mkScripted (inbox io) (sent io ++ [packet]));
  io_recv_timeout _ := fun io =>
    match inbox io with
    | [] => (Ok None, io)
    | packet :: rest => if bool_decide (packet_bytes packet) then (Ok (Some packet), mkScripted rest (sent io)) else (Ok None, io)
    end;
  io_metadata _ := mkUsbMetadata 0x0A12 0x0001 1 4 [2];
  io_close := skip
}.

#[global] Program Instance ScriptedIo_laws : HciIoLaws ScriptedIo := { io_ok _ := True }.
Next Obligation. done. Qed.
Next Obligation. done. Qed.
Next Obligation. intros timeout io packet io' _. cbn. destruct (inbox io); [done|]. case_bool_decide; [|done]. by intros [= <- _]. Qed.

#[global] Instance ScriptedIo_accepts : AcceptingLink ScriptedIo.
Proof. intros packet io. by eexists. Qed.

(** Readings of the clock one after the other; the last one stays. *)
#[global] Instance list_clock : Clock (list Z) := {
  clock_read w := match w with [] => (0, []) | [now] => (now, w) | now :: rest => (now, rest) end;
  instant_max _ := 2 ^ 64
}.

#[local] Instance debug_profile : Profile := true.

(** ** A controller and its session *)

Definition sample_session_config : SessionConfig :=
  Eval vm_compute in match SessionConfig_new (Src := Source) [80; 97; 100] 0x2508 sample_config with
                     | Ok c => c | _ => mkSessionConfig [] 0 [] 0 sample_config end.

Definition complete (opcode : Z) (answer : list Z) : Packet :=
  Hci.Event (mkEvent EVENT_COMMAND_COMPLETE ([1] ++ to_le_bytes 2 opcode ++ [0] ++ answer)).

Definition own_address : list Z := [0x10; 0x20; 0x30; 0x40; 0x50; 0x60].
Definition csr_version : ControllerVersion := mkVersion 6 0x1234 6 10 0x2021.

(** The controller's answers, an unrelated vendor event among them. *)
Definition init_inbox : list Packet :=
  [complete HCI_RESET []; complete HCI_READ_LOCAL_SUPPORTED_COMMANDS (replicate 64 255);
   Hci.Event (mkEvent EVENT_VENDOR [1; 2]);
   complete HCI_READ_LOCAL_VERSION_INFORMATION (version_bytes csr_version);
   complete HCI_READ_LOCAL_EXTENDED_FEATURES ([0; 1] ++ replicate 8 0x40);
   complete HCI_SET_EVENT_MASK []; complete HCI_LE_SET_EVENT_MASK [];
   complete HCI_READ_BUFFER_SIZE [0x36; 1; 64; 10; 0; 8; 0]; complete HCI_READ_BD_ADDR own_address;
   complete HCI_WRITE_LOCAL_NAME []; complete HCI_WRITE_CLASS_OF_DEVICE []; complete HCI_WRITE_SIMPLE_PAIRING_MODE [];
   complete HCI_WRITE_EXTENDED_INQUIRY_RESPONSE []; complete HCI_WRITE_DEFAULT_LINK_POLICY_SETTINGS [];
   complete HCI_WRITE_SCAN_ENABLE []].

Abbreviation session := (BackendSession ScriptedIo (list Z) MemoryBondStore).

Definition opened_session (later : list Packet) : res Stop session :=
  BackendSession_initialize 50 sample_session_config [] [0] (mkScripted (init_inbox ++ later) []).


(** ** A peer that pairs *)

Definition request_of (peer : BluetoothAddress) : Packet := Hci.Event (mkEvent EVENT_CONNECTION_REQUEST (address_le peer ++ [8; 5; 0; 1])).
Definition connection_of (status : Z) (peer : BluetoothAddress) : Packet :=
  Hci.Event (mkEvent EVENT_CONNECTION_COMPLETE ([status; 0x40; 0] ++ address_le peer ++ [1; 0])).

Definition l2cap_in (cid : Z) (payload : list Z) : Packet :=
  Acl (mkAcl 0x40 2 0 (to_le_bytes 2 (len payload) ++ to_le_bytes 2 cid ++ payload)).

(** The peer connects [psm] from [remote] and configures the channel at [local]. *)
Definition channel_setup (psm remote local id answered : Z) : list Packet :=
  [l2cap_in 1 ([2; id; 4; 0] ++ to_le_bytes 2 psm ++ to_le_bytes 2 remote);
   l2cap_in 1 ([4; id + 1; 8; 0] ++ to_le_bytes 2 local ++ [0; 0; 1; 2; 0xA0; 2]);
   l2cap_in 1 ([5; answered; 6; 0] ++ to_le_bytes 2 local ++ [0; 0; 0; 0])].

Definition pairing_inbox : list Packet :=
  [request_of peer_a; connection_of 0 peer_a] ++ channel_setup 0x11 0x50 0x40 1 1 ++ channel_setup 0x13 0x51 0x41 3 2
  ++ [l2cap_in 0x41 [0xA2; 1; 2; 3]].

Definition start_and_poll (later : list Packet) : res Stop (list Api.Event) * option session :=
  match opened_session later with
  | Ok b => let '(r, b) := session_poll 50 1000 (start_pairing b).2 in (r, Some b)
  | Err e => (Err e, None)
  | Panic => (Panic, None)
  end.

(** A peer that pairs, opens the HID channels and sends a report is served
    within one call of [poll]. *)
Example peer_served :
  (start_and_poll pairing_inbox).1
  = Ok [EvConnected peer_a; EvChannelOpened Control; EvChannelOpened Interrupt; EvHidOutput Interrupt [1; 2; 3]].
Proof. vm_compute. reflexivity. Qed.

(** Told that its connection ended because a stranger's attempt failed, the
    application goes on getting the reports of the first peer. *)
Example reports_after_disconnect :
  (start_and_poll (pairing_inbox ++ [connection_of 0x0F peer_b; l2cap_in 0x41 [0xA2; 9]])).1
  = Ok [EvConnected peer_a; EvChannelOpened Control; EvChannelOpened Interrupt; EvHidOutput Interrupt [1; 2; 3];
        EvDisconnected (Some 0x0F); EvHidOutput Interrupt [9]].
Proof. vm_compute. reflexivity. Qed.

(** A packet that no controller sends ends the session. *)
Example command_refused : (start_and_poll [Command (mkCommand HCI_RESET [])]).1 = Err (Raised (Error_new ProtocolViolation)).
Proof. vm_compute. reflexivity. Qed.

(** ** An active reconnect *)

Definition sample_bond : ClassicBond := mkBond (replicate 16 7) 4 false.

Definition reconnect_and_poll (later : list Packet) : res Stop (list Api.Event) :=
  match BackendSession_initialize 50 sample_session_config [(peer_a, sample_bond)] [0] (mkScripted (init_inbox ++ later) []) with
  | Ok b => (session_poll 50 1000 (start_reconnect b).2).1
  | Err e => Err e
  | Panic => Panic
  end.

(** The peer is paged, authenticated and encrypted. *)
Definition secured : list Packet :=
  [connection_of 0 peer_a; Hci.Event (mkEvent EVENT_AUTHENTICATION_COMPLETE [0; 0x40; 0]);
   Hci.Event (mkEvent EVENT_ENCRYPTION_CHANGE [0; 0x40; 0; 1])].

Definition connection_response (id remote local result : Z) : Packet :=
  l2cap_in 1 ([3; id; 8; 0] ++ to_le_bytes 2 remote ++ to_le_bytes 2 local ++ to_le_bytes 2 result ++ [0; 0]).

Definition peer_configures (remote_id local answered : Z) : list Packet :=
  [l2cap_in 1 ([4; remote_id; 8; 0] ++ to_le_bytes 2 local ++ [0; 0; 1; 2; 0xA0; 2]);
   l2cap_in 1 ([5; answered; 6; 0] ++ to_le_bytes 2 local ++ [0; 0; 0; 0])].

(** The bonded peer is paged and both HID channels are opened to it, the control
    channel first. *)
Example reconnect_served :
  reconnect_and_poll (secured ++ [connection_response 1 0x50 0x40 0] ++ peer_configures 1 0x40 2
    ++ [connection_response 3 0x51 0x41 0] ++ peer_configures 2 0x41 4)
  = Ok [EvConnected peer_a; EvChannelOpened Control; EvChannelOpened Interrupt].
Proof. vm_compute. reflexivity. Qed.

(** A peer that first answers that the connection is pending ends the session
    with its final answer. *)
Example pending_answer_ends_session :
  reconnect_and_poll (secured ++ [connection_response 1 0 0x40 1; connection_response 1 0x50 0x40 0])
  = Err (Raised (Error_with_source ProtocolViolation
      (FromHost (HostL2cap (InvalidPacket "connection response in invalid state" []))))).
Proof. vm_compute. reflexivity. Qed.

(** ** The sessions of the properties' examples *)

(** What a check says of the session left by the run. *)
Definition leaves (later : list Packet) (P : session -> Prop) : Prop :=
  match (start_and_poll later).2 with Some b => P b | None => False end.

Lemma leaves_session later P : leaves later P -> exists b, (start_and_poll later).2 = Some b /\ P b.
Proof. unfold leaves. destruct (start_and_poll later).2 as [b|]; [|done]. eauto. Qed.

Definition serving (w : ConnectionWindow) (b : session) : Prop :=
  closed b = false /\ terminal b = None /\ is_Some (sess_io b) /\ (length (extended_inquiry_response (sess_config b)) <= 254)%nat
  /\ window b = w /\ output (host b) = [] /\ pending_events b = [].

Lemma pairing_session : exists b, (start_and_poll []).2 = Some b /\ serving (Pairing None) b.
Proof. apply leaves_session. vm_compute. repeat split; [by eexists|by_compute]. Qed.

(** What makes the connected session ready to send, as a test. *)
Definition reporting (b : session) : Prop :=
  match connection (host b) with
  | None => False
  | Some c =>
      match channels (conn_channels c) !! 0x41 with
      | None => False
      | Some ch =>
          let f := acl_flow (host b) in
          bool_decide (length (mgr_outbound (conn_channels c)) = 0%nat /\ length (accepted_channels (conn_channels c)) = 0%nat
            /\ length (output (host b)) = 0%nat /\ length (queued f) = 0%nat /\ u16 (total_packets f)
            /\ map_Forall (fun _ n => 1 <= n) (in_flight f) /\ sum_values (in_flight f) <= total_packets f
            /\ 0 <= conn_handle c <= 0xFFF /\ 1 <= payload_size f <= 65535 /\ state ch = Open /\ ~ is_Some (ertm ch)
            /\ bridge_interrupt_mtu (hidp (protocols b)) = ch_peer_mtu ch /\ ch_peer_mtu ch = 672
            /\ length (report_packets b c ch [1; 2; 3]) = 1%nat) = true
      end
  end.

Lemma paired_session : exists b, (start_and_poll pairing_inbox).2 = Some b
  /\ serving WindowConnected b /\ conn_id (host b) = Some (peer_a, 0x40) /\ interrupt (protocols b) = Some (mkProtocolChannel 0x41 true)
  /\ waiting_sdus 0x41 (host b) = Some [] /\ reporting b.
Proof. apply leaves_session. vm_compute. repeat split; [by eexists|by_compute]. Qed.

Lemma session_invariant_witness : exists b, opened_session pairing_inbox = Ok b
  /\ host_ok (host (run_session_calls 50 [CallStartPairing; CallPoll 1000; CallSendInterrupt [1; 2]; CallClose] b)).
Proof.
  assert (match opened_session pairing_inbox with Ok _ => true | _ => false end = true) as Hok by (vm_compute; reflexivity).
  destruct (opened_session pairing_inbox) as [b|e|] eqn:Hb; [|discriminate Hok|discriminate Hok]. exists b. split; [reflexivity|].
  eapply (session_invariant 50 sample_session_config [] [0] _ b [CallStartPairing; CallPoll 1000; CallSendInterrupt [1; 2]; CallClose]).
  - exact I.
  - exact Hb.
Defined.

Lemma ok_exists {E A} (r : res E A) : match r with Ok _ => true | _ => false end = true -> exists a, r = Ok a.
Proof. destruct r as [a|e|]; [by exists a|done|done]. Qed.

Lemma logged_session : exists b, BackendSession_initialize (D := MemoryBondStore) (W := list Z) 50 sample_session_config [] [0]
  (mkLogged (mkScripted (init_inbox ++ pairing_inbox) []) []) = Ok b.
Proof. apply ok_exists. vm_compute. reflexivity. Qed.

Lemma controller_limits_respected_witness : exists (b : BackendSession (LoggedIo ScriptedIo) (list Z) MemoryBondStore) i,
  1 <= acl_packet_length i
  /\ forall l, sess_io (run_session_calls 50 [CallStartPairing; CallPoll 1000; CallSendInterrupt [1; 2]] b) = Some l ->
       Forall (packet_within (acl_packet_length i)) (log l).
Proof.
  destruct logged_session as [b Hb]. exists b.
  edestruct (controller_limits_respected 50 sample_session_config [] [0] (mkScripted (init_inbox ++ pairing_inbox) []) b
    [CallStartPairing; CallPoll 1000; CallSendInterrupt [1; 2]]) as (i & l0 & _ & Hi & Hl); [exact I|exact Hb|].
  exists i. split; [exact Hi|exact Hl].
Defined.

Lemma ok_holds {E A} (r : res E A) (P : A -> bool) : match r with Ok a => P a | _ => false end = true -> exists a, r = Ok a /\ P a = true.
Proof. destruct r as [a|e|]; [by exists a|done|done]. Qed.

Definition served_calls : list session_call := [CallStartPairing; CallPoll 1000; CallDisconnect; CallPoll 1000].
Definition served_events : list Api.Event :=
  [EvConnected peer_a; EvChannelOpened Control; EvChannelOpened Interrupt; EvHidOutput Interrupt [1; 2; 3]].

Lemma served_session : exists b : session, BackendSession_initialize (D := MemoryBondStore) 50 sample_session_config [] [0] (mkScripted
  (init_inbox ++ pairing_inbox) []) = Ok b
  /\ bool_decide (delivered 50 served_calls b = served_events) = true.
Proof. apply (ok_holds _ (fun b => bool_decide (delivered 50 served_calls b = served_events))). vm_compute. reflexivity. Qed.

Lemma session_refines_view_witness : exists (b : session) es, app_run (mkView Idle false false) served_calls es (view_of
  (run_session_calls 50 served_calls b))
  /\ served_events `prefix_of` es /\ well_announced (false, false) served_events = true.
Proof.
  destruct served_session as (b & Hb & He). apply bool_decide_eq_true in He.
  destruct (session_refines_view (D := MemoryBondStore) 50 sample_session_config [] [0] (mkScripted (init_inbox ++ pairing_inbox) []) b
    served_calls Hb)
    as (es & Hr & Hp & _ & Hw). exists b, es. rewrite He in Hp, Hw. split; [exact Hr|]. split; [exact Hp|exact Hw].
Defined.

Definition two_visits : list Visit :=
  [mkVisit (address_le peer_a) (0x40, 0) (8, 5, 0) 0 0x13; mkVisit (address_le peer_b) (0x41, 0) (8, 5, 0) 1 0x08].

Lemma peers_served_in_turn_witness : exists b b' : session, receive_all 50 two_visits b = (Ok tt, b')
  /\ pending_events b' = [EvConnected peer_a; EvDisconnected (Some 0x13); EvConnected peer_b; EvDisconnected (Some 0x08)]
  /\ window b' = Idle.
Proof.
  destruct served_session as (b & Hb & _). exists b.
  destruct (peers_served_in_turn (D := MemoryBondStore) 50 ltac:(lia) sample_session_config [] [0]
    (mkScripted (init_inbox ++ pairing_inbox) []) b two_visits) as (io' & b' & _ & Hv & Hp & _ & Hw & _).
  - vm_compute. discriminate.
  - exact Hb.
  - repeat constructor.
  - vm_compute. lia.
  - exists b'. split; [exact Hv|]. split; [exact Hp|exact Hw].
Defined.

Lemma only_expected_peer_connects_witness : exists b, (start_and_poll []).2 = Some b
  /\ let h' := host (handle_packet 50 (connection_of 0 peer_b) b).2 in
     conn_id h' = conn_id (host b) \/ conn_id h' = None
     \/ exists peer handle ev, conn_id h' = Some (peer, handle) /\ expected_peer (window b) = Some peer
          /\ connection_of 0 peer_b = Hci.Event ev /\ decode_classic_event ev = Ok [ConnectionComplete 0 handle peer].
Proof.
  destruct pairing_session as (b & Hb & Hc & _ & Hio & _ & _ & _ & Hq). exists b. split; [exact Hb|].
  apply (only_expected_peer_connects 50 (connection_of 0 peer_b) b); [exact Hc|exact Hio|rewrite Hq; cbn; lia].
Defined.

Lemma serving_in_service w b : serving w b -> in_service b.
Proof. intros (? & ? & ? & Hl & _). split_and!; [done|done|done|unfold len; lia]. Qed.

(** A stranger's refused attempt while [peer_a] is connected. *)
Lemma foreign_failure_reported_as_disconnect_witness : exists b b', (start_and_poll pairing_inbox).2 = Some b
  /\ handle_packet 50 (connection_of 0x0F peer_b) b = (Ok tt, b')
  /\ pending_events b' = [EvDisconnected (Some 0x0F)] /\ window b' = Idle /\ conn_id (host b') = Some (peer_a, 0x40).
Proof.
  destruct paired_session as (b & Hb & Hs & Hid & _). pose proof Hs as (_ & _ & _ & _ & Hw & Ho & Hq).
  destruct (foreign_failure_reported_as_disconnect 50 b 0x0F 0x40 0 (address_le peer_b) 1 0 (serving_in_service _ b Hs) Hw Ho
    ltac:(lia) ltac:(rewrite Hq; unfold EVENT_QUEUE_CAPACITY; cbn; lia) ltac:(lia) eq_refl) as (b' & Hrun & He & Hi & Hcon & _).
  exists b, b'. split_and!; [exact Hb|exact Hrun|rewrite He, Hq; reflexivity|exact Hi|rewrite Hcon; exact Hid].
Defined.

Lemma connection_requests_judged_witness : exists b io, (start_and_poll []).2 = Some b /\ sess_io b = Some io
  /\ handle_packet 50 (request_of peer_a) b
     = (Ok tt, set_sess_io (Some (io_send (Command (mkCommand HCI_ACCEPT_CONNECTION_REQUEST (address_le peer_a ++ [HCI_ROLE_PERIPHERAL]))) io).2)
                 (set_host (set_pending_peer (Some peer_a) (host b)) (set_window (Pairing (Some peer_a)) b))).
Proof.
  destruct pairing_session as (b & Hb & Hs). pose proof Hs as (_ & _ & [io Hio] & _ & Hw & Ho & _). exists b, io.
  split; [exact Hb|]. split; [exact Hio|].
  pose proof (connection_requests_judged 50 b io (address_le peer_a) 8 5 0 1 (serving_in_service _ b Hs) Hio Ho ltac:(lia) eq_refl) as Hrun.
  rewrite Hw in Hrun. exact Hrun.
Defined.

Lemma poll_errors_end_session_witness : exists b b', opened_session [Command (mkCommand HCI_RESET [])] = Ok b
  /\ session_poll 50 0 b = (Err (Raised (Error_new ProtocolViolation)), b')
  /\ session_call_result 50 CallStartReconnect b' = (Err (Raised (Error_new ProtocolViolation)), b').
Proof.
  assert (match opened_session [Command (mkCommand HCI_RESET [])] with
          | Ok b => closed b = false /\ is_Some (sess_io b) /\ pending_events b = []
                    /\ (session_poll 50 0 b).1 = Err (Raised (Error_new ProtocolViolation))
          | _ => False end) as Hrun by (vm_compute; repeat split; eexists; reflexivity).
  destruct (opened_session _) as [b|e|]; [|destruct Hrun|destruct Hrun]. destruct Hrun as (Hc & Hio & Hq & Hr).
  destruct (session_poll 50 0 b) as [r b'] eqn:Hp. cbn in Hr. subst r. exists b, b'. split_and!; [reflexivity|exact Hp|].
  apply (poll_errors_end_session 50 0 b _ b' Hc Hio); [rewrite Hq; cbn; lia|exact Hp|discriminate].
Defined.

Lemma reports_reach_application_witness : exists b, (start_and_poll pairing_inbox).2 = Some b
  /\ let b := set_host (taken 0x41 [[0xA2; 7]; [0xFF]; [0xA2; 8; 9]] (host b)) b in
     (process_hidp 50 Interrupt (interrupt (protocols b)) b).1 = Ok tt
     /\ pending_events (process_hidp 50 Interrupt (interrupt (protocols b)) b).2 = [EvHidOutput Interrupt [7]; EvHidOutput Interrupt [8; 9]].
Proof.
  destruct paired_session as (b & Hb & (_ & Ht & _ & _ & _ & _ & Hq) & _ & Hi & Hw & _). exists b. split; [exact Hb|]. intros b1.
  assert (waiting_sdus 0x41 (host b1) = Some [[0xA2; 7]; [0xFF]; [0xA2; 8; 9]]) as Hw1 by (apply waiting_taken; rewrite Hw; by eexists).
  rewrite (reports_reach_application 50 0x41 [[0xA2; 7]; [0xFF]; [0xA2; 8; 9]] b1 Hi Hw1 Ht ltac:(subst b1; cbn [pending_events set_host];
    rewrite Hq; cbn; lia) ltac:(cbn; lia)).
  split; [reflexivity|]. unfold queued_events. cbn [snd pending_events set_host set_pending_events b1]. by rewrite Hq.
Defined.

Lemma sample_config_ok : session_config_ok sample_session_config.
Proof. split; [by_compute|by_compute|vm_compute; reflexivity|reflexivity]. Qed.

Definition sample_initialized : InitializedController := mkInitialized (public own_address) csr_version 310 10.

(** The fourteen commands the controller gets. *)
Definition init_commands : list CommandPacket :=
  [mkCommand HCI_RESET []; mkCommand HCI_READ_LOCAL_SUPPORTED_COMMANDS []; mkCommand HCI_READ_LOCAL_VERSION_INFORMATION [];
   mkCommand HCI_READ_LOCAL_EXTENDED_FEATURES [0]; mkCommand HCI_SET_EVENT_MASK EVENT_MASK;
   mkCommand HCI_LE_SET_EVENT_MASK LEGACY_LE_EVENT_MASK; mkCommand HCI_READ_BUFFER_SIZE []; mkCommand HCI_READ_BD_ADDR []]
  ++ identity_script sample_session_config.

Lemma sample_initialization : initialize_controller 50 sample_session_config (mkScripted init_inbox [])
  = (Ok sample_initialized, mkScripted [] (Command <$> init_commands)).
Proof. vm_compute. reflexivity. Qed.

Lemma initialization_exact_witness :
  initialization sample_session_config sample_initialized (mkScripted init_inbox []) (mkScripted [] (Command <$> init_commands)).
Proof. apply initialization_exact; [exact sample_config_ok|exact I|]. exists 50%nat. exact sample_initialization. Defined.

Lemma reporting_ready b io : serving WindowConnected b -> reporting b -> sess_io b = Some io ->
  interrupt (protocols b) = Some (mkProtocolChannel 0x41 true) ->
  exists c ch, report_ready b io c 0x41 ch /\ ch_peer_mtu ch = 672 /\ queued (acl_flow (host b)) = []
    /\ length (report_packets b c ch [1; 2; 3]) = 1%nat.
Proof.
  intros (Hc & Ht & _) Hr Hio Hi. unfold reporting in Hr. destruct (connection (host b)) as [c|] eqn:Hcon; [|done].
  destruct (channels (conn_channels c) !! 0x41) as [ch|] eqn:Hch; [|done].
  apply bool_decide_eq_true in Hr as (Hm & Ha & Ho & Hq & Hu & Hp & Hs & Hh & Hsz & Hst & He & Hmtu & H672 & H1).
  exists c, ch. apply nil_length_inv in Hm, Ha, Ho, Hq. split_and!; try done. split; try done.
  - split; [done|by left].
  - split_and!; try done. by apply eq_None_not_Some.
  - split; [done|lia].
Qed.

Lemma input_report_sent_witness : exists b sent h' io, (start_and_poll pairing_inbox).2 = Some b /\ sess_io b = Some io
  /\ send_interrupt 50 [1; 2; 3] b = (Ok tt, set_sess_io (Some (after_sending sent io)) (set_host h' b)).
Proof.
  destruct paired_session as (b & Hb & Hs & _ & Hi & _ & Hrep). pose proof Hs as (_ & _ & [io Hio] & _).
  destruct (reporting_ready b io Hs Hrep Hio Hi) as (c & ch & Hr & Hmtu & Hq & Hone).
  destruct (input_report_sent 50 [1; 2; 3] b io c 0x41 ch Hr) as (sent & h' & Hsend & _);
    [rewrite Hmtu; unfold len; cbn; lia|rewrite Hq, Hone; cbn; lia|].
  exists b, sent, h', io. split_and!; [exact Hb|exact Hio|exact Hsend].
Defined.

(** ** Keys *)

(** Links alike up to the keys announced to and replied by the session. *)
Definition scripted_alike (io io' : ScriptedIo) : Prop :=
  Forall2 (fun p p' => received_alike p p' /\ (packet_bytes p <-> packet_bytes p')) (inbox io) (inbox io')
  /\ Forall2 sent_alike (sent io) (sent io').

#[global] Instance ScriptedIo_blind : LinkBlind ScriptedIo scripted_alike.
Proof.
  split; [| |done|done].
  - intros p p' Hp io io' [Hi Hs]. split; [done|]. split; [done|]. cbn. apply Forall2_app; [done|]. by constructor.
  - intros timeout [ib out] [ib' out'] [Hi Hs]. cbn in Hi, Hs |- *. destruct Hi as [|p p' ib ib' [Hp Hb] Hi]; [by repeat constructor|].
    rewrite (bool_decide_ext _ _ Hb). case_bool_decide; [by repeat constructor|]. split; [constructor|]. split; [by constructor|done].
Qed.

(** A peer pairs with key [k], and asks to be let in again with it. *)
Definition key_inbox (k : Z) : list Packet :=
  init_inbox ++ [request_of peer_a; connection_of 0 peer_a;
    Hci.Event (mkEvent EVENT_LINK_KEY_NOTIFICATION (address_le peer_a ++ replicate 16 k ++ [5]));
    Hci.Event (mkEvent EVENT_DISCONNECTION_COMPLETE [0; 0x40; 0; 0x13]);
    Hci.Event (mkEvent EVENT_LINK_KEY_REQUEST (address_le peer_a))].

Lemma key_inbox_alike k k' : u8 k -> u8 k' -> scripted_alike (mkScripted (key_inbox k) []) (mkScripted (key_inbox k') []).
Proof.
  intros Hk Hk'. split; [|constructor]. cbn [inbox]. unfold key_inbox.
  assert (forall l, Forall2 (fun p p' => received_alike p p' /\ (packet_bytes p <-> packet_bytes p')) l l) as Hsame
    by (intros l; induction l; constructor; [split; [constructor|done]|done]).
  apply Forall2_app; [apply Hsame|]. do 2 (constructor; [split; [constructor|done]|]). constructor; [|apply Hsame].
  split; [by constructor|]. split; intros _; repeat (constructor; [first [done|by_compute]|]); constructor.
Qed.

Definition key_bonds (k : Z) : MemoryBondStore := [(peer_b, mkBond (replicate 16 k) 4 false)].
Definition key_link (k : Z) : ScriptedIo := mkScripted (key_inbox k) [].
Definition key_calls_made : list session_call := [CallStartPairing; CallPoll 1000].

Definition key_run (stored k : Z) :=
  application_run (T := ScriptedIo) (W := list Z) (D := MemoryBondStore) 50 sample_session_config (key_bonds stored) [0] (key_link k) key_calls_made.

Lemma key_bonds_alike k k' : Forall2 stored_alike (key_bonds k) (key_bonds k').
Proof. by repeat constructor. Qed.

Lemma application_learns_no_key_witness :
  res_alike (fun x y => x.1 = y.1 /\ option_Forall2 scripted_alike x.2 y.2) (key_run 1 3) (key_run 2 4).
Proof.
  exact (application_learns_no_key (W := list Z) (D := MemoryBondStore) scripted_alike (Forall2 stored_alike) 50 sample_session_config [0]
    (key_bonds 1) (key_bonds 2) (key_link 3) (key_link 4) key_calls_made (key_inbox_alike 3 4 ltac:(by_compute) ltac:(by_compute))
      (key_bonds_alike 1 2)).
Defined.

(** The link does get the key. *)
Example key_replied_on_link :
  match key_run 1 3 with
  | Ok (_, told, Some io) => told = [(Ok [], Ok false); (Ok [EvConnected peer_a; EvDisconnected (Some 0x13)], Ok false)]
      /\ last (sent io) = Some (Command (mkCommand HCI_LINK_KEY_REQUEST_REPLY (address_le peer_a ++ replicate 16 3)))
  | _ => False
  end.
Proof. vm_compute. done. Qed.
