(* ===== verification/System.v ===== *)
(** * The whole stack ([src/src/usb.rs], [src/src/session.rs])

    The USB link keeps the laws a session relies on, [usb::open] on a machine
    whose devices come from the USB library, and sessions opened on it. *)
From S2P Require Import Prelude Hci L2cap Ertm Classic ClassicProps Hidp Values Sdp SdpPdu SdpService Host HostProps.
From S2P Require Import Csr Identity Usb Api HidService Session SessionProps.

(** ** The USB link *)

(** Transfers fill their buffer with bytes. *)
Class UsbIoBytes (B : Type) `{UsbIo B} : Prop := {
  interrupt_bytes endpoint size timeout (b : B) n data : (read_interrupt endpoint size timeout b).1 = Ok (n, data) -> bytes data;
  bulk_bytes endpoint size timeout (b : B) n data : (read_bulk endpoint size timeout b).1 = Ok (n, data) -> bytes data
}.

Lemma from_bytes_packet l p : bytes l -> Packet_from_bytes l = Ok p -> packet_bytes p.
Proof. intros Hl Hp. apply Packet_from_bytes_inv in Hp as [Hwf _]; [|done]. destruct p; apply Hwf. Qed.

Lemma frame_loop_bytes ty fuel : ty = EVENT_PACKET_TYPE \/ ty = ACL_PACKET_TYPE -> forall acc b, bytes b -> Forall packet_bytes acc ->
  bytes (frame_loop fuel ty acc b).2 /\ match (frame_loop fuel ty acc b).1 with Ok ps => Forall packet_bytes ps | _ => True end.
Proof.
  intros Hty. assert (u8 ty) as Hu by (destruct Hty; subst; by_compute).
  induction fuel as [|fuel IH]; intros acc b Hb Hacc; cbn [frame_loop]; unfold mbind, stm_bind, get, lift, put, throw, mret, stm_ret;
    (destruct (raw_length ty b) as [[raw|]|e|]; [|by split|by split|by split]);
    (destruct (MAX_HCI_PACKET_SIZE <? raw + 1); [split; [apply bytes_nil|done]|]); (destruct (len b <? raw); [by split|]);
      destruct (Packet_from_bytes _) as [p|e|] eqn:Hp; cbn [map_err];
    try (split; [by apply Forall_drop|done]).
  apply IH; [by apply Forall_drop|]. apply Forall_app. split; [done|]. constructor; [|done].
  eapply from_bytes_packet, Hp. apply bytes_cons. split; [done|by apply Forall_take].
Qed.

Section usb_laws.
Context {B : Type} `{UsbIo B} `{!UsbIoBytes B}.

Definition transport_bytes (t : UsbTransport B) : Prop :=
  bytes (event_bytes t) /\ bytes (acl_bytes t) /\ Forall packet_bytes (pending_packets t).

Definition reader_bytes (e : ReaderEvent) : Prop := match e with ReaderPacket p => packet_bytes p | _ => True end.

Definition opened_bytes (o : OpenedUsb B) : Prop := transport_bytes (ou_transport o) /\ Forall reader_bytes (ou_channel o).

Lemma extend_bytes ev data t : bytes data -> transport_bytes t -> transport_bytes (extend_stream ev data t).2.
Proof.
  intros Hd (He & Ha & Hp). unfold extend_stream, frame_packets.
  assert (bytes ((if ev then event_bytes t else acl_bytes t) ++ data)) as Hb by (apply bytes_app; by destruct ev).
  set (buffered := (if ev then event_bytes t else acl_bytes t) ++ data) in *.
  destruct (frame_loop_bytes (if ev then EVENT_PACKET_TYPE else ACL_PACKET_TYPE) (length buffered) ltac:(destruct ev; auto) [] buffered Hb)
    as [Hrest Hps]; [done|]. destruct (frame_loop _ _ _ buffered) as [r rest]. cbn [fst snd] in *.
  assert (transport_bytes (if ev then set_event_bytes rest t else set_acl_bytes rest t)) as Ht by (destruct ev; by split_and!).
  destruct r as [ps|e|]; [|done|done]. destruct Ht as (He' & Ha' & Hp'). split_and!; [done|done|]. by apply Forall_app.
Qed.

Lemma pop_bytes t : transport_bytes t -> transport_bytes (pop_pending t).2
  /\ match (pop_pending t).1 with Ok (Some p) => packet_bytes p | _ => True end.
Proof.
  intros Ht. unfold pop_pending. destruct (pending_packets t) as [|p rest] eqn:Hr; [by split|].
  destruct Ht as (He & Ha & Hp). rewrite Hr in Hp. apply Forall_cons in Hp as [Hp Hrest]. by split; [split_and!|].
Qed.

Lemma poll_bytes t : transport_bytes t -> transport_bytes (poll_packet t).2
  /\ match (poll_packet t).1 with Ok (Some p) => packet_bytes p | _ => True end.
Proof.
  intros Ht. unfold poll_packet. destruct (shutdown t); [done|]. destruct (pending_packets t) as [|p rest] eqn:Hr.
  - unfold poll_transfer, on_backend. set (ev := negb (next_endpoint t)).
    change (transport_bytes t) with (transport_bytes (set_next_endpoint ev t)) in Ht. revert Ht. generalize (set_next_endpoint ev t). intros t1 Ht.
    set (read := if ev then _ else _). assert (forall n data, (read (backend t1)).1 = Ok (n, data) -> bytes data) as Hread
      by (intros n data; unfold read; destruct ev; [apply interrupt_bytes|apply bulk_bytes]).
    destruct (read (backend t1)) as [[[n data]|[]|] b]; cbn [fst] in Hread; try done.
    destruct (n =? 0); [done|]. destruct (len data <? n); [done|]. unfold mbind, stm_bind.
    pose proof (extend_bytes ev (take (Z.to_nat n) data) (set_backend b t1) ltac:(apply bytes_take; by eapply Hread) Ht) as Hext.
    destruct (extend_stream _ _ _) as [[[]|e|] t2]; [by apply pop_bytes|done|done].
  - pose proof (pop_bytes t Ht) as Hpop. unfold pop_pending in Hpop. by rewrite Hr in Hpop.
Qed.

Lemma step_bytes o : opened_bytes o -> opened_bytes (worker_step o).
Proof.
  intros [Ht Hc]. unfold worker_step. destruct (ou_worker o); try done. destruct (shutdown (ou_transport o)).
  { split; [done|]. cbn. apply Forall_app. split; [done|by constructor]. }
  destruct (poll_bytes _ Ht) as [Ht' Hp]. destruct (poll_packet (ou_transport o)) as [[[p|]|e|] t]; cbn [fst snd] in *; split; try done; cbn;
    rewrite ?Forall_app; split_and!; try done; by constructor.
Qed.

Lemma send_same_buffers packet (t : UsbTransport B) : transport_bytes t -> transport_bytes (write_packet packet t).2.
Proof.
  intros Ht. unfold write_packet, on_backend. destruct (shutdown t); [done|]. destruct (Packet_to_bytes packet) as [|ty payload]; [done|].
  repeat case_match; simplify_eq; done.
Qed.

Lemma recv_opened_bytes (o : OpenedUsb B) : opened_bytes o -> opened_bytes (opened_recv_timeout o).2
  /\ match (opened_recv_timeout o).1 with inl e => reader_bytes e | inr _ => True end.
Proof.
  intros Ho. unfold opened_recv_timeout. destruct (ou_channel o) as [|e rest] eqn:Hch; [by split|].
  destruct Ho as [Ht Hc]. rewrite Hch in Hc. by apply Forall_cons in Hc as [He Hc].
Qed.

Lemma steps_bytes n o : opened_bytes o -> opened_bytes (Nat.iter n worker_step o).
Proof. intros Ho. induction n; [done|by apply step_bytes]. Qed.

#[global] Program Instance UsbHciIo_laws : HciIoLaws (UsbHciIo B) := { io_ok u := opened_bytes (opened u) }.
Next Obligation.
  intros packet io [Ht Hc]. cbn. unfold opened_send. pose proof (send_same_buffers packet _ Ht) as Ht'.
  by destruct (write_packet packet _).
Qed.
Next Obligation.
  intros timeout io Hio. cbn. destruct (recv_opened_bytes _ (steps_bytes (hd 0%nat (schedule io)) _ Hio)) as [Ho _].
  by destruct (opened_recv_timeout _).
Qed.
Next Obligation.
  intros timeout io packet io' Hio. cbn. destruct (recv_opened_bytes _ (steps_bytes (hd 0%nat (schedule io)) _ Hio)) as [_ He].
  destruct (opened_recv_timeout _) as [[[]|[]] o]; try done. by intros [= -> _].
Qed.
End usb_laws.

(** ** The machine *)

(** The USB library's reads fill their buffer with bytes. *)
Class RusbBytes (D Hd : Type) `{Rusb D Hd} : Prop := {
  handle_interrupt_bytes endpoint size timeout (h : Hd) n data :
    (handle_read_interrupt endpoint size timeout h).1 = Ok (n, data) -> bytes data;
  handle_bulk_bytes endpoint size timeout (h : Hd) n data :
    (handle_read_bulk endpoint size timeout h).1 = Ok (n, data) -> bytes data
}.

Section machine.
Context {D Hd : Type} `{Rusb D Hd}.

#[global] Instance RusbIo_bytes `{!RusbBytes D Hd} : UsbIoBytes Hd.
Proof.
  split; intros endpoint size timeout h n data; cbn; unfold with_transfer_error.
  - pose proof (handle_interrupt_bytes endpoint size timeout h n data) as Hb. destruct (handle_read_interrupt endpoint size timeout h) as
    [[[]|e|] h'];
      cbn [map_err fst] in *; try done. intros [= -> ->]. by apply Hb.
  - pose proof (handle_bulk_bytes endpoint size timeout h n data) as Hb. destruct (handle_read_bulk endpoint size timeout h) as [[[]|e|] h'];
      cbn [map_err fst] in *; try done. intros [= -> ->]. by apply Hb.
Qed.

(** The [open] of [usb.rs] on what an enumeration of the bus gives; [rounds] is
    how the new reader thread is scheduled. *)
Definition usb_open_link (devices : res RusbError (list D)) (rounds : list nat) (selector : UsbSelector) : res UsbError (UsbHciIo Hd) :=
  transport ← open_transport devices selector;
  Ok (mkUsbHciIo (spawn transport) rounds).

(** A machine: what its bus gives at each enumeration, how the reader thread of
    each link is scheduled, how late a sleep wakes, the number of enumerations
    so far, and the time. *)
Record Machine : Type := mkMachine {
  bus : nat -> res RusbError (list D);
  threads : nat -> list nat;
  lateness : nat -> nat;
  opens : nat;
  time : Z
}.

#[global] Instance machine_env : UsbEnv Machine (UsbHciIo Hd) := {
  usb_open selector := fun m =>
    (usb_open_link (bus m (opens m)) (threads m (opens m)) selector,
     mkMachine (bus m) (threads m) (lateness m) (S (opens m)) (time m));
  env_now := time;
  env_sleep d m := mkMachine (bus m) (threads m) (lateness m) (opens m) (time m + d + Z.of_nat (lateness m (opens m)))
}.

Context `{!RusbBytes D Hd}.

(** A link just opened has read nothing. *)
Lemma opened_link_ok devices rounds selector u : usb_open_link devices rounds selector = Ok u -> io_ok u.
Proof.
  intros Hu. apply bind_ok in Hu as (t & _ & Hu). injection Hu as <-. cbn. split; [|constructor]. cbn. split_and!; constructor.
Qed.
End machine.
Arguments Machine D : clear implicits.

Section opening.
Context {D Hd W S : Type} `{Rusb D Hd} `{!RusbBytes D Hd} `{Clock W} `{BondStore S} `{Profile}.

(** C8. A session opened on a machine is sound: whatever devices the bus has,
    however the reader threads run, whatever the controller answers and
    whatever bytes the transfers give, a session that [Session::open] returns
    keeps the session's invariant through any calls; and when an identity was
    asked for, the controller has that address. *)
Theorem opened_session_sound fuel options (store : S) (clock : W) (m m' : Machine D) (b : BackendSession (UsbHciIo Hd) W S) cs :
  Session_open fuel options store clock m = (Ok b, m') ->
  let b' := run_session_calls fuel cs b in
  host_ok (host b') /\ (length (pending_events b') <= EVENT_QUEUE_CAPACITY)%nat /\ (closed b' = true -> closed_shape b')
  /\ (closed b' = false -> exists io', sess_io b' = Some io' /\ io_ok io')
  /\ (forall a, local_identity options = Explicit a -> local_address (sess_capabilities b) = a).
Proof.
  intros Hopen. unfold Session_open in Hopen. apply stm_bind_ok in Hopen as (selector & m1 & _ & Hopen).
  apply stm_bind_ok in Hopen as (prepared & m2 & _ & Hopen). apply stm_bind_ok in Hopen as (u & m3 & Hu & Hopen).
  apply stm_bind_ok in Hopen as (driver & m4 & Hinit & Hopen).
  destruct (usb_open_link (bus m2 (opens m2)) (threads m2 (opens m2)) selector) as [u'|e|] eqn:Hlink; cbn in Hu; rewrite Hlink in Hu; try done.
  injection Hu as -> _. apply opened_link_ok in Hlink. 
  unfold lift in Hinit. injection Hinit as Hinit _. pose proof (initialize_ok fuel _ store clock u driver Hlink Hinit) as Hok.
  assert (driver = b /\ forall a, local_identity options = Explicit a -> local_address (sess_capabilities b) = a) as [-> Haddress].
  { destruct (local_identity options) as [|expected]; [by injection Hopen as -> _|]. case_bool_decide; [|done].
    injection Hopen as -> _. split; [done|]. by intros a [= <-]. }
  destruct (calls_ok fuel cs b Hok) as (Hh & Hl & Hc & Hio). by split_and!.
Qed.
End opening.
