(* ===== verification/SystemRun.v ===== *)
(** * Sessions on a bus ([src/src/usb.rs], [src/src/session.rs])

    A scripted dongle and sessions opened on it through the whole stack: USB
    selection, the reader thread, the preparation of an identity, the
    initialization of the controller, pairing and a report. *)
From S2P Require Import Prelude Hci L2cap Ertm Classic ClassicProps Hidp Values Sdp SdpPdu SdpService Host HostProps.
From S2P Require Import Csr Identity Usb Api HidService Session SessionProps SessionInit SessionRun System.

#[local] Instance debug_build : Profile := true.

(** ** A dongle *)

(** The transfers a dongle will give at its interrupt and bulk endpoints, and
    the bytes it was sent. *)
Record Dongle : Type := mkDongle { interrupt_script : list (list Z); bulk_script : list (list Z); written : list (list Z) }.

(** A transfer in a buffer of [size] bytes; each number is cut to a byte. *)
Definition filled (size : nat) (transfer : list Z) : Z * list Z :=
  let data := take size ((fun x => x mod 256) <$> transfer) in
  (len data, data ++ replicate (size - length data) 0).

#[global] Instance dongle_rusb : Rusb Dongle Dongle := {
  device_descriptor _ := Ok (mkDescriptor 0x0A12 0x0001 0xE0 1 1 1);
  config_descriptor _ _ := Ok (mkConfigDescriptor 1 [[mkSetting 0 0 0xE0 1 1
    [mkEndpoint 0x81 DirIn TtInterrupt; mkEndpoint 0x82 DirIn TtBulk; mkEndpoint 0x02 DirOut TtBulk]]]);
  bus_number _ := 1;
  device_address _ := 4;
  port_numbers _ := Ok [2];
  open_device d := Ok d;
  read_serial_number_string_ascii _ _ := Err RusbNotSupported;
  set_auto_detach_kernel_driver _ d := (Err RusbNotSupported, d);
  active_configuration _ := Ok 1;
  set_active_configuration _ d := (Ok tt, d);
  claim_interface _ d := (Ok tt, d);
  set_alternate_setting _ _ d := (Ok tt, d);
  handle_read_interrupt _ size _ d :=
    match interrupt_script d with
    | [] => (Err RusbTimeout, d)
    | t :: rest => (Ok (filled size t), mkDongle rest (bulk_script d) (written d))
    end;
  handle_read_bulk _ size _ d :=
    match bulk_script d with
    | [] => (Err RusbTimeout, d)
    | t :: rest => (Ok (filled size t), mkDongle (interrupt_script d) rest (written d))
    end;
  handle_write_control _ _ _ _ data _ d := (Ok (len data), mkDongle (interrupt_script d) (bulk_script d) (written d ++ [data]));
  handle_write_bulk _ data _ d := (Ok (len data), mkDongle (interrupt_script d) (bulk_script d) (written d ++ [data]));
  rusb_error_text _ := ""
}.

Lemma filled_bytes size transfer n data : filled size transfer = (n, data) -> bytes data.
Proof.
  intros [= _ <-]. apply bytes_app. split; [|apply Forall_replicate; by_compute].
  apply bytes_take, Forall_fmap, Forall_true. intros x. cbn. apply Z.mod_pos_bound. lia.
Qed.

#[global] Instance dongle_bytes : RusbBytes Dongle Dongle.
Proof.
  split; intros endpoint size timeout h n data; cbn; case_match; try done; intros [= Hn Hd]; 
  (eapply filled_bytes; unfold filled; by rewrite Hn, Hd).
Qed.

(** Packets of one endpoint in transfers of [k] bytes, packet by packet. *)
Fixpoint cut_transfers (fuel k : nat) (l : list Z) : list (list Z) :=
  match fuel, l with
  | S fuel, _ :: _ => take k l :: cut_transfers fuel k (drop k l)
  | _, _ => []
  end.

Definition transfers (k : nat) (ps : list Packet) : list (list Z) :=
  concat ((fun p => let l := tail (Packet_to_bytes p) in cut_transfers (length l) k l) <$> ps).

Definition is_acl (p : Packet) : bool := match p with Acl _ => true | _ => false end.

(** Events come in transfers of 16 bytes; data in transfers of 64, after
    [quiet] reads that give no byte. *)
Definition dongle (quiet : nat) (ps : list Packet) : Dongle :=
  mkDongle (transfers 16 (List.filter (fun p => negb (is_acl p)) ps))
    (replicate quiet [] ++ transfers 64 (List.filter is_acl ps)) [].

(** ** An identity written, and the session after it *)

Definition answers : list Packet :=
  [complete HCI_READ_LOCAL_VERSION_INFORMATION (version_bytes csr_version)].

Definition old_address : list Z := [0x7D; 0x9F; 0xF9; 0xDC; 0x1B; 0x00].

Definition write_acknowledged : Packet :=
  let plan := build_csr_bd_addr_volatile_rewrite_plan (rev own_address) 0x4711 in
  Hci.Event (mkEvent EVENT_VENDOR (controller_response 0 (written_value plan) (plan_write plan))).

(** What each enumeration finds: the dongle with its old address, nothing
    twice while it restarts, then the dongle with the new one. *)
Definition restarting_bus (later : list Packet) (n : nat) : res RusbError (list Dongle) :=
  match n with
  | 0%nat => Ok [dongle 0 (answers ++ [complete HCI_READ_BD_ADDR old_address; write_acknowledged])]
  | 1%nat => Ok []
  | 2%nat => Err RusbNoDevice
  | 3%nat => Ok [dongle 0 (answers ++ [complete HCI_READ_BD_ADDR own_address])]
  | _ => Ok [dongle 150 (init_inbox ++ later)]
  end.

(** The reader thread makes twelve rounds before each receive; sleeps wake five
    nanoseconds late. *)
Definition machine (later : list Packet) : Machine Dongle := mkMachine (restarting_bus later) (fun _ => replicate 150 12%nat) (fun _ => 5%nat) 0 0.

Definition explicit_options : OpenOptions :=
  mkOpenOptions [48] sample_session_config (Explicit (mkAddress own_address AKPublic)).

Definition open_on_bus (later : list Packet) : res Stop (BackendSession (UsbHciIo Dongle) (list Z) MemoryBondStore) * Machine Dongle :=
  Session_open 200 explicit_options [] [0] (machine later).

(** What [n] calls of [poll] report. *)
Fixpoint polled (n : nat) (b : BackendSession (UsbHciIo Dongle) (list Z) MemoryBondStore) : res Stop (list Api.Event) :=
  match n with
  | O => Ok []
  | S n =>
      let '(r, b) := session_poll 200 1000 b in
      now ← r; rest ← polled n b; Ok (now ++ rest)
  end.

(** The dongle is given the asked address: five enumerations, three polls of
    the bus of 100 ms each. *)
Example identity_written :
  let '(r, m) := open_on_bus [] in
  res_map (fun b => local_address (sess_capabilities b)) r = Ok (mkAddress own_address AKPublic)
  /\ opens m = 5%nat /\ time m = from_millis 300 + 15.
Proof. vm_compute. repeat split. Qed.

(** On it, a peer pairs, opens the HID channels and is heard. *)
Example served_over_usb :
  (b ← (open_on_bus pairing_inbox).1; polled 10 (start_pairing b).2)
  = Ok [EvConnected peer_a; EvChannelOpened Control; EvChannelOpened Interrupt; EvHidOutput Interrupt [1; 2; 3]].
Proof. vm_compute. reflexivity. Qed.

(** A dongle that comes back with its old address is refused: the preparation
    reads it back. *)
Example old_address_refused :
  (Session_open (D := MemoryBondStore) (W := list Z) 200 explicit_options [] [0]
    (mkMachine (fun n => match n with 3%nat => Ok [dongle 0 (answers ++ [complete HCI_READ_BD_ADDR old_address])] | _ => restarting_bus [] n end)
       (fun _ => replicate 150 12%nat) (fun _ => 0%nat) 0 0)).1
  = Err (Raised (Error_with_source AdapterIdentityRecoveryRequired (FromIdentity (recovery_without_source StageReadback)))).
Proof. vm_compute. reflexivity. Qed.

Lemma ok_run {S E A} (p : res E A * S) : match p.1 with Ok _ => true | _ => false end = true -> exists a s, p = (Ok a, s).
Proof. destruct p as [[a|e|] s]; [by exists a, s|done|done]. Qed.

Lemma opened_on_bus : exists b m', Session_open (D := MemoryBondStore) (W := list Z) 200 explicit_options [] [0] (machine pairing_inbox) = (Ok b, m').
Proof. apply ok_run. vm_compute. reflexivity. Qed.

Lemma opened_session_sound_witness : exists b : BackendSession (UsbHciIo Dongle) (list Z) MemoryBondStore,
  host_ok (host (run_session_calls 200 [CallStartPairing; CallPoll 1000; CallClose] b))
  /\ local_address (sess_capabilities b) = mkAddress own_address AKPublic.
Proof.
  destruct opened_on_bus as (b & m' & Hb). exists b.
  destruct (opened_session_sound 200 explicit_options [] [0] (machine pairing_inbox) m' b
    [CallStartPairing; CallPoll 1000; CallClose] Hb) as (Hh & _ & _ & _ & Ha).
  split; [exact Hh|]. apply Ha. reflexivity.
Defined.
